(** * WarpTrace anomaly engine

    A shallow embedding of [backend/anomaly.py]: the coercions of the
    normaliser, the eight detection passes, [_freeze] and the
    de-duplication loop of [detect_anomalies], followed by the properties
    of the engine that the specification states.

    Conventions.
    - Python values that an event field may hold are [atom]s; finding
      metadata is a [pyval] (atoms, floats, lists, tuples, dicts).
    - Python floats are IEEE binary64 numbers: [spec_float] with
      precision 53 and maximal exponent 1024.
    - A call that may raise returns a [result]; [try ... except Exception]
      is [try_except].
    - Calls into the Python runtime whose behaviour is not part of this
      repository ([str.strip], [datetime.fromisoformat], [urlparse],
      [re.search], ...) are the fields of the class [PyRuntime]; every
      statement below holds for every such runtime. *)

From Stdlib Require Import ZArith Lia List Bool Ascii String DecimalString.
From Stdlib Require Import Permutation Sorted.
From Stdlib Require Import Floats.SpecFloat Floats.PrimFloat Floats.FloatOps.
From stdpp Require Import base option gmap strings list.

#[local] Set Warnings "-inexact-float,-register-all".
#[local] Open Scope Z_scope.

(* ===================================================================== *)
(** * Exceptions *)
(* ===================================================================== *)

Inductive exn : Set :=
| TypeError | ValueError | AttributeError | IndexError | KeyError.

Inductive result (A : Type) : Type :=
| Ok (a : A)
| Raise (e : exn).
Arguments Ok {A} a.
Arguments Raise {A} e.

#[global] Instance result_ret : MRet result := fun A a => Ok a.
#[global] Instance result_bind : MBind result := fun A B k r =>
  match r with
  | Ok a => k a
  | Raise e => Raise e
  end.

#[global] Instance result_fmap : FMap result := fun A B f r =>
  match r with
  | Ok a => Ok (f a)
  | Raise e => Raise e
  end.

(** [try: return r  except Exception: return h] *)
Definition try_except {A} (r : result A) (h : A) : A :=
  match r with
  | Ok a => a
  | Raise _ => h
  end.

(* ===================================================================== *)
(** * Floats (binary64) *)
(* ===================================================================== *)

Definition f64_add : spec_float -> spec_float -> spec_float := SFadd 53 1024.
Definition f64_mul : spec_float -> spec_float -> spec_float := SFmul 53 1024.
Definition f64_div : spec_float -> spec_float -> spec_float := SFdiv 53 1024.

(** The float nearest to an integer; exact below 2^53, where it agrees
    with the operand conversion of Python's [int / int]. *)
Definition f64_of_Z (z : Z) : spec_float := binary_normalize 53 1024 z 0 false.

(** [max(a, b)] and [min(a, b)] of two arguments: the second replaces the
    first only when the comparison [b > a] (resp. [b < a]) is true, so a
    NaN second argument is never selected. *)
Definition py_max (a b : spec_float) : spec_float := if SFltb a b then b else a.
Definition py_min (a b : spec_float) : spec_float := if SFltb b a then b else a.

Definition f_0_0  : spec_float := Eval vm_compute in Prim2SF 0.0%float.
Definition f_1_0  : spec_float := Eval vm_compute in Prim2SF 1.0%float.
Definition f_0_15 : spec_float := Eval vm_compute in Prim2SF 0.15%float.
Definition f_0_55 : spec_float := Eval vm_compute in Prim2SF 0.55%float.
Definition f_0_58 : spec_float := Eval vm_compute in Prim2SF 0.58%float.
Definition f_0_62 : spec_float := Eval vm_compute in Prim2SF 0.62%float.
Definition f_0_65 : spec_float := Eval vm_compute in Prim2SF 0.65%float.
Definition f_0_75 : spec_float := Eval vm_compute in Prim2SF 0.75%float.
Definition f_0_8  : spec_float := Eval vm_compute in Prim2SF 0.8%float.
Definition f_0_82 : spec_float := Eval vm_compute in Prim2SF 0.82%float.
Definition f_0_85 : spec_float := Eval vm_compute in Prim2SF 0.85%float.
Definition f_0_88 : spec_float := Eval vm_compute in Prim2SF 0.88%float.
Definition f_0_9  : spec_float := Eval vm_compute in Prim2SF 0.9%float.
Definition f_0_95 : spec_float := Eval vm_compute in Prim2SF 0.95%float.
Definition f_0_96 : spec_float := Eval vm_compute in Prim2SF 0.96%float.

(** A score lies in the closed interval [0, 1]. *)
Definition in_unit_interval (x : spec_float) : Prop :=
  SFleb f_0_0 x = true /\ SFleb x f_1_0 = true.

(* ===================================================================== *)
(** * Datetimes *)
(* ===================================================================== *)

(** A [datetime.datetime]: the wall-clock reading in microseconds since
    0001-01-01T00:00:00, and the UTC offset in microseconds of an aware
    value ([None] for a naive one). *)
Record datetime : Set := mk_datetime {
  dt_wall : Z;
  dt_off  : option Z
}.

#[global] Instance datetime_eq_dec : EqDecision datetime.
Proof. solve_decision. Defined.

Definition us_per_second : Z := 1000000.
Definition us_per_minute : Z := 60 * us_per_second.
Definition us_per_hour   : Z := 60 * us_per_minute.

Definition dt_aware (d : datetime) : bool :=
  match dt_off d with Some _ => true | None => false end.

(** The point on the time line that orders and subtracts datetimes of the
    same awareness: the UTC instant of an aware value, the wall-clock
    reading of a naive one. *)
Definition dt_instant (d : datetime) : Z :=
  dt_wall d - default 0 (dt_off d).

Definition dt_minute (d : datetime) : Z := (dt_wall d / us_per_minute) mod 60.
Definition dt_hour   (d : datetime) : Z := (dt_wall d / us_per_hour) mod 24.

(** [d.replace(second=0, microsecond=0)] *)
Definition dt_replace_sec0 (d : datetime) : datetime :=
  mk_datetime (dt_wall d - dt_wall d mod us_per_minute) (dt_off d).

(** [d - timedelta(minutes=m)] *)
Definition dt_minus_minutes (d : datetime) (m : Z) : datetime :=
  mk_datetime (dt_wall d - m * us_per_minute) (dt_off d).

(** [a < b]: defined between datetimes of the same awareness only. *)
Definition dt_lt (a b : datetime) : result bool :=
  if bool_decide (dt_aware a = dt_aware b)
  then Ok (dt_instant a <? dt_instant b)
  else Raise TypeError.

(** [a == b]: never raises; a naive and an aware value are unequal. *)
Definition dt_eqb (a b : datetime) : bool :=
  bool_decide (dt_aware a = dt_aware b) && (dt_instant a =? dt_instant b).

(** [(a - b).total_seconds() > secs] for datetimes of one awareness.  The
    timedelta is an exact count of microseconds and its conversion to
    seconds is monotone and exact at whole seconds, so the comparison is
    the comparison of the microsecond counts. *)
Definition dt_gap_exceeds (a b : datetime) (secs : Z) : bool :=
  secs * us_per_second <? dt_instant a - dt_instant b.

(* ===================================================================== *)
(** * Values *)
(* ===================================================================== *)

(** What an event field may hold. *)
Inductive atom : Set :=
| ANone
| ABool (b : bool)
| AInt (z : Z)
| AStr (s : string)
| ADatetime (d : datetime).

#[global] Instance atom_eq_dec : EqDecision atom.
Proof. solve_decision. Defined.

(** Truth value of an object ([if x], [x or y], [not x]). *)
Definition truthy (x : atom) : bool :=
  match x with
  | ANone => false
  | ABool b => b
  | AInt z => negb (z =? 0)
  | AStr s => negb (String.eqb s "")
  | ADatetime _ => true
  end.

Definition is_none (x : atom) : bool :=
  match x with ANone => true | _ => false end.

(** [x == y] on atoms: [True == 1], [False == 0]. *)
Definition atom_num (x : atom) : option Z :=
  match x with
  | ABool b => Some (if b then 1 else 0)
  | AInt z => Some z
  | _ => None
  end.

Definition atom_eqb (x y : atom) : bool :=
  match atom_num x, atom_num y with
  | Some a, Some b => a =? b
  | _, _ =>
    match x, y with
    | ANone, ANone => true
    | AStr s, AStr t => String.eqb s t
    | ADatetime d, ADatetime e => dt_eqb d e
    | _, _ => false
    end
  end.

(** Values of finding metadata. *)
Inductive pyval : Type :=
| VAtom (a : atom)
| VFloat (f : spec_float)
| VList (l : list pyval)
| VTuple (l : list pyval)
| VDict (kvs : list (string * pyval)).

Definition VInt (z : Z) : pyval := VAtom (AInt z).
Definition VStr (s : string) : pyval := VAtom (AStr s).

(** [dict.get(k)] on an insertion-ordered dict with string keys. *)
Fixpoint dict_get (k : string) (d : list (string * pyval)) : option pyval :=
  match d with
  | [] => None
  | (k', v) :: d' => if String.eqb k k' then Some v else dict_get k d'
  end.

(** An integer equals a float when the float is that integer exactly. *)
Definition Z_eq_float (z : Z) (f : spec_float) : bool :=
  match f with
  | S754_zero _ => z =? 0
  | S754_finite s m e =>
    let sgn := if s then -1 else 1 in
    if 0 <=? e then z =? sgn * Z.pos m * 2 ^ e
    else (Z.pos m mod 2 ^ (- e) =? 0) && (z =? sgn * (Z.pos m / 2 ^ (- e)))
  | _ => false
  end.

(** [x == y].  Two distinct NaN objects are unequal; no container built by
    this module holds the same float object twice, so the identity
    shortcut of container comparison never applies to a NaN. *)
Fixpoint py_eq (x y : pyval) {struct x} : bool :=
  match x, y with
  | VAtom a, VAtom b => atom_eqb a b
  | VAtom a, VFloat f =>
    match atom_num a with Some z => Z_eq_float z f | None => false end
  | VFloat f, VAtom a =>
    match atom_num a with Some z => Z_eq_float z f | None => false end
  | VFloat f, VFloat g => SFeqb f g
  | VList l, VList l' =>
    (fix go (l l' : list pyval) : bool :=
       match l, l' with
       | [], [] => true
       | a :: l, b :: l' => py_eq a b && go l l'
       | _, _ => false
       end) l l'
  | VTuple l, VTuple l' =>
    (fix go (l l' : list pyval) : bool :=
       match l, l' with
       | [], [] => true
       | a :: l, b :: l' => py_eq a b && go l l'
       | _, _ => false
       end) l l'
  | VDict d, VDict d' =>
    (length d =? length d')%nat &&
    (fix go (d : list (string * pyval)) : bool :=
       match d with
       | [] => true
       | (k, v) :: d =>
         match dict_get k d' with
         | Some v' => py_eq v v' && go d
         | None => false
         end
       end) d
  | _, _ => false
  end.

(* ===================================================================== *)
(** * Strings *)
(* ===================================================================== *)

(** [needle in hay] *)
Fixpoint str_in (needle hay : string) {struct hay} : bool :=
  String.prefix needle hay ||
  match hay with
  | EmptyString => false
  | String _ hay' => str_in needle hay'
  end.

Fixpoint str_drop (n : nat) (s : string) : string :=
  match n, s with
  | O, _ => s
  | S n', String _ s' => str_drop n' s'
  | S _, EmptyString => EmptyString
  end.

(** [s.split(sep, 1)[1]]: what follows the first occurrence of [sep]. *)
Fixpoint str_after (sep s : string) {struct s} : result string :=
  if String.prefix sep s then Ok (str_drop (String.length sep) s)
  else match s with
       | EmptyString => Raise IndexError
       | String _ s' => str_after sep s'
       end.

(** [s.strip(chars)] *)
Fixpoint lstrip_chars (chars : list ascii) (s : list ascii) : list ascii :=
  match s with
  | [] => []
  | c :: s' => if bool_decide (c ∈ chars) then lstrip_chars chars s' else s
  end.

Definition str_strip_chars (chars s : string) : string :=
  let cs := list_ascii_of_string chars in
  string_of_list_ascii
    (rev (lstrip_chars cs (rev (lstrip_chars cs (list_ascii_of_string s))))).

(** [s.endswith(("Z", "z"))] and [s[:-1]] *)
Definition str_endswith_Zz (s : string) : bool :=
  match rev (list_ascii_of_string s) with
  | c :: _ => bool_decide (c = "Z"%char) || bool_decide (c = "z"%char)
  | [] => false
  end.

Definition str_drop_last (s : string) : string :=
  string_of_list_ascii (removelast (list_ascii_of_string s)).

(** [sep.join(parts)] *)
Definition str_join (sep : string) (parts : list string) : string :=
  String.concat sep parts.

(** [str(z)] for an [int]. *)
Definition str_of_Z (z : Z) : string := NilZero.string_of_int (Z.to_int z).

(** [s or alt] on strings. *)
Definition str_or (s alt : string) : string :=
  if String.eqb s "" then alt else s.

(* ===================================================================== *)
(** * The Python runtime *)
(* ===================================================================== *)

(** Library calls whose behaviour the repository takes from CPython.  A
    call that raises returns [Raise]. *)
Class PyRuntime := {
  (** [s.strip()] *)
  str_strip : string -> string;
  (** [s.lower()] *)
  str_lower : string -> string;
  (** [s.split()] *)
  str_split : string -> list string;
  (** [int(s)] on a [str] *)
  int_of_str : string -> result Z;
  (** [float(s)] on a [str] *)
  float_of_str : string -> result spec_float;
  (** [datetime.fromisoformat(s)] *)
  dt_fromisoformat : string -> result datetime;
  (** [datetime.strptime(s, fmt)] *)
  dt_strptime : string -> string -> result datetime;
  (** [d.isoformat(sep)] *)
  dt_isoformat : string -> datetime -> string;
  (** [urlparse(u).hostname] *)
  url_hostname : string -> result (option string);
  (** [re.compile(pattern, re.I).search(text)] finds a match *)
  re_search_i : string -> string -> bool;
  (** [format(x, ".0%")] *)
  fmt_percent0 : spec_float -> string
}.

(* Tunables *)
Definition BRUTE_FORCE_WINDOW_SEC : Z := 120.
Definition BRUTE_FORCE_MIN_FAILS  : nat := 10.
Definition ERROR_RATE_WINDOW_MIN  : Z := 10.
Definition ERROR_RATE_MIN_EVENTS  : nat := 20.
Definition ERROR_RATE_THRESHOLD   : spec_float := f_0_65.
Definition RARE_UA_MIN_COUNT      : nat := 2.
Definition OFF_HOURS_START        : Z := 0.
Definition OFF_HOURS_END          : Z := 5.

(* Keyword recognizers for Auth0-like logs *)
Definition PASSWORD_RESET_RE : string :=
  "(password[\s_-]*(reset|change|changed|update|updated)|reset\s+password|pwd[\s_-]*reset|post-change-password|recovery\s+(email|ticket))".
Definition MFA_RE : string :=
  "\b(mfa|multi[-\s]?factor|guardian|otp|one[-\s]?time|webauthn|duo|push|factor|challenge|enroll|enrollment|recovery\s+code)\b".

(* ===================================================================== *)
(** * Events and findings *)
(* ===================================================================== *)

(** An input event.  [e.get(k)] of an absent key is [None], so a field
    holds what [e.get] returns for its key.  The engine coerces the
    timestamp and the status itself and passes the identifier through,
    so these hold any [atom]; it uses the text fields as strings without
    a check, and they are [Optional[str]], as [models.LogEvent] declares
    them and [app.py] passes them. *)
Record raw_event : Set := mk_raw_event {
  e_ts         : atom;
  e_status     : atom;
  e_src_ip     : option string;
  e_user       : option string;
  e_url        : option string;
  e_action     : option string;
  e_user_agent : option string;
  e_raw        : option string;
  e_event_id   : atom;
  e_id         : atom
}.

(** An entry of [norm]. *)
Record norm_event : Set := mk_norm_event {
  ev_ts         : option datetime;
  ev_status     : option Z;
  ev_src_ip     : string;
  ev_user       : string;
  ev_user_agent : string;
  ev_action     : string;
  ev_url        : string;
  ev_host       : string;
  ev_raw        : string;
  ev_event_id   : atom
}.

Record finding : Type := mk_finding {
  reason : string;
  score  : spec_float;
  kind   : string;
  meta   : list (string * pyval)
}.

(** [a[:n]] *)
Definition slice_to {A} (n : nat) (l : list A) : list A := take n l.

(** The list value of identifiers stored under ["event_ids"]. *)
Definition ids_value (ids : list atom) : pyval := VList (VAtom <$> ids).

(** [[x] if x else []] *)
Definition id_if_truthy (x : atom) : list atom :=
  if truthy x then [x] else [].

(* ===================================================================== *)
(** * Sorting *)
(* ===================================================================== *)

(** [sorted]: a stable sort.  It is written as an insertion sort; any
    stable sort returns the same list, and on keys that cannot all be
    compared with each other every sort meets an incomparable pair, as
    this one does. *)
Section Sorting.
Context {A : Type}.

Section Raising.
Variable lt : A -> A -> result bool.

Fixpoint insert_sorted (x : A) (l : list A) : result (list A) :=
  match l with
  | [] => Ok [x]
  | y :: l' =>
    b ← lt x y;
    if (b : bool) then Ok (x :: y :: l')
    else r ← insert_sorted x l'; Ok (y :: r)
  end.

Fixpoint py_sorted_from (acc : list A) (l : list A) : result (list A) :=
  match l with
  | [] => Ok acc
  | x :: l' => acc' ← insert_sorted x acc; py_sorted_from acc' l'
  end.
End Raising.

Section Total.
Variable ltb : A -> A -> bool.

Fixpoint insert_by (x : A) (l : list A) : list A :=
  match l with
  | [] => [x]
  | y :: l' => if ltb x y then x :: y :: l' else y :: insert_by x l'
  end.

Definition sort_by (l : list A) : list A :=
  foldl (fun acc x => insert_by x acc) [] l.
End Total.
End Sorting.

(** Insertion-ordered dicts ([dict], [defaultdict]) whose order of
    iteration matters: association lists with one entry per key.
    [od_update k f dflt d] is [d[k] = f(d[k])], the entry being created
    from [dflt] when absent. *)
Fixpoint od_update {K V} `{EqDecision K} (k : K) (f : V -> V) (dflt : V)
    (d : list (K * V)) : list (K * V) :=
  match d with
  | [] => [(k, f dflt)]
  | (k', v) :: d' =>
    if decide (k = k') then (k', f v) :: d'
    else (k', v) :: od_update k f dflt d'
  end.

(** [Counter(items)] *)
Definition Counter (items : list string) : gmap string nat :=
  foldl (fun c s => <[s := S (default 0%nat (c !! s))]> c) ∅ items.

(** [c[s]] on a [Counter] *)
Definition counter_get (c : gmap string nat) (s : string) : nat :=
  default 0%nat (c !! s).

(* ===================================================================== *)
(** * The engine *)
(* ===================================================================== *)

Section Engine.
Context {rt : PyRuntime}.

(** [str(x)] *)
Definition py_str (x : atom) : string :=
  match x with
  | ANone => "None"
  | ABool b => if b then "True" else "False"
  | AInt z => str_of_Z z
  | AStr s => s
  | ADatetime d => dt_isoformat " " d
  end.

(** [int(x)] *)
Definition py_int (x : atom) : result Z :=
  match x with
  | ANone => Raise TypeError
  | ABool b => Ok (if b then 1 else 0)
  | AInt z => Ok z
  | AStr s => int_of_str s
  | ADatetime _ => Raise TypeError
  end.

Definition _as_dt (x : atom) : option datetime :=
  match x with
  | ANone => None
  | ADatetime d => Some d
  | _ =>
    let s := str_strip (py_str x) in
    try_except
      (Some <$> (if str_endswith_Zz s
                 then dt_fromisoformat (str_drop_last s +:+ "+00:00")
                 else dt_fromisoformat s))
      (try_except (Some <$> dt_strptime s "%Y-%m-%d %H:%M:%S") None)
  end.

Definition _as_int (x : atom) : option Z :=
  try_except (Some <$> py_int x) None.

Definition _host (url : option string) : string :=
  match url with
  | None => ""
  | Some u =>
    if String.eqb u "" then ""
    else try_except (h ← url_hostname u; Ok (default "" h)) ""
  end.

Definition _bucket_minute (ts : option datetime) : string :=
  match ts with
  | None => "unknown"
  | Some t => dt_isoformat "T" (dt_replace_sec0 t)
  end.

(** [e.get(k) or ""] *)
Definition or_empty (o : option string) : string := default "" o.

(** The body of the normalisation loop: the dict appended to [norm]. *)
Definition normalize (e : raw_event) : norm_event :=
  (* tolerate either "event_id" or "id" coming from the backend *)
  let evid := if is_none (e_event_id e) then e_id e else e_event_id e in
  {| ev_ts := _as_dt (e_ts e);
     ev_status := _as_int (e_status e);
     ev_src_ip := or_empty (e_src_ip e);
     ev_user := or_empty (e_user e);
     ev_user_agent := str_strip (or_empty (e_user_agent e));
     ev_action := str_lower (str_strip (or_empty (e_action e)));
     ev_url := or_empty (e_url e);
     ev_host := _host (e_url e);
     ev_raw := str_lower (or_empty (e_raw e));
     ev_event_id := evid |}.

(** [ev["status"]] as a value. *)
Definition status_atom (ev : norm_event) : atom :=
  match ev_status ev with
  | Some z => AInt z
  | None => ANone
  end.

(** [ev["status"] == z] *)
Definition status_is (ev : norm_event) (z : Z) : bool :=
  bool_decide (ev_status ev = Some z).

(** [Counter(ev["user_agent"] for ev in norm if ev["user_agent"])] *)
Definition ua_counts_of (norm : list norm_event) : gmap string nat :=
  Counter (List.filter (fun ua => negb (String.eqb ua ""))
                       (ev_user_agent <$> norm)).

(** [sorted([ev for ev in norm if ev["ts"] is not None],
            key=lambda x: x["ts"])].
    An entry of the result is paired with its key [ev["ts"]]. *)
Definition ts_lt (a b : datetime * norm_event) : result bool :=
  dt_lt a.1 b.1.

Definition time_sorted_of (norm : list norm_event)
  : result (list (datetime * norm_event)) :=
  py_sorted_from ts_lt []
    (omap (fun ev => (fun t => (t, ev)) <$> ev_ts ev) norm).

(* ------------------------------------------------------------------- *)
(** ** 0) Explicit password reset / MFA activity *)

Definition event_text (ev : norm_event) : string :=
  str_join " "
    (py_str <$> List.filter truthy
       [AStr (ev_action ev); status_atom ev; AStr (ev_url ev);
        AStr (ev_user_agent ev); AStr (ev_raw ev)]).

Definition activity_key : Type := string * string * string.
Definition activity_buckets : Type := list (activity_key * list atom).

(** [if evid is not None: b[k].append(evid) else: b.setdefault(k, [])] *)
Definition bucket_note (k : activity_key) (evid : atom)
    (b : activity_buckets) : activity_buckets :=
  if is_none evid then od_update k (fun ids => ids) [] b
  else od_update k (fun ids => ids ++ [evid]) [] b.

Definition pwd_mfa_step (st : activity_buckets * activity_buckets)
    (ev : norm_event) : activity_buckets * activity_buckets :=
  let '(pwd_buckets, mfa_buckets) := st in
  let text := event_text ev in
  let minute := _bucket_minute (ev_ts ev) in
  let user := str_or (str_strip (ev_user ev)) "<unknown>" in
  let ip := str_or (str_strip (ev_src_ip ev)) "<ip?>" in
  let evid := ev_event_id ev in
  let pwd_buckets :=
    if re_search_i PASSWORD_RESET_RE text
    then bucket_note (minute, user, ip) evid pwd_buckets
    else pwd_buckets in
  let mfa_buckets :=
    if re_search_i MFA_RE text
    then bucket_note (minute, user, ip) evid mfa_buckets
    else mfa_buckets in
  (pwd_buckets, mfa_buckets).

Definition activity_meta (k : activity_key) (ids : list atom)
  : list (string * pyval) :=
  let '(minute, user, ip) := k in
  [("user", VStr user); ("src_ip", VStr ip); ("minute", VStr minute);
   ("event_ids", ids_value (slice_to 50 ids))].

Definition pwd_finding (b : activity_key * list atom) : finding :=
  {| reason := "Password reset/change observed for " +:+ b.1.1.2 +:+ ".";
     score := f_0_65;
     kind := "auth.password_reset";
     meta := activity_meta b.1 b.2 |}.

Definition mfa_finding (b : activity_key * list atom) : finding :=
  {| reason := "MFA activity observed (enroll/challenge/reset) for "
               +:+ b.1.1.2 +:+ ".";
     score := f_0_55;
     kind := "auth.mfa_activity";
     meta := activity_meta b.1 b.2 |}.

(** The findings that the pass appends to [anomalies], in order. *)
Definition _pwd_mfa_activity (norm : list norm_event) : list finding :=
  let '(pwd_buckets, mfa_buckets) := foldl pwd_mfa_step ([], []) norm in
  (pwd_finding <$> pwd_buckets) ++ (mfa_finding <$> mfa_buckets).

(* ------------------------------------------------------------------- *)
(** ** 1) Brute force (many 401s in short window) *)

(** A [deque] of [(ts, id)], oldest first. *)
Definition window : Type := list (datetime * atom).

(** [while q and (t - q[0][0]).total_seconds() > secs: q.popleft()] *)
Fixpoint evict (t : datetime) (secs : Z) (q : window) : window :=
  match q with
  | [] => []
  | (t0, i) :: q' =>
    if dt_gap_exceeds t t0 secs then evict t secs q' else q
  end.

(** [q.append((t, eid))] followed by the eviction loop. *)
Definition win_push (secs : Z) (t : datetime) (eid : atom) (q : window)
  : window :=
  evict t secs (q ++ [(t, eid)]).

(** [[x[1] for x in list(q) if x[1] is not None][:50]] *)
Definition window_ids (q : window) : list atom :=
  slice_to 50 (List.filter (fun i => negb (is_none i)) (snd <$> q)).

Definition bruteforce_user_finding (k_user : string) (q : window)
  : finding :=
  {| reason := "Brute-force suspected against user " +:+ k_user;
     score := f_0_95;
     kind := "auth.bruteforce_user";
     meta := [("window_sec", VInt BRUTE_FORCE_WINDOW_SEC);
              ("failures", VInt (Z.of_nat (length q)));
              ("user", VStr k_user);
              ("event_ids", ids_value (window_ids q))] |}.

Definition bruteforce_pair_finding (k_pair : string * string) (q : window)
  : finding :=
  {| reason := "Brute-force suspected from " +:+ k_pair.2
               +:+ " targeting " +:+ k_pair.1;
     score := f_0_96;
     kind := "auth.bruteforce_pair";
     meta := [("window_sec", VInt BRUTE_FORCE_WINDOW_SEC);
              ("failures", VInt (Z.of_nat (length q)));
              ("user", VStr k_pair.1); ("src_ip", VStr k_pair.2);
              ("event_ids", ids_value (window_ids q))] |}.

Record bf_state : Type := mk_bf_state {
  win_user : gmap string window;
  win_pair : gmap (string * string) window;
  bf_out   : list finding
}.

Definition bf_step (st : bf_state) (tev : datetime * norm_event)
  : bf_state :=
  let '(t, ev) := tev in
  if negb (status_is ev 401) then st
  else
    let eid := ev_event_id ev in
    let k_user := str_or (ev_user ev) "<unknown>" in
    let k_pair := (str_or (ev_user ev) "<unknown>",
                   str_or (ev_src_ip ev) "<ip?>") in
    let qu := win_push BRUTE_FORCE_WINDOW_SEC t eid
                (default [] (win_user st !! k_user)) in
    let qp := win_push BRUTE_FORCE_WINDOW_SEC t eid
                (default [] (win_pair st !! k_pair)) in
    let '(qu, out) :=
      if (BRUTE_FORCE_MIN_FAILS <=? length qu)%nat
      then ([], bf_out st ++ [bruteforce_user_finding k_user qu])
      else (qu, bf_out st) in
    let '(qp, out) :=
      if (BRUTE_FORCE_MIN_FAILS <=? length qp)%nat
      then ([], out ++ [bruteforce_pair_finding k_pair qp])
      else (qp, out) in
    {| win_user := <[k_user := qu]> (win_user st);
       win_pair := <[k_pair := qp]> (win_pair st);
       bf_out := out |}.

Definition _brute_force (time_sorted : list (datetime * norm_event))
  : list finding :=
  bf_out (foldl bf_step (mk_bf_state ∅ ∅ []) time_sorted).

(* ------------------------------------------------------------------- *)
(** ** 2) Auth0 protection blocked *)

Definition blocked_finding (ev : norm_event) : finding :=
  {| reason := "Auth0 protection blocked login (user=" +:+ ev_user ev
               +:+ " ip=" +:+ ev_src_ip ev +:+ ")";
     score := f_0_9;
     kind := "auth.blocked";
     meta := [("status", VAtom (status_atom ev));
              ("event_ids", ids_value (id_if_truthy (ev_event_id ev)))] |}.

Definition _blocked_protection (norm : list norm_event) : list finding :=
  blocked_finding <$>
    List.filter (fun ev => status_is ev 403 &&
                           (str_in "brute-force" (ev_raw ev)
                            || str_in "blocked" (ev_raw ev))) norm.

(* ------------------------------------------------------------------- *)
(** ** 3) High-risk source (risk score / TOR) *)

(** The [try] block of the pass, with its handler [val = 0.9]. *)
Definition risk_value (raw : string) : spec_float :=
  try_except
    (frag ← str_after "risk=" raw;
     tok ← match str_split frag with
           | [] => Raise IndexError
           | tok :: _ => Ok tok
           end;
     float_of_str (str_strip_chars " ;," tok))
    f_0_9.

Definition risk_score (val : spec_float) : spec_float :=
  py_min f_1_0 (py_max f_0_0 (f64_add f_0_85 (f64_mul f_0_15 val))).

Definition high_risk_finding (ev : norm_event) : finding :=
  let val := risk_value (ev_raw ev) in
  {| reason := "High-risk login source (user=" +:+ ev_user ev
               +:+ " ip=" +:+ ev_src_ip ev +:+ ")";
     score := risk_score val;
     kind := "auth.high_risk";
     meta := [("risk", VFloat val);
              ("event_ids", ids_value (id_if_truthy (ev_event_id ev)))] |}.

Definition tor_finding (ev : norm_event) : finding :=
  {| reason := "Login from TOR-like source (user=" +:+ ev_user ev
               +:+ " ip=" +:+ ev_src_ip ev +:+ ")";
     score := f_0_88;
     kind := "auth.tor";
     meta := [("event_ids", ids_value (id_if_truthy (ev_event_id ev)))] |}.

Definition high_risk_of (ev : norm_event) : list finding :=
  let raw := ev_raw ev in
  if str_in "risk=" raw then [high_risk_finding ev]
  else if str_in "tor" raw || str_in "tor_exit" raw then [tor_finding ev]
  else [].

Definition _high_risk_source (norm : list norm_event) : list finding :=
  concat (high_risk_of <$> norm).

(* ------------------------------------------------------------------- *)
(** ** 4) High error rate buckets *)

(** [b = ts.replace(second=0, microsecond=0)]
    [b = b - timedelta(minutes=b.minute % ERROR_RATE_WINDOW_MIN)] *)
Definition error_bucket_start (t : datetime) : datetime :=
  let b := dt_replace_sec0 t in
  dt_minus_minutes b (dt_minute b mod ERROR_RATE_WINDOW_MIN).

(** A key [(kind, who, b)] of [by_bucket].  All timestamps of
    [time_sorted] have one awareness, where two datetimes are equal
    exactly when their instants are; the key holds the instant of [b]. *)
Definition error_key : Type := string * string * Z.
Definition error_buckets : Type := list (error_key * list norm_event).

Definition error_step (by_bucket : error_buckets)
    (tev : datetime * norm_event) : error_buckets :=
  let '(t, ev) := tev in
  let b := dt_instant (error_bucket_start t) in
  let by_bucket :=
    od_update ("user", ev_user ev, b) (fun l => l ++ [ev]) [] by_bucket in
  od_update ("host", ev_host ev, b) (fun l => l ++ [ev]) [] by_bucket.

Definition by_bucket_of (time_sorted : list (datetime * norm_event))
  : error_buckets :=
  foldl error_step [] time_sorted.

(** [x["status"] and 400 <= x["status"] < 600] *)
Definition is_error_status (x : norm_event) : bool :=
  match ev_status x with
  | Some z => negb (z =? 0) && (400 <=? z) && (z <? 600)
  | None => false
  end.

Definition bucket_errors (lst : list norm_event) : nat :=
  length (List.filter is_error_status lst).

(** [errors / max(1, len(lst))] *)
Definition bucket_ratio (lst : list norm_event) : spec_float :=
  f64_div (f64_of_Z (Z.of_nat (bucket_errors lst)))
          (f64_of_Z (Z.max 1 (Z.of_nat (length lst)))).

Definition error_finding (k : error_key) (lst : list norm_event)
  : finding :=
  let '(knd, who, _) := k in
  let errors := bucket_errors lst in
  let ratio := bucket_ratio lst in
  {| reason := "High error rate (" +:+ fmt_percent0 ratio
               +:+ ") in 10-min window for " +:+ who;
     score := if SFleb f_0_8 ratio then f_0_82 else f_0_75;
     kind := "web.error_" +:+ knd;
     meta := [("events", VInt (Z.of_nat (length lst)));
              ("errors", VInt (Z.of_nat errors));
              ("event_ids",
               ids_value (slice_to 50
                 (List.filter truthy (ev_event_id <$> lst))))] |}.

(** The body of the loop over [by_bucket.items()]. *)
Definition error_bucket_findings (b : error_key * list norm_event)
  : list finding :=
  let '(k, lst) := b in
  if (length lst <? ERROR_RATE_MIN_EVENTS)%nat then []
  else if SFleb ERROR_RATE_THRESHOLD (bucket_ratio lst)
       then [error_finding k lst]
       else [].

Definition _high_error_rate (time_sorted : list (datetime * norm_event))
  : list finding :=
  concat (error_bucket_findings <$> by_bucket_of time_sorted).

(* ------------------------------------------------------------------- *)
(** ** 5) Rare UA *)

Definition rare_ua_finding (norm : list norm_event)
    (ua_counts : gmap string nat) (ua : string) : finding :=
  let ids :=
    slice_to 10
      (ev_event_id <$>
         List.filter (fun e => String.eqb (ev_user_agent e) ua
                               && truthy (ev_event_id e)) norm) in
  {| reason := "Rare user-agent observed: '" +:+ ua +:+ "'";
     score := if (counter_get ua_counts ua =? 1)%nat
              then f_0_62 else f_0_58;
     kind := "web.rare_ua";
     meta := [("count", VInt (Z.of_nat (counter_get ua_counts ua)));
              ("event_ids", ids_value ids)] |}.

Definition rare_ua_step (norm : list norm_event)
    (ua_counts : gmap string nat)
    (st : gset string * list finding) (ev : norm_event)
  : gset string * list finding :=
  let '(seen, out) := st in
  let ua := ev_user_agent ev in
  if String.eqb ua "" || bool_decide (ua ∈ seen) then st
  else if (counter_get ua_counts ua <? RARE_UA_MIN_COUNT)%nat
       then (seen ∪ {[ua]}, out ++ [rare_ua_finding norm ua_counts ua])
       else st.

Definition _rare_ua (norm : list norm_event) (ua_counts : gmap string nat)
  : list finding :=
  (foldl (rare_ua_step norm ua_counts) (∅, []) norm).2.

(* ------------------------------------------------------------------- *)
(** ** 6) Off-hours 00:00-05:59 *)

Definition off_hours_step (ids : list atom) (tev : datetime * norm_event)
  : list atom :=
  let '(t, ev) := tev in
  if status_is ev 200
     && (OFF_HOURS_START <=? dt_hour t) && (dt_hour t <=? OFF_HOURS_END)
     && truthy (ev_event_id ev)
  then ids ++ [ev_event_id ev]
  else ids.

Definition off_hours_finding (ids : list atom) : finding :=
  {| reason := "Off-hours successful logins detected";
     score := f_0_55;
     kind := "auth.offhours";
     meta := [("event_ids", ids_value (slice_to 50 ids))] |}.

Definition _off_hours_logins (time_sorted : list (datetime * norm_event))
  : list finding :=
  let ids := foldl off_hours_step [] time_sorted in
  match ids with
  | [] => []
  | _ :: _ => [off_hours_finding ids]
  end.

(* ------------------------------------------------------------------- *)
(** ** 7) Token exchange failures burst (/oauth/token 401) *)

Definition token_finding (host : string) (q : window) : finding :=
  {| reason := "Spike of token-exchange failures at " +:+ host;
     score := f_0_8;
     kind := "auth.token_fail_burst";
     meta := [("window_sec", VInt 300);
              ("failures", VInt (Z.of_nat (length q)));
              ("event_ids", ids_value (window_ids q))] |}.

Definition token_step (st : gmap string window * list finding)
    (tev : datetime * norm_event) : gmap string window * list finding :=
  let '(win, out) := st in
  let '(t, ev) := tev in
  if negb (status_is ev 401) then st
  else if negb (str_in "/oauth/token" (ev_url ev)) then st
  else
    let host := str_or (ev_host ev) "<auth>" in
    let q := win_push 300 t (ev_event_id ev) (default [] (win !! host)) in
    if (15 <=? length q)%nat
    then (<[host := []]> win, out ++ [token_finding host q])
    else (<[host := q]> win, out).

Definition _token_exchange_failures
    (time_sorted : list (datetime * norm_event)) : list finding :=
  (foldl token_step (∅, []) time_sorted).2.

(* ------------------------------------------------------------------- *)
(** ** De-duplication *)

(** Make nested dict/list hashable for de-duplication keys.  The items
    of a dict have pairwise distinct keys, so their order under
    [sorted] is the order of the keys.  (The value universe has no
    [set]; no meta built by the passes holds one.) *)
Fixpoint _freeze (x : pyval) : pyval :=
  match x with
  | VDict d =>
    VTuple
      ((fun kv : string * pyval => VTuple [VStr kv.1; kv.2]) <$>
         sort_by (fun a b : string * pyval => String.ltb a.1 b.1)
           ((fun kv : string * pyval =>
               let '(k, v) := kv in (k, _freeze v)) <$> d))
  | VList l => VTuple (_freeze <$> l)
  | VTuple l => VTuple (_freeze <$> l)
  | _ => x
  end.

(** [(a.get("kind"), a.get("reason"), _freeze(a.get("meta") or {}))] *)
Definition dedupe_key : Type := string * string * pyval.

Definition key_of (a : finding) : dedupe_key :=
  (kind a, reason a, _freeze (VDict (meta a))).

Definition key_eqb (k k' : dedupe_key) : bool :=
  String.eqb k.1.1 k'.1.1 && String.eqb k.1.2 k'.1.2 && py_eq k.2 k'.2.

(** [key in seen] *)
Definition key_in (k : dedupe_key) (seen : list dedupe_key) : bool :=
  existsb (fun s => key_eqb s k) seen.

(** The de-duplication loop; returns [unique]. *)
Fixpoint dedupe_from (seen : list dedupe_key) (anomalies : list finding)
  : list finding :=
  match anomalies with
  | [] => []
  | a :: rest =>
    let key := key_of a in
    if key_in key seen then dedupe_from seen rest
    else a :: dedupe_from (seen ++ [key]) rest
  end.

Definition dedupe (anomalies : list finding) : list finding :=
  dedupe_from [] anomalies.

(* ------------------------------------------------------------------- *)
(** ** [detect_anomalies] *)

(** The list [anomalies] once all passes have run. *)
Definition run_passes (norm : list norm_event)
    (ua_counts : gmap string nat)
    (time_sorted : list (datetime * norm_event)) : list finding :=
  _pwd_mfa_activity norm
  ++ _brute_force time_sorted
  ++ _blocked_protection norm
  ++ _high_risk_source norm
  ++ _high_error_rate time_sorted
  ++ _rare_ua norm ua_counts
  ++ _off_hours_logins time_sorted
  ++ _token_exchange_failures time_sorted.

Definition detect_anomalies (events : list raw_event)
  : result (list finding) :=
  match events with
  | [] => Ok []
  | _ :: _ =>
    let norm := normalize <$> events in
    let ua_counts := ua_counts_of norm in
    time_sorted ← time_sorted_of norm;
    Ok (dedupe (run_passes norm ua_counts time_sorted))
  end.

End Engine.


(* ===================================================================== *)
(** * The caller's heap *)
(* ===================================================================== *)

(** [detect_anomalies] receives a reference to a list object whose items
    are references to dict objects; both belong to the caller.  A call is
    a computation over the heap that holds them. *)
Definition loc : Set := nat.

Inductive obj : Set :=
| ODict (e : raw_event)
| OList (items : list loc).

Abbreviation heap := (gmap loc obj).

Definition St (A : Type) : Type := heap -> result A * heap.

#[global] Instance St_ret : MRet St := fun A a h => (Ok a, h).
#[global] Instance St_bind : MBind St := fun A B k m h =>
  match m h with
  | (Ok a, h') => k a h'
  | (Raise e, h') => (Raise e, h')
  end.

Definition heap_load (l : loc) : St obj := fun h =>
  match h !! l with
  | Some o => (Ok o, h)
  | None => (Raise KeyError, h)
  end.

Definition heap_store (l : loc) (o : obj) : St unit := fun h =>
  (Ok tt, <[l := o]> h).

Definition lift {A} (r : result A) : St A := fun h => (r, h).

(** The items of a list object, as [for e in events] visits them. *)
Definition list_items (l : loc) : St (list loc) :=
  o ← heap_load l;
  match o with
  | OList items => mret items
  | ODict _ => lift (Raise TypeError)
  end.

(** [e.get(k)], for the key [k] that the field [field] stands for. *)
Definition ev_get {X} (field : raw_event -> X) (l : loc) : St X :=
  o ← heap_load l;
  match o with
  | ODict e => mret (field e)
  | OList _ => lift (Raise AttributeError)
  end.

Section Call.
Context {rt : PyRuntime}.

(** The body of the normalisation loop, run on the dict object at [l]. *)
Definition normalize_at (l : loc) : St norm_event :=
  evid ← ev_get e_event_id l;
  evid ← (if is_none evid then ev_get e_id l else mret evid);
  ts ← ev_get e_ts l;
  status ← ev_get e_status l;
  src_ip ← ev_get e_src_ip l;
  user ← ev_get e_user l;
  user_agent ← ev_get e_user_agent l;
  action ← ev_get e_action l;
  url ← ev_get e_url l;
  url' ← ev_get e_url l;
  raw ← ev_get e_raw l;
  mret {| ev_ts := _as_dt ts;
          ev_status := _as_int status;
          ev_src_ip := or_empty src_ip;
          ev_user := or_empty user;
          ev_user_agent := str_strip (or_empty user_agent);
          ev_action := str_lower (str_strip (or_empty action));
          ev_url := or_empty url;
          ev_host := _host url';
          ev_raw := str_lower (or_empty raw);
          ev_event_id := evid |}.

(** A call [detect_anomalies(events)] with [events] the list object at
    [events]. *)
Definition call_detect_anomalies (events : loc) : St (list finding) :=
  items ← list_items events;
  match items with
  | [] => mret []
  | _ :: _ =>
    norm ← mapM normalize_at items;
    time_sorted ← lift (time_sorted_of norm);
    mret (dedupe (run_passes norm (ua_counts_of norm) time_sorted))
  end.

End Call.

(* ===================================================================== *)
(** * A runtime for examples *)
(* ===================================================================== *)

(** A small instance of [PyRuntime] on which the engine can be run.  It
    handles ASCII text, reads short decimal floats and signed decimal
    integers, reads no timestamp from text (the sample events carry
    datetime objects), and looks for one keyword per pattern. *)
Module Sample.

Definition whitespace : string :=
  String " " (String "009" (String "010" (String "011"
    (String "012" (String "013" EmptyString))))).

Definition strip (s : string) : string := str_strip_chars whitespace s.

Definition lower_char (c : ascii) : ascii :=
  let n := nat_of_ascii c in
  if ((65 <=? n) && (n <=? 90))%nat then ascii_of_nat (n + 32) else c.

Fixpoint lower (s : string) : string :=
  match s with
  | EmptyString => EmptyString
  | String c s' => String (lower_char c) (lower s')
  end.

(** Splitting on runs of whitespace: [cur] is the word being read, in
    reverse. *)
Fixpoint split_from (cur : list ascii) (s : list ascii) : list string :=
  let flush := match cur with
               | [] => []
               | _ :: _ => [string_of_list_ascii (rev cur)]
               end in
  match s with
  | [] => flush
  | c :: s' =>
    if bool_decide (c ∈ list_ascii_of_string whitespace)
    then flush ++ split_from [] s'
    else split_from (c :: cur) s'
  end.

Definition split (s : string) : list string :=
  split_from [] (list_ascii_of_string s).

Definition digit_of (c : ascii) : option Z :=
  let n := nat_of_ascii c in
  if ((48 <=? n) && (n <=? 57))%nat then Some (Z.of_nat (n - 48)) else None.

Fixpoint digits_from (acc : Z) (s : list ascii) : option Z :=
  match s with
  | [] => Some acc
  | c :: s' =>
    match digit_of c with
    | Some d => digits_from (10 * acc + d) s'
    | None => None
    end
  end.

(** Signed decimal integers, surrounded by optional whitespace. *)
Definition parse_int (s : string) : result Z :=
  let unsigned (cs : list ascii) : result Z :=
    match cs with
    | [] => Raise ValueError
    | _ :: _ => match digits_from 0 cs with
                | Some z => Ok z
                | None => Raise ValueError
                end
    end in
  match list_ascii_of_string (strip s) with
  | "-"%char :: cs => Z.opp <$> unsigned cs
  | "+"%char :: cs => unsigned cs
  | cs => unsigned cs
  end.

(** The authority of [scheme://host/...], up to the first of [/ : ? #]. *)
Fixpoint until_delim (s : string) : string :=
  match s with
  | EmptyString => EmptyString
  | String c s' =>
    if bool_decide (c ∈ list_ascii_of_string "/:?#") then EmptyString
    else String c (until_delim s')
  end.

Definition hostname (u : string) : result (option string) :=
  match str_after "://" u with
  | Ok rest =>
    let h := lower (until_delim rest) in
    Ok (if String.eqb h "" then None else Some h)
  | Raise _ => Ok None
  end.

Definition keyword_of (pattern : string) : string :=
  if String.eqb pattern PASSWORD_RESET_RE then "reset password"
  else if String.eqb pattern MFA_RE then " mfa "
  else pattern.

Definition search (pattern text : string) : bool :=
  str_in (keyword_of pattern) (lower text).

(** Decimal literals with a value [v / 10^k], [v < 2^53] and [k <= 22],
    where one correctly rounded division gives the nearest float; [nan]
    and [inf]. *)
Fixpoint take_digits (acc : Z) (n : nat) (s : list ascii)
  : Z * nat * list ascii :=
  match s with
  | [] => (acc, n, [])
  | c :: s' =>
    match digit_of c with
    | Some d => take_digits (10 * acc + d) (S n) s'
    | None => (acc, n, s)
    end
  end.

Definition decimal_float (v : Z) (k : nat) : result spec_float :=
  if (v <? 2 ^ 53) && (k <=? 22)%nat
  then Ok (f64_div (f64_of_Z v) (f64_of_Z (10 ^ Z.of_nat k)))
  else Raise ValueError.

Definition parse_unsigned_float (s : list ascii) : result spec_float :=
  let '(v, n1, rest) := take_digits 0 0 s in
  match rest with
  | [] => if (n1 =? 0)%nat then Raise ValueError else decimal_float v 0
  | "."%char :: rest' =>
    let '(v', n2, rest'') := take_digits v 0 rest' in
    match rest'' with
    | [] => if (n1 + n2 =? 0)%nat then Raise ValueError
            else decimal_float v' n2
    | _ :: _ => Raise ValueError
    end
  | _ :: _ => Raise ValueError
  end.

Definition parse_float (s : string) : result spec_float :=
  let t := lower (strip s) in
  if String.eqb t "nan" then Ok S754_nan
  else if String.eqb t "inf" then Ok (S754_infinity false)
  else if String.eqb t "-inf" then Ok (S754_infinity true)
  else match list_ascii_of_string t with
       | "-"%char :: cs => SFopp <$> parse_unsigned_float cs
       | "+"%char :: cs => parse_unsigned_float cs
       | cs => parse_unsigned_float cs
       end.

Definition isoformat (sep : string) (d : datetime) : string :=
  "us" +:+ sep +:+ str_of_Z (dt_wall d) +:+
  match dt_off d with
  | Some off => "+" +:+ str_of_Z off
  | None => ""
  end.

#[export] Instance runtime : PyRuntime := {|
  str_strip := strip;
  str_lower := lower;
  str_split := split;
  int_of_str := parse_int;
  float_of_str := parse_float;
  dt_fromisoformat := fun _ => Raise ValueError;
  dt_strptime := fun _ _ => Raise ValueError;
  dt_isoformat := isoformat;
  url_hostname := hostname;
  re_search_i := search;
  fmt_percent0 := fun _ => "?%"
|}.

End Sample.


(* ===================================================================== *)
(** * Notions used in the statements *)
(* ===================================================================== *)

(** ** De-duplication *)

(** The order of dict items under [sorted]: the order of their keys. *)
Definition item_ltb {V} (x y : string * V) : bool := String.ltb x.1 y.1.
Definition key_lt {V} (x y : string * V) : Prop := item_ltb x y = true.

(** No finding of [l] has the key of a member of [seen] or of a finding
    before it in [l]. *)
Fixpoint distinct_from (seen : list dedupe_key) (l : list finding) : Prop :=
  match l with
  | [] => True
  | a :: l' =>
    key_in (key_of a) seen = false /\ distinct_from (seen ++ [key_of a]) l'
  end.

(** ** Time order *)

(** All timestamps of [l] are aware ([w = true]) or all are naive. *)
Definition same_awareness (w : bool) (l : list (datetime * norm_event))
  : Prop :=
  Forall (fun x => dt_aware x.1 = w) l.

(** [l] continues [acc] in ascending order of timestamp. *)
Fixpoint ascending (acc l : list (datetime * norm_event)) : Prop :=
  match l with
  | [] => True
  | x :: l' =>
    Forall (fun y => dt_aware y.1 = dt_aware x.1
                     /\ dt_instant y.1 <= dt_instant x.1) acc
    /\ ascending (acc ++ [x]) l'
  end.

(** ** Calls *)

(** A computation over the heap that leaves it as it found it. *)
Definition read_only {A} (m : St A) : Prop := forall h, (m h).2 = h.

(** The heap object [items] is a list of the dict objects [es]. *)
Definition holds_batch (h : heap) (events : loc) (es : list raw_event)
  : Prop :=
  exists items, h !! events = Some (OList items)
                /\ Forall2 (fun l e => h !! l = Some (ODict e)) items es.

(** ** Findings *)

(** The present identifiers of a run of events, in order. *)
Definition present_ids {rt : PyRuntime} (es : list raw_event) : list atom :=
  List.filter (fun i => negb (is_none i)) (ev_event_id ∘ normalize <$> es).

(** The passes, and the findings that each of them builds. *)
Inductive pass : Set :=
| P_activity | P_brute_force | P_blocked | P_high_risk
| P_error_rate | P_rare_ua | P_off_hours | P_token.

Inductive built_by {rt : PyRuntime} : pass -> finding -> Prop :=
| built_pwd b : built_by P_activity (pwd_finding b)
| built_mfa b : built_by P_activity (mfa_finding b)
| built_bruteforce_user k q :
    (BRUTE_FORCE_MIN_FAILS <= length q)%nat ->
    built_by P_brute_force (bruteforce_user_finding k q)
| built_bruteforce_pair k q :
    (BRUTE_FORCE_MIN_FAILS <= length q)%nat ->
    built_by P_brute_force (bruteforce_pair_finding k q)
| built_blocked ev : built_by P_blocked (blocked_finding ev)
| built_high_risk ev : built_by P_high_risk (high_risk_finding ev)
| built_tor ev : built_by P_high_risk (tor_finding ev)
| built_error k lst : built_by P_error_rate (error_finding k lst)
| built_rare_ua norm c ua : built_by P_rare_ua (rare_ua_finding norm c ua)
| built_off_hours ids : built_by P_off_hours (off_hours_finding ids)
| built_token host q :
    (15 <= length q)%nat -> built_by P_token (token_finding host q).

Definition finding_shape {rt : PyRuntime} (f : finding) : Prop :=
  exists p, built_by p f.

(** [f]'s kind is [K]. *)
Definition has_kind (K : string) (f : finding) : bool := String.eqb (kind f) K.

(** A score in [0, 1] and, under ["event_ids"], at most 50 identifiers. *)
Definition finding_ok (f : finding) : Prop :=
  in_unit_interval (score f)
  /\ exists ids : list atom,
       dict_get "event_ids" (meta f) = Some (ids_value ids)
       /\ (length ids <= 50)%nat.

(** The pass that builds findings of a kind. *)
Definition pass_of_kind (K : string) : option pass :=
  if String.eqb K "auth.password_reset" then Some P_activity
  else if String.eqb K "auth.mfa_activity" then Some P_activity
  else if String.eqb K "auth.bruteforce_user" then Some P_brute_force
  else if String.eqb K "auth.bruteforce_pair" then Some P_brute_force
  else if String.eqb K "auth.blocked" then Some P_blocked
  else if String.eqb K "auth.high_risk" then Some P_high_risk
  else if String.eqb K "auth.tor" then Some P_high_risk
  else if String.prefix "web.error_" K then Some P_error_rate
  else if String.eqb K "web.rare_ua" then Some P_rare_ua
  else if String.eqb K "auth.offhours" then Some P_off_hours
  else if String.eqb K "auth.token_fail_burst" then Some P_token
  else None.

(** ** Bursts and windows *)

(** [t + timedelta(seconds=n)] *)
Definition dt_plus_seconds (t : datetime) (n : Z) : datetime :=
  mk_datetime (dt_wall t + n * us_per_second) (dt_off t).

(** A batch of failed logins of one user from one address, the [i]-th
    event stamped [i] seconds after [T]. *)
Definition failed_login_burst {rt : PyRuntime} (T : datetime)
    (usr ip : option string) (es : list raw_event) : Prop :=
  forall (i : nat) (e : raw_event), es !! i = Some e ->
    _as_dt (e_ts e) = Some (dt_plus_seconds T (Z.of_nat i))
    /\ _as_int (e_status e) = Some 401
    /\ e_user e = usr /\ e_src_ip e = ip.

(** The window entries [(ts, id)] of a run of events. *)
Definition entries (l : list (datetime * norm_event)) : window :=
  (fun tev => (tev.1, ev_event_id tev.2)) <$> l.

(** No entry of [q] is more than [secs] seconds older than [t]. *)
Definition within (secs : Z) (t : datetime) (q : window) : Prop :=
  Forall (fun e0 => dt_gap_exceeds t e0.1 secs = false) q.

(** Appending the run [l] to the window [q] evicts nothing. *)
Fixpoint calm (secs : Z) (q : window) (l : list (datetime * norm_event))
  : Prop :=
  match l with
  | [] => True
  | tev :: l' =>
    within secs tev.1 (q ++ entries [tev])
    /\ calm secs (q ++ entries [tev]) l'
  end.

(** The windows of the brute-force pass for a user and an address. *)
Definition user_window (st : bf_state) (usr : string) : window :=
  default [] (win_user st !! str_or usr "<unknown>").
Definition pair_window (st : bf_state) (usr ip : string) : window :=
  default [] (win_pair st !! (str_or usr "<unknown>", str_or ip "<ip?>")).

(** A failed login of [usr] from [ip]. *)
Definition failed_login (usr ip : string) (tev : datetime * norm_event)
  : Prop :=
  ev_status tev.2 = Some 401 /\ ev_user tev.2 = usr /\ ev_src_ip tev.2 = ip.

(** The [i]-th timestamp of [l] is [k + i] seconds after [T]. *)
Definition stamped (T : datetime) (k : Z) (l : list (datetime * norm_event))
  : Prop :=
  forall (i : nat) tev, l !! i = Some tev ->
    tev.1 = dt_plus_seconds T (k + Z.of_nat i).

(** The entries of [q] are stamped [T] or later, whole seconds apart. *)
Definition since (T : datetime) (q : window) : Prop :=
  Forall (fun e0 => exists j, 0 <= j /\ e0.1 = dt_plus_seconds T j) q.

(** The time-sorted view of a burst that starts [k] seconds after [T]. *)
Definition burst_view {rt : PyRuntime} (T : datetime) (k : Z)
    (es : list raw_event) : list (datetime * norm_event) :=
  imap (fun i e => (dt_plus_seconds T (k + Z.of_nat i), normalize e)) es.

(** ** User agents *)

(** How many events of [norm] carry the user agent [ua]. *)
Definition ua_occurrences (norm : list norm_event) (ua : string) : nat :=
  length (List.filter (fun ev => String.eqb (ev_user_agent ev) ua) norm).

(** A non-empty user agent that occurs once in [norm]. *)
Definition single_ua (norm : list norm_event) (ua : string) : bool :=
  negb (String.eqb ua "") && (ua_occurrences norm ua =? 1)%nat.

(** The reason of the rare-UA finding of [ua]. *)
Definition rare_ua_reason (ua : string) : string :=
  "Rare user-agent observed: '" +:+ ua +:+ "'".

(** ** Error-rate buckets *)

(** [d.get(k)] on an insertion-ordered dict. *)
Fixpoint od_get {K V} `{EqDecision K} (k : K) (d : list (K * V))
  : option V :=
  match d with
  | [] => None
  | (k', v) :: d' => if decide (k = k') then Some v else od_get k d'
  end.

(** The keys of the two buckets that an event of [time_sorted] joins. *)
Definition error_keys (tev : datetime * norm_event) : list error_key :=
  [("user", ev_user tev.2, dt_instant (error_bucket_start tev.1));
   ("host", ev_host tev.2, dt_instant (error_bucket_start tev.1))].

(** The events of [time_sorted] that join the bucket [k], in order. *)
Definition bucket_events (k : error_key)
    (time_sorted : list (datetime * norm_event)) : list norm_event :=
  snd <$> List.filter (fun tev => bool_decide (k ∈ error_keys tev))
                      time_sorted.

(** ** Token exchanges *)

(** The window of the token pass for a host. *)
Definition token_window (st : gmap string window * list finding)
    (host : string) : window :=
  default [] (st.1 !! str_or host "<auth>").

(** A failed token exchange at [host]. *)
Definition token_failure (host : string) (tev : datetime * norm_event)
  : Prop :=
  ev_status tev.2 = Some 401
  /\ str_in "/oauth/token" (ev_url tev.2) = true
  /\ ev_host tev.2 = host.

(** A batch of failed token exchanges at one URL, the [i]-th event
    stamped [i] seconds after [T]. *)
Definition token_failure_burst {rt : PyRuntime} (T : datetime)
    (url : option string) (es : list raw_event) : Prop :=
  str_in "/oauth/token" (or_empty url) = true
  /\ forall (i : nat) (e : raw_event), es !! i = Some e ->
       _as_dt (e_ts e) = Some (dt_plus_seconds T (Z.of_nat i))
       /\ _as_int (e_status e) = Some 401
       /\ e_url e = url.

(** ** Sample inputs *)

Module Examples.

(** 2024-01-01T00:00:00, in microseconds since 0001-01-01T00:00:00. *)
Definition t_2024 : Z := 738885 * 86400 * 1000000.

Definition bare_event (ts : atom) : raw_event :=
  mk_raw_event ts ANone None None None None None None ANone ANone.

(** [{"ts": datetime(2024, 1, 1)}] and
    [{"ts": datetime(2024, 1, 1, tzinfo=timezone.utc)}] *)
Definition ev_naive : raw_event :=
  bare_event (ADatetime (mk_datetime t_2024 None)).
Definition ev_aware : raw_event :=
  bare_event (ADatetime (mk_datetime t_2024 (Some 0))).

(** Two findings that differ in the order of [event_ids] only. *)
Definition ids_1_2 : finding :=
  mk_finding "Off-hours successful logins detected" f_0_55 "auth.offhours"
    [("event_ids", ids_value [AInt 1; AInt 2])].
Definition ids_2_1 : finding :=
  mk_finding "Off-hours successful logins detected" f_0_55 "auth.offhours"
    [("event_ids", ids_value [AInt 2; AInt 1])].

(** Two findings whose metas hold the same items in another order. *)
Definition meta_ab : finding :=
  mk_finding "r" f_0_9 "auth.blocked"
    [("status", VInt 403); ("event_ids", ids_value [AInt 7])].
Definition meta_ba : finding :=
  mk_finding "r" f_0_9 "auth.blocked"
    [("event_ids", ids_value [AInt 7]); ("status", VInt 403)].

(** A failed login of alice from 10.0.0.1, [i] seconds into 2024. *)
Definition failed_login_at (i : nat) (id : atom) : raw_event :=
  mk_raw_event
    (ADatetime (dt_plus_seconds (mk_datetime t_2024 None) (Z.of_nat i)))
    (AInt 401) (Some "10.0.0.1") (Some "alice")
    (Some "https://auth.warptrace.corp/authorize") (Some "allow")
    (Some "Auth0") (Some "Failed login") id ANone.

(** Twelve failed logins with the identifiers 1 to 12. *)
Definition burst12 : list raw_event :=
  imap (fun i _ => failed_login_at i (AInt (1 + Z.of_nat i)))
       (replicate 12 ()).

(** Ten failed logins without identifier. *)
Definition silent_burst : list raw_event :=
  imap (fun i _ => failed_login_at i ANone) (replicate 10 ()).

(** Three events: one user agent seen once, one seen twice. *)
Definition with_user_agent (ua : string) (id : Z) : raw_event :=
  mk_raw_event ANone (AInt 200) None None None None (Some ua) None
    (AInt id) ANone.

Definition ua_batch : list raw_event :=
  [with_user_agent "curl/8.4" 1; with_user_agent "sqlmap/1.7" 2;
   with_user_agent " curl/8.4 " 3].

(** Twenty requests of bob to one host within ten minutes, the first
    thirteen answered 500, the rest 200. *)
Definition request_at (i : nat) : datetime * norm_event :=
  (dt_plus_seconds (mk_datetime t_2024 None) (Z.of_nat i),
   mk_norm_event
     (Some (dt_plus_seconds (mk_datetime t_2024 None) (Z.of_nat i)))
     (Some (if (i <? 13)%nat then 500 else 200))
     "10.0.0.7" "bob" "Mozilla/5.0" "allow" "https://shop.example/cart"
     "shop.example" "" (AInt (Z.of_nat i))).

Definition error_requests : list (datetime * norm_event) :=
  imap (fun i _ => request_at i) (replicate 20 ()).

Definition bob_bucket : error_key :=
  ("user", "bob", t_2024).

(** Fifteen failed token exchanges without identifier. *)
Definition token_failure_at (i : nat) : raw_event :=
  mk_raw_event
    (ADatetime (dt_plus_seconds (mk_datetime t_2024 None) (Z.of_nat i)))
    (AInt 401) None None (Some "https://auth.warptrace.corp/oauth/token")
    None None None ANone ANone.

Definition silent_token_burst : list raw_event :=
  imap (fun i _ => token_failure_at i) (replicate 15 ()).

(** Successful logins of alice, [secs] seconds after midnight. *)
Definition login_at (secs : Z) (raw : string) (id : atom) : raw_event :=
  mk_raw_event
    (ADatetime (dt_plus_seconds (mk_datetime t_2024 None) secs))
    (AInt 200) (Some "10.0.0.1") (Some "alice")
    (Some "https://auth.warptrace.corp/authorize") (Some "allow")
    (Some "Auth0") (Some raw) id ANone.

End Examples.

(* ===================================================================== *)
(** * Further notions: timestamps, windows and buckets *)
(* ===================================================================== *)

(** ** Awareness of a batch *)

(** Every timestamp that the normaliser reads from the batch is aware
    ([w = true]), or every one is naive ([w = false]). *)
Definition one_awareness {rt : PyRuntime} (w : bool)
    (events : list raw_event) : Prop :=
  Forall (fun e => forall t, _as_dt (e_ts e) = Some t -> dt_aware t = w)
         events.

(** The batch holds a naive and an aware timestamp. *)
Definition mixed_awareness {rt : PyRuntime} (events : list raw_event)
  : Prop :=
  exists e1 e2 t1 t2,
    e1 ∈ events /\ e2 ∈ events
    /\ _as_dt (e_ts e1) = Some t1 /\ _as_dt (e_ts e2) = Some t2
    /\ dt_aware t1 <> dt_aware t2.

(** ** The time-sorted view *)

(** [[ev for ev in norm if ev["ts"] is not None]], each entry paired with
    its timestamp. *)
Definition timestamped (norm : list norm_event)
  : list (datetime * norm_event) :=
  omap (fun ev => (fun t => (t, ev)) <$> ev_ts ev) norm.

(** [x] is not later than [y]. *)
Definition time_le (x y : datetime * norm_event) : Prop :=
  dt_instant x.1 <= dt_instant y.1.

(** The entries of [l] whose timestamp is the instant [k]. *)
Definition at_instant (k : Z) (l : list (datetime * norm_event))
  : list (datetime * norm_event) :=
  List.filter (fun x => dt_instant x.1 =? k) l.

(** ** Runs of failures *)

(** The keys under which the brute-force pass files an event. *)
Definition user_key (ev : norm_event) : string :=
  str_or (ev_user ev) "<unknown>".
Definition pair_key (ev : norm_event) : string * string :=
  (str_or (ev_user ev) "<unknown>", str_or (ev_src_ip ev) "<ip?>").
Definition host_key (ev : norm_event) : string :=
  str_or (ev_host ev) "<auth>".

(** A failed login filed under the user key [k]; under the pair key [k];
    a failed token exchange filed under the host key [k]. *)
Definition user_failure (k : string) (tev : datetime * norm_event) : Prop :=
  ev_status tev.2 = Some 401 /\ user_key tev.2 = k.
Definition pair_failure (k : string * string)
    (tev : datetime * norm_event) : Prop :=
  ev_status tev.2 = Some 401 /\ pair_key tev.2 = k.
Definition host_failure (k : string) (tev : datetime * norm_event) : Prop :=
  ev_status tev.2 = Some 401
  /\ str_in "/oauth/token" (ev_url tev.2) = true
  /\ host_key tev.2 = k.

(** [evs] are [n] entries of [ts], in the order of [ts], no two of them
    more than [secs] seconds apart. *)
Definition close_run (secs : Z) (n : nat)
    (ts evs : list (datetime * norm_event)) : Prop :=
  sublist evs ts
  /\ length evs = n
  /\ forall x y, x ∈ evs -> y ∈ evs ->
       dt_instant x.1 - dt_instant y.1 <= secs * us_per_second.

(** The window [q] holds entries of [pre], in the order of [pre], that
    all satisfy [P]. *)
Definition run_of (P : datetime * norm_event -> Prop)
    (pre : list (datetime * norm_event)) (q : window) : Prop :=
  exists evs, sublist evs pre /\ q = entries evs /\ Forall P evs.

(** What the brute-force pass and the token pass report: [f] is the
    finding built from the window of ten failed logins of one user (of
    one user from one address; of fifteen failed token exchanges at one
    host) among the entries [ts], no two of them further apart than the
    length of the window. *)
Definition user_burst (ts : list (datetime * norm_event)) (f : finding)
  : Prop :=
  exists k evs,
    f = bruteforce_user_finding k (entries evs)
    /\ close_run BRUTE_FORCE_WINDOW_SEC BRUTE_FORCE_MIN_FAILS ts evs
    /\ Forall (user_failure k) evs.

Definition pair_burst (ts : list (datetime * norm_event)) (f : finding)
  : Prop :=
  exists k evs,
    f = bruteforce_pair_finding k (entries evs)
    /\ close_run BRUTE_FORCE_WINDOW_SEC BRUTE_FORCE_MIN_FAILS ts evs
    /\ Forall (pair_failure k) evs.

Definition host_burst (ts : list (datetime * norm_event)) (f : finding)
  : Prop :=
  exists k evs,
    f = token_finding k (entries evs)
    /\ close_run 300 15 ts evs
    /\ Forall (host_failure k) evs.

(** ** Passes that keep sliding windows *)

(** An entry that a pass pushes on the window of the key [k]. *)
Definition filed_under {K : Type} (relevant : datetime * norm_event -> bool)
    (key : norm_event -> K) (k : K) (x : datetime * norm_event) : Prop :=
  relevant x = true /\ key x.2 = k.

(** [f] reports a window of [n] entries of [pre] filed under one key, no
    two of them more than [secs] seconds apart. *)
Definition reported_by {K : Type} (relevant : datetime * norm_event -> bool)
    (key : norm_event -> K) (report : K -> window -> finding)
    (secs : Z) (n : nat)
    (pre : list (datetime * norm_event)) (f : finding) : Prop :=
  exists k evs,
    f = report k (entries evs)
    /\ close_run secs n pre evs
    /\ Forall (filed_under relevant key k) evs.

(** The state of a pass after the entries [pre]: every window is shorter
    than [n] and holds entries filed under its key, and every finding
    reports a window. *)
Definition window_pass_inv {S K : Type} (wins : S -> K -> window)
    (outs : S -> list finding)
    (relevant : datetime * norm_event -> bool) (key : norm_event -> K)
    (report : K -> window -> finding) (secs : Z) (n : nat)
    (pre : list (datetime * norm_event)) (st : S) : Prop :=
  (forall k, (length (wins st k) < n)%nat
             /\ run_of (filed_under relevant key k) pre (wins st k))
  /\ Forall (reported_by relevant key report secs n pre) (outs st).

(** The brute-force pass as two such passes, one over the windows of the
    users and one over the windows of the pairs, and the token pass. *)
Definition is_failed_login (x : datetime * norm_event) : bool :=
  status_is x.2 401.

Definition is_failed_token (x : datetime * norm_event) : bool :=
  status_is x.2 401 && str_in "/oauth/token" (ev_url x.2).

Definition user_windows (st : bf_state) (k : string) : window :=
  default [] (win_user st !! k).

Definition pair_windows (st : bf_state) (k : string * string) : window :=
  default [] (win_pair st !! k).

Definition user_reports (st : bf_state) : list finding :=
  List.filter (has_kind "auth.bruteforce_user") (bf_out st).

Definition pair_reports (st : bf_state) : list finding :=
  List.filter (has_kind "auth.bruteforce_pair") (bf_out st).

Definition host_windows (st : gmap string window * list finding)
    (k : string) : window :=
  default [] (st.1 !! k).

(** ** Password-reset and MFA activity *)

(** The bucket [(minute, user, ip)] of an event; whether its text matches
    a recogniser. *)
Definition activity_key_of {rt : PyRuntime} (ev : norm_event)
  : activity_key :=
  (_bucket_minute (ev_ts ev),
   str_or (str_strip (ev_user ev)) "<unknown>",
   str_or (str_strip (ev_src_ip ev)) "<ip?>").

Definition mentions {rt : PyRuntime} (pattern : string) (ev : norm_event)
  : bool :=
  re_search_i pattern (event_text ev).

(** The events of the bucket [k] whose text matches [pattern], in the
    order of the batch, and the identifiers they carry. *)
Definition activity_events {rt : PyRuntime} (pattern : string)
    (k : activity_key) (norm : list norm_event) : list norm_event :=
  List.filter
    (fun ev => mentions pattern ev && bool_decide (activity_key_of ev = k))
    norm.

Definition activity_ids {rt : PyRuntime} (pattern : string)
    (k : activity_key) (norm : list norm_event) : list atom :=
  List.filter (fun i => negb (is_none i))
              (ev_event_id <$> activity_events pattern k norm).

(** One of the two dicts of the pass after the events [norm]. *)
Definition activity_note {rt : PyRuntime} (pattern : string)
    (b : activity_buckets) (ev : norm_event) : activity_buckets :=
  if mentions pattern ev
  then bucket_note (activity_key_of ev) (ev_event_id ev) b
  else b.

Definition activity_buckets_of {rt : PyRuntime} (pattern : string)
    (norm : list norm_event) : activity_buckets :=
  foldl (activity_note pattern) [] norm.

(** ** Off-hours logins *)

Definition us_per_day : Z := 24 * us_per_hour.

(** The wall clock of [t] reads a time before 06:00. *)
Definition before_six (t : datetime) : bool :=
  dt_wall t mod us_per_day <? 6 * us_per_hour.

(** A successful login before 06:00 that carries a truthy identifier. *)
Definition early_login (tev : datetime * norm_event) : bool :=
  status_is tev.2 200 && before_six tev.1 && truthy (ev_event_id tev.2).

(** ** High-risk sources *)

Definition f_0_985 : spec_float := Eval vm_compute in Prim2SF 0.985%float.

(** The risk value after [risk=] cannot be read: the text has no word
    there, or [float] rejects the word. *)
Definition risk_unreadable {rt : PyRuntime} (raw : string) : Prop :=
  forall frag, str_after "risk=" raw = Ok frag ->
    match str_split frag with
    | [] => True
    | tok :: _ => exists e, float_of_str (str_strip_chars " ;," tok) = Raise e
    end.

(** ** The order of the passes *)

Definition pass_rank (p : pass) : nat :=
  match p with
  | P_activity => 0
  | P_brute_force => 1
  | P_blocked => 2
  | P_high_risk => 3
  | P_error_rate => 4
  | P_rare_ua => 5
  | P_off_hours => 6
  | P_token => 7
  end.

(** The rank of the pass that builds findings of [f]'s kind. *)
Definition finding_rank (f : finding) : nat :=
  default 0%nat (pass_rank <$> pass_of_kind (kind f)).

Definition rank_le (f g : finding) : Prop :=
  (finding_rank f <= finding_rank g)%nat.

(** ** Identifiers *)

(** The identifiers of the batch, as the normaliser reads them. *)
Definition batch_ids {rt : PyRuntime} (events : list raw_event)
  : list atom :=
  ev_event_id ∘ normalize <$> events.

(** [f] lists, under ["event_ids"], identifiers other than [None] of
    events of [norm]: at least one if every event of [norm] carries a
    truthy identifier. *)
Definition cites (norm : list norm_event) (f : finding) : Prop :=
  exists ids,
    dict_get "event_ids" (meta f) = Some (ids_value ids)
    /\ Forall (fun i => i <> ANone /\ i ∈ ev_event_id <$> norm) ids
    /\ (Forall (fun ev => truthy (ev_event_id ev) = true) norm -> ids <> []).

(** ** The caller in [app.py] *)

(** [v[0]] *)
Definition py_index0 (v : pyval) : result pyval :=
  match v with
  | VList (x :: _) | VTuple (x :: _) => Ok x
  | VList [] | VTuple [] => Raise IndexError
  | VDict _ => Raise KeyError
  | VAtom (AStr (String c _)) => Ok (VStr (String c EmptyString))
  | VAtom (AStr EmptyString) => Raise IndexError
  | VAtom _ | VFloat _ => Raise TypeError
  end.

(** [_process_analysis], for a finding [a] that [detect_anomalies]
    returned:
    [meta = a.get("meta") or {}]
    [ev_id = a.get("event_id") or (meta.get("event_ids", [None])[0])].
    A finding has no key ["event_id"], so the first operand is [None]. *)
Definition anomaly_event_id (a : finding) : result pyval :=
  match dict_get "event_ids" (meta a) with
  | None => Ok (VAtom ANone)
  | Some v => py_index0 v
  end.

(** ** Further sample inputs *)

Module Scenarios.

(** Three logins that the batch lists out of order, two of them with the
    same timestamp. *)
Definition shuffled : list raw_event :=
  [Examples.login_at 30 "first" (AInt 1);
   Examples.login_at 10 "second" (AInt 2);
   Examples.login_at 30 "third" (AInt 3)].

(** The time-sorted view of a batch on the sample runtime. *)
Definition sorted_view (events : list raw_event)
  : list (datetime * norm_event) :=
  try_except
    (time_sorted_of (normalize (rt := Sample.runtime) <$> events)) [].

(** Logins at 05:59, 06:00 and 02:00; the last one carries the
    identifier 0. *)
Definition night_logins : list raw_event :=
  [Examples.login_at (5 * 3600 + 59 * 60) "ok" (AInt 1);
   Examples.login_at (6 * 3600) "ok" (AInt 2);
   Examples.login_at (2 * 3600) "ok" (AInt 0)].

(** A login at noon whose text holds a risk score and mentions tor. *)
Definition risky_login : list raw_event :=
  [Examples.login_at 43200 "login from tor exit, RISK=0.9" (AInt 7)].

(** What the call returns on the sample runtime ([[]] if it raises). *)
Definition findings_of (events : list raw_event) : list finding :=
  try_except (detect_anomalies (rt := Sample.runtime) events) [].

End Scenarios.

(* ===================================================================== *)
(** * The callers in [app.py] *)
(* ===================================================================== *)

(** ** Upload state *)

(** A row of [uploads], with the columns that the pipeline state lives
    in. *)
Record upload : Set := mk_upload {
  up_filename    : string;
  up_raw_content : option string;
  up_status      : option string;
  up_progress    : option Z
}.

#[global] Instance upload_eq_dec : EqDecision upload.
Proof. solve_decision. Defined.

(** A database session: the rows of [uploads] by primary key, and the
    number of commits made through it. *)
Record db_session : Type := mk_db_session {
  s_uploads : gmap Z upload;
  s_commits : nat
}.

(** [def set_state(dbsess, upload_id, *, status=None, progress=None)].
    [progress] is an [int], on which [int(progress)] is the identity. *)
Definition set_state (dbsess : db_session) (upload_id : Z)
    (status : option string) (progress : option Z) : db_session :=
  match s_uploads dbsess !! upload_id with
  | None => dbsess
  | Some up =>
    let changed := false in
    let '(up, changed) :=
      match status with
      | Some st =>
        if bool_decide (up_status up <> Some st)
        then (mk_upload (up_filename up) (up_raw_content up) (Some st)
                        (up_progress up), true)
        else (up, changed)
      | None => (up, changed)
      end in
    let '(up, changed) :=
      match progress with
      | Some p =>
        let val := Z.max 0 (Z.min 100 p) in
        if bool_decide (up_progress up <> Some val)
        then (mk_upload (up_filename up) (up_raw_content up) (up_status up)
                        (Some val), true)
        else (up, changed)
      | None => (up, changed)
      end in
    if (changed : bool)
    then mk_db_session (<[upload_id := up]> (s_uploads dbsess))
                       (S (s_commits dbsess))
    else dbsess
  end.

(** A call [set_state(dbsess, upload_id, status=..., progress=...)]. *)
Record state_call : Set := mk_state_call {
  c_upload_id : Z;
  c_status    : option string;
  c_progress  : option Z
}.

(** The calls [calls] made one after the other through [dbsess]. *)
Definition set_states (dbsess : db_session) (calls : list state_call)
  : db_session :=
  foldl (fun s c => set_state s (c_upload_id c) (c_status c) (c_progress c))
        dbsess calls.

(** The row that a call leaves for a row [up]. *)
Definition state_after (status : option string) (progress : option Z)
    (up : upload) : upload :=
  mk_upload (up_filename up) (up_raw_content up)
    (match status with Some st => Some st | None => up_status up end)
    (match progress with
     | Some p => Some (Z.max 0 (Z.min 100 p))
     | None => up_progress up
     end).

(** The progress of a row, when set, is a percentage. *)
Definition progress_in_range (up : upload) : Prop :=
  match up_progress up with
  | Some p => 0 <= p <= 100
  | None => True
  end.

(** ** Timestamps at ingestion *)

(** [def _norm_ts(s: str | None)] *)
Definition _norm_ts {rt : PyRuntime} (s : option string) : option datetime :=
  match s with
  | None => None
  | Some s =>
    if String.eqb s "" then None
    else
      let s := str_strip s in
      match (if str_endswith_Zz s
             then dt_fromisoformat (str_drop_last s +:+ "+00:00")
             else dt_fromisoformat s) with
      | Ok d => Some d
      | Raise _ =>
        match dt_strptime s "%Y-%m-%d %H:%M:%S" with
        | Ok d => Some d
        | Raise _ => None
        end
      end
  end.

(** ** Rows of [log_events] *)

(** A row of [log_events], as [models.LogEvent] declares it. *)
Record log_event : Set := mk_log_event {
  le_id         : Z;
  le_ts         : option datetime;
  le_src_ip     : option string;
  le_user       : option string;
  le_url        : option string;
  le_action     : option string;
  le_status     : option Z;
  le_bytes      : option Z;
  le_user_agent : option string;
  le_raw        : option string
}.

(** Every timestamp of the rows is aware ([w = true]), or every one is
    naive ([w = false]). *)
Definition rows_one_awareness (w : bool) (rows : list log_event) : Prop :=
  Forall (fun r => forall t, le_ts r = Some t -> dt_aware t = w) rows.

(** The rows hold a naive and an aware timestamp. *)
Definition rows_mixed_awareness (rows : list log_event) : Prop :=
  exists r1 r2 t1 t2,
    r1 ∈ rows /\ r2 ∈ rows /\ le_ts r1 = Some t1 /\ le_ts r2 = Some t2
    /\ dt_aware t1 <> dt_aware t2.

(** An entry of [ev_dicts]:
    [{"event_id": e.id, "ts": e.ts, "src_ip": e.src_ip, "user": e.user,
      "url": e.url, "action": e.action, "status": e.status,
      "user_agent": e.user_agent, "raw": e.raw}] *)
Definition ev_dict (e : log_event) : raw_event :=
  {| e_ts := match le_ts e with Some d => ADatetime d | None => ANone end;
     e_status := match le_status e with Some z => AInt z | None => ANone end;
     e_src_ip := le_src_ip e;
     e_user := le_user e;
     e_url := le_url e;
     e_action := le_action e;
     e_user_agent := le_user_agent e;
     e_raw := le_raw e;
     e_event_id := AInt (le_id e);
     e_id := ANone |}.

(** A value of [id_to_event]:
    [{"id": e.id, "ts": e.ts.isoformat() if e.ts else None,
      "src_ip": e.src_ip, "user": e.user, "url": e.url,
      "action": e.action, "status": e.status, "bytes": e.bytes,
      "user_agent": e.user_agent, "raw": e.raw}] *)
Record event_row : Set := mk_event_row {
  row_id         : Z;
  row_ts         : option string;
  row_src_ip     : option string;
  row_user       : option string;
  row_url        : option string;
  row_action     : option string;
  row_status     : option Z;
  row_bytes      : option Z;
  row_user_agent : option string;
  row_raw        : option string
}.

Definition event_row_of {rt : PyRuntime} (e : log_event) : event_row :=
  {| row_id := le_id e;
     row_ts := dt_isoformat "T" <$> le_ts e;
     row_src_ip := le_src_ip e;
     row_user := le_user e;
     row_url := le_url e;
     row_action := le_action e;
     row_status := le_status e;
     row_bytes := le_bytes e;
     row_user_agent := le_user_agent e;
     row_raw := le_raw e |}.

(** [id_to_event = {e.id: {...} for e in evs}] *)
Definition id_to_event_of {rt : PyRuntime} (evs : list log_event)
  : gmap Z event_row :=
  foldl (fun m e => <[le_id e := event_row_of e]> m) ∅ evs.

(** ** Values as [_group_anomalies] uses them *)

(** Truth value of a value of finding metadata. *)
Definition val_truthy (v : pyval) : bool :=
  match v with
  | VAtom a => truthy a
  | VFloat f => negb (SFeqb f f_0_0)
  | VList l | VTuple l => match l with [] => false | _ :: _ => true end
  | VDict d => match d with [] => false | _ :: _ => true end
  end.

(** The items that [for x in v] visits. *)
Definition val_iter (v : pyval) : result (list pyval) :=
  match v with
  | VList l | VTuple l => Ok l
  | VDict d => Ok (VStr <$> d.*1)
  | VAtom (AStr s) =>
    Ok ((fun c => VStr (String c EmptyString)) <$> list_ascii_of_string s)
  | VAtom _ | VFloat _ => Raise TypeError
  end.

(** [hash(v)] does not raise. *)
Fixpoint hashable (v : pyval) : bool :=
  match v with
  | VAtom _ | VFloat _ => true
  | VTuple l => forallb hashable l
  | VList _ | VDict _ => false
  end.

(** The integer that a float equals, if any. *)
Definition float_int (f : spec_float) : option Z :=
  match f with
  | S754_zero _ => Some 0
  | S754_finite s m e =>
    let sgn := if s then -1 else 1 in
    if 0 <=? e then Some (sgn * Z.pos m * 2 ^ e)
    else if Z.pos m mod 2 ^ (- e) =? 0
         then Some (sgn * (Z.pos m / 2 ^ (- e)))
         else None
  | _ => None
  end.

(** The [int] that a value equals, if any: the key under which a dict
    with [int] keys holds the value. *)
Definition val_int (v : pyval) : option Z :=
  match v with
  | VAtom a => atom_num a
  | VFloat f => float_int f
  | _ => None
  end.

(** [id_to_event[eid] if eid in id_to_event else None]; the test hashes
    [eid]. *)
Definition id_lookup (id_to_event : gmap Z event_row) (eid : pyval)
  : result (option event_row) :=
  if hashable eid then Ok (k ← val_int eid; id_to_event !! k)
  else Raise TypeError.

(** [x in l] for a list [l].  (A NaN is taken as a distinct object at
    each of its occurrences.) *)
Definition val_in (x : pyval) (l : list pyval) : bool :=
  existsb (fun y => py_eq y x) l.

(** ** [_group_anomalies] *)

(** A value of the [defaultdict] [g]. *)
Record bucket : Type := mk_bucket {
  b_kind      : option string;
  b_count     : nat;
  b_reasons   : gset string;
  b_users     : gset string;
  b_src_ips   : gset string;
  b_event_ids : list pyval;
  b_samples   : list event_row
}.

Definition new_bucket : bucket := mk_bucket None 0 ∅ ∅ ∅ [] [].

(** [if x: s.add(x)] for an [Optional[str]] *)
Definition add_if_truthy (x : option string) (s : gset string)
  : gset string :=
  match x with
  | Some x => if String.eqb x "" then s else s ∪ {[x]}
  | None => s
  end.

(** The body of the first loop over [ev_ids], for the event [ev] found
    in [id_to_event]. *)
Definition note_people (ev : option event_row) (b : bucket) : bucket :=
  match ev with
  | None => b
  | Some ev =>
    mk_bucket (b_kind b) (b_count b) (b_reasons b)
      (add_if_truthy (row_user ev) (b_users b))
      (add_if_truthy (row_src_ip ev) (b_src_ips b))
      (b_event_ids b) (b_samples b)
  end.

(** # accumulate users/src_ips from sample rows we have *)
Fixpoint people_loop (id_to_event : gmap Z event_row) (ev_ids : list pyval)
    (b : bucket) : result bucket :=
  match ev_ids with
  | [] => Ok b
  | eid :: rest =>
    ev ← id_lookup id_to_event eid;
    people_loop id_to_event rest (note_people ev b)
  end.

(** # keep up to 25 distinct event samples *)
Fixpoint samples_loop (id_to_event : gmap Z event_row) (ev_ids : list pyval)
    (b : bucket) : result bucket :=
  match ev_ids with
  | [] => Ok b
  | eid :: rest =>
    if (25 <=? length (b_event_ids b))%nat then Ok b
    else if val_in eid (b_event_ids b)
         then samples_loop id_to_event rest b
         else
           ev ← id_lookup id_to_event eid;
           samples_loop id_to_event rest
             (mk_bucket (b_kind b) (b_count b) (b_reasons b) (b_users b)
                (b_src_ips b) (b_event_ids b ++ [eid])
                (b_samples b ++ match ev with
                                | Some ev => [ev]
                                | None => []
                                end))
  end.

(** [a.get("kind") or "other"] *)
Definition kind_or_other (a : finding) : string := str_or (kind a) "other".

(** [meta.get("event_ids") or []], with [meta = a.get("meta") or {}] *)
Definition ev_ids_of (a : finding) : pyval :=
  match dict_get "event_ids" (meta a) with
  | Some v => if val_truthy v then v else VList []
  | None => VList []
  end.

(** What the body of the loop over [rich_anoms] does to the bucket of
    the kind of [a]. *)
Definition bucket_step (id_to_event : gmap Z event_row) (b : bucket)
    (a : finding) : result bucket :=
  let b := mk_bucket (Some (kind_or_other a)) (S (b_count b))
             (if String.eqb (reason a) "" then b_reasons b
              else b_reasons b ∪ {[reason a]})
             (b_users b) (b_src_ips b) (b_event_ids b) (b_samples b) in
  ev_ids ← val_iter (ev_ids_of a);
  b ← people_loop id_to_event ev_ids b;
  samples_loop id_to_event ev_ids b.

(** The body of the loop over [rich_anoms]. *)
Definition group_step (id_to_event : gmap Z event_row)
    (g : list (string * bucket)) (a : finding)
  : result (list (string * bucket)) :=
  let b := default new_bucket (od_get (kind_or_other a) g) in
  b ← bucket_step id_to_event b a;
  Ok (od_update (kind_or_other a) (fun _ => b) new_bucket g).

(** A loop whose body may raise. *)
Fixpoint for_each {S A : Type} (body : S -> A -> result S) (st : S)
    (l : list A) : result S :=
  match l with
  | [] => Ok st
  | a :: l' => st' ← body st a; for_each body st' l'
  end.

(** An entry of the list that [_group_anomalies] returns. *)
Record group : Type := mk_group {
  g_kind    : option string;
  g_count   : nat;
  g_reasons : list string;
  g_users   : list string;
  g_src_ips : list string;
  g_samples : list event_row
}.

(** [sorted(s)] for a set of [str] *)
Definition sorted_strs (s : gset string) : list string :=
  sort_by String.ltb (elements s).

(** # finalize structures *)
Definition finalize (v : bucket) : group :=
  {| g_kind := b_kind v;
     g_count := b_count v;
     g_reasons := slice_to 5 (sorted_strs (b_reasons v));
     g_users := slice_to 10 (sorted_strs (b_users v));
     g_src_ips := slice_to 10 (sorted_strs (b_src_ips v));
     g_samples := slice_to 25 (b_samples v) |}.

(** [x] goes before [y] under [sort(key=lambda x: x["count"],
    reverse=True)]. *)
Definition more_frequent (x y : group) : bool := (g_count y <? g_count x)%nat.

Definition _group_anomalies (rich_anoms : list finding)
    (id_to_event : gmap Z event_row) : result (list group) :=
  g ← for_each (group_step id_to_event) [] rich_anoms;
  Ok (sort_by more_frequent (finalize ∘ snd <$> g)).

(** ** Notions about groups *)

(** The findings of [l] that are filed under the kind [K]. *)
Definition filed_as (K : string) (l : list finding) : list finding :=
  List.filter (fun a => String.eqb (kind_or_other a) K) l.

(** [x] has at least the count of [y]. *)
Definition count_ge (x y : group) : Prop := (g_count y <= g_count x)%nat.

(** Strictly ascending order of strings. *)
Definition str_lt (s t : string) : Prop := String.ltb s t = true.

(** The row that [id_to_event] holds for [eid], if any. *)
Definition id_row (id_to_event : gmap Z event_row) (eid : pyval)
  : option event_row :=
  k ← val_int eid; id_to_event !! k.

(** The items under ["event_ids"] of the findings [la], in the order in
    which the loops visit them. *)
Definition cited_ids (la : list finding) : list pyval :=
  concat ((fun a => try_except (val_iter (ev_ids_of a)) []) <$> la).

(** No item of [l] equals an item after it under [==]. *)
Definition no_two_equal (l : list pyval) : Prop :=
  forall (i j : nat) x y, l !! i = Some x -> l !! j = Some y -> (i < j)%nat ->
    py_eq x y = false.

(** [x] is an item of [l], or equals one under [==]. *)
Definition kept_in (l : list pyval) (x : pyval) : Prop :=
  x ∈ l \/ val_in x l = true.

(** The non-empty strings that [field] holds in the rows of the cited
    identifiers. *)
Definition cited_field (id_to_event : gmap Z event_row)
    (field : event_row -> option string) (la : list finding) (u : string)
  : Prop :=
  u <> ""
  /\ exists eid row, eid ∈ cited_ids la
                     /\ id_row id_to_event eid = Some row
                     /\ field row = Some u.

(** The bucket [b] of the kind [K] after the findings [la] of that
    kind. *)
Definition bucket_inv (K : string) (id_to_event : gmap Z event_row)
    (la : list finding) (b : bucket) : Prop :=
  b_count b = length la
  /\ (la <> [] -> b_kind b = Some K)
  /\ (forall r, r ∈ b_reasons b <-> r <> "" /\ r ∈ reason <$> la)
  /\ (forall u, u ∈ b_users b <-> cited_field id_to_event row_user la u)
  /\ (forall u, u ∈ b_src_ips b <-> cited_field id_to_event row_src_ip la u)
  /\ (length (b_event_ids b) <= 25)%nat
  /\ sublist (b_event_ids b) (cited_ids la)
  /\ no_two_equal (b_event_ids b)
  /\ ((length (b_event_ids b) < 25)%nat ->
      forall x, x ∈ cited_ids la -> kept_in (b_event_ids b) x)
  /\ b_samples b = omap (id_row id_to_event) (b_event_ids b).

(** The dict [g] after the findings [l]. *)
Definition groups_inv (id_to_event : gmap Z event_row) (l : list finding)
    (g : list (string * bucket)) : Prop :=
  NoDup g.*1
  /\ (forall K, K ∈ g.*1 <-> filed_as K l <> [])
  /\ (forall K b, (K, b) ∈ g -> bucket_inv K id_to_event (filed_as K l) b)
  /\ sum_list (b_count ∘ snd <$> g) = length l.

(** The identifiers that [a] lists can be iterated, and each of them can
    be hashed. *)
Definition ids_usable (a : finding) : Prop :=
  exists ids, val_iter (ev_ids_of a) = Ok ids
              /\ Forall (fun x => hashable x = true) ids.

(** The identifiers that the findings [l] list are [None], [bool], [int],
    [str] or [datetime] objects. *)
Definition atom_ids (l : list finding) : Prop :=
  Forall (fun x => exists i, x = VAtom i) (cited_ids l).

(** ** The timeline of [_process_analysis] *)

Section Timeline.
Context {rt : PyRuntime}.

(** [e.ts.replace(second=0, microsecond=0).isoformat()], for a row that
    has a timestamp. *)
Definition minute_of (e : log_event) : option string :=
  (fun t => dt_isoformat "T" (dt_replace_sec0 t)) <$> le_ts e.

(** [timeline = Counter()]
    [for e in evs: if e.ts: timeline[minute] += 1] *)
Definition timeline_of (evs : list log_event) : gmap string nat :=
  Counter (omap minute_of evs).

(** [x < y] on tuples of a [str] and an [int]. *)
Definition point_ltb (x y : string * nat) : bool :=
  String.ltb x.1 y.1 || (String.eqb x.1 y.1 && (x.2 <? y.2)%nat).

(** [[{"minute": k, "count": v} for k, v in sorted(timeline.items())]] *)
Definition timeline_points (evs : list log_event) : list (string * nat) :=
  sort_by point_ltb (map_to_list (timeline_of evs)).

(** The number of rows of [evs] stamped within the minute [m]. *)
Definition rows_in_minute (m : string) (evs : list log_event) : nat :=
  length (List.filter (fun e => bool_decide (minute_of e = Some m)) evs).

End Timeline.

(** ** A sample upload *)

Module Uploads.

(** A failed login of alice from 10.0.0.1, [i] seconds into 2024, stored
    under the primary key [i + 1]. *)
Definition failed_login_row (i : nat) : log_event :=
  mk_log_event (Z.of_nat (S i))
    (Some (dt_plus_seconds (mk_datetime Examples.t_2024 None) (Z.of_nat i)))
    (Some "10.0.0.1") (Some "alice")
    (Some "https://auth.warptrace.corp/authorize") (Some "allow")
    (Some 401) None (Some "Auth0") (Some "Failed login").

(** A login of mallory that Auth0 blocked, at noon, made with a client
    that no other row names. *)
Definition blocked_row : log_event :=
  mk_log_event 13
    (Some (dt_plus_seconds (mk_datetime Examples.t_2024 None) 43200))
    (Some "10.0.0.9") (Some "mallory")
    (Some "https://auth.warptrace.corp/authorize") (Some "block")
    (Some 403) None (Some "curl/8.4")
    (Some "Login BLOCKED by brute-force protection").

(** Twelve failed logins and the blocked one. *)
Definition rows : list log_event :=
  (failed_login_row <$> seq 0 12) ++ [blocked_row].

(** What [_process_analysis] derives from the rows, on the sample
    runtime ([[]] where a call raises). *)
Definition found : list finding :=
  try_except (detect_anomalies (rt := Sample.runtime) (ev_dict <$> rows)) [].

Definition id_to_event : gmap Z event_row :=
  id_to_event_of (rt := Sample.runtime) rows.

Definition grouped : list group :=
  try_except (_group_anomalies found id_to_event) [].

(** The rows [rows], none of which has kept its timestamp. *)
Definition untimed_rows : list log_event :=
  (fun r => mk_log_event (le_id r) None (le_src_ip r) (le_user r) (le_url r)
              (le_action r) (le_status r) (le_bytes r) (le_user_agent r)
              (le_raw r)) <$> rows.

End Uploads.

(** ** Further notions about the engine *)

(** An event that Auth0's protection blocked, as the second pass reads
    it. *)
Definition is_blocked (ev : norm_event) : bool :=
  status_is ev 403
  && (str_in "brute-force" (ev_raw ev) || str_in "blocked" (ev_raw ev)).

(** ** The lists of two calls, compared *)

(** [f == g] for two finding dicts that share no float object, as the
    findings that two calls return do (a call builds its floats anew).
    Both dicts hold the keys [reason], [score], [kind] and [meta], so
    they are equal when the four values are. *)
Definition finding_eqb (f g : finding) : bool :=
  String.eqb (reason f) (reason g) && SFeqb (score f) (score g)
  && String.eqb (kind f) (kind g) && py_eq (VDict (meta f)) (VDict (meta g)).

(** [l == l'] for two lists of such findings. *)
Fixpoint findings_eqb (l l' : list finding) : bool :=
  match l, l' with
  | [], [] => true
  | f :: l, g :: l' => finding_eqb f g && findings_eqb l l'
  | _, _ => false
  end.

(** The finding holds a NaN under ["risk"]. *)
Definition nan_risk (f : finding) : bool :=
  match dict_get "risk" (meta f) with
  | Some (VFloat S754_nan) => true
  | _ => false
  end.

(** The finding without the item ["risk"] of its meta. *)
Definition without_risk (f : finding) : finding :=
  {| reason := reason f;
     score := score f;
     kind := kind f;
     meta := List.filter (fun kv => negb (String.eqb kv.1 "risk")) (meta f) |}.

(** ** Ten-minute slots *)

(** The start, as an instant, of the ten-minute slot of the wall clock
    that holds [t]: the minutes [m0] to [m9] of an hour form a slot. *)
Definition slot_start (t : datetime) : Z :=
  dt_instant t - dt_wall t mod (10 * us_per_minute).

(** The user or the host of an event, as a bucket of the kind [knd]
    names it. *)
Definition who_of (knd : string) (ev : norm_event) : string :=
  if String.eqb knd "user" then ev_user ev else ev_host ev.

(** The events of [time_sorted] of [who] within the slot that starts at
    [b], in order. *)
Definition slot_events (knd who : string) (b : Z)
    (time_sorted : list (datetime * norm_event)) : list norm_event :=
  snd <$> List.filter (fun tev => String.eqb (who_of knd tev.2) who
                                  && (slot_start tev.1 =? b))
                      time_sorted.

(** ** User agents of the batch *)

Section Agents.
Context {rt : PyRuntime}.

(** The user agent of an event as the engine reads it: stripped, and
    [""] when absent. *)
Definition agent_of (e : raw_event) : string :=
  str_strip (or_empty (e_user_agent e)).

(** The number of events of the batch whose user agent, read so, is
    [ua]. *)
Definition agent_occurrences (events : list raw_event) (ua : string) : nat :=
  length (List.filter (fun e => String.eqb (agent_of e) ua) events).

(** The number of events of the batch whose ["user_agent"] is the string
    [s] itself. *)
Definition string_occurrences (events : list raw_event) (s : string) : nat :=
  length (List.filter (fun e => bool_decide (e_user_agent e = Some s))
                      events).

End Agents.

(** ** Further sample batches *)

Module Batches.

(** A heap that holds, at 0, a batch of one login at noon whose text
    gives the risk as [nan]. *)
Definition nan_risk_heap : heap :=
  <[0%nat := OList [1%nat]]>
    (<[1%nat := ODict (Examples.login_at 43200 "login risk=nan" (AInt 7))]> ∅).

(** Twenty requests of bob to one host, 29 seconds apart from midnight
    on: they span nine minutes of one ten-minute slot.  The first
    thirteen are answered 500, the rest 200. *)
Definition spread_request_at (i : nat) : datetime * norm_event :=
  (dt_plus_seconds (mk_datetime Examples.t_2024 None) (29 * Z.of_nat i),
   mk_norm_event
     (Some (dt_plus_seconds (mk_datetime Examples.t_2024 None)
                            (29 * Z.of_nat i)))
     (Some (if (i <? 13)%nat then 500 else 200))
     "10.0.0.7" "bob" "Mozilla/5.0" "allow" "https://shop.example/cart"
     "shop.example" "" (AInt (Z.of_nat i))).

Definition spread_requests : list (datetime * norm_event) :=
  spread_request_at <$> seq 0 20.

(** A request of bob at 00:10:00, the start of the next slot. *)
Definition next_slot_request : datetime * norm_event :=
  (dt_plus_seconds (mk_datetime Examples.t_2024 None) 600,
   mk_norm_event
     (Some (dt_plus_seconds (mk_datetime Examples.t_2024 None) 600))
     (Some 500) "10.0.0.7" "bob" "Mozilla/5.0" "allow"
     "https://shop.example/cart" "shop.example" "" (AInt 20)).

End Batches.


(* ===================================================================== *)
(** * Properties *)
(* ===================================================================== *)

(** ** The order of strings *)

Lemma ascii_compare_refl (a : ascii) : Ascii.compare a a = Eq.
Proof. unfold Ascii.compare. apply N.compare_refl. Qed.

Lemma ascii_compare_lt_trans (a b c : ascii) :
  Ascii.compare a b = Lt -> Ascii.compare b c = Lt -> Ascii.compare a c = Lt.
Proof.
  unfold Ascii.compare. rewrite !N.compare_lt_iff. apply N.lt_trans.
Qed.

Lemma str_compare_lt_trans (s1 s2 s3 : string) :
  String.compare s1 s2 = Lt -> String.compare s2 s3 = Lt ->
  String.compare s1 s3 = Lt.
Proof.
  revert s2 s3. induction s1 as [|a s1 IH]; intros [|b s2] [|c s3];
    simpl; try congruence.
  destruct (Ascii.compare a b) eqn:Hab; try discriminate.
  - apply Ascii.compare_eq_iff in Hab. subst b.
    destruct (Ascii.compare a c); try congruence. apply IH.
  - intros _. destruct (Ascii.compare b c) eqn:Hbc; try discriminate.
    + apply Ascii.compare_eq_iff in Hbc. subst c. now rewrite Hab.
    + intros _. now rewrite (ascii_compare_lt_trans _ _ _ Hab Hbc).
Qed.

Lemma str_ltb_trans (s1 s2 s3 : string) :
  String.ltb s1 s2 = true -> String.ltb s2 s3 = true ->
  String.ltb s1 s3 = true.
Proof.
  unfold String.ltb. intros H1 H2.
  destruct (String.compare s1 s2) eqn:E1; try discriminate.
  destruct (String.compare s2 s3) eqn:E2; try discriminate.
  now rewrite (str_compare_lt_trans _ _ _ E1 E2).
Qed.

Lemma str_ltb_irrefl (s : string) : String.ltb s s = false.
Proof.
  unfold String.ltb.
  assert (String.compare s s = Eq) as ->; [|done].
  induction s as [|a s IH]; simpl; [done|]. now rewrite ascii_compare_refl.
Qed.

Lemma str_ltb_total (s1 s2 : string) :
  String.ltb s1 s2 = false -> s1 <> s2 -> String.ltb s2 s1 = true.
Proof.
  unfold String.ltb. rewrite (String.compare_antisym s2 s1).
  destruct (String.compare s1 s2) eqn:E; simpl; try done.
  apply String.compare_eq_iff in E. congruence.
Qed.

(** ** Sorting the items of a dict by key *)

Section KeySort.
Context {V : Type}.
Implicit Types (x y z : string * V) (l acc : list (string * V)).

Lemma insert_by_perm x l : Permutation (insert_by item_ltb x l) (x :: l).
Proof.
  induction l as [|y l IH]; simpl; [done|].
  destruct (item_ltb x y); [done|].
  rewrite IH. apply perm_swap.
Qed.

Lemma sort_by_perm_from acc l :
  Permutation (foldl (fun acc x => insert_by item_ltb x acc) acc l) (l ++ acc).
Proof.
  revert acc. induction l as [|x l IH]; intros acc; simpl; [done|].
  rewrite IH, insert_by_perm. symmetry. apply Permutation_middle.
Qed.

Lemma sort_by_perm l : Permutation (sort_by item_ltb l) l.
Proof.
  unfold sort_by. rewrite sort_by_perm_from. now rewrite app_nil_r.
Qed.

Lemma insert_by_sorted x l :
  x.1 ∉ l.*1 ->
  StronglySorted key_lt l -> StronglySorted key_lt (insert_by item_ltb x l).
Proof.
  intros Hx Hs. induction Hs as [|y l Hs IH Hy]; simpl.
  - repeat constructor.
  - rewrite fmap_cons, not_elem_of_cons in Hx. destruct Hx as [Hxy Hx].
    unfold item_ltb at 1. destruct (String.ltb x.1 y.1) eqn:E.
    + constructor; [by constructor|].
      constructor; [done|].
      eapply Forall_impl; [exact Hy|]. intros z Hz.
      unfold key_lt in *. by eapply str_ltb_trans.
    + constructor; [by apply IH|].
      rewrite (insert_by_perm x l). constructor; [|done].
      by apply str_ltb_total.
Qed.

Lemma sort_by_sorted_from acc l :
  NoDup ((l ++ acc).*1) ->
  StronglySorted key_lt acc ->
  StronglySorted key_lt (foldl (fun acc x => insert_by item_ltb x acc) acc l).
Proof.
  revert acc. induction l as [|x l IH]; intros acc Hnd Hs; simpl; [done|].
  simpl in Hnd. apply NoDup_cons in Hnd as [Hx Hnd].
  rewrite fmap_app, not_elem_of_app in Hx.
  apply IH.
  - assert (Permutation ((l ++ insert_by item_ltb x acc).*1) (x.1 :: (l ++ acc).*1)) as ->.
    { rewrite insert_by_perm, !fmap_app, fmap_cons.
      symmetry. apply Permutation_middle. }
    apply NoDup_cons. split; [|done].
    rewrite fmap_app, not_elem_of_app. tauto.
  - apply insert_by_sorted; tauto.
Qed.

Lemma sort_by_sorted l :
  NoDup (l.*1) -> StronglySorted key_lt (sort_by item_ltb l).
Proof.
  intros Hnd. apply sort_by_sorted_from; [by rewrite app_nil_r|constructor].
Qed.

(** Two lists sorted by strictly increasing key that hold the same items
    are the same list. *)
Lemma sorted_perm_eq l l' :
  StronglySorted key_lt l -> StronglySorted key_lt l' ->
  Permutation l l' -> l = l'.
Proof.
  intros Hs. revert l'. induction Hs as [|x l Hs IH Hx]; intros l' Hs' Hp.
  - by apply Permutation_nil in Hp.
  - destruct Hs' as [|y l' Hs' Hy].
    { symmetry in Hp. by apply Permutation_nil in Hp. }
    assert (x = y) as ->.
    { assert (x ∈ y :: l') as Hin by (rewrite <- Hp; left).
      assert (y ∈ x :: l) as Hin' by (rewrite Hp; left).
      apply elem_of_cons in Hin as [|Hin]; [done|].
      apply elem_of_cons in Hin' as [|Hin']; [done|].
      rewrite Forall_forall in Hx, Hy.
      specialize (Hx y Hin'). specialize (Hy x Hin). unfold key_lt in *.
      pose proof (str_ltb_trans _ _ _ Hx Hy) as Hxx.
      by rewrite str_ltb_irrefl in Hxx. }
    f_equal. apply IH; [done|]. by apply Permutation_cons_inv in Hp.
Qed.

Lemma sort_by_perm_invariant l l' :
  NoDup (l.*1) -> Permutation l l' ->
  sort_by item_ltb l = sort_by item_ltb l'.
Proof.
  intros Hnd Hp. apply sorted_perm_eq.
  - by apply sort_by_sorted.
  - apply sort_by_sorted. by rewrite <- Hp.
  - by rewrite !sort_by_perm.
Qed.

End KeySort.

(** ** [_freeze] *)

Lemma freeze_dict_perm (d d' : list (string * pyval)) :
  NoDup (d.*1) -> Permutation d d' ->
  _freeze (VDict d) = _freeze (VDict d').
Proof.
  intros Hnd Hp. simpl. do 2 f_equal.
  apply (sort_by_perm_invariant (V := pyval)).
  - rewrite <- list_fmap_compose.
    erewrite list_fmap_ext; [exact Hnd|]. by intros i [k v] _.
  - by apply fmap_Permutation.
Qed.

(** ** The de-duplication loop *)

Lemma dedupe_from_sublist seen l : sublist (dedupe_from seen l) l.
Proof.
  revert seen. induction l as [|a l IH]; intros seen; simpl; [done|].
  destruct (key_in (key_of a) seen).
  - by apply sublist_cons.
  - by apply sublist_skip.
Qed.

Lemma dedupe_from_snoc seen l a :
  dedupe_from seen (l ++ [a]) =
  dedupe_from seen l ++
    (if key_in (key_of a) (seen ++ (key_of <$> dedupe_from seen l))
     then [] else [a]).
Proof.
  revert seen. induction l as [|b l IH]; intros seen; simpl.
  - rewrite app_nil_r. by destruct (key_in (key_of a) seen).
  - destruct (key_in (key_of b) seen); [apply IH|].
    simpl. rewrite IH. by rewrite <- app_assoc.
Qed.

Lemma dedupe_from_distinct seen l : distinct_from seen (dedupe_from seen l).
Proof.
  revert seen. induction l as [|a l IH]; intros seen; simpl; [done|].
  destruct (key_in (key_of a) seen) eqn:E; [apply IH|].
  simpl. split; [done|apply IH].
Qed.

Lemma distinct_dedupe_from seen l :
  distinct_from seen l -> dedupe_from seen l = l.
Proof.
  revert seen. induction l as [|a l IH]; intros seen; simpl; [done|].
  intros [-> Hl]. f_equal. by apply IH.
Qed.

Lemma dedupe_idempotent l : dedupe (dedupe l) = dedupe l.
Proof. apply distinct_dedupe_from, dedupe_from_distinct. Qed.

Lemma key_eqb_kind k k' : key_eqb k k' = true -> k.1.1 = k'.1.1.
Proof.
  unfold key_eqb. rewrite !andb_true_iff. intros [[H _] _].
  by apply String.eqb_eq.
Qed.

(** Restricting the output to one kind is de-duplicating the findings of
    that kind. *)
Lemma dedupe_from_filter_kind (K : string) seen l :
  List.filter (has_kind K) (dedupe_from seen l) =
  dedupe_from (List.filter (fun k : dedupe_key => String.eqb k.1.1 K) seen)
    (List.filter (has_kind K) l).
Proof.
  assert (Hin : forall a seen, kind a = K ->
    key_in (key_of a) (List.filter (fun k : dedupe_key => String.eqb k.1.1 K) seen)
    = key_in (key_of a) seen).
  { intros a s Ha. unfold key_in. induction s as [|k s IHs]; simpl; [done|].
    destruct (String.eqb k.1.1 K) eqn:E; simpl; [by rewrite IHs|].
    rewrite IHs. destruct (key_eqb k (key_of a)) eqn:Ek; [|done].
    apply key_eqb_kind in Ek. simpl in Ek.
    apply String.eqb_neq in E. congruence. }
  revert seen. induction l as [|a l IH]; intros seen; [done|].
  cbn [List.filter dedupe_from]. destruct (has_kind K a) eqn:Ea.
  - assert (kind a = K) as Hk by by apply String.eqb_eq.
    cbn [dedupe_from]. rewrite (Hin _ _ Hk).
    destruct (key_in (key_of a) seen); [apply IH|].
    cbn [List.filter]. rewrite Ea. f_equal.
    rewrite IH, List.filter_app. cbn [List.filter].
    change (key_of a).1.1 with (kind a). fold (has_kind K a). by rewrite Ea.
  - destruct (key_in (key_of a) seen); [apply IH|].
    cbn [List.filter]. rewrite Ea, IH, List.filter_app. cbn [List.filter].
    change (key_of a).1.1 with (kind a). fold (has_kind K a). rewrite Ea.
    by rewrite app_nil_r.
Qed.

Lemma dedupe_filter_kind (K : string) l :
  List.filter (has_kind K) (dedupe l) =
  dedupe (List.filter (has_kind K) l).
Proof. apply (dedupe_from_filter_kind K []). Qed.

(** C1, counterexample.  Two findings of one kind and reason whose metas
    differ only in the order of the elements of [event_ids] have
    different keys, and both are retained. *)
Lemma dedupe_keeps_reordered_event_ids :
  kind Examples.ids_1_2 = kind Examples.ids_2_1
  /\ reason Examples.ids_1_2 = reason Examples.ids_2_1
  /\ (exists ids ids',
        meta Examples.ids_1_2 = [("event_ids", ids_value ids)]
        /\ meta Examples.ids_2_1 = [("event_ids", ids_value ids')]
        /\ Permutation ids ids')
  /\ key_eqb (key_of Examples.ids_1_2) (key_of Examples.ids_2_1) = false
  /\ dedupe [Examples.ids_1_2; Examples.ids_2_1]
     = [Examples.ids_1_2; Examples.ids_2_1].
Proof.
  repeat split; try reflexivity.
  exists [AInt 1; AInt 2], [AInt 2; AInt 1].
  repeat split; try reflexivity. apply perm_swap.
Qed.

(** C1 (as amended).  The key of a finding is [(kind, reason,
    _freeze(meta))], where [_freeze] sorts the items of a mapping by key
    and keeps the elements of a sequence in their order.  Hence metas
    that hold the same items in another order have one canonical form,
    and of two such findings with one kind and reason only the first is
    retained (when its key equals itself, that is, holds no NaN); a
    finding is retained exactly when no finding retained before it has
    its key; the output is a subsequence of the input, so relative order
    is preserved and the output is no longer than the input. *)
Theorem dedupe_retains_first_occurrences :
  (forall d d' : list (string * pyval),
     NoDup (d.*1) -> Permutation d d' ->
     _freeze (VDict d) = _freeze (VDict d'))
  /\ (forall l : list pyval, _freeze (VList l) = VTuple (_freeze <$> l))
  /\ (forall a b : finding,
        kind a = kind b -> reason a = reason b ->
        NoDup ((meta a).*1) -> Permutation (meta a) (meta b) ->
        key_eqb (key_of a) (key_of a) = true ->
        dedupe [a; b] = [a])
  /\ (forall (l : list finding) (a : finding),
        dedupe (l ++ [a]) =
        dedupe l ++ (if key_in (key_of a) (key_of <$> dedupe l)
                     then [] else [a]))
  /\ (forall l : list finding,
        sublist (dedupe l) l /\ (length (dedupe l) <= length l)%nat).
Proof.
  split; [exact freeze_dict_perm|]. split; [done|]. split; [|split].
  - intros a b Hk Hr Hnd Hp Hrefl. unfold dedupe. cbn [dedupe_from key_in existsb].
    cbn [app].
    assert (key_of b = key_of a) as ->.
    { unfold key_of. rewrite <- Hk, <- Hr. f_equal. symmetry.
      by apply freeze_dict_perm. }
    cbn [key_in existsb]. by rewrite Hrefl.
  - intros l a. apply (dedupe_from_snoc [] l a).
  - intros l. split; [apply dedupe_from_sublist|].
    apply sublist_length, dedupe_from_sublist.
Qed.

(** C1, an instance: the hypotheses of the collapse of two findings hold
    of two findings whose metas list the same items in another order. *)
Lemma dedupe_retains_first_occurrences_witness :
  dedupe [Examples.meta_ab; Examples.meta_ba] = [Examples.meta_ab].
Proof.
  apply (proj1 (proj2 (proj2 dedupe_retains_first_occurrences))).
  - reflexivity.
  - reflexivity.
  - apply (bool_decide_unpack _). vm_compute. reflexivity.
  - apply perm_swap.
  - reflexivity.
Defined.

(** ** Sorting by timestamp *)

Lemma ts_lt_same x y :
  dt_aware x.1 = dt_aware y.1 ->
  ts_lt x y = Ok (dt_instant x.1 <? dt_instant y.1).
Proof. intros H. unfold ts_lt, dt_lt. by rewrite bool_decide_eq_true_2. Qed.

Lemma ts_lt_mixed x y :
  dt_aware x.1 <> dt_aware y.1 -> ts_lt x y = Raise TypeError.
Proof. intros H. unfold ts_lt, dt_lt. by rewrite bool_decide_eq_false_2. Qed.

Lemma insert_sorted_ok w x acc :
  dt_aware x.1 = w -> same_awareness w acc ->
  exists acc', insert_sorted ts_lt x acc = Ok acc' /\ same_awareness w acc'
               /\ Permutation acc' (x :: acc).
Proof.
  intros Hx Hacc. induction Hacc as [|y acc Hy Hacc IH]; cbn [insert_sorted].
  - eexists. split; [done|]. split; [by repeat constructor|done].
  - rewrite ts_lt_same by congruence. cbn [mbind result_bind].
    destruct (dt_instant x.1 <? dt_instant y.1).
    + eexists. split; [done|]. split; [by repeat constructor|done].
    + destruct IH as (acc' & -> & Hw & Hp). simpl.
      eexists. split; [done|]. split; [by constructor|].
      rewrite Hp. apply perm_swap.
Qed.

Lemma py_sorted_from_ok w l acc :
  same_awareness w acc -> same_awareness w l ->
  exists s, py_sorted_from ts_lt acc l = Ok s /\ same_awareness w s
            /\ Permutation s (l ++ acc).
Proof.
  intros Hacc Hl. revert acc Hacc.
  induction Hl as [|x l Hx Hl IH]; intros acc Hacc; simpl.
  - by eexists.
  - destruct (insert_sorted_ok w x acc Hx Hacc) as (acc' & -> & Hw & Hp).
    simpl. destruct (IH acc' Hw) as (s & -> & Hs & Hp').
    eexists. split; [done|]. split; [done|].
    rewrite Hp', Hp. symmetry. apply Permutation_middle.
Qed.

(** Inserting a timestamp that none of [acc] exceeds appends it. *)
Lemma insert_sorted_last x acc :
  Forall (fun y => dt_aware y.1 = dt_aware x.1 /\ dt_instant y.1 <= dt_instant x.1) acc ->
  insert_sorted ts_lt x acc = Ok (acc ++ [x]).
Proof.
  induction 1 as [|y acc [Hw Hy] _ IH]; cbn [insert_sorted]; [done|].
  rewrite ts_lt_same by congruence. cbn [mbind result_bind].
  destruct (Z.ltb_spec (dt_instant x.1) (dt_instant y.1)); [lia|].
  by rewrite IH.
Qed.

(** A list in ascending order of timestamp is its own sorted view. *)
Lemma py_sorted_from_ascending acc l :
  ascending acc l -> py_sorted_from ts_lt acc l = Ok (acc ++ l).
Proof.
  revert acc. induction l as [|x l IH]; intros acc; simpl.
  - by rewrite app_nil_r.
  - intros [Hx Hl]. rewrite (insert_sorted_last _ _ Hx). simpl.
    rewrite (IH _ Hl). by rewrite <- app_assoc.
Qed.

Lemma insert_sorted_mixed x y acc :
  dt_aware x.1 <> dt_aware y.1 ->
  insert_sorted ts_lt x (y :: acc) = Raise TypeError.
Proof.
  intros H. cbn [insert_sorted]. by rewrite ts_lt_mixed.
Qed.

Lemma py_sorted_from_mixed w l acc :
  same_awareness w acc -> acc <> [] -> ~ same_awareness w l ->
  py_sorted_from ts_lt acc l = Raise TypeError.
Proof.
  revert acc. induction l as [|x l IH]; intros acc Hacc Hne Hl.
  - destruct Hl. constructor.
  - cbn [py_sorted_from]. destruct (decide (dt_aware x.1 = w)) as [Hx|Hx].
    + destruct (insert_sorted_ok w x acc Hx Hacc) as (acc' & -> & Hw & Hp).
      cbn [mbind result_bind]. apply IH; [done| |].
      * intros ->. by apply Permutation_nil in Hp.
      * intros Hl'. apply Hl. by constructor.
    + destruct acc as [|y acc]; [done|].
      apply Forall_cons in Hacc as [Hy _].
      rewrite insert_sorted_mixed; [done|congruence].
Qed.

(** ** The heap *)

Lemma read_only_ret {A} (a : A) : read_only (mret a).
Proof. by intros h. Qed.

Lemma read_only_lift {A} (r : result A) : read_only (lift r).
Proof. by intros h. Qed.

Lemma read_only_bind {A B} (m : St A) (k : A -> St B) :
  read_only m -> (forall a, read_only (k a)) -> read_only (m ≫= k).
Proof.
  intros Hm Hk h. unfold mbind, St_bind. specialize (Hm h).
  destruct (m h) as [[a|e] h']; simpl in *; subst; [apply Hk|done].
Qed.

Lemma read_only_load l : read_only (heap_load l).
Proof. intros h. unfold heap_load. by destruct (h !! l). Qed.

Lemma read_only_list_items l : read_only (list_items l).
Proof.
  apply read_only_bind; [apply read_only_load|].
  intros [e|items]; [apply read_only_lift|apply read_only_ret].
Qed.

Lemma read_only_ev_get {X} (field : raw_event -> X) l :
  read_only (ev_get field l).
Proof.
  apply read_only_bind; [apply read_only_load|].
  intros [e|items]; [apply read_only_ret|apply read_only_lift].
Qed.

Lemma read_only_mapM {A B} (f : A -> St B) (l : list A) :
  (forall a, read_only (f a)) -> read_only (mapM f l).
Proof.
  intros Hf. induction l as [|a l IH]; cbn [mapM].
  - apply read_only_ret.
  - apply read_only_bind; [apply Hf|]. intros b.
    apply read_only_bind; [apply IH|]. intros k. apply read_only_ret.
Qed.

Create HintDb read_only.
#[export] Hint Resolve read_only_ret read_only_lift read_only_load
  read_only_list_items read_only_ev_get : read_only.

Section CallProperties.
Context {rt : PyRuntime}.

Lemma read_only_normalize_at l : read_only (normalize_at l).
Proof.
  unfold normalize_at.
  apply read_only_bind; [auto with read_only|intros evid].
  apply read_only_bind;
    [destruct (is_none evid); auto with read_only|intros evid'].
  repeat (apply read_only_bind; [by auto with read_only|intro]).
  apply read_only_ret.
Qed.

Lemma read_only_call events : read_only (call_detect_anomalies events).
Proof.
  unfold call_detect_anomalies.
  apply read_only_bind; [auto with read_only|]. intros [|l items].
  - auto with read_only.
  - apply read_only_bind.
    { apply read_only_mapM, read_only_normalize_at. }
    intros norm. apply read_only_bind; auto with read_only.
Qed.

Lemma bind_ok {A B} (m : St A) (k : A -> St B) h a h' :
  m h = (Ok a, h') -> (m ≫= k) h = k a h'.
Proof. intros H. unfold mbind, St_bind. by rewrite H. Qed.

Lemma heap_load_some l h o : h !! l = Some o -> heap_load l h = (Ok o, h).
Proof. intros H. unfold heap_load. by rewrite H. Qed.

Lemma ev_get_dict {X} (field : raw_event -> X) l h e :
  h !! l = Some (ODict e) -> ev_get field l h = (Ok (field e), h).
Proof.
  intros H. unfold ev_get. by rewrite (bind_ok _ _ _ _ _ (heap_load_some _ _ _ H)).
Qed.

Lemma list_items_list l h items :
  h !! l = Some (OList items) -> list_items l h = (Ok items, h).
Proof.
  intros H. unfold list_items.
  by rewrite (bind_ok _ _ _ _ _ (heap_load_some _ _ _ H)).
Qed.

Lemma normalize_at_dict l h e :
  h !! l = Some (ODict e) -> normalize_at l h = (Ok (normalize e), h).
Proof.
  intros H. unfold normalize_at.
  rewrite (bind_ok _ _ _ _ _ (ev_get_dict e_event_id _ _ _ H)).
  rewrite (bind_ok _ _ h
             (if is_none (e_event_id e) then e_id e else e_event_id e) h);
    last first.
  { destruct (is_none (e_event_id e)); [by apply ev_get_dict|done]. }
  repeat (erewrite bind_ok; [|by apply ev_get_dict]).
  done.
Qed.

Lemma mapM_normalize_at h items es :
  Forall2 (fun l e => h !! l = Some (ODict e)) items es ->
  mapM normalize_at items h = (Ok (normalize <$> es), h).
Proof.
  induction 1 as [|l e items es Hl _ IH]; cbn [mapM]; [done|].
  rewrite (bind_ok _ _ _ _ _ (normalize_at_dict _ _ _ Hl)).
  by rewrite (bind_ok _ _ _ _ _ IH).
Qed.

(** On a heap that holds the batch [es], a call returns what the function
    [detect_anomalies] computes from [es]. *)
Lemma call_detect_anomalies_spec h events es :
  holds_batch h events es ->
  call_detect_anomalies events h = (detect_anomalies es, h).
Proof.
  intros (items & Hev & Hitems). unfold call_detect_anomalies.
  rewrite (bind_ok _ _ _ _ _ (list_items_list _ _ _ Hev)).
  destruct Hitems as [|l e items es Hl Hitems]; [done|].
  erewrite bind_ok; [|apply mapM_normalize_at; by constructor].
  unfold detect_anomalies, mbind at 1, St_bind at 1, lift.
  destruct (time_sorted_of (normalize <$> e :: es)); reflexivity.
Qed.

Lemma bind_cases {A B} (m : St A) (k : A -> St B) h :
  (exists a h', (m ≫= k) h = k a h')
  \/ (exists e h', (m ≫= k) h = (Raise e, h')).
Proof.
  unfold mbind, St_bind. destruct (m h) as [[a|e] h']; eauto.
Qed.

(** What a call returns has been through the de-duplication loop. *)
Lemma call_result_shape events h :
  (exists l, (call_detect_anomalies events h).1 = Ok (dedupe l))
  \/ (exists e, (call_detect_anomalies events h).1 = Raise e).
Proof.
  unfold call_detect_anomalies.
  destruct (bind_cases (list_items events)
    (fun items => match items with
       | [] => mret []
       | _ :: _ =>
         norm ← mapM normalize_at items;
         time_sorted ← lift (time_sorted_of norm);
         mret (dedupe (run_passes norm (ua_counts_of norm) time_sorted))
       end) h) as [(items & h1 & ->)|(e & h1 & ->)]; [|by eauto].
  destruct items as [|l items]; [left; by exists []|].
  destruct (bind_cases (mapM normalize_at (l :: items))
    (fun norm =>
       time_sorted ← lift (time_sorted_of norm);
       mret (dedupe (run_passes norm (ua_counts_of norm) time_sorted))) h1)
    as [(norm & h2 & ->)|(e & h2 & ->)]; [|by eauto].
  unfold mbind, St_bind, lift.
  destruct (time_sorted_of norm) as [ts|e]; [left|right]; by eexists.
Qed.

Lemma call_result_deduped events h :
  dedupe <$> (call_detect_anomalies events h).1
  = (call_detect_anomalies events h).1.
Proof.
  destruct (call_result_shape events h) as [[l ->]|[e ->]]; [|done].
  cbn [fmap result_fmap]. by rewrite dedupe_idempotent.
Qed.

(** C9.  [detect_anomalies] never mutates its input: after a call, the
    list object it was given and every event dict in it (every object of
    the caller's heap) is as it was before the call, whether the call
    returns or raises. *)
Theorem detect_anomalies_leaves_input_unchanged (events : loc) (h : heap) :
  (call_detect_anomalies events h).2 = h.
Proof. apply read_only_call. Qed.

End CallProperties.

Section Coercions.
Context {rt : PyRuntime}.

(** ** The normaliser *)

(** The timestamps of the events that enter [time_sorted]. *)
Lemma time_sorted_input_awareness w (norm : list norm_event) :
  Forall (fun ev => forall t, ev_ts ev = Some t -> dt_aware t = w) norm ->
  same_awareness w (omap (fun ev => (fun t => (t, ev)) <$> ev_ts ev) norm).
Proof.
  induction 1 as [|ev norm Hev _ IH]; cbn [omap list_omap]; [constructor|].
  destruct (ev_ts ev) as [t|] eqn:E; cbn [fmap option_fmap option_map]; [|done].
  constructor; [by apply Hev|done].
Qed.

(** A batch whose timestamps are all aware or all naive is processed to
    the end. *)
Lemma detect_anomalies_returns w (events : list raw_event) :
  Forall (fun e => forall t, _as_dt (e_ts e) = Some t -> dt_aware t = w)
         events ->
  exists out, detect_anomalies events = Ok out.
Proof.
  intros H. destruct events as [|e events]; [by eexists|].
  unfold detect_anomalies, time_sorted_of.
  destruct (py_sorted_from_ok w
              (omap (fun ev => (fun t => (t, ev)) <$> ev_ts ev)
                    (normalize <$> e :: events)) [])
    as (s & -> & _ & _); [constructor| |by eexists].
  apply time_sorted_input_awareness. by rewrite Forall_fmap.
Qed.

(** Two timestamps of different awareness anywhere in the batch end the
    call in a [TypeError]. *)
Lemma detect_anomalies_mixed events e1 e2 t1 t2 :
  e1 ∈ events -> e2 ∈ events ->
  _as_dt (e_ts e1) = Some t1 -> _as_dt (e_ts e2) = Some t2 ->
  dt_aware t1 <> dt_aware t2 ->
  detect_anomalies events = Raise TypeError.
Proof.
  intros H1 H2 Ht1 Ht2 Hne.
  unfold detect_anomalies. destruct events as [|e0 events'] eqn:Eev.
  { by apply elem_of_nil in H1. }
  rewrite <- Eev in *. clear Eev e0 events'.
  set (l := omap (fun ev => (fun t => (t, ev)) <$> ev_ts ev)
                 (normalize <$> events)).
  assert (forall e t, e ∈ events -> _as_dt (e_ts e) = Some t ->
            (t, normalize e) ∈ l) as Hin.
  { intros e t He Ht. unfold l. apply list_elem_of_omap.
    exists (normalize e). split; [by apply list_elem_of_fmap_2|].
    change (ev_ts (normalize e)) with (_as_dt (e_ts e)). by rewrite Ht. }
  pose proof (Hin e1 t1 H1 Ht1) as Hl1. pose proof (Hin e2 t2 H2 Ht2) as Hl2.
  assert (time_sorted_of (normalize <$> events) = Raise TypeError) as ->;
    [|done].
  unfold time_sorted_of. fold l. destruct l as [|x l']; [by apply elem_of_nil in Hl1|].
  cbn [py_sorted_from insert_sorted mbind result_bind].
  apply (py_sorted_from_mixed (dt_aware x.1)); [by repeat constructor|done|].
  intros Hl'. unfold same_awareness in Hl'. rewrite Forall_forall in Hl'.
  assert (forall y, y ∈ x :: l' -> dt_aware y.1 = dt_aware x.1) as Hall.
  { intros y [->|Hy]%elem_of_cons; [done|by apply Hl']. }
  apply Hne. pose proof (Hall _ Hl1) as E1. pose proof (Hall _ Hl2) as E2.
  cbn [fst] in E1, E2. congruence.
Qed.

Lemma detect_anomalies_empty : detect_anomalies [] = Ok [].
Proof. done. Qed.

(** C8.  The engine is not total: on a batch that holds a naive and an
    aware timestamp, [sorted] compares the two and the call ends in a
    [TypeError]. *)
Theorem detect_anomalies_raises_on_mixed_awareness :
  detect_anomalies [Examples.ev_naive; Examples.ev_aware] = Raise TypeError.
Proof. reflexivity. Qed.

(** C4 (as amended).  [_as_int] returns [int(x)] whenever [int(x)] does
    not raise: an integer of either sign parses to itself, a boolean to 0
    or 1, a string to what [int] reads from it; an absent value and a
    datetime give [None]. *)
Theorem as_int_is_int (x : atom) :
  _as_int x =
  match x with
  | ANone => None
  | ABool b => Some (if b then 1 else 0)
  | AInt z => Some z
  | AStr s => match int_of_str s with Ok z => Some z | Raise _ => None end
  | ADatetime _ => None
  end.
Proof.
  destruct x as [|b|z|s|d]; unfold _as_int, py_int; try done.
  by destruct (int_of_str s).
Qed.

End Coercions.

(** C4, counterexample.  The negative number [-5] is not
    unsigned-integer-looking, yet it parses to [-5], not to [None]; so
    does the string ["-5"]. *)
Lemma as_int_accepts_negative :
  _as_int (rt := Sample.runtime) (AInt (-5)) = Some (-5)
  /\ _as_int (rt := Sample.runtime) (AStr "-5") = Some (-5).
Proof. split; reflexivity. Qed.

(** ** Scores *)

Lemma SFltb_le (a b : spec_float) : SFltb a b = true -> SFleb a b = true.
Proof. unfold SFltb, SFleb. by destruct (SFcompare a b) as [[]|]. Qed.

Lemma risk_score_unit (val : spec_float) : in_unit_interval (risk_score val).
Proof.
  unfold risk_score, py_min, py_max, in_unit_interval.
  set (x := f64_add f_0_85 (f64_mul f_0_15 val)).
  destruct (SFltb f_0_0 x) eqn:E0.
  - destruct (SFltb x f_1_0) eqn:E1.
    + split; by apply SFltb_le.
    + by split.
  - by split.
Qed.

Section Shapes.
Context {rt : PyRuntime}.

(** ** Every pass builds findings of the known shapes *)

Lemma pwd_mfa_activity_shape norm : Forall (built_by P_activity) (_pwd_mfa_activity norm).
Proof.
  unfold _pwd_mfa_activity. destruct (foldl pwd_mfa_step ([], []) norm) as [p m].
  apply Forall_app. split; apply Forall_fmap, Forall_forall; intros b _; constructor.
Qed.

Lemma bf_step_shape st tev :
  Forall (built_by P_brute_force) (bf_out st) ->
  Forall (built_by P_brute_force) (bf_out (bf_step st tev)).
Proof.
  intros H. destruct tev as [t ev]. unfold bf_step.
  destruct (negb (status_is ev 401)); [done|].
  set (qu := win_push _ _ _ (default [] (win_user st !! _))).
  set (qp := win_push _ _ _ (default [] (win_pair st !! _))).
  destruct (BRUTE_FORCE_MIN_FAILS <=? length qu)%nat eqn:Eu;
    destruct (BRUTE_FORCE_MIN_FAILS <=? length qp)%nat eqn:Ep; cbn [bf_out];
    rewrite ?Forall_app, ?Forall_singleton; repeat split; try done;
    constructor; by apply Nat.leb_le.
Qed.

Lemma brute_force_shape ts : Forall (built_by P_brute_force) (_brute_force ts).
Proof.
  unfold _brute_force.
  assert (forall st, Forall (built_by P_brute_force) (bf_out st) ->
            Forall (built_by P_brute_force) (bf_out (foldl bf_step st ts))) as H.
  { induction ts as [|x ts IH]; intros st Hst; cbn [foldl]; [done|].
    by apply IH, bf_step_shape. }
  apply H. constructor.
Qed.

Lemma blocked_protection_shape norm : Forall (built_by P_blocked) (_blocked_protection norm).
Proof. apply Forall_fmap, Forall_forall. intros ev _. constructor. Qed.

Lemma high_risk_source_shape norm : Forall (built_by P_high_risk) (_high_risk_source norm).
Proof.
  unfold _high_risk_source. apply Forall_concat, Forall_fmap, Forall_forall.
  intros ev _. unfold high_risk_of. cbn [compose].
  repeat case_match; repeat constructor.
Qed.

Lemma high_error_rate_shape ts : Forall (built_by P_error_rate) (_high_error_rate ts).
Proof.
  unfold _high_error_rate. apply Forall_concat, Forall_fmap, Forall_forall.
  intros [k lst] _. unfold error_bucket_findings. cbn [compose].
  repeat case_match; repeat constructor.
Qed.

Lemma rare_ua_shape norm c : Forall (built_by P_rare_ua) (_rare_ua norm c).
Proof.
  unfold _rare_ua.
  assert (forall l st, Forall (built_by P_rare_ua) st.2 ->
            Forall (built_by P_rare_ua) (foldl (rare_ua_step norm c) st l).2) as H.
  { induction l as [|x l IH]; intros st Hst; cbn [foldl]; [done|].
    apply IH. destruct st as [seen out]. unfold rare_ua_step.
    repeat case_match; cbn [snd] in *; try done.
    apply Forall_app. split; [done|]. repeat constructor. }
  apply H. constructor.
Qed.

Lemma off_hours_logins_shape ts : Forall (built_by P_off_hours) (_off_hours_logins ts).
Proof.
  unfold _off_hours_logins. case_match; repeat constructor.
Qed.

Lemma token_exchange_failures_shape ts :
  Forall (built_by P_token) (_token_exchange_failures ts).
Proof.
  unfold _token_exchange_failures.
  assert (forall l st, Forall (built_by P_token) st.2 ->
            Forall (built_by P_token) (foldl token_step st l).2) as H.
  { induction l as [|x l IH]; intros st Hst; cbn [foldl]; [done|].
    apply IH. destruct st as [win out], x as [t ev]. unfold token_step.
    repeat case_match; cbn [snd] in *; try done.
    apply Forall_app. split; [done|]. repeat constructor.
    by apply Nat.leb_le. }
  apply H. constructor.
Qed.

Lemma built_by_shape p l : Forall (built_by p) l -> Forall finding_shape l.
Proof. intros H. eapply Forall_impl; [exact H|]. intros f Hf. by exists p. Qed.

Lemma run_passes_shape norm c ts : Forall finding_shape (run_passes norm c ts).
Proof.
  unfold run_passes. rewrite !Forall_app.
  repeat split; eapply built_by_shape;
    eauto using pwd_mfa_activity_shape, brute_force_shape,
      blocked_protection_shape, high_risk_source_shape,
      high_error_rate_shape, rare_ua_shape, off_hours_logins_shape,
      token_exchange_failures_shape.
Qed.

(** What [detect_anomalies] returns is a subsequence of what the passes
    appended. *)
Lemma detect_anomalies_inv events out :
  detect_anomalies events = Ok out ->
  out = [] \/
  exists ts, time_sorted_of (normalize <$> events) = Ok ts
             /\ out = dedupe (run_passes (normalize <$> events)
                                (ua_counts_of (normalize <$> events)) ts).
Proof.
  unfold detect_anomalies. destruct events as [|e events].
  - intros [= <-]. by left.
  - destruct (time_sorted_of _) as [ts|]; [|done]. cbn [mbind result_bind].
    intros [= <-]. right. by exists ts.
Qed.

Lemma detect_anomalies_shape events out :
  detect_anomalies events = Ok out -> Forall finding_shape out.
Proof.
  intros [->|(ts & _ & ->)]%detect_anomalies_inv; [constructor|].
  apply Forall_forall. intros f Hf.
  eapply elem_of_sublist in Hf; [|apply dedupe_from_sublist].
  revert f Hf. apply Forall_forall, run_passes_shape.
Qed.

Lemma activity_meta_ids k ids :
  dict_get "event_ids" (activity_meta k ids)
  = Some (ids_value (slice_to 50 ids)).
Proof. by destruct k as [[m u] i]. Qed.

Lemma slice_to_length {A} n (l : list A) : (length (slice_to n l) <= n)%nat.
Proof. unfold slice_to. rewrite length_take. lia. Qed.

Lemma id_if_truthy_length x : (length (id_if_truthy x) <= 50)%nat.
Proof. unfold id_if_truthy. destruct (truthy x); simpl; lia. Qed.

Lemma built_by_ok p f : built_by p f -> finding_ok f.
Proof.
  destruct 1 as [b|b|k q _|k q _|ev|ev|ev|[[knd who] b] lst|norm c ua|ids|host q _];
    (split; [try (split; reflexivity)|]).
  - eexists. split; [apply activity_meta_ids|apply slice_to_length].
  - eexists. split; [apply activity_meta_ids|apply slice_to_length].
  - eexists. split; [reflexivity|apply slice_to_length].
  - eexists. split; [reflexivity|apply slice_to_length].
  - eexists. split; [reflexivity|apply id_if_truthy_length].
  - apply risk_score_unit.
  - eexists. split; [reflexivity|apply id_if_truthy_length].
  - eexists. split; [reflexivity|apply id_if_truthy_length].
  - cbn [score error_finding]. by destruct (SFleb f_0_8 _); split.
  - eexists. split; [reflexivity|apply slice_to_length].
  - cbn [score rare_ua_finding]. by destruct (_ =? 1)%nat; split.
  - eexists. split; [reflexivity|].
    etransitivity; [apply slice_to_length|lia].
  - eexists. split; [reflexivity|apply slice_to_length].
  - eexists. split; [reflexivity|apply slice_to_length].
Qed.

(** C7.  Every finding that [detect_anomalies] returns has a score in
    [0, 1] and a meta that binds ["event_ids"] to a list of at most 50
    event identifiers. *)
Theorem detect_anomalies_findings_ok (events : list raw_event)
    (out : list finding) :
  detect_anomalies events = Ok out -> Forall finding_ok out.
Proof.
  intros H%detect_anomalies_shape. eapply Forall_impl; [exact H|].
  intros f [p Hp]. by eapply built_by_ok.
Qed.

End Shapes.

(** C7, an instance: the findings returned for the batch of twelve failed
    logins, run on the sample runtime. *)
Lemma detect_anomalies_findings_ok_witness :
  Forall finding_ok
    (try_except (detect_anomalies (rt := Sample.runtime) Examples.burst12) []).
Proof.
  apply (detect_anomalies_findings_ok (rt := Sample.runtime) Examples.burst12).
  vm_compute. reflexivity.
Defined.

(** ** Kinds *)

Section Kinds.
Context {rt : PyRuntime}.

Lemma built_by_kind p f : built_by p f -> pass_of_kind (kind f) = Some p.
Proof.
  destruct 1 as [| | | | | | |[[knd who] b] lst| | |]; try reflexivity.
  by destruct knd.
Qed.

(** A pass contributes nothing to the findings of another pass's kind. *)
Lemma filter_kind_other_pass K p p' l :
  Forall (built_by p) l -> pass_of_kind K = Some p' -> p <> p' ->
  List.filter (has_kind K) l = [].
Proof.
  intros Hl HK Hne. induction Hl as [|f l Hf _ IH]; cbn [List.filter]; [done|].
  destruct (has_kind K f) eqn:E; [|done].
  apply String.eqb_eq in E. apply built_by_kind in Hf.
  rewrite E, HK in Hf. congruence.
Qed.

Lemma filter_kind_run_passes_brute_force K norm c ts :
  pass_of_kind K = Some P_brute_force ->
  List.filter (has_kind K) (run_passes norm c ts)
  = List.filter (has_kind K) (_brute_force ts).
Proof.
  intros HK. unfold run_passes. rewrite !List.filter_app.
  rewrite (filter_kind_other_pass K _ _ _ (pwd_mfa_activity_shape norm) HK) by done.
  rewrite (filter_kind_other_pass K _ _ _ (blocked_protection_shape norm) HK) by done.
  rewrite (filter_kind_other_pass K _ _ _ (high_risk_source_shape norm) HK) by done.
  rewrite (filter_kind_other_pass K _ _ _ (high_error_rate_shape ts) HK) by done.
  rewrite (filter_kind_other_pass K _ _ _ (rare_ua_shape norm c) HK) by done.
  rewrite (filter_kind_other_pass K _ _ _ (off_hours_logins_shape ts) HK) by done.
  rewrite (filter_kind_other_pass K _ _ _ (token_exchange_failures_shape ts) HK) by done.
  by rewrite !app_nil_r.
Qed.

(** ** Sliding windows *)

Lemma evict_within t secs q : within secs t q -> evict t secs q = q.
Proof.
  destruct 1 as [|[t0 i] q H0 _]; cbn [evict]; [done|].
  cbn [fst] in H0. by rewrite H0.
Qed.

Lemma win_push_within secs t eid q :
  within secs t (q ++ [(t, eid)]) ->
  win_push secs t eid q = q ++ [(t, eid)].
Proof. apply evict_within. Qed.

Lemma bf_step_quiet st t ev usr ip :
  failed_login usr ip (t, ev) ->
  within BRUTE_FORCE_WINDOW_SEC t (user_window st usr ++ entries [(t, ev)]) ->
  within BRUTE_FORCE_WINDOW_SEC t (pair_window st usr ip ++ entries [(t, ev)]) ->
  (length (user_window st usr) + 1 < BRUTE_FORCE_MIN_FAILS)%nat ->
  (length (pair_window st usr ip) + 1 < BRUTE_FORCE_MIN_FAILS)%nat ->
  user_window (bf_step st (t, ev)) usr = user_window st usr ++ entries [(t, ev)]
  /\ pair_window (bf_step st (t, ev)) usr ip
     = pair_window st usr ip ++ entries [(t, ev)]
  /\ bf_out (bf_step st (t, ev)) = bf_out st.
Proof.
  intros (Hs & Hu & Hi) Hwu Hwp Hlu Hlp. cbn [snd] in *.
  change (entries [(t, ev)]) with [(t, ev_event_id ev)] in *.
  unfold bf_step, status_is. rewrite Hs, bool_decide_eq_true_2 by done.
  cbn [negb]. rewrite Hu, Hi.
  fold (user_window st usr). fold (pair_window st usr ip).
  rewrite (win_push_within _ _ _ _ Hwu), (win_push_within _ _ _ _ Hwp).
  rewrite !(proj2 (Nat.leb_gt _ _)) by (rewrite length_app; cbn; lia).
  unfold user_window, pair_window. cbn [win_user win_pair bf_out].
  by rewrite !lookup_insert_eq.
Qed.

Lemma bf_step_trigger st t ev usr ip :
  failed_login usr ip (t, ev) ->
  within BRUTE_FORCE_WINDOW_SEC t (user_window st usr ++ entries [(t, ev)]) ->
  within BRUTE_FORCE_WINDOW_SEC t (pair_window st usr ip ++ entries [(t, ev)]) ->
  (length (user_window st usr) + 1 = BRUTE_FORCE_MIN_FAILS)%nat ->
  (length (pair_window st usr ip) + 1 = BRUTE_FORCE_MIN_FAILS)%nat ->
  user_window (bf_step st (t, ev)) usr = []
  /\ pair_window (bf_step st (t, ev)) usr ip = []
  /\ bf_out (bf_step st (t, ev))
     = bf_out st ++
       [bruteforce_user_finding (str_or usr "<unknown>")
          (user_window st usr ++ entries [(t, ev)]);
        bruteforce_pair_finding (str_or usr "<unknown>", str_or ip "<ip?>")
          (pair_window st usr ip ++ entries [(t, ev)])].
Proof.
  intros (Hs & Hu & Hi) Hwu Hwp Hlu Hlp. cbn [snd] in *.
  change (entries [(t, ev)]) with [(t, ev_event_id ev)] in *.
  unfold bf_step, status_is. rewrite Hs, bool_decide_eq_true_2 by done.
  cbn [negb]. rewrite Hu, Hi.
  fold (user_window st usr). fold (pair_window st usr ip).
  rewrite (win_push_within _ _ _ _ Hwu), (win_push_within _ _ _ _ Hwp).
  rewrite !(proj2 (Nat.leb_le _ _)) by (rewrite length_app; cbn in *; lia).
  unfold user_window, pair_window. cbn [win_user win_pair bf_out].
  rewrite !lookup_insert_eq. by rewrite <- app_assoc.
Qed.

Lemma bf_run_quiet usr ip l : forall st,
  Forall (failed_login usr ip) l ->
  calm BRUTE_FORCE_WINDOW_SEC (user_window st usr) l ->
  calm BRUTE_FORCE_WINDOW_SEC (pair_window st usr ip) l ->
  (length (user_window st usr) + length l < BRUTE_FORCE_MIN_FAILS)%nat ->
  (length (pair_window st usr ip) + length l < BRUTE_FORCE_MIN_FAILS)%nat ->
  user_window (foldl bf_step st l) usr = user_window st usr ++ entries l
  /\ pair_window (foldl bf_step st l) usr ip
     = pair_window st usr ip ++ entries l
  /\ bf_out (foldl bf_step st l) = bf_out st.
Proof.
  induction l as [|[t ev] l IH]; intros st Hl Hcu Hcp Hlu Hlp.
  - cbn. by rewrite !app_nil_r.
  - apply Forall_cons in Hl as [Hx Hl]. cbn [calm fst] in Hcu, Hcp.
    destruct Hcu as [Hwu Hcu], Hcp as [Hwp Hcp]. cbn [length] in Hlu, Hlp.
    destruct (bf_step_quiet st t ev usr ip Hx Hwu Hwp) as (Eu & Ep & Eo);
      [lia|lia|].
    cbn [foldl].
    destruct (IH (bf_step st (t, ev)) Hl) as (Eu' & Ep' & Eo').
    + by rewrite Eu.
    + by rewrite Ep.
    + rewrite Eu, length_app. cbn. lia.
    + rewrite Ep, length_app. cbn. lia.
    + rewrite Eu', Ep', Eo', Eu, Ep, Eo, <- !app_assoc. done.
Qed.


End Kinds.

Section Burst.
Context {rt : PyRuntime}.

(** ** A burst of failures, one per second *)

Lemma dt_instant_plus_seconds T n :
  dt_instant (dt_plus_seconds T n) = dt_instant T + n * us_per_second.
Proof. unfold dt_instant, dt_plus_seconds. cbn. lia. Qed.

Lemma dt_gap_plus_seconds T i j secs :
  i - j <= secs ->
  dt_gap_exceeds (dt_plus_seconds T i) (dt_plus_seconds T j) secs = false.
Proof.
  intros H. unfold dt_gap_exceeds. rewrite !dt_instant_plus_seconds.
  apply Z.ltb_ge. unfold us_per_second. nia.
Qed.

Lemma stamped_cons_inv T k x l :
  stamped T k (x :: l) -> x.1 = dt_plus_seconds T k /\ stamped T (k + 1) l.
Proof.
  intros H. split.
  - rewrite (H 0%nat x eq_refl). f_equal. lia.
  - intros i tev Hi. rewrite (H (S i) tev Hi). f_equal. lia.
Qed.

Lemma stamped_take T k n l : stamped T k l -> stamped T k (take n l).
Proof.
  intros H i tev Hi. apply H. rewrite lookup_take_Some in Hi. tauto.
Qed.

Lemma stamped_drop T k n l :
  stamped T k l -> stamped T (k + Z.of_nat n) (drop n l).
Proof.
  intros H i tev Hi. rewrite lookup_drop in Hi.
  rewrite (H _ _ Hi). f_equal. lia.
Qed.

Lemma stamped_since T k l : 0 <= k -> stamped T k l -> since T (entries l).
Proof.
  revert k. induction l as [|x l IH]; intros k Hk H; [constructor|].
  apply stamped_cons_inv in H as [Hx Hl]. constructor.
  - exists k. by split.
  - apply (IH (k + 1)); [lia|done].
Qed.

Lemma within_since T secs k q :
  0 <= k <= secs -> since T q -> within secs (dt_plus_seconds T k) q.
Proof.
  intros Hk Hq. eapply Forall_impl; [exact Hq|].
  intros e0 (j & Hj & ->). apply dt_gap_plus_seconds. lia.
Qed.

Lemma calm_stamped T secs l : forall k q,
  0 <= k -> k + Z.of_nat (length l) <= secs + 1 ->
  since T q -> stamped T k l -> calm secs q l.
Proof.
  induction l as [|x l IH]; intros k q Hk Hlen Hq Hl; [done|].
  apply stamped_cons_inv in Hl as [Hx Hl]. cbn [length] in Hlen.
  assert (since T (q ++ entries [x])) as Hq'.
  { apply Forall_app. split; [done|]. repeat constructor.
    exists k. by split. }
  cbn [calm]. split.
  - rewrite Hx. apply (within_since T); [lia|done].
  - apply (IH (k + 1)); [lia|lia|done|done].
Qed.

Lemma ascending_stamped T l : forall k acc,
  Forall (fun y => dt_aware y.1 = dt_aware T
                   /\ dt_instant y.1 <= dt_instant T + k * us_per_second) acc ->
  stamped T k l -> ascending acc l.
Proof.
  induction l as [|x l IH]; intros k acc Hacc Hl; [done|].
  apply stamped_cons_inv in Hl as [Hx Hl]. cbn [ascending]. split.
  - eapply Forall_impl; [exact Hacc|]. intros y [Hy1 Hy2].
    rewrite Hx, dt_instant_plus_seconds. by split.
  - apply (IH (k + 1)); [|done]. apply Forall_app. split.
    + eapply Forall_impl; [exact Hacc|]. intros y [Hy1 Hy2].
      split; [done|]. unfold us_per_second in *. lia.
    + repeat constructor; rewrite Hx; [done|].
      rewrite dt_instant_plus_seconds. unfold us_per_second. lia.
Qed.

(** Between 10 and 19 failed logins of one user from one address, one
    second apart: the tenth fills both windows, which are then cleared,
    and the rest does not fill them again. *)
Lemma brute_force_burst T usr ip tl :
  (10 <= length tl < 20)%nat ->
  stamped T 0 tl -> Forall (failed_login usr ip) tl ->
  _brute_force tl =
  [bruteforce_user_finding (str_or usr "<unknown>") (entries (take 10 tl));
   bruteforce_pair_finding (str_or usr "<unknown>", str_or ip "<ip?>")
     (entries (take 10 tl))].
Proof.
  intros Hlen Hst Hfl.
  destruct (lookup_lt_is_Some_2 tl 9) as [[t ev] Hx]; [lia|].
  pose proof (take_drop_middle tl 9 _ Hx) as Hsplit.
  unfold _brute_force. rewrite <- Hsplit at 1. rewrite foldl_app. cbn [foldl].
  set (st0 := mk_bf_state ∅ ∅ []).
  assert (user_window st0 usr = []) as Hu0 by done.
  assert (pair_window st0 usr ip = []) as Hp0 by done.
  assert (length (take 9 tl) = 9%nat) as Hl9 by (rewrite length_take; lia).
  (* nine quiet steps *)
  destruct (bf_run_quiet usr ip (take 9 tl) st0) as (Eu1 & Ep1 & Eo1).
  { by apply Forall_take. }
  { rewrite Hu0. apply (calm_stamped T _ _ 0);
      [lia|rewrite Hl9; unfold BRUTE_FORCE_WINDOW_SEC; lia|constructor|].
    by apply stamped_take. }
  { rewrite Hp0. apply (calm_stamped T _ _ 0);
      [lia|rewrite Hl9; unfold BRUTE_FORCE_WINDOW_SEC; lia|constructor|].
    by apply stamped_take. }
  { rewrite Hu0, Hl9. cbn. unfold BRUTE_FORCE_MIN_FAILS. lia. }
  { rewrite Hp0, Hl9. cbn. unfold BRUTE_FORCE_MIN_FAILS. lia. }
  rewrite Hu0 in Eu1. rewrite Hp0 in Ep1. cbn [app bf_out st0] in Eu1, Ep1, Eo1.
  set (st1 := foldl bf_step st0 (take 9 tl)) in *.
  (* the tenth *)
  assert (t = dt_plus_seconds T 9) as Ht.
  { exact (Hst 9%nat _ Hx). }
  assert (since T (entries (take 9 tl) ++ entries [(t, ev)])) as Hsince.
  { apply Forall_app. split.
    - apply (stamped_since T 0); [lia|by apply stamped_take].
    - repeat constructor. exists 9. by split. }
  destruct (bf_step_trigger st1 t ev usr ip) as (Eu2 & Ep2 & Eo2).
  { rewrite Forall_forall in Hfl. apply Hfl. by eapply list_elem_of_lookup_2. }
  { rewrite Eu1, Ht. apply (within_since T); [unfold BRUTE_FORCE_WINDOW_SEC; lia|].
    by rewrite <- Ht. }
  { rewrite Ep1, Ht. apply (within_since T); [unfold BRUTE_FORCE_WINDOW_SEC; lia|].
    by rewrite <- Ht. }
  { rewrite Eu1. unfold entries. rewrite length_fmap, Hl9. done. }
  { rewrite Ep1. unfold entries. rewrite length_fmap, Hl9. done. }
  set (st2 := bf_step st1 (t, ev)) in *.
  (* the rest *)
  assert (length (drop 10 tl) < 10)%nat as Hl10 by (rewrite length_drop; lia).
  destruct (bf_run_quiet usr ip (drop 10 tl) st2) as (_ & _ & Eo3).
  { by apply Forall_drop. }
  { rewrite Eu2. apply (calm_stamped T _ _ 10); [lia| |constructor|].
    - unfold BRUTE_FORCE_WINDOW_SEC. lia.
    - apply (stamped_drop T 0 10). done. }
  { rewrite Ep2. apply (calm_stamped T _ _ 10); [lia| |constructor|].
    - unfold BRUTE_FORCE_WINDOW_SEC. lia.
    - apply (stamped_drop T 0 10). done. }
  { rewrite Eu2. cbn. unfold BRUTE_FORCE_MIN_FAILS. lia. }
  { rewrite Ep2. cbn. unfold BRUTE_FORCE_MIN_FAILS. lia. }
  rewrite Eo3, Eo2, Eo1, Eu1, Ep1. cbn [app].
  assert (entries (take 9 tl) ++ entries [(t, ev)] = entries (take 10 tl)) as ->.
  { unfold entries. rewrite <- fmap_app. f_equal.
    rewrite <- Hsplit at 2.
    change ((t, ev) :: drop 10 tl) with ([(t, ev)] ++ drop 10 tl).
    rewrite app_assoc, take_app_length'; [done|].
    by rewrite length_app, Hl9. }
  done.
Qed.

End Burst.

Section EndToEnd.
Context {rt : PyRuntime}.

(** ** The end-to-end scenario *)

Lemma burst_view_omap T es : forall k,
  (forall (i : nat) e, es !! i = Some e ->
     _as_dt (e_ts e) = Some (dt_plus_seconds T (k + Z.of_nat i))) ->
  omap (fun ev => (fun t => (t, ev)) <$> ev_ts ev) (normalize <$> es)
  = burst_view T k es.
Proof.
  unfold burst_view. induction es as [|e es IH]; intros k H; [done|].
  cbn [fmap list_fmap omap list_omap imap].
  change (ev_ts (normalize e)) with (_as_dt (e_ts e)).
  rewrite (H 0%nat e eq_refl). cbn [fmap option_fmap option_map]. f_equal.
  rewrite (IH (k + 1)).
  - apply imap_ext. intros i x _. unfold compose. do 2 f_equal.
    lia.
  - intros i x Hi. rewrite (H (S i) x Hi). do 2 f_equal. lia.
Qed.

Lemma burst_view_stamped T k es : stamped T k (burst_view T k es).
Proof.
  intros i tev. unfold burst_view. rewrite list_lookup_imap_Some.
  by intros (e & _ & ->).
Qed.

Lemma burst_view_ids T k es n :
  snd <$> entries (take n (burst_view T k es))
  = ev_event_id ∘ normalize <$> take n es.
Proof.
  unfold entries, burst_view.
  rewrite <- list_fmap_compose, !fmap_take, fmap_imap. f_equal.
  by rewrite <- imap_const.
Qed.

Lemma burst_time_sorted T usr ip es :
  failed_login_burst T usr ip es ->
  time_sorted_of (normalize <$> es) = Ok (burst_view T 0 es)
  /\ Forall (failed_login (or_empty usr) (or_empty ip)) (burst_view T 0 es).
Proof.
  intros H. split.
  - unfold time_sorted_of. rewrite (burst_view_omap T es 0).
    + apply (py_sorted_from_ascending []).
      apply (ascending_stamped T _ 0); [constructor|apply burst_view_stamped].
    + intros i e Hi. by destruct (H i e Hi).
  - apply Forall_forall. intros tev Hin. unfold burst_view in Hin.
    apply elem_of_lookup_imap_1 in Hin as (i & e & -> & Hi).
    destruct (H i e Hi) as (_ & Hs & Hu & Hip).
    unfold failed_login. cbn [snd normalize ev_status ev_user ev_src_ip].
    by rewrite Hs, Hu, Hip.
Qed.

Lemma dedupe_singleton f : dedupe [f] = [f].
Proof. done. Qed.

(** What a burst of 10 to 19 failed logins leaves in the output under a
    brute-force kind. *)
Lemma burst_findings T usr ip es :
  (10 <= length es < 20)%nat -> failed_login_burst T usr ip es ->
  exists out,
    detect_anomalies es = Ok out
    /\ List.filter (has_kind "auth.bruteforce_user") out
       = [bruteforce_user_finding (str_or (or_empty usr) "<unknown>")
            (entries (take 10 (burst_view T 0 es)))]
    /\ List.filter (has_kind "auth.bruteforce_pair") out
       = [bruteforce_pair_finding
            (str_or (or_empty usr) "<unknown>", str_or (or_empty ip) "<ip?>")
            (entries (take 10 (burst_view T 0 es)))].
Proof.
  intros Hlen H. destruct (burst_time_sorted T usr ip es H) as [Hts Hfl].
  unfold detect_anomalies. destruct es as [|e es]; [cbn in Hlen; lia|].
  rewrite Hts. cbn [mbind result_bind]. eexists. split; [done|].
  rewrite !dedupe_filter_kind, !filter_kind_run_passes_brute_force by done.
  rewrite (brute_force_burst T (or_empty usr) (or_empty ip)); [done| | |done].
  - unfold burst_view. by rewrite length_imap.
  - apply burst_view_stamped.
Qed.

Lemma window_ids_short q :
  (length q <= 50)%nat ->
  window_ids q = List.filter (fun i => negb (is_none i)) (snd <$> q).
Proof.
  intros H. unfold window_ids, slice_to. apply take_ge.
  etransitivity; [apply List.filter_length_le|]. by rewrite length_fmap.
Qed.

(** C2.  A batch of 12 failed logins (status 401) of one user from one
    address, stamped one second apart: [detect_anomalies] returns exactly
    one [auth.bruteforce_user] and exactly one [auth.bruteforce_pair]
    finding; each has [failures] 10 and, as [event_ids], the identifiers
    of the first 10 events in arrival order (an event without identifier
    contributes none).  The last two events produce no further
    brute-force finding. *)
Theorem twelve_failed_logins (T : datetime) (usr ip : option string)
    (es : list raw_event) :
  length es = 12%nat -> failed_login_burst T usr ip es ->
  exists out fu fp,
    detect_anomalies es = Ok out
    /\ List.filter (has_kind "auth.bruteforce_user") out = [fu]
    /\ List.filter (has_kind "auth.bruteforce_pair") out = [fp]
    /\ dict_get "failures" (meta fu) = Some (VInt 10)
    /\ dict_get "failures" (meta fp) = Some (VInt 10)
    /\ dict_get "event_ids" (meta fu)
       = Some (ids_value (present_ids (take 10 es)))
    /\ dict_get "event_ids" (meta fp)
       = Some (ids_value (present_ids (take 10 es))).
Proof.
  intros Hlen H.
  destruct (burst_findings T usr ip es) as (out & Hout & Hu & Hp);
    [lia|done|].
  assert (length (entries (take 10 (burst_view T 0 es))) = 10%nat) as Hl.
  { unfold entries, burst_view.
    rewrite length_fmap, length_take, length_imap. lia. }
  assert (window_ids (entries (take 10 (burst_view T 0 es)))
          = present_ids (take 10 es)) as Hids.
  { rewrite window_ids_short by lia. unfold present_ids.
    by rewrite burst_view_ids. }
  eexists _, _, _. split; [exact Hout|]. split; [exact Hu|].
  split; [exact Hp|].
  cbn [meta bruteforce_user_finding bruteforce_pair_finding dict_get].
  rewrite Hl, Hids. by repeat split.
Qed.

End EndToEnd.

(** C2, an instance: the batch of twelve failed logins with identifiers 1
    to 12, run on the sample runtime. *)
Lemma twelve_failed_logins_witness :
  exists out fu fp,
    detect_anomalies (rt := Sample.runtime) Examples.burst12 = Ok out
    /\ List.filter (has_kind "auth.bruteforce_user") out = [fu]
    /\ List.filter (has_kind "auth.bruteforce_pair") out = [fp]
    /\ dict_get "failures" (meta fu) = Some (VInt 10)
    /\ dict_get "failures" (meta fp) = Some (VInt 10)
    /\ dict_get "event_ids" (meta fu)
       = Some (ids_value (present_ids (rt := Sample.runtime)
                            (take 10 Examples.burst12)))
    /\ dict_get "event_ids" (meta fp)
       = Some (ids_value (present_ids (rt := Sample.runtime)
                            (take 10 Examples.burst12))).
Proof.
  apply (twelve_failed_logins (rt := Sample.runtime)
           (mk_datetime Examples.t_2024 None)
           (Some "alice") (Some "10.0.0.1") Examples.burst12).
  - reflexivity.
  - intros i e Hi. unfold Examples.burst12 in Hi.
    apply list_lookup_imap_Some in Hi as (u & _ & ->). by repeat split.
Defined.

(** ** Rare user agents *)

Lemma counter_get_step (c : gmap string nat) (s x : string) :
  counter_get (<[x := S (default 0%nat (c !! x))]> c) s
  = (counter_get c s + (if String.eqb x s then 1 else 0))%nat.
Proof.
  unfold counter_get. destruct (String.eqb_spec x s) as [->|Hne].
  - rewrite lookup_insert_eq. cbn. lia.
  - rewrite lookup_insert_ne by done. lia.
Qed.

Lemma counter_get_foldl items : forall (c : gmap string nat) (s : string),
  counter_get
    (foldl (fun c x => <[x := S (default 0%nat (c !! x))]> c) c items) s
  = (counter_get c s
     + length (List.filter (fun x => String.eqb x s) items))%nat.
Proof.
  induction items as [|x items IH]; intros c s; cbn [foldl List.filter].
  - cbn. lia.
  - rewrite IH, counter_get_step.
    destruct (String.eqb x s); cbn [length]; lia.
Qed.

Lemma counter_get_Counter items s :
  counter_get (Counter items) s
  = length (List.filter (fun x => String.eqb x s) items).
Proof. unfold Counter. by rewrite counter_get_foldl. Qed.

(** [ua_counts[ua]] is the number of events with the user agent [ua]. *)
Lemma ua_counts_occurrences norm ua :
  ua <> "" -> counter_get (ua_counts_of norm) ua = ua_occurrences norm ua.
Proof.
  intros Hne. unfold ua_counts_of, ua_occurrences.
  rewrite counter_get_Counter. induction norm as [|ev norm IH]; [done|].
  cbn [fmap list_fmap List.filter].
  destruct (String.eqb_spec (ev_user_agent ev) "") as [E|E]; cbn [negb].
  - rewrite IH. destruct (String.eqb_spec (ev_user_agent ev) ua); [congruence|done].
  - cbn [List.filter]. destruct (String.eqb (ev_user_agent ev) ua);
      cbn [length]; by rewrite IH.
Qed.

Lemma ua_occurrences_app l1 l2 ua :
  ua_occurrences (l1 ++ l2) ua
  = (ua_occurrences l1 ua + ua_occurrences l2 ua)%nat.
Proof. unfold ua_occurrences. by rewrite List.filter_app, length_app. Qed.

Lemma ua_occurrences_elem l ua :
  ua ∈ ev_user_agent <$> l -> (1 <= ua_occurrences l ua)%nat.
Proof.
  unfold ua_occurrences. induction l as [|ev l IH]; cbn [fmap list_fmap List.filter].
  - by intros ?%elem_of_nil.
  - intros [->|Hin]%elem_of_cons.
    + rewrite String.eqb_refl. cbn. lia.
    + destruct (String.eqb _ _); cbn [length]; specialize (IH Hin); lia.
Qed.

Section RareUA.
Context {rt : PyRuntime}.

Lemma rare_ua_foldl norm l : forall pre seen out,
  norm = pre ++ l ->
  (forall ua, ua ∈ seen -> ua ∈ ev_user_agent <$> pre) ->
  (foldl (rare_ua_step norm (ua_counts_of norm)) (seen, out) l).2
  = out ++ (rare_ua_finding norm (ua_counts_of norm) <$>
              List.filter (single_ua norm) (ev_user_agent <$> l)).
Proof.
  induction l as [|ev l IH]; intros pre seen out Hnorm Hseen.
  - cbn. by rewrite app_nil_r.
  - cbn [foldl fmap list_fmap List.filter].
    assert (Hnorm' : norm = (pre ++ [ev]) ++ l) by by rewrite <- app_assoc.
    assert (Hocc : ua_occurrences norm (ev_user_agent ev)
                   = (ua_occurrences pre (ev_user_agent ev) + 1
                      + ua_occurrences l (ev_user_agent ev))%nat).
    { rewrite Hnorm' at 1. rewrite !ua_occurrences_app.
      unfold ua_occurrences at 2. cbn [List.filter].
      by rewrite String.eqb_refl. }
    unfold rare_ua_step at 2, single_ua at 1.
    destruct (String.eqb_spec (ev_user_agent ev) "") as [E|E]; cbn [negb orb andb].
    { apply (IH (pre ++ [ev])); [done|].
      intros ua Hua. rewrite fmap_app, elem_of_app. left. by apply Hseen. }
    rewrite (ua_counts_occurrences norm _ E).
    destruct (bool_decide (ev_user_agent ev ∈ seen)) eqn:Es.
    { apply bool_decide_eq_true in Es. apply Hseen, ua_occurrences_elem in Es.
      rewrite (proj2 (Nat.eqb_neq _ _)) by lia.
      apply (IH (pre ++ [ev])); [done|].
      intros ua Hua. rewrite fmap_app, elem_of_app. left. by apply Hseen. }
    unfold RARE_UA_MIN_COUNT.
    destruct (Nat.ltb_spec (ua_occurrences norm (ev_user_agent ev)) 2) as [Hlt|Hge].
    + rewrite (proj2 (Nat.eqb_eq _ _)) by lia.
      rewrite (IH (pre ++ [ev])); [|done|].
      * cbn [fmap list_fmap]. by rewrite <- app_assoc.
      * intros ua [Hua| ->%elem_of_singleton]%elem_of_union;
          rewrite fmap_app, elem_of_app; [left; by apply Hseen|right].
        cbn. by left.
    + rewrite (proj2 (Nat.eqb_neq _ _)) by lia.
      apply (IH (pre ++ [ev])); [done|].
      intros ua Hua. rewrite fmap_app, elem_of_app. left. by apply Hseen.
Qed.

(** The pass emits one finding per user agent that occurs once, in the
    order of the events. *)
Lemma rare_ua_closed_form norm :
  _rare_ua norm (ua_counts_of norm)
  = rare_ua_finding norm (ua_counts_of norm) <$>
      List.filter (single_ua norm) (ev_user_agent <$> norm).
Proof.
  unfold _rare_ua. rewrite (rare_ua_foldl norm norm [] ∅ []); [done|done|].
  by intros ua ?%elem_of_empty.
Qed.

End RareUA.

Lemma str_append_eqb_l (p s t : string) :
  String.eqb (p +:+ s) (p +:+ t) = String.eqb s t.
Proof.
  induction p as [|c p IH]; [done|].
  change (String.eqb (String c (p +:+ s)) (String c (p +:+ t)) = String.eqb s t).
  cbn [String.eqb]. by rewrite Ascii.eqb_refl.
Qed.

Lemma str_length_append (a b : string) :
  String.length (a +:+ b) = (String.length a + String.length b)%nat.
Proof.
  induction a as [|c a IH]; [done|].
  change (S (String.length (a +:+ b))
          = S (String.length a + String.length b)).
  by rewrite IH.
Qed.

Lemma str_append_inj_r (s t u : string) : s +:+ u = t +:+ u -> s = t.
Proof.
  revert t. induction s as [|c s IH]; intros [|d t] H.
  - done.
  - change (u = String d t +:+ u) in H. apply (f_equal String.length) in H.
    rewrite str_length_append in H. simpl in H. lia.
  - change (String c s +:+ u = u) in H. apply (f_equal String.length) in H.
    rewrite str_length_append in H. simpl in H. lia.
  - injection H as -> H. f_equal. by apply IH.
Qed.

Lemma rare_ua_reason_eqb ua ua' :
  String.eqb (rare_ua_reason ua') (rare_ua_reason ua) = String.eqb ua' ua.
Proof.
  unfold rare_ua_reason. rewrite str_append_eqb_l.
  destruct (String.eqb_spec ua' ua) as [->|Hne]; [apply String.eqb_refl|].
  apply String.eqb_neq. intros H. by apply str_append_inj_r in H.
Qed.

Lemma filter_fmap {A B} (P : B -> bool) (f : A -> B) (l : list A) :
  List.filter P (f <$> l) = f <$> List.filter (fun x => P (f x)) l.
Proof.
  induction l as [|x l IH]; [done|]. cbn [fmap list_fmap List.filter].
  destruct (P (f x)); cbn [fmap list_fmap]; by rewrite IH.
Qed.

Lemma filter_single_ua norm ua (l : list string) :
  List.filter (fun x => String.eqb x ua) (List.filter (single_ua norm) l)
  = if single_ua norm ua then List.filter (fun x => String.eqb x ua) l
    else [].
Proof.
  induction l as [|x l IH]; cbn [List.filter]; [by destruct (single_ua _ _)|].
  destruct (String.eqb_spec x ua) as [->|Hne].
  - destruct (single_ua norm ua); cbn [List.filter];
      rewrite ?String.eqb_refl, IH; done.
  - destruct (single_ua norm x); cbn [List.filter]; [|done].
    by rewrite (proj2 (String.eqb_neq _ _) Hne).
Qed.

Lemma filter_ua_occurrences norm ua :
  List.filter (fun x => String.eqb x ua) (ev_user_agent <$> norm)
  = replicate (ua_occurrences norm ua) ua.
Proof.
  unfold ua_occurrences. induction norm as [|ev norm IH]; [done|].
  cbn [fmap list_fmap List.filter].
  destruct (String.eqb_spec (ev_user_agent ev) ua) as [->|Hne];
    cbn [length replicate]; by rewrite IH.
Qed.

(** Of the findings of the pass, those about a non-empty user agent
    [ua] of [norm]: one when [ua] occurs once in [norm], else none. *)
Lemma rare_ua_findings_about (norm : list norm_event) (ua : string) :
  ua <> "" ->
  List.filter (fun f => String.eqb (reason f) (rare_ua_reason ua))
              (_rare_ua norm (ua_counts_of norm))
  = (if (ua_occurrences norm ua =? 1)%nat
     then [rare_ua_finding norm (ua_counts_of norm) ua] else [])
  /\ ((ua_occurrences norm ua = 1)%nat ->
      score (rare_ua_finding norm (ua_counts_of norm) ua) = f_0_62
      /\ kind (rare_ua_finding norm (ua_counts_of norm) ua) = "web.rare_ua")
  /\ ((2 <= ua_occurrences norm ua)%nat ->
      List.filter (fun f => String.eqb (reason f) (rare_ua_reason ua))
                  (_rare_ua norm (ua_counts_of norm)) = [])
  /\ (length (List.filter
                (fun f => String.eqb (reason f) (rare_ua_reason ua))
                (_rare_ua norm (ua_counts_of norm))) <= 1)%nat.
Proof.
  intros Hne.
  assert (List.filter (fun f => String.eqb (reason f) (rare_ua_reason ua))
                      (_rare_ua norm (ua_counts_of norm))
          = (if (ua_occurrences norm ua =? 1)%nat
             then [rare_ua_finding norm (ua_counts_of norm) ua] else []))
    as Hmain.
  { rewrite rare_ua_closed_form, filter_fmap.
    erewrite (List.filter_ext _ (fun x => String.eqb x ua)); last first.
    { intros x. apply rare_ua_reason_eqb. }
    rewrite filter_single_ua, filter_ua_occurrences. unfold single_ua.
    rewrite (proj2 (String.eqb_neq _ _) Hne). cbn [negb andb].
    destruct (Nat.eqb_spec (ua_occurrences norm ua) 1) as [->|]; done. }
  split; [exact Hmain|]. split; [|split].
  - intros H1. cbn [score kind rare_ua_finding].
    by rewrite (ua_counts_occurrences norm ua Hne), H1.
  - intros H2. rewrite Hmain. by rewrite (proj2 (Nat.eqb_neq _ _)) by lia.
  - rewrite Hmain. destruct (_ =? 1)%nat; cbn; lia.
Qed.


(** ** Insertion-ordered dicts *)

Section OrderedDict.
Context {K V : Type} `{EqDecision K}.
Implicit Types (k : K) (d : list (K * V)) (f : V -> V).

Lemma od_get_update k k' f dflt d :
  od_get k (od_update k' f dflt d)
  = if decide (k = k') then Some (f (default dflt (od_get k' d)))
    else od_get k d.
Proof.
  induction d as [|[k0 v0] d IH]; cbn [od_update od_get].
  - by destruct (decide (k = k')).
  - destruct (decide (k' = k0)) as [->|Hne]; cbn [od_get from_option].
    + by destruct (decide (k = k0)).
    + rewrite IH. destruct (decide (k = k0)) as [->|Hk].
      * by rewrite decide_False by done.
      * done.
Qed.

Lemma od_update_keys k f dflt d :
  (od_update k f dflt d).*1 = if bool_decide (k ∈ d.*1) then d.*1
                              else d.*1 ++ [k].
Proof.
  induction d as [|[k0 v0] d IH]; cbn [od_update fmap list_fmap fst].
  - by rewrite bool_decide_eq_false_2 by apply not_elem_of_nil.
  - destruct (decide (k = k0)) as [->|Hne]; cbn [fmap list_fmap fst].
    + rewrite bool_decide_eq_true_2; [done|by left].
    + rewrite IH. destruct (bool_decide_reflect (k ∈ d.*1)) as [Hin|Hin].
      * rewrite bool_decide_eq_true_2; [done|by right].
      * rewrite bool_decide_eq_false_2; [done|].
        rewrite not_elem_of_cons. by split.
Qed.

Lemma od_update_NoDup k f dflt d :
  NoDup (d.*1) -> NoDup ((od_update k f dflt d).*1).
Proof.
  intros Hnd. rewrite od_update_keys.
  destruct (bool_decide_reflect (k ∈ d.*1)) as [Hin|Hin]; [done|].
  apply NoDup_app. split; [done|]. split.
  - by intros x Hx ->%list_elem_of_singleton.
  - apply NoDup_singleton.
Qed.

Lemma od_get_elem k v d : (k, v) ∈ d -> NoDup (d.*1) -> od_get k d = Some v.
Proof.
  induction d as [|[k0 v0] d IH]; [by intros ?%elem_of_nil|].
  intros Hin Hnd. cbn [od_get]. cbn [fmap list_fmap fst] in Hnd.
  apply NoDup_cons in Hnd as [Hk0 Hnd].
  apply elem_of_cons in Hin as [[= -> ->]|Hin].
  - by rewrite decide_True.
  - rewrite decide_False; [by apply IH|].
    intros ->. apply Hk0. apply list_elem_of_fmap. by exists (k0, v).
Qed.

Lemma od_get_Some_elem k (v : V) d :
  od_get k d = Some v -> (k, v) ∈ d.
Proof.
  induction d as [|[k0 v0] d IH]; cbn [od_get]; [done|].
  destruct (decide (k = k0)) as [->|Hne].
  - intros [= ->]. by left.
  - intros H. right. by apply IH.
Qed.

End OrderedDict.

(** ** Error-rate buckets *)

Lemma by_bucket_NoDup ts : NoDup ((by_bucket_of ts).*1).
Proof.
  unfold by_bucket_of.
  assert (forall d, NoDup (d.*1) -> NoDup ((foldl error_step d ts).*1)) as H.
  { induction ts as [|[t ev] ts IH]; intros d Hd; cbn [foldl]; [done|].
    apply IH. unfold error_step. by do 2 apply od_update_NoDup. }
  apply H. constructor.
Qed.

Lemma od_get_error_step k d tev :
  od_get k (error_step d tev)
  = if bool_decide (k ∈ error_keys tev)
    then Some (default [] (od_get k d) ++ [tev.2])
    else od_get k d.
Proof.
  destruct tev as [t ev]. unfold error_step, error_keys. cbn [fst snd].
  rewrite !od_get_update.
  set (ku := ("user", ev_user ev, dt_instant (error_bucket_start t))).
  set (kh := ("host", ev_host ev, dt_instant (error_bucket_start t))).
  assert (ku <> kh) as Hne by done.
  destruct (decide (k = kh)) as [->|Hh].
  - rewrite bool_decide_eq_true_2 by (right; left).
    by rewrite decide_False by done.
  - destruct (decide (k = ku)) as [->|Hu].
    + by rewrite bool_decide_eq_true_2 by left.
    + rewrite bool_decide_eq_false_2; [done|].
      rewrite !not_elem_of_cons. split_and!; [done|done|apply not_elem_of_nil].
Qed.

Lemma od_get_by_bucket_from k ts : forall d,
  od_get k (foldl error_step d ts)
  = match bucket_events k ts with
    | [] => od_get k d
    | _ :: _ => Some (default [] (od_get k d) ++ bucket_events k ts)
    end.
Proof.
  unfold bucket_events.
  induction ts as [|tev ts IH]; intros d; cbn [foldl List.filter]; [done|].
  rewrite IH, od_get_error_step.
  destruct (bool_decide (k ∈ error_keys tev)); cbn [fmap list_fmap].
  - destruct (snd <$> List.filter _ ts) as [|x l] eqn:E; simpl.
    + done.
    + by rewrite <- app_assoc.
  - done.
Qed.

(** A bucket holds the events that joined it, in time order. *)
Lemma by_bucket_events ts k lst :
  (k, lst) ∈ by_bucket_of ts -> lst = bucket_events k ts.
Proof.
  intros Hin. apply od_get_elem in Hin; [|apply by_bucket_NoDup].
  unfold by_bucket_of in Hin. rewrite od_get_by_bucket_from in Hin.
  destruct (bucket_events k ts); [done|]. by injection Hin as <-.
Qed.

(** The events that share a user (or a host) and a 10-minute span form a
    bucket. *)
Lemma bucket_events_in_by_bucket ts k :
  bucket_events k ts <> [] -> (k, bucket_events k ts) ∈ by_bucket_of ts.
Proof.
  intros Hne. apply od_get_Some_elem. unfold by_bucket_of.
  rewrite od_get_by_bucket_from. by destruct (bucket_events k ts).
Qed.

Lemma is_error_status_spec (x : norm_event) :
  is_error_status x = true
  <-> exists z, ev_status x = Some z /\ 400 <= z < 600.
Proof.
  unfold is_error_status. destruct (ev_status x) as [z|]; split.
  - rewrite !andb_true_iff, Z.leb_le, Z.ltb_lt. intros [[_ H1] H2].
    exists z. by split.
  - intros (z' & [= <-] & H1 & H2).
    rewrite !andb_true_iff, negb_true_iff, Z.eqb_neq, Z.leb_le, Z.ltb_lt. lia.
  - done.
  - by intros (z & H & _).
Qed.

Section ErrorRate.
Context {rt : PyRuntime}.

Lemma bucket_ratio_13_20 lst :
  length lst = 20%nat -> bucket_errors lst = 13%nat ->
  bucket_ratio lst = f_0_65.
Proof. intros H1 H2. unfold bucket_ratio. rewrite H1, H2. by vm_compute. Qed.

(** The pass visits each bucket once, and what a bucket yields depends
    on its number of events and of errors only. *)
Lemma error_bucket_thresholds (ts : list (datetime * norm_event)) :
  _high_error_rate ts = concat (error_bucket_findings <$> by_bucket_of ts)
  /\ NoDup ((by_bucket_of ts).*1)
  /\ (forall (k : error_key) (lst : list norm_event),
        (k, lst) ∈ by_bucket_of ts ->
        lst = bucket_events k ts
        /\ (length lst = 20%nat -> bucket_errors lst = 13%nat ->
            error_bucket_findings (k, lst) = [error_finding k lst]
            /\ score (error_finding k lst) = f_0_75)
        /\ ((length lst <= 19)%nat -> error_bucket_findings (k, lst) = [])
        /\ (forall f, f ∈ error_bucket_findings (k, lst) ->
              score f = f_0_82 ->
              SFleb f_0_8 (bucket_ratio lst) = true))
  /\ (forall k : error_key,
        length (bucket_events k ts) = 20%nat ->
        bucket_errors (bucket_events k ts) = 13%nat ->
        error_finding k (bucket_events k ts) ∈ _high_error_rate ts).
Proof.
  assert (forall k lst, length lst = 20%nat -> bucket_errors lst = 13%nat ->
            error_bucket_findings (k, lst) = [error_finding k lst]
            /\ score (error_finding k lst) = f_0_75) as Hfire.
  { intros k lst H20 H13. unfold error_bucket_findings. rewrite H20.
    cbn [Nat.ltb Nat.leb ERROR_RATE_MIN_EVENTS].
    destruct k as [[knd who] b]. cbn [score error_finding].
    rewrite (bucket_ratio_13_20 lst H20 H13). by vm_compute. }
  split; [done|]. split; [apply by_bucket_NoDup|]. split.
  - intros k lst Hin. split; [by apply by_bucket_events|].
    split; [apply Hfire|]. split.
    + intros H19. unfold error_bucket_findings.
      by rewrite (proj2 (Nat.ltb_lt _ _))
        by (unfold ERROR_RATE_MIN_EVENTS; lia).
    + intros f Hf Hs. unfold error_bucket_findings in Hf.
      destruct (length lst <? ERROR_RATE_MIN_EVENTS)%nat;
        [by apply elem_of_nil in Hf|].
      destruct (SFleb ERROR_RATE_THRESHOLD (bucket_ratio lst));
        [|by apply elem_of_nil in Hf].
      apply list_elem_of_singleton in Hf as ->.
      destruct k as [[knd who] b]. cbn [score error_finding] in Hs.
      by destruct (SFleb f_0_8 (bucket_ratio lst)).
  - intros k H20 H13. unfold _high_error_rate.
    apply list_elem_of_In, in_concat.
    exists [error_finding k (bucket_events k ts)]. split; [|by left].
    apply list_elem_of_In, list_elem_of_fmap.
    exists (k, bucket_events k ts).
    split; [by rewrite (proj1 (Hfire k _ H20 H13))|].
    apply bucket_events_in_by_bucket. intros E. by rewrite E in H20.
Qed.

End ErrorRate.

(** The start of a bucket is the timestamp floored to ten minutes. *)
Lemma error_bucket_start_floor (t : datetime) :
  dt_wall (error_bucket_start t)
  = dt_wall t - dt_wall t mod (ERROR_RATE_WINDOW_MIN * us_per_minute).
Proof.
  unfold error_bucket_start, dt_minus_minutes, dt_replace_sec0, dt_minute,
    ERROR_RATE_WINDOW_MIN, us_per_minute, us_per_second.
  cbn [dt_wall]. set (w := dt_wall t).
  change (60 * 1000000) with 60000000. change (10 * 60000000) with 600000000.
  pose proof (Z.div_mod w 60000000 ltac:(lia)) as Hw.
  pose proof (Z.mod_pos_bound w 60000000 ltac:(lia)) as Hwb.
  replace (w - w mod 60000000) with (60000000 * (w / 60000000)) by lia.
  rewrite (Z.mul_comm 60000000), Z.div_mul by lia.
  set (q := w / 60000000) in *.
  assert ((q mod 60) mod 10 = q mod 10) as ->.
  { apply Z.mod_mod_divide. by exists 6. }
  assert (w mod 600000000 = 60000000 * (q mod 10) + w mod 60000000) as ->.
  { symmetry. apply (Z.mod_unique_pos _ _ (q / 10)).
    - pose proof (Z.mod_pos_bound q 10 ltac:(lia)). lia.
    - pose proof (Z.div_mod q 10 ltac:(lia)). lia. }
  lia.
Qed.


Section TokenBurst.
Context {rt : PyRuntime}.

(** ** A burst of failed token exchanges *)

Lemma filter_kind_run_passes_token norm c ts :
  List.filter (has_kind "auth.token_fail_burst") (run_passes norm c ts)
  = List.filter (has_kind "auth.token_fail_burst")
                (_token_exchange_failures ts).
Proof.
  set (K := "auth.token_fail_burst").
  assert (pass_of_kind K = Some P_token) as HK by done.
  unfold run_passes. rewrite !List.filter_app.
  rewrite (filter_kind_other_pass K _ _ _ (pwd_mfa_activity_shape norm) HK) by done.
  rewrite (filter_kind_other_pass K _ _ _ (brute_force_shape ts) HK) by done.
  rewrite (filter_kind_other_pass K _ _ _ (blocked_protection_shape norm) HK) by done.
  rewrite (filter_kind_other_pass K _ _ _ (high_risk_source_shape norm) HK) by done.
  rewrite (filter_kind_other_pass K _ _ _ (high_error_rate_shape ts) HK) by done.
  rewrite (filter_kind_other_pass K _ _ _ (rare_ua_shape norm c) HK) by done.
  rewrite (filter_kind_other_pass K _ _ _ (off_hours_logins_shape ts) HK) by done.
  done.
Qed.

Lemma token_step_quiet st t ev host :
  token_failure host (t, ev) ->
  within 300 t (token_window st host ++ entries [(t, ev)]) ->
  (length (token_window st host) + 1 < 15)%nat ->
  token_window (token_step st (t, ev)) host
  = token_window st host ++ entries [(t, ev)]
  /\ (token_step st (t, ev)).2 = st.2.
Proof.
  intros (Hs & Hu & Hh) Hw Hl. cbn [snd] in *.
  change (entries [(t, ev)]) with [(t, ev_event_id ev)] in *.
  destruct st as [win out]. unfold token_step, status_is.
  rewrite Hs, bool_decide_eq_true_2 by done. rewrite Hu, Hh. cbn [negb].
  unfold token_window in *. cbn [fst snd] in *.
  rewrite (win_push_within _ _ _ _ Hw).
  rewrite (proj2 (Nat.leb_gt _ _)) by (rewrite length_app; cbn; lia).
  cbn [fst snd]. by rewrite lookup_insert_eq.
Qed.

Lemma token_step_trigger st t ev host :
  token_failure host (t, ev) ->
  within 300 t (token_window st host ++ entries [(t, ev)]) ->
  (length (token_window st host) + 1 = 15)%nat ->
  token_window (token_step st (t, ev)) host = []
  /\ (token_step st (t, ev)).2
     = st.2 ++ [token_finding (str_or host "<auth>")
                  (token_window st host ++ entries [(t, ev)])].
Proof.
  intros (Hs & Hu & Hh) Hw Hl. cbn [snd] in *.
  change (entries [(t, ev)]) with [(t, ev_event_id ev)] in *.
  destruct st as [win out]. unfold token_step, status_is.
  rewrite Hs, bool_decide_eq_true_2 by done. rewrite Hu, Hh. cbn [negb].
  unfold token_window in *. cbn [fst snd] in *.
  rewrite (win_push_within _ _ _ _ Hw).
  rewrite (proj2 (Nat.leb_le _ _)) by (rewrite length_app; cbn; lia).
  cbn [fst snd]. by rewrite lookup_insert_eq.
Qed.

Lemma token_run_quiet host l : forall st,
  Forall (token_failure host) l ->
  calm 300 (token_window st host) l ->
  (length (token_window st host) + length l < 15)%nat ->
  token_window (foldl token_step st l) host
  = token_window st host ++ entries l
  /\ (foldl token_step st l).2 = st.2.
Proof.
  induction l as [|[t ev] l IH]; intros st Hl Hc Hlen.
  - cbn. by rewrite app_nil_r.
  - apply Forall_cons in Hl as [Hx Hl]. cbn [calm fst] in Hc.
    destruct Hc as [Hw Hc]. cbn [length] in Hlen.
    destruct (token_step_quiet st t ev host Hx Hw) as (Ew & Eo); [lia|].
    cbn [foldl].
    destruct (IH (token_step st (t, ev)) Hl) as (Ew' & Eo').
    + by rewrite Ew.
    + rewrite Ew, length_app. cbn. lia.
    + rewrite Ew', Eo', Ew, Eo, <- !app_assoc. done.
Qed.

(** Between 15 and 29 failed token exchanges at one host, one second
    apart: the fifteenth fills the window, which is then cleared. *)
Lemma token_burst T host tl :
  (15 <= length tl < 30)%nat ->
  stamped T 0 tl -> Forall (token_failure host) tl ->
  _token_exchange_failures tl
  = [token_finding (str_or host "<auth>") (entries (take 15 tl))].
Proof.
  intros Hlen Hst Hfl.
  destruct (lookup_lt_is_Some_2 tl 14) as [[t ev] Hx]; [lia|].
  pose proof (take_drop_middle tl 14 _ Hx) as Hsplit.
  unfold _token_exchange_failures.
  rewrite <- Hsplit at 1. rewrite foldl_app. cbn [foldl].
  set (st0 := (∅, []) : gmap string window * list finding).
  assert (token_window st0 host = []) as Hw0 by done.
  assert (length (take 14 tl) = 14%nat) as Hl14 by (rewrite length_take; lia).
  destruct (token_run_quiet host (take 14 tl) st0) as (Ew1 & Eo1).
  { by apply Forall_take. }
  { rewrite Hw0. apply (calm_stamped T _ _ 0);
      [lia|rewrite Hl14; lia|constructor|].
    by apply stamped_take. }
  { rewrite Hw0, Hl14. cbn. lia. }
  rewrite Hw0 in Ew1. cbn [app snd st0] in Ew1, Eo1.
  set (st1 := foldl token_step st0 (take 14 tl)) in *.
  assert (t = dt_plus_seconds T 14) as Ht.
  { exact (Hst 14%nat _ Hx). }
  assert (since T (entries (take 14 tl) ++ entries [(t, ev)])) as Hsince.
  { apply Forall_app. split.
    - apply (stamped_since T 0); [lia|by apply stamped_take].
    - repeat constructor. exists 14. by split. }
  destruct (token_step_trigger st1 t ev host) as (Ew2 & Eo2).
  { rewrite Forall_forall in Hfl. apply Hfl. by eapply list_elem_of_lookup_2. }
  { rewrite Ew1, Ht. apply (within_since T); [lia|]. by rewrite <- Ht. }
  { rewrite Ew1. unfold entries. rewrite length_fmap, Hl14. done. }
  set (st2 := token_step st1 (t, ev)) in *.
  assert (length (drop 15 tl) < 15)%nat as Hl15 by (rewrite length_drop; lia).
  destruct (token_run_quiet host (drop 15 tl) st2) as (_ & Eo3).
  { by apply Forall_drop. }
  { rewrite Ew2. apply (calm_stamped T _ _ 15); [lia| |constructor|].
    - lia.
    - apply (stamped_drop T 0 15). done. }
  { rewrite Ew2. cbn. lia. }
  rewrite Eo3, Eo2, Eo1, Ew1. cbn [app].
  assert (entries (take 14 tl) ++ entries [(t, ev)] = entries (take 15 tl)) as ->.
  { unfold entries. rewrite <- fmap_app. f_equal.
    rewrite <- Hsplit at 2.
    change ((t, ev) :: drop 15 tl) with ([(t, ev)] ++ drop 15 tl).
    rewrite app_assoc, take_app_length'; [done|].
    by rewrite length_app, Hl14. }
  done.
Qed.

Lemma token_burst_findings T url es :
  (15 <= length es < 30)%nat -> token_failure_burst T url es ->
  exists out,
    detect_anomalies es = Ok out
    /\ List.filter (has_kind "auth.token_fail_burst") out
       = [token_finding (str_or (_host url) "<auth>")
            (entries (take 15 (burst_view T 0 es)))].
Proof.
  intros Hlen [Hurl H].
  assert (time_sorted_of (normalize <$> es) = Ok (burst_view T 0 es)) as Hts.
  { unfold time_sorted_of. rewrite (burst_view_omap T es 0).
    + apply (py_sorted_from_ascending []).
      apply (ascending_stamped T _ 0); [constructor|apply burst_view_stamped].
    + intros i e Hi. by destruct (H i e Hi). }
  assert (Forall (token_failure (_host url)) (burst_view T 0 es)) as Hfl.
  { apply Forall_forall. intros tev Hin. unfold burst_view in Hin.
    apply elem_of_lookup_imap_1 in Hin as (i & e & -> & Hi).
    destruct (H i e Hi) as (_ & Hs & Hu).
    unfold token_failure. cbn [snd normalize ev_status ev_url ev_host].
    by rewrite Hs, Hu. }
  unfold detect_anomalies. destruct es as [|e es]; [cbn in Hlen; lia|].
  rewrite Hts. cbn [mbind result_bind]. eexists. split; [done|].
  rewrite dedupe_filter_kind, filter_kind_run_passes_token.
  rewrite (token_burst T (_host url)); [done| | |done].
  - unfold burst_view. by rewrite length_imap.
  - apply burst_view_stamped.
Qed.

End TokenBurst.


(** ** The engine on small inputs *)

Section Runs.
#[local] Existing Instance Sample.runtime.

Example as_int_examples :
  _as_int <$> [AInt 401; AStr " 403 "; AStr "4o3"; ABool true; ANone]
  = [Some 401; Some 403; None; Some 1; None].
Proof. reflexivity. Qed.

Example host_examples :
  _host <$> [None; Some ""; Some "https://Auth.Example.com:443/authorize";
             Some "not a url"]
  = [""; ""; "auth.example.com"; ""].
Proof. reflexivity. Qed.

Example ratio_13_of_20 : f64_div (f64_of_Z 13) (f64_of_Z 20) = f_0_65.
Proof. reflexivity. Qed.

(** A risk that is not a number scores 0, an infinite one 1. *)
Example risk_score_nan : risk_score S754_nan = f_0_0.
Proof. reflexivity. Qed.

Example risk_score_inf : risk_score (S754_infinity false) = f_1_0.
Proof. reflexivity. Qed.

Example risk_value_examples :
  risk_value <$> ["login risk=0.5; reason=geo"; "risk=high"; "risk="]
  = [f64_div (f64_of_Z 1) (f64_of_Z 2); f_0_9; f_0_9].
Proof. reflexivity. Qed.

(** 05:59 is off-hours, 06:00 is not; an identifier 0 is dropped. *)
Example off_hours_boundary :
  List.filter (has_kind "auth.offhours") <$>
    detect_anomalies
      [Examples.login_at (5 * 3600 + 59 * 60) "ok" (AInt 1);
       Examples.login_at (6 * 3600) "ok" (AInt 2);
       Examples.login_at (2 * 3600) "ok" (AInt 0)]
  = Ok [off_hours_finding [AInt 1]].
Proof. reflexivity. Qed.

(** One event can feed several passes. *)
Example risky_and_rare :
  (fun l : list finding => kind <$> l) <$>
    detect_anomalies
      [Examples.login_at 43200 "login from tor exit, RISK=0.9" (AInt 7)]
  = Ok ["auth.high_risk"; "web.rare_ua"].
Proof. reflexivity. Qed.

(** The canonical form of a meta lists its items by key. *)
Example freeze_sorts_keys :
  _freeze (VDict (meta Examples.meta_ba))
  = VTuple [VTuple [VStr "event_ids"; VTuple [VInt 7]];
            VTuple [VStr "status"; VInt 403]].
Proof. reflexivity. Qed.

End Runs.

Section WindowFindings.
Context {rt : PyRuntime}.

(** ** Findings of the sliding-window passes *)

Lemma window_ids_length q : (length (window_ids q) <= length q)%nat.
Proof.
  unfold window_ids, slice_to. rewrite length_take.
  etransitivity; [apply Nat.le_min_r|].
  etransitivity; [apply List.filter_length_le|]. by rewrite length_fmap.
Qed.

(** The findings of the three sliding-window kinds are built from the
    window that triggered them. *)
Lemma window_finding_inv p f :
  built_by p f ->
  kind f = "auth.bruteforce_user" \/ kind f = "auth.bruteforce_pair"
  \/ kind f = "auth.token_fail_burst" ->
  exists q : window,
    (BRUTE_FORCE_MIN_FAILS <= length q)%nat
    /\ dict_get "failures" (meta f) = Some (VInt (Z.of_nat (length q)))
    /\ dict_get "event_ids" (meta f) = Some (ids_value (window_ids q)).
Proof.
  destruct 1 as [| |k q Hq|k q Hq| | | |[[knd who] b] lst| | |host q Hq];
    cbn [kind pwd_finding mfa_finding blocked_finding high_risk_finding
         tor_finding error_finding rare_ua_finding off_hours_finding];
    intros [Hk|[Hk|Hk]]; try discriminate Hk; exists q;
    (split; [unfold BRUTE_FORCE_MIN_FAILS in *; lia|done]).
Qed.

Lemma silent_burst_is_burst :
  failed_login_burst (mk_datetime Examples.t_2024 None)
    (Some "alice") (Some "10.0.0.1") Examples.silent_burst.
Proof.
  intros i e Hi. unfold Examples.silent_burst in Hi.
  apply list_lookup_imap_Some in Hi as (u & _ & ->). by repeat split.
Qed.

Lemma silent_token_burst_is_burst :
  token_failure_burst (mk_datetime Examples.t_2024 None)
    (Some "https://auth.warptrace.corp/oauth/token")
    Examples.silent_token_burst.
Proof.
  split; [reflexivity|]. intros i e Hi.
  unfold Examples.silent_token_burst in Hi.
  apply list_lookup_imap_Some in Hi as (u & _ & ->). by repeat split.
Qed.

(** C10.  In every [auth.bruteforce_user], [auth.bruteforce_pair] and
    [auth.token_fail_burst] finding that [detect_anomalies] returns,
    [failures] is the number of entries of the triggering window, with or
    without identifier, and [event_ids] lists the identifiers of that
    window that are not [None]; so [failures] is at least the length of
    [event_ids].  Events without identifier reach the thresholds by
    themselves: ten failed logins give a user and a pair finding, fifteen
    failed token exchanges a token finding, each with an empty
    [event_ids]. *)
Theorem window_findings_count_every_failure :
  (forall (events : list raw_event) (out : list finding) (f : finding),
     detect_anomalies events = Ok out -> f ∈ out ->
     kind f = "auth.bruteforce_user" \/ kind f = "auth.bruteforce_pair"
     \/ kind f = "auth.token_fail_burst" ->
     exists q : window,
       (BRUTE_FORCE_MIN_FAILS <= length q)%nat
       /\ dict_get "failures" (meta f) = Some (VInt (Z.of_nat (length q)))
       /\ dict_get "event_ids" (meta f)
          = Some (ids_value
                    (slice_to 50
                       (List.filter (fun i => negb (is_none i)) (snd <$> q))))
       /\ (length (slice_to 50
                     (List.filter (fun i => negb (is_none i)) (snd <$> q)))
           <= length q)%nat)
  /\ (exists (events : list raw_event) (out : list finding) (fu fp : finding),
        Forall (fun e => ev_event_id (normalize e) = ANone) events
        /\ detect_anomalies events = Ok out
        /\ List.filter (has_kind "auth.bruteforce_user") out = [fu]
        /\ List.filter (has_kind "auth.bruteforce_pair") out = [fp]
        /\ dict_get "failures" (meta fu) = Some (VInt 10)
        /\ dict_get "event_ids" (meta fu) = Some (ids_value [])
        /\ dict_get "failures" (meta fp) = Some (VInt 10)
        /\ dict_get "event_ids" (meta fp) = Some (ids_value []))
  /\ (exists (events : list raw_event) (out : list finding) (ft : finding),
        Forall (fun e => ev_event_id (normalize e) = ANone) events
        /\ detect_anomalies events = Ok out
        /\ List.filter (has_kind "auth.token_fail_burst") out = [ft]
        /\ dict_get "failures" (meta ft) = Some (VInt 15)
        /\ dict_get "event_ids" (meta ft) = Some (ids_value [])).
Proof.
  split; [|split].
  - intros events out f Hout Hf Hk.
    apply detect_anomalies_shape in Hout. rewrite Forall_forall in Hout.
    destruct (Hout f Hf) as [p Hp].
    destruct (window_finding_inv p f Hp Hk) as (q & H0 & H1 & H2).
    exists q. split; [done|]. split; [done|]. split; [done|].
    apply window_ids_length.
  - destruct (burst_findings (mk_datetime Examples.t_2024 None)
                (Some "alice") (Some "10.0.0.1") Examples.silent_burst)
      as (out & Hout & Hu & Hp); [cbv; lia|apply silent_burst_is_burst|].
    eexists Examples.silent_burst, out, _, _.
    split; [by repeat constructor|].
    split; [exact Hout|]. split; [exact Hu|]. split; [exact Hp|].
    by repeat split.
  - destruct (token_burst_findings (mk_datetime Examples.t_2024 None)
                (Some "https://auth.warptrace.corp/oauth/token")
                Examples.silent_token_burst)
      as (out & Hout & Ht); [cbv; lia|apply silent_token_burst_is_burst|].
    eexists Examples.silent_token_burst, out, _.
    split; [by repeat constructor|].
    split; [exact Hout|]. split; [exact Ht|].
    by repeat split.
Qed.

End WindowFindings.

(** C10, an instance: the findings returned for ten failed logins without
    identifier, run on the sample runtime. *)
Lemma window_findings_count_every_failure_witness :
  Forall
    (fun f =>
       kind f = "auth.bruteforce_user" \/ kind f = "auth.bruteforce_pair"
       \/ kind f = "auth.token_fail_burst" ->
       exists q : window,
         (BRUTE_FORCE_MIN_FAILS <= length q)%nat
         /\ dict_get "failures" (meta f) = Some (VInt (Z.of_nat (length q)))
         /\ dict_get "event_ids" (meta f)
            = Some (ids_value
                      (slice_to 50
                         (List.filter (fun i => negb (is_none i))
                                      (snd <$> q))))
         /\ (length (slice_to 50
                       (List.filter (fun i => negb (is_none i)) (snd <$> q)))
             <= length q)%nat)
    (try_except (detect_anomalies (rt := Sample.runtime)
                   Examples.silent_burst) []).
Proof.
  apply Forall_forall. intros f.
  apply (proj1 (window_findings_count_every_failure (rt := Sample.runtime))
           Examples.silent_burst).
  vm_compute. reflexivity.
Defined.

(* ===================================================================== *)
(** * Further properties of the engine *)
(* ===================================================================== *)

(** ** When [detect_anomalies] raises *)

Section Awareness.
Context {rt : PyRuntime}.

Lemma one_awareness_dec (w : bool) (events : list raw_event) :
  one_awareness w events
  \/ exists e t, e ∈ events /\ _as_dt (e_ts e) = Some t /\ dt_aware t <> w.
Proof.
  induction events as [|e events IH].
  - left. constructor.
  - destruct IH as [IH|(e' & t & He' & Ht & Hw)].
    + destruct (_as_dt (e_ts e)) as [t|] eqn:E.
      * destruct (decide (dt_aware t = w)) as [Hw|Hw].
        -- left. constructor; [|done]. intros t' Ht'. congruence.
        -- right. exists e, t. split; [left|done].
      * left. constructor; [|done]. intros t' Ht'. congruence.
    + right. exists e', t. split; [by right|done].
Qed.

Lemma awareness_cases (events : list raw_event) :
  (exists w, one_awareness w events) \/ mixed_awareness events.
Proof.
  destruct (one_awareness_dec true events) as [H|(e1 & t1 & H1 & Ht1 & Hw1)];
    [left; by exists true|].
  destruct (one_awareness_dec false events) as [H|(e2 & t2 & H2 & Ht2 & Hw2)];
    [left; by exists false|].
  right. exists e1, e2, t1, t2. repeat split; try done.
  destruct (dt_aware t1), (dt_aware t2); congruence.
Qed.

Lemma awareness_exclusive w (events : list raw_event) :
  one_awareness w events -> mixed_awareness events -> False.
Proof.
  intros H (e1 & e2 & t1 & t2 & H1 & H2 & Ht1 & Ht2 & Hne).
  unfold one_awareness in H. rewrite Forall_forall in H.
  apply Hne. rewrite (H e1 H1 t1 Ht1), (H e2 H2 t2 Ht2). done.
Qed.

(** With text fields that are strings or absent, the call returns
    exactly when the timestamps read from the batch are all aware or all
    naive, and otherwise raises [TypeError], from [sorted]. *)
Lemma detect_anomalies_outcome (events : list raw_event) :
  ((exists out, detect_anomalies events = Ok out)
   <-> exists w, one_awareness w events)
  /\ (detect_anomalies events = Raise TypeError <-> mixed_awareness events)
  /\ (forall e, detect_anomalies events = Raise e -> e = TypeError).
Proof.
  assert (mixed_awareness events -> detect_anomalies events = Raise TypeError)
    as Hmixed.
  { intros (e1 & e2 & t1 & t2 & H1 & H2 & Ht1 & Ht2 & Hne).
    exact (detect_anomalies_mixed events e1 e2 t1 t2 H1 H2 Ht1 Ht2 Hne). }
  assert ((exists w, one_awareness w events) ->
          exists out, detect_anomalies events = Ok out) as Hone.
  { intros [w Hw]. exact (detect_anomalies_returns w events Hw). }
  split; [|split].
  - split; [|done]. intros [out Hout].
    destruct (awareness_cases events) as [H|H]; [done|].
    rewrite (Hmixed H) in Hout. done.
  - split; [|done]. intros Hr.
    destruct (awareness_cases events) as [H|H]; [|done].
    destruct (Hone H) as [out Hout]. congruence.
  - intros e Hr. destruct (awareness_cases events) as [H|H].
    + destruct (Hone H) as [out Hout]. congruence.
    + rewrite (Hmixed H) in Hr. congruence.
Qed.

End Awareness.

(** ** The time-sorted view *)

Lemma at_instant_app k l1 l2 :
  at_instant k (l1 ++ l2) = at_instant k l1 ++ at_instant k l2.
Proof. unfold at_instant. apply List.filter_app. Qed.

Lemma at_instant_later k (x : datetime * norm_event) l :
  dt_instant x.1 = k ->
  Forall (fun y => dt_instant x.1 < dt_instant y.1) l ->
  at_instant k l = [].
Proof.
  intros Hk. induction 1 as [|y l Hy _ IH]; [done|].
  unfold at_instant in *. cbn [List.filter].
  destruct (dt_instant y.1 =? k) eqn:E; [apply Z.eqb_eq in E; lia|done].
Qed.

Lemma insert_sorted_spec x acc acc' :
  insert_sorted ts_lt x acc = Ok acc' ->
  StronglySorted time_le acc ->
  StronglySorted time_le acc'
  /\ Permutation acc' (x :: acc)
  /\ forall k, at_instant k acc' = at_instant k acc ++ at_instant k [x].
Proof.
  revert acc'. induction acc as [|y l IH]; intros acc' Hins Hs.
  - cbn [insert_sorted] in Hins. injection Hins as <-.
    split; [by repeat constructor|]. by split.
  - cbn [insert_sorted] in Hins.
    destruct (decide (dt_aware x.1 = dt_aware y.1)) as [Ha|Ha];
      [rewrite (ts_lt_same x y Ha) in Hins
      |rewrite (ts_lt_mixed x y Ha) in Hins; by cbn in Hins].
    cbn [mbind result_bind] in Hins.
    apply StronglySorted_inv in Hs as [Hl Hy].
    destruct (dt_instant x.1 <? dt_instant y.1) eqn:E.
    + apply Z.ltb_lt in E. injection Hins as <-.
      split; [|split; [done|]].
      * constructor; [by constructor|].
        constructor; [unfold time_le; lia|].
        eapply Forall_impl; [exact Hy|]. unfold time_le. intros z Hz. lia.
      * intros k. change (x :: y :: l) with ([x] ++ y :: l).
        rewrite at_instant_app.
        destruct (decide (dt_instant x.1 = k)) as [Hk|Hk].
        -- rewrite (at_instant_later k x (y :: l)); [by rewrite app_nil_r|done|].
           constructor; [done|].
           eapply Forall_impl; [exact Hy|]. unfold time_le. intros z Hz. lia.
        -- assert (at_instant k [x] = []) as ->; [|by rewrite app_nil_r].
           unfold at_instant. cbn [List.filter].
           destruct (dt_instant x.1 =? k) eqn:E'; [|done].
           apply Z.eqb_eq in E'. done.
    + apply Z.ltb_ge in E.
      destruct (insert_sorted ts_lt x l) as [r|] eqn:Er; [|done].
      cbn [mbind result_bind] in Hins. injection Hins as <-.
      destruct (IH r eq_refl Hl) as (Hr & Hp & Hk).
      split; [|split].
      * constructor; [done|].
        apply Forall_forall. intros z Hz.
        rewrite Hp in Hz. apply elem_of_cons in Hz as [->|Hz];
          [done|]. rewrite Forall_forall in Hy. by apply Hy.
      * rewrite Hp. apply perm_swap.
      * intros k. change (y :: r) with ([y] ++ r).
        change (y :: l) with ([y] ++ l).
        rewrite !at_instant_app, Hk. by rewrite app_assoc.
Qed.

Lemma py_sorted_from_spec l : forall acc s,
  py_sorted_from ts_lt acc l = Ok s ->
  StronglySorted time_le acc ->
  StronglySorted time_le s
  /\ Permutation s (acc ++ l)
  /\ forall k, at_instant k s = at_instant k acc ++ at_instant k l.
Proof.
  induction l as [|x l IH]; intros acc s Hs Hacc.
  - cbn [py_sorted_from] in Hs. injection Hs as <-.
    rewrite app_nil_r. repeat split; try done.
    intros k. by rewrite app_nil_r.
  - cbn [py_sorted_from] in Hs.
    destruct (insert_sorted ts_lt x acc) as [acc'|] eqn:E; [|done].
    cbn [mbind result_bind] in Hs.
    destruct (insert_sorted_spec x acc acc' E Hacc) as (H1 & H2 & H3).
    destruct (IH acc' s Hs H1) as (H4 & H5 & H6).
    split; [done|]. split.
    + rewrite H5, H2. cbn [app]. apply Permutation_middle.
    + intros k. rewrite H6, H3.
      change (x :: l) with ([x] ++ l). by rewrite at_instant_app, app_assoc.
Qed.

Lemma time_sorted_spec norm ts :
  time_sorted_of norm = Ok ts ->
  StronglySorted time_le ts
  /\ Permutation ts (timestamped norm)
  /\ forall k, at_instant k ts = at_instant k (timestamped norm).
Proof.
  intros H. apply py_sorted_from_spec in H; [|constructor].
  destruct H as (H1 & H2 & H3). done.
Qed.

(** X2.  [time_sorted] holds exactly the events that have a timestamp,
    each once, in ascending order of time; events with the same timestamp
    keep the order in which the batch lists them. *)
Theorem time_sorted_is_stable_sort (norm : list norm_event)
    (ts : list (datetime * norm_event)) :
  time_sorted_of norm = Ok ts ->
  Permutation ts (timestamped norm)
  /\ StronglySorted time_le ts
  /\ forall k, at_instant k ts = at_instant k (timestamped norm).
Proof. intros H. apply time_sorted_spec in H. tauto. Qed.

(** ** Sliding windows *)

Lemma time_sorted_snoc_inv (pre : list (datetime * norm_event)) x :
  StronglySorted time_le (pre ++ [x]) ->
  StronglySorted time_le pre /\ Forall (fun y => time_le y x) pre.
Proof.
  induction pre as [|y pre IH]; cbn [app]; intros H; [by split; constructor|].
  apply StronglySorted_inv in H as [H1 H2].
  destruct (IH H1) as [H3 H4].
  apply Forall_app in H2 as [H5 H6].
  split; [by constructor|]. constructor; [|done].
  rewrite Forall_singleton in H6. exact H6.
Qed.

Lemma time_sorted_snoc (l : list (datetime * norm_event)) x :
  StronglySorted time_le l -> Forall (fun y => time_le y x) l ->
  StronglySorted time_le (l ++ [x]).
Proof.
  induction 1 as [|y l Hl IH Hy]; cbn [app]; intros H.
  - by repeat constructor.
  - apply Forall_cons in H as [H1 H2].
    constructor; [by apply IH|]. apply Forall_app. split; [done|].
    by apply Forall_singleton.
Qed.

Lemma time_sorted_app_l (l1 l2 : list (datetime * norm_event)) :
  StronglySorted time_le (l1 ++ l2) -> StronglySorted time_le l1.
Proof.
  induction l1 as [|y l1 IH]; cbn [app]; intros H; [constructor|].
  apply StronglySorted_inv in H as [H1 H2].
  apply Forall_app in H2 as [H3 _]. constructor; [by apply IH|done].
Qed.

Lemma time_sorted_sublist (l' l : list (datetime * norm_event)) :
  sublist l' l -> StronglySorted time_le l -> StronglySorted time_le l'.
Proof.
  induction 1 as [|x l1 l2 Hsub IH|x l1 l2 Hsub IH]; intros H; [done|..].
  - apply StronglySorted_inv in H as [H1 H2].
    constructor; [by apply IH|].
    apply Forall_forall. intros y Hy. rewrite Forall_forall in H2.
    apply H2. by eapply elem_of_sublist.
  - apply StronglySorted_inv in H as [H1 _]. by apply IH.
Qed.

Lemma Forall_sublist_of {A} (P : A -> Prop) (l' l : list A) :
  sublist l' l -> Forall P l -> Forall P l'.
Proof.
  intros Hsub H. apply Forall_forall. intros y Hy.
  rewrite Forall_forall in H. apply H. by eapply elem_of_sublist.
Qed.

Lemma entries_app l1 l2 : entries (l1 ++ l2) = entries l1 ++ entries l2.
Proof. unfold entries. apply fmap_app. Qed.

Lemma entries_length l : length (entries l) = length l.
Proof. unfold entries. apply length_fmap. Qed.

(** The eviction loop drops a prefix of the window and leaves entries
    that are within the window's length of [t]. *)
Lemma evict_entries t secs (l : list (datetime * norm_event)) :
  StronglySorted time_le l ->
  exists k,
    evict t secs (entries l) = entries (drop k l)
    /\ Forall (fun y => dt_instant t - dt_instant y.1 <= secs * us_per_second)
              (drop k l).
Proof.
  induction l as [|y l IH]; intros Hs.
  - exists 0%nat. by split.
  - apply StronglySorted_inv in Hs as [Hl Hy].
    change (entries (y :: l)) with ((y.1, ev_event_id y.2) :: entries l).
    cbn [evict]. destruct (dt_gap_exceeds t y.1 secs) eqn:E.
    + destruct (IH Hl) as (k & Hk & Hw). by exists (S k).
    + exists 0%nat. split; [done|]. cbn [drop].
      unfold dt_gap_exceeds in E. apply Z.ltb_ge in E.
      constructor; [done|].
      eapply Forall_impl; [exact Hy|]. unfold time_le. intros z Hz. lia.
Qed.

(** The eviction loop keeps every entry that is within the window's
    length of [t]. *)
Lemma evict_keeps t secs (q l : window) :
  sublist l q ->
  Forall (fun e => dt_gap_exceeds t e.1 secs = false) l ->
  sublist l (evict t secs q).
Proof.
  induction q as [|[t0 i] q IH]; intros Hsub Hl; [done|].
  cbn [evict]. destruct (dt_gap_exceeds t t0 secs) eqn:E; [|done].
  apply IH; [|done].
  inversion Hsub as [|x l1 l2 Hs|x l1 l2 Hs]; subst; [|done].
  apply Forall_cons in Hl as [Hl _]. cbn [fst] in Hl. congruence.
Qed.

Lemma win_push_run (P : datetime * norm_event -> Prop) secs pre x q :
  StronglySorted time_le (pre ++ [x]) ->
  run_of P pre q -> P x ->
  exists evs,
    sublist evs (pre ++ [x])
    /\ win_push secs x.1 (ev_event_id x.2) q = entries evs
    /\ Forall P evs
    /\ (length evs <= S (length q))%nat
    /\ forall a b, a ∈ evs -> b ∈ evs ->
         dt_instant a.1 - dt_instant b.1 <= secs * us_per_second.
Proof.
  intros Hs (evs0 & Hsub & -> & HP) Hx.
  apply time_sorted_snoc_inv in Hs as [Hpre Hle].
  unfold win_push. change [(x.1, ev_event_id x.2)] with (entries [x]).
  rewrite <- entries_app.
  assert (Forall (fun y => time_le y x) (evs0 ++ [x])) as Hle'.
  { apply Forall_app. split; [by eapply Forall_sublist_of|].
    apply Forall_singleton. unfold time_le. lia. }
  destruct (evict_entries x.1 secs (evs0 ++ [x])) as (k & -> & Hw).
  { apply time_sorted_snoc; [by eapply time_sorted_sublist|].
    by eapply Forall_sublist_of. }
  exists (drop k (evs0 ++ [x])).
  split; [|split; [done|split; [|split]]].
  - etransitivity; [apply sublist_drop|]. by apply sublist_app.
  - apply Forall_drop, Forall_app. split; [done|by apply Forall_singleton].
  - rewrite length_drop, length_app, entries_length. cbn [length]. lia.
  - intros a b Ha Hb.
    assert (time_le a x) as Hax.
    { rewrite Forall_forall in Hle'. apply Hle'.
      eapply elem_of_sublist; [exact Ha|apply sublist_drop]. }
    rewrite Forall_forall in Hw. specialize (Hw b Hb).
    unfold time_le in Hax. lia.
Qed.

Lemma close_run_snoc secs n pre x evs :
  close_run secs n pre evs -> close_run secs n (pre ++ x) evs.
Proof.
  intros (H1 & H2 & H3). split; [by apply sublist_inserts_r|done].
Qed.

Lemma run_of_snoc P pre x q : run_of P pre q -> run_of P (pre ++ x) q.
Proof.
  intros (evs & H1 & H2 & H3). exists evs.
  split; [by apply sublist_inserts_r|done].
Qed.

(** A pass that keeps one window per key: an entry of [time_sorted] that
    is [relevant] is pushed on the window of its key, and a window that
    has reached [n] entries is reported and cleared. *)
Section WindowPass.
Context {S K : Type} `{EqDecision K}.
Variable wins : S -> K -> window.
Variable outs : S -> list finding.
Variable step : S -> datetime * norm_event -> S.
Variable relevant : datetime * norm_event -> bool.
Variable key : norm_event -> K.
Variable report : K -> window -> finding.
Variable secs : Z.
Variable n : nat.

Hypothesis n_pos : (0 < n)%nat.

Hypothesis step_skip : forall st x,
  relevant x = false ->
  (forall k, wins (step st x) k = wins st k) /\ outs (step st x) = outs st.

Hypothesis step_push : forall st x,
  relevant x = true ->
  let q := win_push secs x.1 (ev_event_id x.2) (wins st (key x.2)) in
  (forall k, k <> key x.2 -> wins (step st x) k = wins st k)
  /\ (if (n <=? length q)%nat
      then wins (step st x) (key x.2) = []
           /\ outs (step st x) = outs st ++ [report (key x.2) q]
      else wins (step st x) (key x.2) = q
           /\ outs (step st x) = outs st).

#[local] Abbreviation filed := (filed_under relevant key).
#[local] Abbreviation reported := (reported_by relevant key report secs n).
#[local] Abbreviation pass_inv :=
  (window_pass_inv wins outs relevant key report secs n).

Lemma reported_snoc pre x f : reported pre f -> reported (pre ++ x) f.
Proof.
  intros (k & evs & H1 & H2 & H3). exists k, evs.
  split; [done|]. split; [by apply close_run_snoc|done].
Qed.

Lemma pass_inv_step pre st x :
  pass_inv pre st ->
  StronglySorted time_le (pre ++ [x]) ->
  pass_inv (pre ++ [x]) (step st x).
Proof.
  intros [Hw Ho] Hs. unfold window_pass_inv.
  destruct (relevant x) eqn:Hrel.
  - destruct (step_push st x Hrel) as [Hother Hkey]. cbv zeta in Hkey.
    destruct (Hw (key x.2)) as [Hlen Hrun].
    destruct (win_push_run (filed (key x.2)) secs pre x _ Hs Hrun)
      as (evs & Hsub & Hq & HP & Hle & Hgap); [by split|].
    rewrite Hq in Hkey. rewrite entries_length in Hkey.
    split.
    + intros k. destruct (decide (k = key x.2)) as [->|Hk].
      * destruct (n <=? length evs)%nat eqn:E.
        -- destruct Hkey as [-> _]. cbn [length]. split; [done|].
           exists []. split; [apply sublist_nil_l|]. by split.
        -- destruct Hkey as [-> _]. apply Nat.leb_gt in E.
           rewrite entries_length. split; [done|]. by exists evs.
      * rewrite (Hother k Hk). destruct (Hw k) as [H1 H2].
        split; [done|by apply run_of_snoc].
    + destruct (n <=? length evs)%nat eqn:E.
      * destruct Hkey as [_ ->]. apply Nat.leb_le in E.
        apply Forall_app. split.
        -- eapply Forall_impl; [exact Ho|]. intros f. apply reported_snoc.
        -- apply Forall_singleton. exists (key x.2), evs.
           split; [done|]. split; [|done].
           split; [done|]. split; [lia|done].
      * destruct Hkey as [_ ->].
        eapply Forall_impl; [exact Ho|]. intros f. apply reported_snoc.
  - destruct (step_skip st x Hrel) as [Hsame ->]. split.
    + intros k. rewrite Hsame. destruct (Hw k) as [H1 H2].
      split; [done|by apply run_of_snoc].
    + eapply Forall_impl; [exact Ho|]. intros f. apply reported_snoc.
Qed.

Lemma pass_inv_run rest : forall pre st,
  pass_inv pre st ->
  StronglySorted time_le (pre ++ rest) ->
  pass_inv (pre ++ rest) (foldl step st rest).
Proof.
  induction rest as [|x rest IH]; intros pre st Hinv Hs; cbn [foldl].
  - by rewrite app_nil_r.
  - rewrite (cons_middle x pre rest), app_assoc in Hs |- *.
    apply IH; [|done]. apply pass_inv_step; [done|].
    by eapply time_sorted_app_l.
Qed.

(** Soundness: every reported window holds [n] relevant entries of one
    key that lie within [secs] seconds. *)
Lemma pass_sound init ts :
  (forall k, wins init k = []) -> outs init = [] ->
  StronglySorted time_le ts ->
  Forall (reported ts) (outs (foldl step init ts)).
Proof.
  intros Hw Ho Hs.
  destruct (pass_inv_run ts [] init) as [_ H]; [|done|done].
  split; [|by rewrite Ho].
  intros k. rewrite Hw. split; [done|].
  exists []. split; [apply sublist_nil_l|]. by split.
Qed.

Lemma outs_step_mono st x f : f ∈ outs st -> f ∈ outs (step st x).
Proof.
  intros Hf. destruct (relevant x) eqn:Hrel.
  - destruct (step_push st x Hrel) as [_ Hkey]. cbv zeta in Hkey.
    destruct (n <=? _)%nat; destruct Hkey as [_ ->]; [|done].
    apply elem_of_app. by left.
  - by destruct (step_skip st x Hrel) as [_ ->].
Qed.

Lemma outs_run_mono rest : forall st f,
  f ∈ outs st -> f ∈ outs (foldl step st rest).
Proof.
  induction rest as [|x rest IH]; intros st f Hf; cbn [foldl]; [done|].
  by apply IH, outs_step_mono.
Qed.

Lemma wins_step_short st x k :
  (length (wins st k) < n)%nat -> (length (wins (step st x) k) < n)%nat.
Proof.
  intros Hk. destruct (relevant x) eqn:Hrel.
  - destruct (step_push st x Hrel) as [Hother Hkey]. cbv zeta in Hkey.
    destruct (decide (k = key x.2)) as [->|Hne]; [|by rewrite Hother].
    destruct (n <=? _)%nat eqn:E; destruct Hkey as [-> _]; [done|].
    by apply Nat.leb_gt in E.
  - destruct (step_skip st x Hrel) as [Hsame _]. by rewrite Hsame.
Qed.

Lemma push_keeps st x k (qA : window) :
  relevant x = true -> key x.2 = k ->
  sublist qA (wins st k ++ [(x.1, ev_event_id x.2)]) ->
  Forall (fun e => dt_gap_exceeds x.1 e.1 secs = false) qA ->
  (exists q, report k q ∈ outs (step st x))
  \/ sublist qA (wins (step st x) k).
Proof.
  intros Hrel Hkey Hsub Hgap.
  destruct (step_push st x Hrel) as [_ Hstep]. cbv zeta in Hstep.
  rewrite Hkey in Hstep.
  destruct (n <=? _)%nat.
  - destruct Hstep as [_ ->]. left. eexists.
    apply elem_of_app. right. left.
  - destruct Hstep as [-> _]. right. unfold win_push. by apply evict_keeps.
Qed.

(** Completeness: [n] relevant entries of one key that lie within [secs]
    seconds are reported, or entries among them are. *)
Lemma pass_complete_from k T rest : forall st (qA : window) evsB,
  (length (wins st k) < n)%nat ->
  StronglySorted time_le rest ->
  sublist evsB rest ->
  Forall (filed k) evsB ->
  Forall (fun b => 0 <= T - dt_instant b.1 <= secs * us_per_second) evsB ->
  sublist qA (wins st k) ->
  Forall (fun e => T - dt_instant e.1 <= secs * us_per_second) qA ->
  (n <= length qA + length evsB)%nat ->
  exists q, report k q ∈ outs (foldl step st rest).
Proof.
  induction rest as [|x rest IH];
    intros st qA evsB Hshort Hs HB Hfiled HT HA HTA Hn.
  - apply sublist_nil_r in HB. subst evsB. cbn [length] in Hn.
    apply sublist_length in HA. lia.
  - destruct evsB as [|b evsB].
    { apply sublist_length in HA. cbn [length] in Hn. lia. }
    apply StronglySorted_inv in Hs as [Hs Hx]. cbn [foldl].
    pose proof HT as HT0. apply Forall_cons in HT0 as [HbT _].
    assert (dt_instant x.1 <= T ->
            Forall (fun e => dt_gap_exceeds x.1 e.1 secs = false) qA) as Hgap.
    { intros HxT. eapply Forall_impl; [exact HTA|]. intros e He.
      cbv beta in He. unfold dt_gap_exceeds. apply Z.ltb_ge. lia. }
    apply sublist_cons_r in HB as [HB|(evsB' & [= <- <-] & HB)].
    + (* [x] is not one of the entries *)
      assert (dt_instant x.1 <= T) as HxT.
      { rewrite Forall_forall in Hx.
        assert (time_le x b) as Hxb.
        { apply Hx. eapply elem_of_sublist; [|exact HB]. left. }
        unfold time_le in Hxb. lia. }
      destruct (relevant x) eqn:Hrel.
      * destruct (decide (key x.2 = k)) as [Hkey|Hkey].
        -- destruct (push_keeps st x k qA Hrel Hkey) as [[q Hq]|Hkeep].
           ++ by apply sublist_inserts_r.
           ++ by apply Hgap.
           ++ exists q. by apply outs_run_mono.
           ++ apply (IH (step st x) qA (b :: evsB)); try done.
              by apply wins_step_short.
        -- destruct (step_push st x Hrel) as [Hother _].
           apply (IH (step st x) qA (b :: evsB)); try done.
           ++ by apply wins_step_short.
           ++ rewrite Hother; [done|]. by intros ->.
      * destruct (step_skip st x Hrel) as [Hsame _].
        apply (IH (step st x) qA (b :: evsB)); try done.
        -- by rewrite Hsame.
        -- by rewrite Hsame.
    + (* [x] is the next of the entries *)
      apply Forall_cons in Hfiled as [[Hrel Hkey] Hfiled].
      apply Forall_cons in HT as [_ HT].
      destruct (push_keeps st b k (qA ++ [(b.1, ev_event_id b.2)]) Hrel Hkey)
        as [[q Hq]|Hkeep].
      * by apply sublist_app.
      * apply Forall_app. split; [apply Hgap; lia|].
        apply Forall_singleton. cbn [fst]. unfold dt_gap_exceeds.
        apply Z.ltb_ge. lia.
      * exists q. by apply outs_run_mono.
      * apply (IH (step st b) (qA ++ [(b.1, ev_event_id b.2)]) evsB);
          try done.
        -- by apply wins_step_short.
        -- apply Forall_app. split; [done|].
           apply Forall_singleton. cbn [fst]. lia.
        -- rewrite length_app. cbn [length] in *. lia.
Qed.

Lemma pass_complete init ts k evs :
  (forall k, wins init k = []) ->
  StronglySorted time_le ts ->
  close_run secs n ts evs ->
  Forall (filed k) evs ->
  exists q, report k q ∈ outs (foldl step init ts).
Proof.
  intros Hw Hs (Hsub & Hlen & Hgap) Hfiled.
  destruct (decide (evs = [])) as [->|Hne].
  { cbn [length] in Hlen. lia. }
  destruct (exists_last Hne) as (evs' & z & ->).
  apply (pass_complete_from k (dt_instant z.1) ts init [] (evs' ++ [z]));
    try done.
  - rewrite Hw. cbn [length]. lia.
  - assert (StronglySorted time_le (evs' ++ [z])) as Hs'
      by by eapply time_sorted_sublist.
    apply time_sorted_snoc_inv in Hs' as [_ Hle].
    apply Forall_forall. intros b Hb. split.
    + apply elem_of_app in Hb as [Hb|Hb].
      * rewrite Forall_forall in Hle. specialize (Hle b Hb).
        unfold time_le in Hle. lia.
      * apply list_elem_of_singleton in Hb. subst b. lia.
    + apply Hgap; [|done]. apply elem_of_app. right. left.
  - rewrite Hw. done.
  - cbn [length]. lia.
Qed.

End WindowPass.

(** ** The brute-force pass and the token pass *)

Lemma elem_of_filter_bool {A} (P : A -> bool) (l : list A) (x : A) :
  x ∈ List.filter P l <-> P x = true /\ x ∈ l.
Proof. rewrite !list_elem_of_In, filter_In. tauto. Qed.

Lemma bf_step_skip st x :
  is_failed_login x = false ->
  (forall k, user_windows (bf_step st x) k = user_windows st k)
  /\ (forall k, pair_windows (bf_step st x) k = pair_windows st k)
  /\ bf_out (bf_step st x) = bf_out st.
Proof.
  destruct x as [t ev]. unfold is_failed_login, bf_step. cbn [snd].
  by intros ->.
Qed.

Lemma bf_step_push st x :
  is_failed_login x = true ->
  let qu := win_push BRUTE_FORCE_WINDOW_SEC x.1 (ev_event_id x.2)
              (user_windows st (user_key x.2)) in
  let qp := win_push BRUTE_FORCE_WINDOW_SEC x.1 (ev_event_id x.2)
              (pair_windows st (pair_key x.2)) in
  (forall k, k <> user_key x.2 ->
     user_windows (bf_step st x) k = user_windows st k)
  /\ (forall k, k <> pair_key x.2 ->
        pair_windows (bf_step st x) k = pair_windows st k)
  /\ user_windows (bf_step st x) (user_key x.2)
     = (if (BRUTE_FORCE_MIN_FAILS <=? length qu)%nat then [] else qu)
  /\ pair_windows (bf_step st x) (pair_key x.2)
     = (if (BRUTE_FORCE_MIN_FAILS <=? length qp)%nat then [] else qp)
  /\ bf_out (bf_step st x)
     = bf_out st
       ++ (if (BRUTE_FORCE_MIN_FAILS <=? length qu)%nat
           then [bruteforce_user_finding (user_key x.2) qu] else [])
       ++ (if (BRUTE_FORCE_MIN_FAILS <=? length qp)%nat
           then [bruteforce_pair_finding (pair_key x.2) qp] else []).
Proof.
  destruct x as [t ev]. unfold is_failed_login. cbn [fst snd]. intros H.
  cbv zeta. unfold bf_step. rewrite H. cbn [negb].
  unfold user_windows, pair_windows, user_key, pair_key.
  set (qu := win_push _ _ _ (default [] (win_user st !! _))).
  set (qp := win_push _ _ _ (default [] (win_pair st !! _))).
  destruct (BRUTE_FORCE_MIN_FAILS <=? length qu)%nat;
    destruct (BRUTE_FORCE_MIN_FAILS <=? length qp)%nat;
    cbn [win_user win_pair bf_out];
    rewrite !lookup_insert_eq; cbn [default from_option id];
    (split; [intros k Hk; by rewrite lookup_insert_ne|]);
    (split; [intros k Hk; by rewrite lookup_insert_ne|]);
    rewrite ?app_nil_r, <- ?app_assoc; done.
Qed.

Lemma user_pass_skip st x :
  is_failed_login x = false ->
  (forall k, user_windows (bf_step st x) k = user_windows st k)
  /\ user_reports (bf_step st x) = user_reports st.
Proof.
  intros H. destruct (bf_step_skip st x H) as (H1 & _ & H3).
  split; [done|]. unfold user_reports. by rewrite H3.
Qed.

Lemma user_pass_push st x :
  is_failed_login x = true ->
  let q := win_push BRUTE_FORCE_WINDOW_SEC x.1 (ev_event_id x.2)
             (user_windows st (user_key x.2)) in
  (forall k, k <> user_key x.2 ->
     user_windows (bf_step st x) k = user_windows st k)
  /\ (if (BRUTE_FORCE_MIN_FAILS <=? length q)%nat
      then user_windows (bf_step st x) (user_key x.2) = []
           /\ user_reports (bf_step st x)
              = user_reports st ++ [bruteforce_user_finding (user_key x.2) q]
      else user_windows (bf_step st x) (user_key x.2) = q
           /\ user_reports (bf_step st x) = user_reports st).
Proof.
  intros H. destruct (bf_step_push st x H) as (H1 & _ & H3 & _ & H5).
  cbv zeta in *. split; [done|]. unfold user_reports. rewrite H5, H3.
  rewrite !List.filter_app.
  destruct (BRUTE_FORCE_MIN_FAILS <=? length (win_push _ _ _ (user_windows _ _)))%nat;
    (split; [done|]);
    destruct (BRUTE_FORCE_MIN_FAILS <=? length (win_push _ _ _ (pair_windows _ _)))%nat;
    cbn [List.filter has_kind kind bruteforce_user_finding
         bruteforce_pair_finding String.eqb Ascii.eqb Bool.eqb];
    by rewrite ?app_nil_r.
Qed.

Lemma pair_pass_skip st x :
  is_failed_login x = false ->
  (forall k, pair_windows (bf_step st x) k = pair_windows st k)
  /\ pair_reports (bf_step st x) = pair_reports st.
Proof.
  intros H. destruct (bf_step_skip st x H) as (_ & H2 & H3).
  split; [done|]. unfold pair_reports. by rewrite H3.
Qed.

Lemma pair_pass_push st x :
  is_failed_login x = true ->
  let q := win_push BRUTE_FORCE_WINDOW_SEC x.1 (ev_event_id x.2)
             (pair_windows st (pair_key x.2)) in
  (forall k, k <> pair_key x.2 ->
     pair_windows (bf_step st x) k = pair_windows st k)
  /\ (if (BRUTE_FORCE_MIN_FAILS <=? length q)%nat
      then pair_windows (bf_step st x) (pair_key x.2) = []
           /\ pair_reports (bf_step st x)
              = pair_reports st ++ [bruteforce_pair_finding (pair_key x.2) q]
      else pair_windows (bf_step st x) (pair_key x.2) = q
           /\ pair_reports (bf_step st x) = pair_reports st).
Proof.
  intros H. destruct (bf_step_push st x H) as (_ & H2 & _ & H4 & H5).
  cbv zeta in *. split; [done|]. unfold pair_reports. rewrite H5, H4.
  rewrite !List.filter_app.
  destruct (BRUTE_FORCE_MIN_FAILS <=? length (win_push _ _ _ (pair_windows _ _)))%nat;
    (split; [done|]);
    destruct (BRUTE_FORCE_MIN_FAILS <=? length (win_push _ _ _ (user_windows _ _)))%nat;
    cbn [List.filter has_kind kind bruteforce_user_finding
         bruteforce_pair_finding String.eqb Ascii.eqb Bool.eqb];
    by rewrite ?app_nil_r.
Qed.

Lemma token_pass_skip st x :
  is_failed_token x = false ->
  (forall k, host_windows (token_step st x) k = host_windows st k)
  /\ (token_step st x).2 = st.2.
Proof.
  destruct st as [win out], x as [t ev].
  unfold is_failed_token, token_step. cbn [snd].
  intros H. apply andb_false_iff in H as [->| ->]; cbn [negb]; [done|].
  by destruct (status_is ev 401).
Qed.

Lemma token_pass_push st x :
  is_failed_token x = true ->
  let q := win_push 300 x.1 (ev_event_id x.2)
             (host_windows st (host_key x.2)) in
  (forall k, k <> host_key x.2 ->
     host_windows (token_step st x) k = host_windows st k)
  /\ (if (15 <=? length q)%nat
      then host_windows (token_step st x) (host_key x.2) = []
           /\ (token_step st x).2
              = st.2 ++ [token_finding (host_key x.2) q]
      else host_windows (token_step st x) (host_key x.2) = q
           /\ (token_step st x).2 = st.2).
Proof.
  destruct st as [win out], x as [t ev].
  unfold is_failed_token. cbn [fst snd].
  intros [H1 H2]%andb_true_iff. cbv zeta.
  unfold token_step. rewrite H1, H2. cbn [negb].
  fold (host_key ev). unfold host_windows. cbn [fst].
  set (q := win_push _ _ _ _).
  destruct (15 <=? length q)%nat; cbn [fst snd];
    rewrite lookup_insert_eq; cbn [default from_option id];
    (split; [intros k Hk; by rewrite lookup_insert_ne|done]).
Qed.

Lemma user_failure_filed k x :
  filed_under is_failed_login user_key k x <-> user_failure k x.
Proof.
  unfold filed_under, user_failure, is_failed_login, status_is.
  by rewrite bool_decide_eq_true.
Qed.

Lemma pair_failure_filed k x :
  filed_under is_failed_login pair_key k x <-> pair_failure k x.
Proof.
  unfold filed_under, pair_failure, is_failed_login, status_is.
  by rewrite bool_decide_eq_true.
Qed.

Lemma host_failure_filed k x :
  filed_under is_failed_token host_key k x <-> host_failure k x.
Proof.
  unfold filed_under, host_failure, is_failed_token, status_is.
  rewrite andb_true_iff, bool_decide_eq_true. tauto.
Qed.

Lemma brute_force_user_sound ts :
  StronglySorted time_le ts ->
  Forall (user_burst ts)
    (List.filter (has_kind "auth.bruteforce_user") (_brute_force ts)).
Proof.
  intros Hs.
  pose proof (pass_sound user_windows user_reports bf_step is_failed_login
                user_key bruteforce_user_finding BRUTE_FORCE_WINDOW_SEC
                BRUTE_FORCE_MIN_FAILS ltac:(cbv; lia)
                user_pass_skip user_pass_push
                (mk_bf_state ∅ ∅ []) ts ltac:(done) ltac:(done) Hs) as H.
  eapply Forall_impl; [exact H|].
  intros f (k & evs & H1 & H2 & H3). exists k, evs.
  split; [done|]. split; [done|].
  eapply Forall_impl; [exact H3|]. intros x. apply user_failure_filed.
Qed.

Lemma brute_force_pair_sound ts :
  StronglySorted time_le ts ->
  Forall (pair_burst ts)
    (List.filter (has_kind "auth.bruteforce_pair") (_brute_force ts)).
Proof.
  intros Hs.
  pose proof (pass_sound pair_windows pair_reports bf_step is_failed_login
                pair_key bruteforce_pair_finding BRUTE_FORCE_WINDOW_SEC
                BRUTE_FORCE_MIN_FAILS ltac:(cbv; lia)
                pair_pass_skip pair_pass_push
                (mk_bf_state ∅ ∅ []) ts ltac:(done) ltac:(done) Hs) as H.
  eapply Forall_impl; [exact H|].
  intros f (k & evs & H1 & H2 & H3). exists k, evs.
  split; [done|]. split; [done|].
  eapply Forall_impl; [exact H3|]. intros x. apply pair_failure_filed.
Qed.

Lemma token_pass_sound ts :
  StronglySorted time_le ts ->
  Forall (host_burst ts) (_token_exchange_failures ts).
Proof.
  intros Hs.
  pose proof (pass_sound host_windows snd token_step is_failed_token
                host_key token_finding 300 15 ltac:(lia)
                token_pass_skip token_pass_push
                (∅, []) ts ltac:(done) ltac:(done) Hs) as H.
  eapply Forall_impl; [exact H|].
  intros f (k & evs & H1 & H2 & H3). exists k, evs.
  split; [done|]. split; [done|].
  eapply Forall_impl; [exact H3|]. intros x. apply host_failure_filed.
Qed.

(** ** Findings of a kind, from the call to the pass *)

Section PassFindings.
Context {rt : PyRuntime}.

(** A returned finding is one that the passes appended, after the
    timestamps have been sorted. *)
Lemma detect_anomalies_finding events out f :
  detect_anomalies events = Ok out -> f ∈ out ->
  exists ts,
    time_sorted_of (normalize <$> events) = Ok ts
    /\ StronglySorted time_le ts
    /\ out = dedupe (run_passes (normalize <$> events)
                       (ua_counts_of (normalize <$> events)) ts)
    /\ f ∈ run_passes (normalize <$> events)
             (ua_counts_of (normalize <$> events)) ts.
Proof.
  intros [->|(ts & Hts & ->)]%detect_anomalies_inv Hf;
    [by apply elem_of_nil in Hf|].
  exists ts. split; [done|]. split; [apply (time_sorted_spec _ _ Hts)|].
  split; [done|]. eapply elem_of_sublist; [exact Hf|apply dedupe_from_sublist].
Qed.

Lemma has_kind_true K f : has_kind K f = true <-> kind f = K.
Proof. unfold has_kind. apply String.eqb_eq. Qed.

Lemma key_eqb_reason k k' : key_eqb k k' = true -> k.1.2 = k'.1.2.
Proof.
  unfold key_eqb. rewrite !andb_true_iff. intros [[_ H] _].
  by apply String.eqb_eq.
Qed.

(** Every finding that the passes appended is returned, or a finding
    with an equal key that was appended before it is. *)
Lemma dedupe_from_represents l : forall seen f,
  f ∈ l ->
  key_in (key_of f) seen = true
  \/ exists f', f' ∈ dedupe_from seen l
                /\ (f' = f \/ key_eqb (key_of f') (key_of f) = true).
Proof.
  induction l as [|a l IH]; intros seen f Hf; [by apply elem_of_nil in Hf|].
  cbn [dedupe_from]. apply elem_of_cons in Hf as [->|Hf].
  - destruct (key_in (key_of a) seen) eqn:E; [by left|].
    right. exists a. split; [left|by left].
  - destruct (key_in (key_of a) seen) eqn:E; [by apply IH|].
    destruct (IH (seen ++ [key_of a]) f Hf) as [H|(f' & H1 & H2)].
    + unfold key_in in H. rewrite existsb_app in H.
      apply orb_true_iff in H as [H|H]; [by left|].
      cbn [existsb] in H. rewrite orb_false_r in H.
      right. exists a. split; [left|by right].
    + right. exists f'. split; [by right|done].
Qed.

Lemma dedupe_represents l f :
  f ∈ l ->
  exists f', f' ∈ dedupe l
             /\ (f' = f \/ key_eqb (key_of f') (key_of f) = true).
Proof.
  intros Hf. by destruct (dedupe_from_represents l [] f Hf) as [H|H].
Qed.

Lemma dedupe_represents_kind l f :
  f ∈ l ->
  exists f', f' ∈ dedupe l
             /\ (f' = f \/ key_eqb (key_of f') (key_of f) = true)
             /\ kind f' = kind f /\ reason f' = reason f.
Proof.
  intros Hf. destruct (dedupe_represents l f Hf) as (f' & H1 & H2).
  exists f'. split; [done|]. split; [done|].
  destruct H2 as [->|H2]; [done|].
  split; [by apply key_eqb_kind in H2|by apply key_eqb_reason in H2].
Qed.

Lemma freeze_user_meta k q :
  _freeze (VDict (meta (bruteforce_user_finding k q)))
  = VTuple [VTuple [VStr "event_ids"; _freeze (ids_value (window_ids q))];
            VTuple [VStr "failures"; VInt (Z.of_nat (length q))];
            VTuple [VStr "user"; VStr k];
            VTuple [VStr "window_sec"; VInt BRUTE_FORCE_WINDOW_SEC]].
Proof. reflexivity. Qed.

Lemma freeze_pair_meta k q :
  _freeze (VDict (meta (bruteforce_pair_finding k q)))
  = VTuple [VTuple [VStr "event_ids"; _freeze (ids_value (window_ids q))];
            VTuple [VStr "failures"; VInt (Z.of_nat (length q))];
            VTuple [VStr "src_ip"; VStr k.2];
            VTuple [VStr "user"; VStr k.1];
            VTuple [VStr "window_sec"; VInt BRUTE_FORCE_WINDOW_SEC]].
Proof. reflexivity. Qed.

Lemma user_key_eq k q k' q' :
  key_eqb (key_of (bruteforce_user_finding k' q'))
          (key_of (bruteforce_user_finding k q)) = true -> k' = k.
Proof.
  unfold key_eqb, key_of. rewrite !freeze_user_meta.
  cbn [fst snd py_eq]. rewrite !andb_true_iff.
  intros (_ & _ & _ & (_ & H1 & _) & _).
  unfold VStr in *. cbn [py_eq atom_eqb atom_num] in H1.
  by apply String.eqb_eq in H1.
Qed.

Lemma pair_key_eq k q k' q' :
  key_eqb (key_of (bruteforce_pair_finding k' q'))
          (key_of (bruteforce_pair_finding k q)) = true -> k' = k.
Proof.
  unfold key_eqb, key_of. rewrite !freeze_pair_meta.
  cbn [fst snd py_eq]. rewrite !andb_true_iff.
  intros (_ & _ & _ & (_ & H1 & _) & (_ & H2 & _) & _).
  unfold VStr in *. cbn [py_eq atom_eqb atom_num] in H1, H2.
  apply String.eqb_eq in H1, H2. destruct k, k'. cbn in *. congruence.
Qed.

(** X3.  A brute-force finding is never a false alarm of the window
    logic: an [auth.bruteforce_user] finding reports exactly ten events
    of the batch with status 401 and one user key, no two of them more
    than 120 seconds apart, and lists their identifiers; an
    [auth.bruteforce_pair] finding does so for one user and address.
    [failures] is therefore always 10. *)
Theorem bruteforce_findings_report_close_failures
    (events : list raw_event) (out : list finding) (f : finding) :
  detect_anomalies events = Ok out -> f ∈ out ->
  kind f = "auth.bruteforce_user" \/ kind f = "auth.bruteforce_pair" ->
  exists ts,
    time_sorted_of (normalize <$> events) = Ok ts
    /\ (kind f = "auth.bruteforce_user" -> user_burst ts f)
    /\ (kind f = "auth.bruteforce_pair" -> pair_burst ts f)
    /\ dict_get "failures" (meta f) = Some (VInt 10).
Proof.
  intros Hout Hf Hk.
  destruct (detect_anomalies_finding events out f Hout Hf)
    as (ts & Hts & Hs & _ & Hrun).
  exists ts. split; [done|].
  assert (kind f = "auth.bruteforce_user" -> user_burst ts f) as Hu.
  { intros Hkind.
    pose proof (brute_force_user_sound ts Hs) as H.
    rewrite Forall_forall in H. apply H.
    rewrite <- (filter_kind_run_passes_brute_force _ (normalize <$> events)
                  (ua_counts_of (normalize <$> events))) by done.
    apply elem_of_filter_bool. split; [by apply has_kind_true|done]. }
  assert (kind f = "auth.bruteforce_pair" -> pair_burst ts f) as Hp.
  { intros Hkind.
    pose proof (brute_force_pair_sound ts Hs) as H.
    rewrite Forall_forall in H. apply H.
    rewrite <- (filter_kind_run_passes_brute_force _ (normalize <$> events)
                  (ua_counts_of (normalize <$> events))) by done.
    apply elem_of_filter_bool. split; [by apply has_kind_true|done]. }
  split; [done|]. split; [done|].
  destruct Hk as [Hk|Hk].
  - destruct (Hu Hk) as (k & evs & -> & (_ & Hlen & _) & _).
    cbn [meta bruteforce_user_finding dict_get String.eqb Ascii.eqb Bool.eqb].
    by rewrite entries_length, Hlen.
  - destruct (Hp Hk) as (k & evs & -> & (_ & Hlen & _) & _).
    cbn [meta bruteforce_pair_finding dict_get String.eqb Ascii.eqb Bool.eqb].
    by rewrite entries_length, Hlen.
Qed.

(** X4.  A token-burst finding reports exactly fifteen events of the
    batch with status 401 and a URL that holds [/oauth/token], all at one
    host, no two of them more than 300 seconds apart.  [failures] is
    therefore always 15. *)
Theorem token_findings_report_close_failures
    (events : list raw_event) (out : list finding) (f : finding) :
  detect_anomalies events = Ok out -> f ∈ out ->
  kind f = "auth.token_fail_burst" ->
  exists ts,
    time_sorted_of (normalize <$> events) = Ok ts
    /\ host_burst ts f
    /\ dict_get "failures" (meta f) = Some (VInt 15).
Proof.
  intros Hout Hf Hk.
  destruct (detect_anomalies_finding events out f Hout Hf)
    as (ts & Hts & Hs & _ & Hrun).
  exists ts. split; [done|].
  assert (host_burst ts f) as Hb.
  { pose proof (token_pass_sound ts Hs) as H.
    rewrite Forall_forall in H. apply H.
    assert (f ∈ List.filter (has_kind "auth.token_fail_burst")
                  (_token_exchange_failures ts)) as Hin.
    { rewrite <- (filter_kind_run_passes_token (normalize <$> events)
                    (ua_counts_of (normalize <$> events))).
      apply elem_of_filter_bool. split; [by apply has_kind_true|done]. }
    by apply elem_of_filter_bool in Hin as [_ Hin]. }
  split; [done|].
  destruct Hb as (k & evs & -> & (_ & Hlen & _) & _).
  cbn [meta token_finding dict_get String.eqb Ascii.eqb Bool.eqb].
  by rewrite entries_length, Hlen.
Qed.

Lemma brute_force_user_complete ts evs k :
  StronglySorted time_le ts ->
  close_run BRUTE_FORCE_WINDOW_SEC BRUTE_FORCE_MIN_FAILS ts evs ->
  Forall (user_failure k) evs ->
  exists q, bruteforce_user_finding k q ∈ _brute_force ts.
Proof.
  intros Hs Hrun Hk.
  destruct (pass_complete user_windows user_reports bf_step is_failed_login
              user_key bruteforce_user_finding BRUTE_FORCE_WINDOW_SEC
              BRUTE_FORCE_MIN_FAILS ltac:(cbv; lia)
              user_pass_skip user_pass_push
              (mk_bf_state ∅ ∅ []) ts k evs ltac:(done) Hs Hrun)
    as [q Hq].
  { eapply Forall_impl; [exact Hk|]. intros x. apply user_failure_filed. }
  exists q. unfold user_reports in Hq.
  by apply elem_of_filter_bool in Hq as [_ Hq].
Qed.

Lemma brute_force_pair_complete ts evs k :
  StronglySorted time_le ts ->
  close_run BRUTE_FORCE_WINDOW_SEC BRUTE_FORCE_MIN_FAILS ts evs ->
  Forall (pair_failure k) evs ->
  exists q, bruteforce_pair_finding k q ∈ _brute_force ts.
Proof.
  intros Hs Hrun Hk.
  destruct (pass_complete pair_windows pair_reports bf_step is_failed_login
              pair_key bruteforce_pair_finding BRUTE_FORCE_WINDOW_SEC
              BRUTE_FORCE_MIN_FAILS ltac:(cbv; lia)
              pair_pass_skip pair_pass_push
              (mk_bf_state ∅ ∅ []) ts k evs ltac:(done) Hs Hrun)
    as [q Hq].
  { eapply Forall_impl; [exact Hk|]. intros x. apply pair_failure_filed. }
  exists q. unfold pair_reports in Hq.
  by apply elem_of_filter_bool in Hq as [_ Hq].
Qed.

Lemma token_pass_complete ts evs k :
  StronglySorted time_le ts ->
  close_run 300 15 ts evs ->
  Forall (host_failure k) evs ->
  exists q, token_finding k q ∈ _token_exchange_failures ts.
Proof.
  intros Hs Hrun Hk.
  destruct (pass_complete host_windows snd token_step is_failed_token
              host_key token_finding 300 15 ltac:(lia)
              token_pass_skip token_pass_push
              (∅, []) ts k evs ltac:(done) Hs Hrun)
    as [q Hq]; [|by exists q].
  eapply Forall_impl; [exact Hk|]. intros x. apply host_failure_filed.
Qed.

Lemma close_run_nonempty secs n ts evs events :
  (0 < n)%nat ->
  time_sorted_of (normalize <$> events) = Ok ts ->
  close_run secs n ts evs ->
  detect_anomalies events
  = Ok (dedupe (run_passes (normalize <$> events)
                  (ua_counts_of (normalize <$> events)) ts)).
Proof.
  intros Hn Hts (Hsub & Hlen & _). unfold detect_anomalies.
  destruct events as [|e events].
  - cbn in Hts. injection Hts as <-.
    apply sublist_nil_r in Hsub. subst evs. cbn [length] in Hlen. lia.
  - by rewrite Hts.
Qed.

Lemma bruteforce_findings_user_shape events out f :
  detect_anomalies events = Ok out -> f ∈ out ->
  kind f = "auth.bruteforce_user" ->
  exists k q, f = bruteforce_user_finding k q.
Proof.
  intros Hout Hf Hk.
  destruct (detect_anomalies_finding events out f Hout Hf)
    as (ts & Hts & Hs & _ & Hrun).
  pose proof (brute_force_user_sound ts Hs) as H.
  rewrite Forall_forall in H. destruct (H f) as (k & evs & -> & _); [|by eauto].
  rewrite <- (filter_kind_run_passes_brute_force _ (normalize <$> events)
                (ua_counts_of (normalize <$> events))) by done.
  apply elem_of_filter_bool. split; [by apply has_kind_true|done].
Qed.

Lemma bruteforce_findings_pair_shape events out f :
  detect_anomalies events = Ok out -> f ∈ out ->
  kind f = "auth.bruteforce_pair" ->
  exists k q, f = bruteforce_pair_finding k q.
Proof.
  intros Hout Hf Hk.
  destruct (detect_anomalies_finding events out f Hout Hf)
    as (ts & Hts & Hs & _ & Hrun).
  pose proof (brute_force_pair_sound ts Hs) as H.
  rewrite Forall_forall in H. destruct (H f) as (k & evs & -> & _); [|by eauto].
  rewrite <- (filter_kind_run_passes_brute_force _ (normalize <$> events)
                (ua_counts_of (normalize <$> events))) by done.
  apply elem_of_filter_bool. split; [by apply has_kind_true|done].
Qed.

(** X5.  The brute-force pass misses no burst: whenever ten events of the
    batch with status 401 and one user key lie within 120 seconds, the
    call returns an [auth.bruteforce_user] finding for that user; and
    whenever they also share the address, an [auth.bruteforce_pair]
    finding for that user and address. *)
Theorem close_failures_raise_bruteforce (events : list raw_event)
    (ts evs : list (datetime * norm_event)) :
  time_sorted_of (normalize <$> events) = Ok ts ->
  close_run BRUTE_FORCE_WINDOW_SEC BRUTE_FORCE_MIN_FAILS ts evs ->
  exists out,
    detect_anomalies events = Ok out
    /\ (forall k, Forall (user_failure k) evs ->
          exists f, f ∈ out /\ kind f = "auth.bruteforce_user"
                    /\ dict_get "user" (meta f) = Some (VStr k))
    /\ (forall k, Forall (pair_failure k) evs ->
          exists f, f ∈ out /\ kind f = "auth.bruteforce_pair"
                    /\ dict_get "user" (meta f) = Some (VStr k.1)
                    /\ dict_get "src_ip" (meta f) = Some (VStr k.2)).
Proof.
  intros Hts Hrun.
  pose proof (close_run_nonempty BRUTE_FORCE_WINDOW_SEC BRUTE_FORCE_MIN_FAILS
                ts evs events ltac:(cbv; lia) Hts Hrun)
    as Hout.
  pose proof (proj1 (time_sorted_spec _ _ Hts)) as Hs.
  eexists. split; [exact Hout|]. split.
  - intros k Hk.
    destruct (brute_force_user_complete ts evs k Hs Hrun Hk) as [q Hq].
    destruct (dedupe_represents_kind
                (run_passes (normalize <$> events)
                   (ua_counts_of (normalize <$> events)) ts)
                (bruteforce_user_finding k q)) as (f & Hf & Hkey & Hkind & _).
    { unfold run_passes. rewrite !elem_of_app. auto. }
    exists f. split; [done|]. split; [done|].
    destruct (bruteforce_findings_user_shape events _ f Hout Hf Hkind)
      as (k' & q' & ->).
    destruct Hkey as [Hkey|Hkey].
    + by rewrite Hkey.
    + by apply user_key_eq in Hkey as ->.
  - intros k Hk.
    destruct (brute_force_pair_complete ts evs k Hs Hrun Hk) as [q Hq].
    destruct (dedupe_represents_kind
                (run_passes (normalize <$> events)
                   (ua_counts_of (normalize <$> events)) ts)
                (bruteforce_pair_finding k q)) as (f & Hf & Hkey & Hkind & _).
    { unfold run_passes. rewrite !elem_of_app. auto. }
    exists f. split; [done|]. split; [done|].
    destruct (bruteforce_findings_pair_shape events _ f Hout Hf Hkind)
      as (k' & q' & ->).
    destruct Hkey as [Hkey|Hkey].
    + by rewrite Hkey.
    + by apply pair_key_eq in Hkey as ->.
Qed.

(** X6.  The token pass misses no burst: whenever fifteen events of the
    batch with status 401 and a URL that holds [/oauth/token], all at one
    host, lie within 300 seconds, the call returns an
    [auth.token_fail_burst] finding for that host. *)
Theorem close_token_failures_raise_burst (events : list raw_event)
    (ts evs : list (datetime * norm_event)) (k : string) :
  time_sorted_of (normalize <$> events) = Ok ts ->
  close_run 300 15 ts evs ->
  Forall (host_failure k) evs ->
  exists out f,
    detect_anomalies events = Ok out
    /\ f ∈ out /\ kind f = "auth.token_fail_burst"
    /\ reason f = "Spike of token-exchange failures at " +:+ k.
Proof.
  intros Hts Hrun Hk.
  pose proof (close_run_nonempty 300 15 ts evs events ltac:(lia) Hts Hrun)
    as Hout.
  pose proof (proj1 (time_sorted_spec _ _ Hts)) as Hs.
  destruct (token_pass_complete ts evs k Hs Hrun Hk) as [q Hq].
  destruct (dedupe_represents_kind
              (run_passes (normalize <$> events)
                 (ua_counts_of (normalize <$> events)) ts)
              (token_finding k q)) as (f & Hf & _ & Hkind & Hreason).
  { unfold run_passes. rewrite !elem_of_app. auto 10. }
  eexists _, f. split; [exact Hout|]. by split.
Qed.

End PassFindings.

(** ** Instances on the sample runtime *)

Lemma close_run_take secs n (ts : list (datetime * norm_event)) :
  (n <= length ts)%nat ->
  Forall (fun x =>
            Forall (fun y => dt_instant x.1 - dt_instant y.1
                             <= secs * us_per_second) (take n ts))
         (take n ts) ->
  close_run secs n ts (take n ts).
Proof.
  intros Hn H. split; [apply sublist_take|]. split.
  - rewrite length_take. lia.
  - intros x y Hx Hy. rewrite Forall_forall in H.
    specialize (H x Hx). rewrite Forall_forall in H. by apply H.
Qed.

(** A decidable statement about given values holds when its decision
    procedure says so. *)
Ltac by_decision :=
  match goal with
  | |- ?P =>
    let d := constr:(_ : Decision P) in
    apply (@bool_decide_unpack P d); vm_compute; exact I
  end.

(** X2, an instance: three logins listed out of order. *)
Lemma time_sorted_is_stable_sort_witness :
  let norm := normalize (rt := Sample.runtime) <$> Scenarios.shuffled in
  let ts := Scenarios.sorted_view Scenarios.shuffled in
  Permutation ts (timestamped norm)
  /\ StronglySorted time_le ts
  /\ forall k, at_instant k ts = at_instant k (timestamped norm).
Proof.
  intros norm ts. apply (time_sorted_is_stable_sort norm ts).
  vm_compute. reflexivity.
Defined.

(** X3, an instance: the findings returned for twelve failed logins. *)
Lemma bruteforce_findings_report_close_failures_witness :
  Forall
    (fun f =>
       kind f = "auth.bruteforce_user" \/ kind f = "auth.bruteforce_pair" ->
       exists ts,
         time_sorted_of (normalize (rt := Sample.runtime)
                           <$> Examples.burst12) = Ok ts
         /\ (kind f = "auth.bruteforce_user" -> user_burst ts f)
         /\ (kind f = "auth.bruteforce_pair" -> pair_burst ts f)
         /\ dict_get "failures" (meta f) = Some (VInt 10))
    (try_except (detect_anomalies (rt := Sample.runtime) Examples.burst12)
                []).
Proof.
  apply Forall_forall. intros f.
  apply (bruteforce_findings_report_close_failures (rt := Sample.runtime)
           Examples.burst12).
  vm_compute. reflexivity.
Defined.

(** X4, an instance: the findings returned for fifteen failed token
    exchanges. *)
Lemma token_findings_report_close_failures_witness :
  Forall
    (fun f =>
       kind f = "auth.token_fail_burst" ->
       exists ts,
         time_sorted_of (normalize (rt := Sample.runtime)
                           <$> Examples.silent_token_burst) = Ok ts
         /\ host_burst ts f
         /\ dict_get "failures" (meta f) = Some (VInt 15))
    (try_except (detect_anomalies (rt := Sample.runtime)
                   Examples.silent_token_burst) []).
Proof.
  apply Forall_forall. intros f.
  apply (token_findings_report_close_failures (rt := Sample.runtime)
           Examples.silent_token_burst).
  vm_compute. reflexivity.
Defined.

(** X5, an instance: the first ten of twelve failed logins of alice from
    10.0.0.1, one second apart. *)
Lemma close_failures_raise_bruteforce_witness :
  let evs := take 10 (Scenarios.sorted_view Examples.burst12) in
  exists out,
    detect_anomalies (rt := Sample.runtime) Examples.burst12 = Ok out
    /\ (forall k, Forall (user_failure k) evs ->
          exists f, f ∈ out /\ kind f = "auth.bruteforce_user"
                    /\ dict_get "user" (meta f) = Some (VStr k))
    /\ (forall k, Forall (pair_failure k) evs ->
          exists f, f ∈ out /\ kind f = "auth.bruteforce_pair"
                    /\ dict_get "user" (meta f) = Some (VStr k.1)
                    /\ dict_get "src_ip" (meta f) = Some (VStr k.2)).
Proof.
  intros evs.
  apply (close_failures_raise_bruteforce (rt := Sample.runtime)
           Examples.burst12 (Scenarios.sorted_view Examples.burst12) evs).
  - vm_compute. reflexivity.
  - apply close_run_take; [vm_compute; lia|].
    by_decision.
Defined.

(** X6, an instance: fifteen failed token exchanges at
    auth.warptrace.corp, one second apart. *)
Lemma close_token_failures_raise_burst_witness :
  exists out f,
    detect_anomalies (rt := Sample.runtime) Examples.silent_token_burst
    = Ok out
    /\ f ∈ out /\ kind f = "auth.token_fail_burst"
    /\ reason f
       = "Spike of token-exchange failures at " +:+ "auth.warptrace.corp".
Proof.
  apply (close_token_failures_raise_burst (rt := Sample.runtime)
           Examples.silent_token_burst
           (Scenarios.sorted_view Examples.silent_token_burst)
           (take 15 (Scenarios.sorted_view Examples.silent_token_burst))).
  - vm_compute. reflexivity.
  - apply close_run_take; [vm_compute; lia|].
    by_decision.
  - by_decision.
Defined.

(** ** Password-reset and MFA activity *)

Section Activity.
Context {rt : PyRuntime}.

Lemma pwd_mfa_fold norm : forall p m,
  foldl pwd_mfa_step (p, m) norm
  = (foldl (activity_note PASSWORD_RESET_RE) p norm,
     foldl (activity_note MFA_RE) m norm).
Proof.
  induction norm as [|ev norm IH]; intros p m; cbn [foldl]; [done|].
  unfold pwd_mfa_step at 2. by rewrite IH.
Qed.

Lemma pwd_mfa_activity_buckets norm :
  _pwd_mfa_activity norm
  = (pwd_finding <$> activity_buckets_of PASSWORD_RESET_RE norm)
    ++ (mfa_finding <$> activity_buckets_of MFA_RE norm).
Proof. unfold _pwd_mfa_activity. by rewrite pwd_mfa_fold. Qed.

Lemma bucket_note_NoDup k evid (b : activity_buckets) :
  NoDup b.*1 -> NoDup (bucket_note k evid b).*1.
Proof.
  intros H. unfold bucket_note.
  destruct (is_none evid); by apply od_update_NoDup.
Qed.

Lemma activity_buckets_NoDup pattern norm :
  NoDup (activity_buckets_of pattern norm).*1.
Proof.
  unfold activity_buckets_of.
  assert (forall b : activity_buckets, NoDup b.*1 ->
            NoDup (foldl (activity_note pattern) b norm).*1) as H.
  { induction norm as [|ev norm IH]; intros b Hb; cbn [foldl]; [done|].
    apply IH. unfold activity_note.
    destruct (mentions pattern ev); [by apply bucket_note_NoDup|done]. }
  apply H. constructor.
Qed.

Lemma od_get_bucket_note k k' evid (b : activity_buckets) :
  od_get k (bucket_note k' evid b)
  = if decide (k = k')
    then Some (default [] (od_get k' b)
               ++ List.filter (fun i => negb (is_none i)) [evid])
    else od_get k b.
Proof.
  unfold bucket_note. destruct (is_none evid) eqn:E;
    rewrite od_get_update; destruct (decide (k = k')); try done;
    cbn [List.filter]; rewrite E; cbn [negb]; by rewrite ?app_nil_r.
Qed.

Lemma od_get_activity_from pattern k norm : forall b : activity_buckets,
  od_get k (foldl (activity_note pattern) b norm)
  = match activity_events pattern k norm with
    | [] => od_get k b
    | _ :: _ => Some (default [] (od_get k b) ++ activity_ids pattern k norm)
    end.
Proof.
  induction norm as [|ev norm IH]; intros b; cbn [foldl]; [done|].
  rewrite IH. unfold activity_ids, activity_events. cbn [List.filter].
  unfold activity_note.
  destruct (mentions pattern ev) eqn:Em; cbn [andb]; [|done].
  rewrite od_get_bucket_note.
  destruct (decide (k = activity_key_of ev)) as [->|Hne].
  - rewrite bool_decide_eq_true_2 by done.
    cbn [fmap list_fmap List.filter]. 
    set (rest := List.filter _ norm).
    change (List.filter (fun i => negb (is_none i))
              (ev_event_id ev :: (ev_event_id <$> rest)))
      with (List.filter (fun i => negb (is_none i)) [ev_event_id ev]
            ++ List.filter (fun i => negb (is_none i)) (ev_event_id <$> rest)).
    destruct rest; cbn [default from_option id fmap list_fmap List.filter];
      destruct (negb (is_none (ev_event_id ev)));
      by rewrite ?app_nil_r, <- ?app_assoc.
  - rewrite bool_decide_eq_false_2 by done. done.
Qed.

Lemma activity_buckets_spec pattern norm k ids :
  (k, ids) ∈ activity_buckets_of pattern norm
  <-> activity_events pattern k norm <> []
      /\ ids = activity_ids pattern k norm.
Proof.
  pose proof (od_get_activity_from pattern k norm []) as Hget.
  fold (activity_buckets_of pattern norm) in Hget. cbn [od_get] in Hget.
  split.
  - intros Hin. apply od_get_elem in Hin; [|apply activity_buckets_NoDup].
    rewrite Hin in Hget.
    destruct (activity_events pattern k norm); [done|].
    split; [done|]. cbn [default from_option id app] in Hget. congruence.
  - intros [Hne ->]. apply od_get_Some_elem. rewrite Hget.
    by destruct (activity_events pattern k norm).
Qed.

(** X7.  The activity pass reports each bucket once: its findings are one
    [auth.password_reset] finding per bucket (minute, user, address) that
    holds an event whose text matches the password-reset recogniser,
    followed by one [auth.mfa_activity] finding per bucket with a match of
    the MFA recogniser; the finding of a bucket lists the identifiers that
    are not [None] of the matching events of the bucket, in the order of
    the batch (the first 50 of them). *)
Theorem activity_pass_reports_each_bucket_once (norm : list norm_event) :
  exists pwd mfa : activity_buckets,
    _pwd_mfa_activity norm = (pwd_finding <$> pwd) ++ (mfa_finding <$> mfa)
    /\ NoDup pwd.*1 /\ NoDup mfa.*1
    /\ (forall k ids,
          (k, ids) ∈ pwd
          <-> activity_events PASSWORD_RESET_RE k norm <> []
              /\ ids = activity_ids PASSWORD_RESET_RE k norm)
    /\ (forall k ids,
          (k, ids) ∈ mfa
          <-> activity_events MFA_RE k norm <> []
              /\ ids = activity_ids MFA_RE k norm)
    /\ (forall b, dict_get "event_ids" (meta (pwd_finding b))
                  = Some (ids_value (slice_to 50 b.2))
                  /\ dict_get "event_ids" (meta (mfa_finding b))
                     = Some (ids_value (slice_to 50 b.2))).
Proof.
  exists (activity_buckets_of PASSWORD_RESET_RE norm),
         (activity_buckets_of MFA_RE norm).
  split; [apply pwd_mfa_activity_buckets|].
  split; [apply activity_buckets_NoDup|].
  split; [apply activity_buckets_NoDup|].
  split; [apply activity_buckets_spec|].
  split; [apply activity_buckets_spec|].
  intros [[[minute user] ip] ids]. by split.
Qed.

End Activity.

(** ** Off-hours logins *)

Lemma before_six_hour (t : datetime) :
  (OFF_HOURS_START <=? dt_hour t) && (dt_hour t <=? OFF_HOURS_END)
  = before_six t.
Proof.
  unfold before_six, dt_hour, OFF_HOURS_START, OFF_HOURS_END, us_per_day,
    us_per_hour, us_per_minute, us_per_second.
  change (60 * (60 * 1000000)) with 3600000000.
  change (24 * 3600000000) with 86400000000.
  change (6 * 3600000000) with 21600000000.
  set (w := dt_wall t).
  pose proof (Z.div_mod w 3600000000 ltac:(lia)) as Hw.
  pose proof (Z.mod_pos_bound w 3600000000 ltac:(lia)) as Hr.
  set (q := w / 3600000000) in *. set (r := w mod 3600000000) in *.
  pose proof (Z.div_mod q 24 ltac:(lia)) as Hq.
  pose proof (Z.mod_pos_bound q 24 ltac:(lia)) as Hh.
  assert (w mod 86400000000 = 3600000000 * (q mod 24) + r) as ->.
  { symmetry. apply (Z.mod_unique_pos _ _ (q / 24)); lia. }
  destruct (Z.leb_spec 0 (q mod 24)); [|lia].
  destruct (Z.leb_spec (q mod 24) 5); destruct (Z.ltb_spec (3600000000 * (q mod 24) + r) 21600000000);
    cbn [andb]; try done; lia.
Qed.

Lemma off_hours_ids ts : forall ids,
  foldl off_hours_step ids ts
  = ids ++ (ev_event_id ∘ snd <$> List.filter early_login ts).
Proof.
  induction ts as [|[t ev] ts IH]; intros ids; cbn [foldl].
  - by rewrite app_nil_r.
  - rewrite IH. cbn [List.filter].
    assert (early_login (t, ev)
            = status_is ev 200
              && (OFF_HOURS_START <=? dt_hour t) && (dt_hour t <=? OFF_HOURS_END)
              && truthy (ev_event_id ev)) as Heq.
    { unfold early_login. cbn [fst snd]. rewrite <- before_six_hour.
      by rewrite !andb_assoc. }
    unfold off_hours_step. rewrite <- Heq.
    destruct (early_login (t, ev));
      cbn [fmap list_fmap compose snd]; [by rewrite <- app_assoc|done].
Qed.

Section OffHours.
Context {rt : PyRuntime}.

Lemma off_hours_closed_form ts :
  _off_hours_logins ts
  = match ev_event_id ∘ snd <$> List.filter early_login ts with
    | [] => []
    | ids => [off_hours_finding ids]
    end.
Proof.
  unfold _off_hours_logins. rewrite off_hours_ids.
  cbn [app]. by destruct (_ <$> _).
Qed.

(** The findings of a kind are those of the pass that builds the kind. *)
Lemma filter_kind_run_passes K p norm c ts :
  pass_of_kind K = Some p ->
  List.filter (has_kind K) (run_passes norm c ts)
  = List.filter (has_kind K)
      match p with
      | P_activity => _pwd_mfa_activity norm
      | P_brute_force => _brute_force ts
      | P_blocked => _blocked_protection norm
      | P_high_risk => _high_risk_source norm
      | P_error_rate => _high_error_rate ts
      | P_rare_ua => _rare_ua norm c
      | P_off_hours => _off_hours_logins ts
      | P_token => _token_exchange_failures ts
      end.
Proof.
  intros HK. unfold run_passes. rewrite !List.filter_app.
  destruct p;
    try rewrite (filter_kind_other_pass K _ _ _ (pwd_mfa_activity_shape norm) HK) by done;
    try rewrite (filter_kind_other_pass K _ _ _ (brute_force_shape ts) HK) by done;
    try rewrite (filter_kind_other_pass K _ _ _ (blocked_protection_shape norm) HK) by done;
    try rewrite (filter_kind_other_pass K _ _ _ (high_risk_source_shape norm) HK) by done;
    try rewrite (filter_kind_other_pass K _ _ _ (high_error_rate_shape ts) HK) by done;
    try rewrite (filter_kind_other_pass K _ _ _ (rare_ua_shape norm c) HK) by done;
    try rewrite (filter_kind_other_pass K _ _ _ (off_hours_logins_shape ts) HK) by done;
    try rewrite (filter_kind_other_pass K _ _ _ (token_exchange_failures_shape ts) HK) by done;
    cbn [app]; by rewrite ?app_nil_r.
Qed.

Lemma filter_kind_run_passes_off_hours norm c ts :
  List.filter (has_kind "auth.offhours") (run_passes norm c ts)
  = _off_hours_logins ts.
Proof.
  rewrite (filter_kind_run_passes _ P_off_hours) by done.
  unfold _off_hours_logins. by destruct (foldl off_hours_step [] ts).
Qed.

(** X8.  Off-hours logins are reported in one finding: the
    [auth.offhours] findings of a call are at most one, present exactly
    when some event with a timestamp has status 200, a wall-clock time
    before 06:00 and a truthy identifier; it lists the identifiers of
    these events in ascending order of time (the first 50 of them). *)
Theorem off_hours_logins_in_one_finding (events : list raw_event)
    (out : list finding) :
  detect_anomalies events = Ok out ->
  exists ts,
    time_sorted_of (normalize <$> events) = Ok ts
    /\ StronglySorted time_le ts
    /\ List.filter (has_kind "auth.offhours") out
       = match ev_event_id ∘ snd <$> List.filter early_login ts with
         | [] => []
         | ids => [off_hours_finding ids]
         end
    /\ (forall ids, dict_get "event_ids" (meta (off_hours_finding ids))
                    = Some (ids_value (slice_to 50 ids))).
Proof.
  intros Hout. destruct events as [|e events].
  - injection Hout as <-. exists []. split; [done|].
    split; [constructor|]. by split.
  - unfold detect_anomalies in Hout.
    destruct (time_sorted_of (normalize <$> e :: events)) as [ts|] eqn:Hts;
      [|done].
    cbn [mbind result_bind] in Hout. injection Hout as <-.
    exists ts. split; [done|].
    split; [apply (time_sorted_spec _ _ Hts)|]. split; [|done].
    rewrite dedupe_filter_kind, filter_kind_run_passes_off_hours.
    rewrite off_hours_closed_form.
    destruct (ev_event_id ∘ snd <$> List.filter early_login ts);
      [reflexivity|apply dedupe_singleton].
Qed.

End OffHours.

(** ** High-risk sources *)

Lemma prefix_append_l (p1 p2 s : string) :
  String.prefix (p1 +:+ p2) s = true -> String.prefix p1 s = true.
Proof.
  revert s. induction p1 as [|a p1 IH]; intros s.
  - by destruct s.
  - change (String a p1 +:+ p2) with (String a (p1 +:+ p2)).
    destruct s as [|b s]; cbn [String.prefix]; [done|].
    destruct (ascii_dec a b); [apply IH|done].
Qed.

Lemma prefix_tor_exit (s : string) :
  String.prefix "tor_exit" s = true -> String.prefix "tor" s = true.
Proof. apply (prefix_append_l "tor" "_exit"). Qed.

Lemma str_in_tor_exit (s : string) :
  str_in "tor_exit" s = true -> str_in "tor" s = true.
Proof.
  induction s as [|a s IH]; cbn [str_in]; rewrite !orb_true_iff.
  - intros [H|H]; [|done]. left. by apply prefix_tor_exit.
  - intros [H|H]; [left; by apply prefix_tor_exit|right; by apply IH].
Qed.

Section HighRisk.
Context {rt : PyRuntime}.

Lemma risk_value_unreadable raw : risk_unreadable raw -> risk_value raw = f_0_9.
Proof.
  unfold risk_unreadable, risk_value. intros H.
  destruct (str_after "risk=" raw) as [frag|]; [|done].
  specialize (H frag eq_refl). cbn [mbind result_bind].
  destruct (str_split frag) as [|tok toks]; [done|].
  destruct H as [e H]. cbn [mbind result_bind]. by rewrite H.
Qed.

(** X9.  The high-risk pass reports an event at most once, and a risk
    score wins over TOR: an event whose text holds [risk=] yields one
    [auth.high_risk] finding (also when the text mentions tor); any other
    event yields one [auth.tor] finding exactly when its text holds the
    letters [tor] anywhere (the second test, for [tor_exit], adds
    nothing).  A risk value that cannot be read counts as 0.9 and gives
    the score 0.985. *)
Theorem high_risk_precedes_tor (ev : norm_event) :
  (length (high_risk_of ev) <= 1)%nat
  /\ (str_in "risk=" (ev_raw ev) = true ->
      high_risk_of ev = [high_risk_finding ev])
  /\ (str_in "risk=" (ev_raw ev) = false ->
      high_risk_of ev
      = if str_in "tor" (ev_raw ev) then [tor_finding ev] else [])
  /\ (risk_unreadable (ev_raw ev) ->
      dict_get "risk" (meta (high_risk_finding ev)) = Some (VFloat f_0_9)
      /\ score (high_risk_finding ev) = f_0_985).
Proof.
  unfold high_risk_of. split; [|split; [|split]].
  - repeat case_match; cbn [length]; lia.
  - by intros ->.
  - intros ->. destruct (str_in "tor" (ev_raw ev)) eqn:E; [done|].
    destruct (str_in "tor_exit" (ev_raw ev)) eqn:E'; [|done].
    apply str_in_tor_exit in E'. congruence.
  - intros H. cbn [meta score high_risk_finding dict_get String.eqb
                   Ascii.eqb Bool.eqb].
    by rewrite (risk_value_unreadable _ H).
Qed.

End HighRisk.

(** ** Error-rate buckets *)

(** X10.  The buckets of the error-rate pass are the ten-minute slots of
    the wall clock: the start of an event's bucket keeps the offset of
    the timestamp, is a multiple of ten minutes, is not later than the
    timestamp and less than ten minutes before it; a bucket start is its
    own bucket start. *)
Theorem error_bucket_start_aligned (t : datetime) :
  dt_off (error_bucket_start t) = dt_off t
  /\ dt_wall (error_bucket_start t) mod (10 * us_per_minute) = 0
  /\ dt_wall (error_bucket_start t) <= dt_wall t
     < dt_wall (error_bucket_start t) + 10 * us_per_minute
  /\ error_bucket_start (error_bucket_start t) = error_bucket_start t.
Proof.
  pose proof (error_bucket_start_floor t) as Hf.
  unfold ERROR_RATE_WINDOW_MIN in Hf.
  assert (0 < 10 * us_per_minute) as Hpos by (by cbv).
  pose proof (Z.mod_pos_bound (dt_wall t) _ Hpos) as Hb.
  pose proof (Z.div_mod (dt_wall t) (10 * us_per_minute) ltac:(lia)) as Hd.
  assert (dt_wall (error_bucket_start t) mod (10 * us_per_minute) = 0) as Hm.
  { rewrite Hf.
    replace (dt_wall t - dt_wall t mod (10 * us_per_minute))
      with (dt_wall t / (10 * us_per_minute) * (10 * us_per_minute)) by lia.
    apply Z.mod_mul. lia. }
  split; [done|]. split; [done|]. split; [lia|].
  pose proof (error_bucket_start_floor (error_bucket_start t)) as Hf'.
  unfold ERROR_RATE_WINDOW_MIN in Hf'. rewrite Hm, Z.sub_0_r in Hf'.
  destruct (error_bucket_start (error_bucket_start t)) as [w o] eqn:E1.
  destruct (error_bucket_start t) as [w' o'] eqn:E2.
  cbn [dt_wall] in Hf'. subst w. f_equal.
  assert (dt_off (error_bucket_start (mk_datetime w' o')) = o') as Ho by done.
  rewrite E1 in Ho. done.
Qed.

(** ** The order of the findings *)

Lemma sorted_sublist {A} (R : A -> A -> Prop) (l' l : list A) :
  sublist l' l -> StronglySorted R l -> StronglySorted R l'.
Proof.
  induction 1 as [|x l1 l2 Hsub IH|x l1 l2 Hsub IH]; intros H; [done|..].
  - apply StronglySorted_inv in H as [H1 H2].
    constructor; [by apply IH|]. by eapply Forall_sublist_of.
  - apply StronglySorted_inv in H as [H1 _]. by apply IH.
Qed.

Lemma sorted_app {A} (R : A -> A -> Prop) (l1 l2 : list A) :
  StronglySorted R l1 -> StronglySorted R l2 ->
  (forall x y, x ∈ l1 -> y ∈ l2 -> R x y) ->
  StronglySorted R (l1 ++ l2).
Proof.
  induction 1 as [|x l1 H1 IH Hx]; intros H2 H12; cbn [app]; [done|].
  constructor.
  - apply IH; [done|]. intros a b Ha Hb. apply H12; [by right|done].
  - apply Forall_app. split; [done|].
    apply Forall_forall. intros y Hy. apply H12; [left|done].
Qed.

Lemma sorted_same_rank (n : nat) (l : list finding) :
  Forall (fun f => finding_rank f = n) l -> StronglySorted rank_le l.
Proof.
  induction 1 as [|f l Hf Hl IH]; constructor; [done|].
  eapply Forall_impl; [exact Hl|]. intros g Hg. unfold rank_le.
  cbv beta in *. lia.
Qed.

Section PassOrder.
Context {rt : PyRuntime}.

Lemma built_by_rank p l :
  Forall (built_by p) l -> Forall (fun f => finding_rank f = pass_rank p) l.
Proof.
  intros H. eapply Forall_impl; [exact H|]. intros f Hf.
  unfold finding_rank. by rewrite (built_by_kind p f Hf).
Qed.

Lemma ranked_app (n m : nat) (l1 l2 : list finding) :
  (n <= m)%nat ->
  Forall (fun f => finding_rank f = n) l1 ->
  StronglySorted rank_le l2 -> Forall (fun f => (m <= finding_rank f)%nat) l2 ->
  StronglySorted rank_le (l1 ++ l2)
  /\ Forall (fun f => (n <= finding_rank f)%nat) (l1 ++ l2).
Proof.
  intros Hnm H1 H2 H3. split.
  - apply sorted_app; [by eapply sorted_same_rank|done|].
    intros x y Hx Hy. rewrite Forall_forall in H1, H3.
    specialize (H1 x Hx). specialize (H3 y Hy). unfold rank_le.
    cbv beta in *. lia.
  - apply Forall_app. split.
    + eapply Forall_impl; [exact H1|]. intros f Hf. cbv beta in Hf. lia.
    + eapply Forall_impl; [exact H3|]. intros f Hf. cbv beta in Hf. lia.
Qed.

Lemma run_passes_sorted norm c ts : StronglySorted rank_le (run_passes norm c ts).
Proof.
  unfold run_passes.
  pose proof (built_by_rank _ _ (pwd_mfa_activity_shape norm)) as H0.
  pose proof (built_by_rank _ _ (brute_force_shape ts)) as H1.
  pose proof (built_by_rank _ _ (blocked_protection_shape norm)) as H2.
  pose proof (built_by_rank _ _ (high_risk_source_shape norm)) as H3.
  pose proof (built_by_rank _ _ (high_error_rate_shape ts)) as H4.
  pose proof (built_by_rank _ _ (rare_ua_shape norm c)) as H5.
  pose proof (built_by_rank _ _ (off_hours_logins_shape ts)) as H6.
  pose proof (built_by_rank _ _ (token_exchange_failures_shape ts)) as H7.
  cbn [pass_rank] in *.
  assert (StronglySorted rank_le (_token_exchange_failures ts)
          /\ Forall (fun f => (7 <= finding_rank f)%nat)
                    (_token_exchange_failures ts)) as [S7 L7].
  { split; [by eapply sorted_same_rank|].
    eapply Forall_impl; [exact H7|]. intros f Hf. cbv beta in Hf. lia. }
  destruct (ranked_app 6 7 _ _ ltac:(lia) H6 S7 L7) as [S6 L6].
  destruct (ranked_app 5 6 _ _ ltac:(lia) H5 S6 L6) as [S5 L5].
  destruct (ranked_app 4 5 _ _ ltac:(lia) H4 S5 L5) as [S4 L4].
  destruct (ranked_app 3 4 _ _ ltac:(lia) H3 S4 L4) as [S3 L3].
  destruct (ranked_app 2 3 _ _ ltac:(lia) H2 S3 L3) as [S2 L2].
  destruct (ranked_app 1 2 _ _ ltac:(lia) H1 S2 L2) as [S1 L1].
  by destruct (ranked_app 0 1 _ _ ltac:(lia) H0 S1 L1) as [S0 _].
Qed.

(** X11.  The findings come out pass by pass: in the returned list the
    findings of the activity pass precede those of the brute-force pass,
    these precede the blocked-login findings, and so on in the order in
    which [detect_anomalies] runs its passes; de-duplication does not
    reorder them. *)
Theorem findings_follow_pass_order (events : list raw_event)
    (out : list finding) :
  detect_anomalies events = Ok out -> StronglySorted rank_le out.
Proof.
  intros [->|(ts & _ & ->)]%detect_anomalies_inv; [constructor|].
  eapply sorted_sublist; [apply dedupe_from_sublist|apply run_passes_sorted].
Qed.

(** ** Batches without timestamps *)

Lemma timestamped_none norm :
  Forall (fun ev => ev_ts ev = None) norm -> timestamped norm = [].
Proof.
  induction 1 as [|ev norm H _ IH]; [done|].
  unfold timestamped in *. cbn [omap list_omap]. by rewrite H.
Qed.

(** Events without a readable timestamp reach only the passes that
    read [norm]. *)
Lemma untimed_batch_passes (events : list raw_event) :
  Forall (fun e => _as_dt (e_ts e) = None) events ->
  let norm := normalize <$> events in
  exists out,
    detect_anomalies events = Ok out
    /\ out = dedupe (_pwd_mfa_activity norm ++ _blocked_protection norm
                     ++ _high_risk_source norm
                     ++ _rare_ua norm (ua_counts_of norm))
    /\ Forall (fun f => pass_of_kind (kind f)
                        ∈ [Some P_activity; Some P_blocked;
                           Some P_high_risk; Some P_rare_ua]) out.
Proof.
  intros H norm.
  assert (time_sorted_of norm = Ok []) as Hts.
  { unfold time_sorted_of. fold (timestamped norm).
    rewrite timestamped_none; [done|].
    unfold norm. by rewrite Forall_fmap. }
  assert (run_passes norm (ua_counts_of norm) []
          = _pwd_mfa_activity norm ++ _blocked_protection norm
            ++ _high_risk_source norm ++ _rare_ua norm (ua_counts_of norm))
    as Hrun.
  { unfold run_passes.
    change (_brute_force []) with (@nil finding).
    change (_high_error_rate []) with (@nil finding).
    change (_off_hours_logins []) with (@nil finding).
    change (_token_exchange_failures []) with (@nil finding).
    cbn [app]. by rewrite !app_nil_r. }
  exists (dedupe (run_passes norm (ua_counts_of norm) [])).
  split; [|split].
  - unfold detect_anomalies. destruct events as [|e events]; [done|].
    fold norm. by rewrite Hts.
  - by rewrite Hrun.
  - apply Forall_forall. intros f Hf.
    eapply elem_of_sublist in Hf; [|apply dedupe_from_sublist].
    rewrite Hrun in Hf. rewrite !elem_of_app in Hf.
    destruct Hf as [Hf|[Hf|[Hf|Hf]]].
    + pose proof (pwd_mfa_activity_shape norm) as Hs.
      rewrite Forall_forall in Hs. rewrite (built_by_kind _ _ (Hs f Hf)).
      repeat constructor.
    + pose proof (blocked_protection_shape norm) as Hs.
      rewrite Forall_forall in Hs. rewrite (built_by_kind _ _ (Hs f Hf)).
      repeat constructor.
    + pose proof (high_risk_source_shape norm) as Hs.
      rewrite Forall_forall in Hs. rewrite (built_by_kind _ _ (Hs f Hf)).
      repeat constructor.
    + pose proof (rare_ua_shape norm (ua_counts_of norm)) as Hs.
      rewrite Forall_forall in Hs. rewrite (built_by_kind _ _ (Hs f Hf)).
      repeat constructor.
Qed.

End PassOrder.

(** ** Where the listed identifiers come from *)

(** Lists of identifiers taken from events of [norm], none of them
    [None], and not empty when every event carries a truthy one. *)
Lemma truthy_not_none (i : atom) : truthy i = true -> i <> ANone.
Proof. by destruct i. Qed.

Lemma not_none_true (i : atom) : negb (is_none i) = true -> i <> ANone.
Proof. by destruct i. Qed.

Lemma truthy_is_not_none (i : atom) :
  truthy i = true -> negb (is_none i) = true.
Proof. by destruct i. Qed.

Lemma filter_all {A} (P : A -> bool) (l : list A) :
  Forall (fun x => P x = true) l -> List.filter P l = l.
Proof.
  induction 1 as [|x l Hx _ IH]; cbn [List.filter]; [done|].
  by rewrite Hx, IH.
Qed.

Lemma cites_ids (norm : list norm_event) (P : atom -> bool)
    (evs : list norm_event) (n : nat) (f : finding) :
  (0 < n)%nat ->
  (forall i, P i = true -> i <> ANone) ->
  (forall i, truthy i = true -> P i = true) ->
  Forall (fun ev => ev ∈ norm) evs ->
  evs <> [] ->
  dict_get "event_ids" (meta f)
  = Some (ids_value (slice_to n (List.filter P (ev_event_id <$> evs)))) ->
  cites norm f.
Proof.
  intros Hn HP HT Hevs Hne Hf. eexists. split; [exact Hf|]. split.
  - apply Forall_forall. intros i Hi.
    unfold slice_to in Hi. apply elem_of_take in Hi as (j & Hi & _).
    apply list_elem_of_lookup_2 in Hi.
    apply elem_of_filter_bool in Hi as [HPi Hi]. split; [by apply HP|].
    apply list_elem_of_fmap in Hi as (ev & -> & Hev).
    apply list_elem_of_fmap. exists ev. split; [done|].
    rewrite Forall_forall in Hevs. by apply Hevs.
  - intros Hall. rewrite filter_all.
    + destruct evs as [|ev evs]; [done|]. destruct n; [lia|]. done.
    + apply Forall_fmap, Forall_forall. intros ev Hev. cbn [compose].
      apply HT. rewrite Forall_forall in Hall, Hevs. apply Hall.
      by apply Hevs.
Qed.

Lemma cites_single (norm : list norm_event) (ev : norm_event) (f : finding) :
  ev ∈ norm ->
  dict_get "event_ids" (meta f)
  = Some (ids_value (id_if_truthy (ev_event_id ev))) ->
  cites norm f.
Proof.
  intros Hev Hf.
  apply (cites_ids norm truthy [ev] 1 f ltac:(lia) truthy_not_none
           (fun _ H => H)).
  - by apply Forall_singleton.
  - done.
  - rewrite Hf. unfold id_if_truthy. cbn [fmap list_fmap List.filter].
    by destruct (truthy (ev_event_id ev)).
Qed.

Lemma window_ids_entries (evs : list (datetime * norm_event)) :
  window_ids (entries evs)
  = slice_to 50 (List.filter (fun i => negb (is_none i))
                             (ev_event_id <$> (snd <$> evs))).
Proof.
  unfold window_ids, entries. do 2 f_equal.
  rewrite <- !list_fmap_compose. done.
Qed.

Lemma sublist_filter_bool {A} (P : A -> bool) (l : list A) :
  sublist (List.filter P l) l.
Proof.
  induction l as [|x l IH]; cbn [List.filter]; [constructor|].
  destruct (P x); by constructor.
Qed.

Section Provenance.
Context {rt : PyRuntime}.

Variable norm : list norm_event.
Variable ts : list (datetime * norm_event).
Hypothesis ts_sorted : StronglySorted time_le ts.
Hypothesis ts_norm : Forall (fun tev => tev.2 ∈ norm) ts.

Lemma run_events (evs : list (datetime * norm_event)) :
  sublist evs ts -> Forall (fun ev => ev ∈ norm) (snd <$> evs).
Proof.
  intros Hsub. apply Forall_fmap.
  eapply Forall_sublist_of; [exact Hsub|exact ts_norm].
Qed.

Lemma activity_cites : Forall (cites norm) (_pwd_mfa_activity norm).
Proof.
  rewrite pwd_mfa_activity_buckets.
  assert (forall pattern k ids g,
            (k, ids) ∈ activity_buckets_of pattern norm ->
            dict_get "event_ids" (meta g) = Some (ids_value (slice_to 50 ids)) ->
            cites norm g) as H.
  { intros pattern k ids g [Hne ->]%activity_buckets_spec Hg.
    apply (cites_ids norm (fun i => negb (is_none i))
             (activity_events pattern k norm) 50 g ltac:(lia)
             not_none_true truthy_is_not_none).
    - apply Forall_forall. intros ev Hev.
      by apply elem_of_filter_bool in Hev as [_ Hev].
    - done.
    - done. }
  apply Forall_app. split; apply Forall_fmap, Forall_forall;
    intros [k ids] Hb; eapply H; try exact Hb; apply activity_meta_ids.
Qed.

Lemma brute_force_cites : Forall (cites norm) (_brute_force ts).
Proof.
  apply Forall_forall. intros f Hf.
  pose proof (brute_force_shape ts) as Hshape.
  rewrite Forall_forall in Hshape. specialize (Hshape f Hf).
  assert (kind f = "auth.bruteforce_user" \/ kind f = "auth.bruteforce_pair")
    as [Hk|Hk] by (inversion Hshape; auto).
  - pose proof (brute_force_user_sound ts ts_sorted) as Hs.
    rewrite Forall_forall in Hs.
    destruct (Hs f) as (k & evs & -> & (Hsub & Hlen & _) & _).
    { apply elem_of_filter_bool. split; [by apply has_kind_true|done]. }
    apply (cites_ids norm (fun i => negb (is_none i)) (snd <$> evs) 50 _
             ltac:(lia) not_none_true truthy_is_not_none).
    + by apply run_events.
    + by destruct evs.
    + cbn [meta bruteforce_user_finding dict_get String.eqb Ascii.eqb
           Bool.eqb]. by rewrite window_ids_entries.
  - pose proof (brute_force_pair_sound ts ts_sorted) as Hs.
    rewrite Forall_forall in Hs.
    destruct (Hs f) as (k & evs & -> & (Hsub & Hlen & _) & _).
    { apply elem_of_filter_bool. split; [by apply has_kind_true|done]. }
    apply (cites_ids norm (fun i => negb (is_none i)) (snd <$> evs) 50 _
             ltac:(lia) not_none_true truthy_is_not_none).
    + by apply run_events.
    + by destruct evs.
    + cbn [meta bruteforce_pair_finding dict_get String.eqb Ascii.eqb
           Bool.eqb]. by rewrite window_ids_entries.
Qed.

Lemma token_cites : Forall (cites norm) (_token_exchange_failures ts).
Proof.
  pose proof (token_pass_sound ts ts_sorted) as Hs.
  eapply Forall_impl; [exact Hs|].
  intros f (k & evs & -> & (Hsub & Hlen & _) & _).
  apply (cites_ids norm (fun i => negb (is_none i)) (snd <$> evs) 50 _
           ltac:(lia) not_none_true truthy_is_not_none).
  - by apply run_events.
  - by destruct evs.
  - cbn [meta token_finding dict_get String.eqb Ascii.eqb Bool.eqb].
    by rewrite window_ids_entries.
Qed.

Lemma blocked_cites : Forall (cites norm) (_blocked_protection norm).
Proof.
  unfold _blocked_protection. apply Forall_fmap, Forall_forall.
  intros ev Hev. apply elem_of_filter_bool in Hev as [_ Hev].
  by apply (cites_single norm ev).
Qed.

Lemma high_risk_cites : Forall (cites norm) (_high_risk_source norm).
Proof.
  unfold _high_risk_source. apply Forall_concat, Forall_fmap, Forall_forall.
  intros ev Hev. cbn [compose]. unfold high_risk_of.
  repeat case_match; repeat constructor; by apply (cites_single norm ev).
Qed.

Lemma error_rate_cites : Forall (cites norm) (_high_error_rate ts).
Proof.
  unfold _high_error_rate. apply Forall_concat, Forall_fmap, Forall_forall.
  intros [k lst] Hb. cbn [compose]. unfold error_bucket_findings.
  destruct (length lst <? ERROR_RATE_MIN_EVENTS)%nat eqn:E; [constructor|].
  destruct (SFleb _ _); [|constructor]. apply Forall_singleton.
  apply Nat.ltb_ge in E. unfold ERROR_RATE_MIN_EVENTS in E.
  apply by_bucket_events in Hb. subst lst.
  destruct k as [[knd who] b].
  apply (cites_ids norm truthy (bucket_events (knd, who, b) ts) 50 _
           ltac:(lia) truthy_not_none (fun _ H => H)).
  - unfold bucket_events. apply run_events.
    apply sublist_filter_bool.
  - intros Hnil. rewrite Hnil in E. cbn [length] in E. lia.
  - done.
Qed.

Lemma rare_ua_cites : Forall (cites norm) (_rare_ua norm (ua_counts_of norm)).
Proof.
  rewrite rare_ua_closed_form. apply Forall_fmap, Forall_forall.
  intros ua Hua. cbn [compose].
  apply elem_of_filter_bool in Hua as [Hsingle _].
  unfold single_ua in Hsingle. apply andb_true_iff in Hsingle as [_ Hocc].
  apply Nat.eqb_eq in Hocc. unfold ua_occurrences in Hocc.
  set (evs := List.filter (fun ev => String.eqb (ev_user_agent ev) ua) norm)
    in *.
  assert (Forall (fun ev => ev ∈ norm) evs) as Hevs.
  { apply Forall_forall. intros ev Hev.
    by apply elem_of_filter_bool in Hev as [_ Hev]. }
  apply (cites_ids norm truthy evs 10 _ ltac:(lia) truthy_not_none
           (fun _ H => H)).
  - done.
  - intros Hnil. rewrite Hnil in Hocc. done.
  - cbn [meta rare_ua_finding dict_get String.eqb Ascii.eqb Bool.eqb].
    do 3 f_equal. unfold evs. rewrite filter_fmap.
    f_equal. clear. induction norm as [|e l IH]; [done|].
    cbn [List.filter]. destruct (String.eqb (ev_user_agent e) ua);
      cbn [andb List.filter]; [|done].
    destruct (truthy (ev_event_id e)); by rewrite IH.
Qed.

Lemma off_hours_cites : Forall (cites norm) (_off_hours_logins ts).
Proof.
  rewrite off_hours_closed_form.
  destruct (ev_event_id ∘ snd <$> List.filter early_login ts) as [|i ids] eqn:E;
    [constructor|].
  apply Forall_singleton. rewrite <- E.
  apply (cites_ids norm truthy (snd <$> List.filter early_login ts) 50 _
           ltac:(lia) truthy_not_none (fun _ H => H)).
  - apply run_events, sublist_filter_bool.
  - intros Hnil. rewrite list_fmap_compose, Hnil in E. done.
  - cbn [meta off_hours_finding dict_get String.eqb Ascii.eqb Bool.eqb].
    do 3 f_equal. rewrite list_fmap_compose.
    symmetry. apply filter_all. apply Forall_fmap, Forall_fmap, Forall_forall.
    intros tev Htev. apply elem_of_filter_bool in Htev as [Hp _].
    unfold early_login in Hp. by apply andb_true_iff in Hp as [_ Hp].
Qed.

Lemma run_passes_cites :
  Forall (cites norm) (run_passes norm (ua_counts_of norm) ts).
Proof.
  unfold run_passes. rewrite !Forall_app.
  repeat split; auto using activity_cites, brute_force_cites, blocked_cites,
    high_risk_cites, error_rate_cites, rare_ua_cites, off_hours_cites,
    token_cites.
Qed.

End Provenance.

Section Callers.
Context {rt : PyRuntime}.

Lemma timestamped_norm (norm : list norm_event) :
  Forall (fun tev => tev.2 ∈ norm) (timestamped norm).
Proof.
  apply Forall_forall. intros [t ev] Hin. unfold timestamped in Hin.
  apply list_elem_of_omap in Hin as (ev' & Hev' & Heq).
  destruct (ev_ts ev'); [|done]. cbn in Heq. by injection Heq as _ <-.
Qed.

Lemma detect_anomalies_cites events out :
  detect_anomalies events = Ok out ->
  Forall (cites (normalize <$> events)) out.
Proof.
  intros [->|(ts & Hts & ->)]%detect_anomalies_inv; [constructor|].
  destruct (time_sorted_spec _ _ Hts) as (Hs & Hp & _).
  eapply Forall_sublist_of; [apply dedupe_from_sublist|].
  apply run_passes_cites; [done|].
  apply Forall_forall. intros tev Htev. rewrite Hp in Htev.
  pose proof (timestamped_norm (normalize <$> events)) as H.
  rewrite Forall_forall in H. by apply H.
Qed.

(** X13.  A finding lists only identifiers of the batch: every entry of
    its [event_ids] is the identifier, other than [None], of an event of
    the batch. *)
Theorem findings_list_batch_identifiers (events : list raw_event)
    (out : list finding) (f : finding) :
  detect_anomalies events = Ok out -> f ∈ out ->
  exists ids,
    dict_get "event_ids" (meta f) = Some (ids_value ids)
    /\ Forall (fun i => i <> ANone /\ i ∈ batch_ids events) ids.
Proof.
  intros Hout Hf. pose proof (detect_anomalies_cites _ _ Hout) as H.
  rewrite Forall_forall in H. destruct (H f Hf) as (ids & H1 & H2 & _).
  exists ids. split; [done|]. unfold batch_ids.
  by rewrite list_fmap_compose.
Qed.

(** X14.  What [_process_analysis] stores as the event of an anomaly,
    [meta.get("event_ids", [None])[0]]: when every event of the batch
    carries a truthy identifier (as the rows of the database do) every
    returned finding lists at least one identifier, so the index is in
    range and yields a truthy identifier of the batch; when no event of
    the batch carries an identifier every returned finding has an empty
    list, and the index raises [IndexError]. *)
Theorem stored_event_of_a_finding (events : list raw_event)
    (out : list finding) (f : finding) :
  detect_anomalies events = Ok out -> f ∈ out ->
  (Forall (fun i => truthy i = true) (batch_ids events) ->
   exists i, anomaly_event_id f = Ok (VAtom i)
             /\ truthy i = true /\ i ∈ batch_ids events)
  /\ (Forall (fun i => i = ANone) (batch_ids events) ->
      anomaly_event_id f = Raise IndexError).
Proof.
  intros Hout Hf. pose proof (detect_anomalies_cites _ _ Hout) as H.
  rewrite Forall_forall in H. destruct (H f Hf) as (ids & H1 & H2 & H3).
  unfold anomaly_event_id. rewrite H1.
  assert (ev_event_id <$> (normalize <$> events) = batch_ids events) as Hb.
  { unfold batch_ids. by rewrite list_fmap_compose. }
  rewrite Hb in H2. split.
  - intros Hall. destruct ids as [|i ids].
    + exfalso. apply H3; [|done]. apply Forall_fmap.
      unfold batch_ids in Hall. by rewrite Forall_fmap in Hall.
    + exists i. split; [done|]. apply Forall_cons in H2 as [[_ Hi] _].
      split; [|done]. rewrite Forall_forall in Hall. by apply Hall.
  - intros Hnone. destruct ids as [|i ids]; [done|].
    apply Forall_cons in H2 as [[Hi Hin] _].
    rewrite Forall_forall in Hnone. by specialize (Hnone i Hin).
Qed.

End Callers.

(** ** Further instances on the sample runtime *)

Section Instances.
#[local] Existing Instance Sample.runtime.

(** X8, an instance: of three logins at 05:59, 06:00 and 02:00, the last
    with the identifier 0, the one at 05:59 is reported. *)
Lemma off_hours_logins_in_one_finding_witness :
  exists ts,
    time_sorted_of (normalize (rt := Sample.runtime)
                      <$> Scenarios.night_logins) = Ok ts
    /\ StronglySorted time_le ts
    /\ List.filter (has_kind "auth.offhours")
         (Scenarios.findings_of Scenarios.night_logins)
       = match ev_event_id ∘ snd <$> List.filter early_login ts with
         | [] => []
         | ids => [off_hours_finding ids]
         end
    /\ (forall ids, dict_get "event_ids" (meta (off_hours_finding ids))
                    = Some (ids_value (slice_to 50 ids))).
Proof.
  apply (off_hours_logins_in_one_finding (rt := Sample.runtime)
           Scenarios.night_logins).
  vm_compute. reflexivity.
Defined.

(** X11, an instance: a login that is both risky and made with a rare
    user agent. *)
Lemma findings_follow_pass_order_witness :
  StronglySorted rank_le (Scenarios.findings_of Scenarios.risky_login).
Proof.
  apply (findings_follow_pass_order (rt := Sample.runtime)
           Scenarios.risky_login).
  vm_compute. reflexivity.
Defined.

(** X13, an instance: the findings returned for twelve failed logins. *)
Lemma findings_list_batch_identifiers_witness :
  Forall
    (fun f =>
       exists ids,
         dict_get "event_ids" (meta f) = Some (ids_value ids)
         /\ Forall (fun i => i <> ANone
                             /\ i ∈ batch_ids (rt := Sample.runtime)
                                      Examples.burst12) ids)
    (Scenarios.findings_of Examples.burst12).
Proof.
  apply Forall_forall. intros f.
  apply (findings_list_batch_identifiers (rt := Sample.runtime)
           Examples.burst12).
  vm_compute. reflexivity.
Defined.

(** X14, an instance: the findings returned for twelve failed logins,
    which carry the identifiers 1 to 12. *)
Lemma stored_event_of_a_finding_witness :
  Forall
    (fun f =>
       (Forall (fun i => truthy i = true)
               (batch_ids (rt := Sample.runtime) Examples.burst12) ->
        exists i, anomaly_event_id f = Ok (VAtom i)
                  /\ truthy i = true
                  /\ i ∈ batch_ids (rt := Sample.runtime) Examples.burst12)
       /\ (Forall (fun i => i = ANone)
                  (batch_ids (rt := Sample.runtime) Examples.burst12) ->
           anomaly_event_id f = Raise IndexError))
    (Scenarios.findings_of Examples.burst12).
Proof.
  apply Forall_forall. intros f.
  apply (stored_event_of_a_finding (rt := Sample.runtime) Examples.burst12).
  vm_compute. reflexivity.
Defined.

End Instances.

(* ===================================================================== *)
(** * Properties of the callers in [app.py] *)
(* ===================================================================== *)

(** ** Sorting *)

Section InsertionSort.
Context {A : Type}.
Variable ltb : A -> A -> bool.

Lemma insert_by_permutation (x : A) (l : list A) :
  Permutation (insert_by ltb x l) (x :: l).
Proof.
  induction l as [|y l IH]; cbn [insert_by]; [done|].
  destruct (ltb x y); [done|]. rewrite IH. apply perm_swap.
Qed.

Lemma sort_by_permutation_from (l acc : list A) :
  Permutation (foldl (fun acc x => insert_by ltb x acc) acc l) (l ++ acc).
Proof.
  revert acc. induction l as [|x l IH]; intros acc; cbn [foldl app]; [done|].
  rewrite IH, insert_by_permutation. symmetry. apply Permutation_middle.
Qed.

Lemma sort_by_permutation (l : list A) : Permutation (sort_by ltb l) l.
Proof.
  unfold sort_by. rewrite sort_by_permutation_from. by rewrite app_nil_r.
Qed.

(** Sorting by a strict order that comes from a preorder [le]. *)
Variable le : A -> A -> Prop.
Hypothesis le_trans : forall x y z, le x y -> le y z -> le x z.
Hypothesis ltb_le : forall x y, ltb x y = true -> le x y.
Hypothesis not_ltb_le : forall x y, ltb x y = false -> le y x.

Lemma insert_by_ordered (x : A) (l : list A) :
  StronglySorted le l -> StronglySorted le (insert_by ltb x l).
Proof.
  induction 1 as [|y l Hs IH Hy]; cbn [insert_by].
  - repeat constructor.
  - destruct (ltb x y) eqn:E.
    + constructor; [by constructor|].
      constructor; [by apply ltb_le|].
      eapply Forall_impl; [exact Hy|]. intros z Hz.
      eapply le_trans; [|exact Hz]. by apply ltb_le.
    + constructor; [done|].
      rewrite (insert_by_permutation x l). constructor; [|done].
      by apply not_ltb_le.
Qed.

Lemma sort_by_ordered (l : list A) : StronglySorted le (sort_by ltb l).
Proof.
  unfold sort_by.
  assert (forall acc, StronglySorted le acc ->
            StronglySorted le (foldl (fun acc x => insert_by ltb x acc) acc l))
    as H.
  { induction l as [|x l IH]; intros acc Hacc; cbn [foldl]; [done|].
    by apply IH, insert_by_ordered. }
  apply H. constructor.
Qed.

End InsertionSort.

Lemma groups_sorted (l : list group) :
  StronglySorted count_ge (sort_by more_frequent l).
Proof.
  apply sort_by_ordered; unfold count_ge, more_frequent.
  - intros x y z. lia.
  - intros x y H. apply Nat.ltb_lt in H. lia.
  - intros x y H. apply Nat.ltb_ge in H. lia.
Qed.

Lemma insert_by_str_sorted (x : string) (l : list string) :
  x ∉ l -> StronglySorted str_lt l ->
  StronglySorted str_lt (insert_by String.ltb x l).
Proof.
  intros Hx Hs. induction Hs as [|y l Hs IH Hy]; cbn [insert_by].
  - repeat constructor.
  - rewrite not_elem_of_cons in Hx. destruct Hx as [Hxy Hx].
    destruct (String.ltb x y) eqn:E.
    + constructor; [by constructor|].
      constructor; [done|].
      eapply Forall_impl; [exact Hy|]. intros z Hz.
      unfold str_lt in *. by eapply str_ltb_trans.
    + constructor; [by apply IH|].
      rewrite (insert_by_permutation String.ltb x l). constructor; [|done].
      by apply str_ltb_total.
Qed.

Lemma sort_by_str_sorted (l : list string) :
  NoDup l -> StronglySorted str_lt (sort_by String.ltb l).
Proof.
  unfold sort_by.
  assert (forall acc, NoDup (l ++ acc) -> StronglySorted str_lt acc ->
            StronglySorted str_lt
              (foldl (fun acc x => insert_by String.ltb x acc) acc l)) as H.
  { induction l as [|x l IH]; intros acc Hnd Hacc; cbn [foldl]; [done|].
    cbn [app] in Hnd. apply NoDup_cons in Hnd as [Hx Hnd].
    apply IH.
    - rewrite insert_by_permutation. rewrite <- Permutation_middle.
      constructor; [done|done].
    - apply insert_by_str_sorted; [|done].
      intros Hin. apply Hx. apply elem_of_app. by right. }
  intros Hnd. apply H; [by rewrite app_nil_r|constructor].
Qed.

Lemma sorted_strs_sorted (s : gset string) :
  StronglySorted str_lt (sorted_strs s).
Proof. apply sort_by_str_sorted, NoDup_elements. Qed.

Lemma elem_of_sorted_strs (s : gset string) (x : string) :
  x ∈ sorted_strs s <-> x ∈ s.
Proof.
  unfold sorted_strs. rewrite sort_by_permutation. apply elem_of_elements.
Qed.

Lemma sorted_take {A} (R : A -> A -> Prop) n (l : list A) :
  StronglySorted R l -> StronglySorted R (take n l).
Proof. apply sorted_sublist, sublist_take. Qed.

(** ** Loops that may raise *)

Lemma for_each_app {S A} (body : S -> A -> result S) (l1 l2 : list A) st :
  for_each body st (l1 ++ l2)
  = (st' ← for_each body st l1; for_each body st' l2).
Proof.
  revert st. induction l1 as [|a l1 IH]; intros st; cbn [for_each app];
    [done|].
  destruct (body st a) as [st'|e]; cbn [mbind result_bind]; [apply IH|done].
Qed.

(** An invariant of the loop state that the body keeps holds at the
    end. *)
Lemma for_each_inv {S A} (body : S -> A -> result S)
    (I : list A -> S -> Prop) (l : list A) : forall pre st st',
  (forall pre st a st', I pre st -> body st a = Ok st' -> I (pre ++ [a]) st') ->
  I pre st -> for_each body st l = Ok st' -> I (pre ++ l) st'.
Proof.
  induction l as [|a l IH]; intros pre st st' Hbody Hst Hrun;
    cbn [for_each] in Hrun.
  - injection Hrun as <-. by rewrite app_nil_r.
  - destruct (body st a) as [st1|] eqn:E; [|done].
    cbn [mbind result_bind] in Hrun.
    rewrite (cons_middle a pre l), app_assoc.
    eapply IH; [done| |exact Hrun]. by eapply Hbody.
Qed.

(** ** The loops of [_group_anomalies] *)

Section Grouping.
Variable id_to_event : gmap Z event_row.

Lemma id_lookup_ok eid ev :
  id_lookup id_to_event eid = Ok ev -> ev = id_row id_to_event eid.
Proof.
  unfold id_lookup, id_row. destruct (hashable eid); [|done].
  by intros [= <-].
Qed.

Lemma elem_of_add_if_truthy (x : option string) (s : gset string) u :
  u ∈ add_if_truthy x s <-> u ∈ s \/ (u <> "" /\ x = Some u).
Proof.
  unfold add_if_truthy. destruct x as [x|].
  - destruct (String.eqb x "") eqn:E.
    + apply String.eqb_eq in E. subst x. split; [by left|].
      intros [H|[Hne [= <-]]]; done.
    + apply String.eqb_neq in E. rewrite elem_of_union, elem_of_singleton.
      split.
      * intros [H| ->]; [by left|by right].
      * intros [H|[_ [= ->]]]; [by left|by right].
  - split; [by left|]. intros [H|[_ H]]; done.
Qed.

(** The first loop adds the users and addresses of the rows it finds and
    leaves the rest of the bucket alone. *)
Lemma people_loop_spec ids : forall b b',
  people_loop id_to_event ids b = Ok b' ->
  b_kind b' = b_kind b /\ b_count b' = b_count b
  /\ b_reasons b' = b_reasons b
  /\ b_event_ids b' = b_event_ids b /\ b_samples b' = b_samples b
  /\ (forall u, u ∈ b_users b'
        <-> u ∈ b_users b
            \/ (u <> "" /\ exists eid row,
                  eid ∈ ids /\ id_row id_to_event eid = Some row
                  /\ row_user row = Some u))
  /\ (forall u, u ∈ b_src_ips b'
        <-> u ∈ b_src_ips b
            \/ (u <> "" /\ exists eid row,
                  eid ∈ ids /\ id_row id_to_event eid = Some row
                  /\ row_src_ip row = Some u)).
Proof.
  induction ids as [|eid ids IH]; intros b b' H; cbn [people_loop] in H.
  - injection H as <-. repeat split; try done; try (intros ?; by left).
    + intros [?|(_ & x & r & Hx & _)]; [done|by apply elem_of_nil in Hx].
    + intros [?|(_ & x & r & Hx & _)]; [done|by apply elem_of_nil in Hx].
  - destruct (id_lookup id_to_event eid) as [ev|] eqn:E; [|done].
    cbn [mbind result_bind] in H. apply id_lookup_ok in E.
    destruct (IH _ _ H) as (H1 & H2 & H3 & H4 & H5 & H6 & H7).
    assert (b_kind (note_people ev b) = b_kind b
            /\ b_count (note_people ev b) = b_count b
            /\ b_reasons (note_people ev b) = b_reasons b
            /\ b_event_ids (note_people ev b) = b_event_ids b
            /\ b_samples (note_people ev b) = b_samples b)
      as (G1 & G2 & G3 & G4 & G5) by by destruct ev.
    rewrite H1, H2, H3, H4, H5.
    split; [done|]. split; [done|]. split; [done|]. split; [done|].
    split; [done|]. split.
    + intros u. rewrite H6. destruct ev as [ev|]; cbn [note_people b_users].
      * rewrite elem_of_add_if_truthy. split.
        -- intros [[Hu|[Hu Hev]]|(Hu & x & r & Hx & Hr & Hf)]; [by left|..].
           ++ right. split; [done|]. exists eid, ev.
              split; [left|]. by split.
           ++ right. split; [done|]. exists x, r. split; [by right|done].
        -- intros [Hu|(Hu & x & r & Hx & Hr & Hf)]; [by left; left|].
           apply elem_of_cons in Hx as [->|Hx].
           ++ left. right. split; [done|]. congruence.
           ++ right. split; [done|]. by exists x, r.
      * split.
        -- intros [Hu|(Hu & x & r & Hx & Hr & Hf)]; [by left|].
           right. split; [done|]. exists x, r. split; [by right|done].
        -- intros [Hu|(Hu & x & r & Hx & Hr & Hf)]; [by left|].
           apply elem_of_cons in Hx as [->|Hx]; [congruence|].
           right. split; [done|]. by exists x, r.
    + intros u. rewrite H7. destruct ev as [ev|]; cbn [note_people b_src_ips].
      * rewrite elem_of_add_if_truthy. split.
        -- intros [[Hu|[Hu Hev]]|(Hu & x & r & Hx & Hr & Hf)]; [by left|..].
           ++ right. split; [done|]. exists eid, ev.
              split; [left|]. by split.
           ++ right. split; [done|]. exists x, r. split; [by right|done].
        -- intros [Hu|(Hu & x & r & Hx & Hr & Hf)]; [by left; left|].
           apply elem_of_cons in Hx as [->|Hx].
           ++ left. right. split; [done|]. congruence.
           ++ right. split; [done|]. by exists x, r.
      * split.
        -- intros [Hu|(Hu & x & r & Hx & Hr & Hf)]; [by left|].
           right. split; [done|]. exists x, r. split; [by right|done].
        -- intros [Hu|(Hu & x & r & Hx & Hr & Hf)]; [by left|].
           apply elem_of_cons in Hx as [->|Hx]; [congruence|].
           right. split; [done|]. by exists x, r.
Qed.

Lemma no_two_equal_snoc (l : list pyval) (x : pyval) :
  no_two_equal l -> val_in x l = false -> no_two_equal (l ++ [x]).
Proof.
  intros Hl Hx i j a b Ha Hb Hij.
  unfold val_in in Hx.
  assert (forall y, y ∈ l -> py_eq y x = false) as Hyx.
  { intros y Hy. destruct (py_eq y x) eqn:E; [|done].
    assert (existsb (fun y => py_eq y x) l = true) as Hex; [|congruence].
    apply existsb_exists. exists y. split; [by apply list_elem_of_In|done]. }
  apply lookup_app_Some in Ha as [Ha|[Hia Ha]];
    apply lookup_app_Some in Hb as [Hb|[Hjb Hb]].
  - by eapply Hl.
  - apply list_lookup_singleton_Some in Hb as [_ <-].
    apply Hyx. by eapply list_elem_of_lookup_2.
  - apply list_lookup_singleton_Some in Ha as [Hi _].
    apply lookup_lt_Some in Hb. lia.
  - apply list_lookup_singleton_Some in Ha as [Hi _].
    apply list_lookup_singleton_Some in Hb as [Hj _]. lia.
Qed.

Lemma kept_in_snoc (l : list pyval) (x y : pyval) :
  kept_in l x -> kept_in (l ++ [y]) x.
Proof.
  intros [H|H]; [left; apply elem_of_app; by left|].
  right. unfold val_in in *. rewrite existsb_app, H. done.
Qed.

(** The second loop keeps the identifiers that are new, up to 25 of
    them, and the rows that [id_to_event] holds for them. *)
Lemma samples_loop_spec ids : forall b b' C,
  samples_loop id_to_event ids b = Ok b' ->
  (length (b_event_ids b) <= 25)%nat ->
  sublist (b_event_ids b) C ->
  no_two_equal (b_event_ids b) ->
  ((length (b_event_ids b) < 25)%nat ->
   forall x, x ∈ C -> kept_in (b_event_ids b) x) ->
  b_samples b = omap (id_row id_to_event) (b_event_ids b) ->
  b_kind b' = b_kind b /\ b_count b' = b_count b
  /\ b_reasons b' = b_reasons b
  /\ b_users b' = b_users b /\ b_src_ips b' = b_src_ips b
  /\ (length (b_event_ids b') <= 25)%nat
  /\ sublist (b_event_ids b') (C ++ ids)
  /\ no_two_equal (b_event_ids b')
  /\ ((length (b_event_ids b') < 25)%nat ->
      forall x, x ∈ C ++ ids -> kept_in (b_event_ids b') x)
  /\ b_samples b' = omap (id_row id_to_event) (b_event_ids b').
Proof.
  induction ids as [|eid ids IH]; intros b b' C H Hlen Hsub Hnd Hall Hsam;
    cbn [samples_loop] in H.
  - injection H as <-. rewrite app_nil_r. by repeat split.
  - destruct (25 <=? length (b_event_ids b))%nat eqn:E25.
    + injection H as <-. apply Nat.leb_le in E25.
      repeat split; try done; [by apply sublist_inserts_r|].
      intros Hlt. lia.
    + apply Nat.leb_gt in E25.
      rewrite (cons_middle eid C ids), app_assoc.
      destruct (val_in eid (b_event_ids b)) eqn:Ein.
      * apply (IH b b' (C ++ [eid]) H); try done.
        -- by apply sublist_inserts_r.
        -- intros Hlt x Hx. apply elem_of_app in Hx as [Hx|Hx].
           ++ by apply Hall.
           ++ apply list_elem_of_singleton in Hx. subst x. by right.
      * destruct (id_lookup id_to_event eid) as [ev|] eqn:El; [|done].
        cbn [mbind result_bind] in H. apply id_lookup_ok in El.
        destruct (IH _ b' (C ++ [eid]) H) as (H1 & H2 & H3 & H4 & H5 & H6);
          cbn [b_event_ids b_samples] in *.
        -- rewrite length_app. cbn [length]. lia.
        -- by apply sublist_app.
        -- by apply no_two_equal_snoc.
        -- intros _ x Hx. apply elem_of_app in Hx as [Hx|Hx].
           ++ apply kept_in_snoc. by apply Hall.
           ++ apply list_elem_of_singleton in Hx. subst x.
              left. apply elem_of_app. right. left.
        -- rewrite omap_app, Hsam. f_equal. cbn [omap list_omap].
           rewrite <- El. by destruct ev.
        -- done.
Qed.

Lemma od_get_None {V} (K : string) (g : list (string * V)) :
  od_get K g = None <-> K ∉ g.*1.
Proof.
  induction g as [|[k v] g IH]; cbn [od_get fmap list_fmap fst].
  - split; [intros _ H; by apply elem_of_nil in H|done].
  - rewrite not_elem_of_cons. destruct (decide (K = k)) as [->|Hne].
    + split; [done|]. by intros [? _].
    + rewrite IH. tauto.
Qed.

Lemma filed_as_snoc K l a :
  filed_as K (l ++ [a])
  = filed_as K l ++ (if String.eqb (kind_or_other a) K then [a] else []).
Proof. unfold filed_as. by rewrite List.filter_app. Qed.

Lemma cited_ids_snoc la a ids :
  val_iter (ev_ids_of a) = Ok ids -> cited_ids (la ++ [a]) = cited_ids la ++ ids.
Proof.
  intros H. unfold cited_ids. rewrite fmap_app, concat_app.
  cbn [fmap list_fmap concat]. by rewrite H, app_nil_r.
Qed.

Lemma new_bucket_inv K : bucket_inv K id_to_event [] new_bucket.
Proof.
  unfold bucket_inv, new_bucket, cited_field, cited_ids.
  cbn [b_count b_kind b_reasons b_users b_src_ips b_event_ids b_samples
       length fmap list_fmap concat omap list_omap].
  split; [done|]. split; [done|].
  split; [intros r; split; [by intros ?%elem_of_empty
                           |intros [_ H]; by apply elem_of_nil in H]|].
  split; [intros u; split; [by intros ?%elem_of_empty
                           |intros (_ & x & r & H & _); by apply elem_of_nil in H]|].
  split; [intros u; split; [by intros ?%elem_of_empty
                           |intros (_ & x & r & H & _); by apply elem_of_nil in H]|].
  split; [lia|]. split; [done|].
  split; [intros i j x y H; by rewrite lookup_nil in H|].
  split; [|done]. intros _ x H. by apply elem_of_nil in H.
Qed.

Lemma bucket_step_inv K la b a b' :
  kind_or_other a = K ->
  bucket_inv K id_to_event la b ->
  bucket_step id_to_event b a = Ok b' ->
  bucket_inv K id_to_event (la ++ [a]) b'.
Proof.
  intros HK (I1 & I2 & I3 & I4 & I5 & I6 & I7 & I8 & I9 & I10) H.
  unfold bucket_step in H.
  destruct (val_iter (ev_ids_of a)) as [ids|] eqn:Eids; [|done].
  cbn [mbind result_bind] in H.
  destruct (people_loop id_to_event ids _) as [b1|] eqn:Ep; [|done].
  cbn [mbind result_bind] in H.
  destruct (people_loop_spec _ _ _ Ep) as (P1 & P2 & P3 & P4 & P5 & P6 & P7).
  cbn [b_kind b_count b_reasons b_users b_src_ips b_event_ids b_samples]
    in P1, P2, P3, P4, P5, P6, P7.
  destruct (samples_loop_spec ids b1 b' (cited_ids la) H)
    as (S1 & S2 & S3 & S4 & S5 & S6 & S7 & S8 & S9 & S10);
    rewrite ?P4, ?P5; try done.
  unfold bucket_inv, cited_field. rewrite (cited_ids_snoc la a ids Eids).
  rewrite S1, S2, S3, S4, S5, P1, P2, P3.
  split; [rewrite length_app; cbn [length]; lia|].
  split; [intros _; by rewrite HK|].
  split.
  { intros r. rewrite fmap_app, elem_of_app. cbn [fmap list_fmap].
    rewrite list_elem_of_singleton.
    destruct (String.eqb (reason a) "") eqn:Er.
    - apply String.eqb_eq in Er. rewrite I3. split; [tauto|].
      intros [Hr [Hin|Heq]]; [done|]. congruence.
    - apply String.eqb_neq in Er.
      rewrite elem_of_union, elem_of_singleton, I3. split.
      + intros [[? ?]| ->]; [tauto|]. split; [done|by right].
      + intros [Hr [Hin| ->]]; [by left|by right]. }
  assert (forall (field : event_row -> option string) (X X' : gset string),
            (forall u, u ∈ X <-> cited_field id_to_event field la u) ->
            (forall u, u ∈ X'
               <-> u ∈ X
                   \/ (u <> "" /\ exists eid row,
                         eid ∈ ids /\ id_row id_to_event eid = Some row
                         /\ field row = Some u)) ->
            forall u, u ∈ X'
              <-> u <> ""
                  /\ exists eid row, eid ∈ cited_ids la ++ ids
                                     /\ id_row id_to_event eid = Some row
                                     /\ field row = Some u) as Hfield.
  { intros field X X' HX HX' u. rewrite HX', HX. unfold cited_field. split.
    - intros [(Hu & x & r & Hx & Hr)|(Hu & x & r & Hx & Hr)];
        (split; [done|]); exists x, r;
        (split; [apply elem_of_app; by auto|done]).
    - intros (Hu & x & r & Hx & Hr). apply elem_of_app in Hx as [Hx|Hx].
      + left. split; [done|]. by exists x, r.
      + right. split; [done|]. by exists x, r. }
  split; [exact (Hfield row_user (b_users b) (b_users b1) I4 P6)|].
  split; [exact (Hfield row_src_ip (b_src_ips b) (b_src_ips b1) I5 P7)|].
  done.
Qed.

Lemma sum_list_od_update (K : string) (b' : bucket) (g : list (string * bucket)) :
  b_count b' = S (b_count (default new_bucket (od_get K g))) ->
  sum_list (b_count ∘ snd <$> od_update K (fun _ => b') new_bucket g)
  = S (sum_list (b_count ∘ snd <$> g)).
Proof.
  intros Hb. induction g as [|[k v] g IH];
    cbn [od_update od_get fmap list_fmap sum_list compose snd] in *.
  - rewrite Hb. cbn. lia.
  - destruct (decide (K = k)) as [->|Hne];
      cbn [fmap list_fmap sum_list compose snd default from_option id] in *.
    + rewrite Hb. lia.
    + rewrite IH by done. lia.
Qed.

Lemma bucket_step_count b a b' :
  bucket_step id_to_event b a = Ok b' -> b_count b' = S (b_count b).
Proof.
  intros H. unfold bucket_step in H.
  destruct (val_iter (ev_ids_of a)) as [ids|] eqn:Eids; [|done].
  cbn [mbind result_bind] in H.
  destruct (people_loop id_to_event ids _) as [b1|] eqn:Ep; [|done].
  cbn [mbind result_bind] in H.
  destruct (people_loop_spec _ _ _ Ep) as (_ & P2 & _).
  assert (b_count b' = b_count b1) as ->; [|by rewrite P2].
  clear -H. revert b1 H. induction ids as [|eid ids IH]; intros b1 H;
    cbn [samples_loop] in H.
  - by injection H as <-.
  - destruct (25 <=? _)%nat; [by injection H as <-|].
    destruct (val_in eid _); [by apply IH|].
    destruct (id_lookup id_to_event eid); [|done].
    cbn [mbind result_bind] in H. by apply IH in H.
Qed.

Lemma group_step_inv l g a g' :
  groups_inv id_to_event l g ->
  group_step id_to_event g a = Ok g' ->
  groups_inv id_to_event (l ++ [a]) g'.
Proof.
  intros (G1 & G2 & G3 & G4) H. unfold group_step in H.
  set (K0 := kind_or_other a) in *.
  destruct (bucket_step id_to_event _ a) as [b'|] eqn:Eb; [|done].
  cbn [mbind result_bind] in H. injection H as <-.
  assert (bucket_inv K0 id_to_event (filed_as K0 l)
            (default new_bucket (od_get K0 g))) as Hb.
  { destruct (od_get K0 g) as [b|] eqn:Eg; cbn [default from_option id].
    - apply G3. by apply od_get_Some_elem.
    - apply od_get_None in Eg.
      assert (filed_as K0 l = []) as ->.
      { destruct (filed_as K0 l) eqn:E; [done|].
        exfalso. apply Eg, G2. by rewrite E. }
      apply new_bucket_inv. }
  pose proof (bucket_step_inv K0 _ _ a b' eq_refl Hb Eb) as Hb'.
  pose proof (od_update_NoDup K0 (fun _ => b') new_bucket g G1) as Hnd.
  split; [done|]. split; [|split].
  - intros K. rewrite od_update_keys, filed_as_snoc. fold K0.
    destruct (String.eqb K0 K) eqn:E.
    + apply String.eqb_eq in E. subst K. split.
      * intros _ Happ. by apply app_eq_nil in Happ as [_ ?].
      * intros _. case_bool_decide; [done|].
        apply elem_of_app. right. left.
    + apply String.eqb_neq in E. rewrite app_nil_r, <- G2.
      case_bool_decide; [done|]. rewrite elem_of_app, list_elem_of_singleton.
      split; [intros [?|?]; [done|congruence]|by left].
  - intros K b Hin. apply od_get_elem in Hin; [|done].
    rewrite od_get_update in Hin. rewrite filed_as_snoc. fold K0.
    destruct (decide (K = K0)) as [->|Hne].
    + injection Hin as <-. by rewrite String.eqb_refl.
    + rewrite (proj2 (String.eqb_neq K0 K)) by done. rewrite app_nil_r.
      apply G3. by apply od_get_Some_elem.
  - rewrite sum_list_od_update, G4.
    + rewrite length_app. cbn [length]. lia.
    + by apply bucket_step_count in Eb.
Qed.

Lemma groups_inv_nil : groups_inv id_to_event [] [].
Proof.
  split; [constructor|]. split; [|split; [|done]].
  - intros K. split; [intros H; by apply elem_of_nil in H|done].
  - intros K b H. by apply elem_of_nil in H.
Qed.

Lemma for_each_groups_inv l g :
  for_each (group_step id_to_event) [] l = Ok g ->
  groups_inv id_to_event l g.
Proof.
  intros H.
  apply (for_each_inv (group_step id_to_event) (groups_inv id_to_event)
           l [] [] g); [|apply groups_inv_nil|done].
  intros pre st a st'. apply group_step_inv.
Qed.

Lemma group_anomalies_inv l gs :
  _group_anomalies l id_to_event = Ok gs ->
  exists g,
    groups_inv id_to_event l g
    /\ gs = sort_by more_frequent (finalize ∘ snd <$> g)
    /\ Permutation gs (finalize ∘ snd <$> g).
Proof.
  unfold _group_anomalies. intros H.
  destruct (for_each (group_step id_to_event) [] l) as [g|] eqn:E; [|done].
  cbn [mbind result_bind] in H. injection H as <-.
  exists g. split; [by apply for_each_groups_inv|].
  split; [done|apply sort_by_permutation].
Qed.

End Grouping.

(** ** When [_group_anomalies] raises *)

Lemma for_each_ok_iff {S A} (body : S -> A -> result S) (P : A -> Prop) l :
  (forall st a, (exists st', body st a = Ok st') <-> P a) ->
  forall st, (exists st', for_each body st l = Ok st') <-> Forall P l.
Proof.
  intros Hbody. induction l as [|a l IH]; intros st; cbn [for_each].
  - split; [constructor|]. intros _. by exists st.
  - rewrite Forall_cons. destruct (body st a) as [st1|e] eqn:E;
      cbn [mbind result_bind].
    + rewrite IH. split; [|tauto]. intros H. split; [|done].
      apply (Hbody st a). by exists st1.
    + split; [by intros [? ?]|]. intros [Ha _].
      apply (Hbody st a) in Ha as [st' Hst']. congruence.
Qed.

Lemma for_each_raise {S A} (body : S -> A -> result S) (Q : exn -> Prop) l :
  (forall st a e, body st a = Raise e -> Q e) ->
  forall st e, for_each body st l = Raise e -> Q e.
Proof.
  intros Hbody. induction l as [|a l IH]; intros st e H; cbn [for_each] in H;
    [done|].
  destruct (body st a) as [st1|e1] eqn:E; cbn [mbind result_bind] in H.
  - by eapply IH.
  - injection H as <-. by eapply Hbody.
Qed.

Section GroupingErrors.
Variable id_to_event : gmap Z event_row.

Lemma id_lookup_cases eid :
  (hashable eid = true /\ exists ev, id_lookup id_to_event eid = Ok ev)
  \/ (hashable eid = false /\ id_lookup id_to_event eid = Raise TypeError).
Proof.
  unfold id_lookup. destruct (hashable eid); [left|right]; [|done].
  split; [done|]. by eexists.
Qed.

Lemma people_loop_ok_iff ids : forall b,
  (exists b', people_loop id_to_event ids b = Ok b')
  <-> Forall (fun x => hashable x = true) ids.
Proof.
  induction ids as [|eid ids IH]; intros b; cbn [people_loop].
  - split; [constructor|]. intros _. by exists b.
  - rewrite Forall_cons.
    destruct (id_lookup_cases eid) as [[Hh [ev ->]]|[Hh ->]];
      cbn [mbind result_bind].
    + rewrite IH. tauto.
    + split; [by intros [? ?]|]. intros [? _]. congruence.
Qed.

Lemma people_loop_raise ids : forall b e,
  people_loop id_to_event ids b = Raise e -> e = TypeError.
Proof.
  induction ids as [|eid ids IH]; intros b e H; cbn [people_loop] in H;
    [done|].
  destruct (id_lookup_cases eid) as [[Hh [ev Hev]]|[Hh Hev]];
    rewrite Hev in H; cbn [mbind result_bind] in H.
  - by eapply IH.
  - by injection H as <-.
Qed.

Lemma samples_loop_ok ids : forall b,
  Forall (fun x => hashable x = true) ids ->
  exists b', samples_loop id_to_event ids b = Ok b'.
Proof.
  induction ids as [|eid ids IH]; intros b Hh; cbn [samples_loop].
  - by exists b.
  - apply Forall_cons in Hh as [Heid Hh].
    destruct (25 <=? _)%nat; [by exists b|].
    destruct (val_in eid _); [by apply IH|].
    destruct (id_lookup_cases eid) as [[_ [ev ->]]|[? _]]; [|congruence].
    cbn [mbind result_bind]. by apply IH.
Qed.

Lemma val_iter_raise v e : val_iter v = Raise e -> e = TypeError.
Proof.
  destruct v as [[]| | | |]; cbn [val_iter]; intros H; try done;
    by injection H as <-.
Qed.

Lemma bucket_step_ok_iff b a :
  (exists b', bucket_step id_to_event b a = Ok b') <-> ids_usable a.
Proof.
  unfold bucket_step, ids_usable.
  destruct (val_iter (ev_ids_of a)) as [ids|e] eqn:Eids;
    cbn [mbind result_bind]; [|split; [by intros [? ?]|by intros (? & ? & _)]].
  match goal with
  | |- context [people_loop id_to_event ids ?b0] =>
    pose proof (people_loop_ok_iff ids b0) as Hp;
    destruct (people_loop id_to_event ids b0) as [b1|e] eqn:Ep
  end; cbn [mbind result_bind].
  - assert (Forall (fun x => hashable x = true) ids) as Hh
      by (apply Hp; by eexists).
    split; [intros _; by exists ids|]. intros _. by apply samples_loop_ok.
  - split; [by intros [? ?]|]. intros (ids' & [= <-] & Hh).
    apply Hp in Hh as [? ?]. done.
Qed.

Lemma bucket_step_raise b a e :
  bucket_step id_to_event b a = Raise e -> e = TypeError.
Proof.
  unfold bucket_step. intros H.
  destruct (val_iter (ev_ids_of a)) as [ids|e1] eqn:Eids;
    cbn [mbind result_bind] in H;
    [|injection H as <-; by eapply val_iter_raise].
  match type of H with
  | context [people_loop id_to_event ids ?b0] =>
    pose proof (people_loop_ok_iff ids b0) as Hp;
    destruct (people_loop id_to_event ids b0) as [b1|e1] eqn:Ep
  end; cbn [mbind result_bind] in H.
  - assert (Forall (fun x => hashable x = true) ids) as Hh
      by (apply Hp; by eexists).
    destruct (samples_loop_ok ids b1 Hh) as [b' Hb']. congruence.
  - injection H as <-. by eapply people_loop_raise.
Qed.

Lemma group_step_ok_iff g a :
  (exists g', group_step id_to_event g a = Ok g') <-> ids_usable a.
Proof.
  rewrite <- (bucket_step_ok_iff
                (default new_bucket (od_get (kind_or_other a) g)) a).
  unfold group_step.
  destruct (bucket_step id_to_event _ a) as [b'|e]; cbn [mbind result_bind].
  - split; intros _; by eexists.
  - split; by intros [? ?].
Qed.

Lemma group_step_raise g a e :
  group_step id_to_event g a = Raise e -> e = TypeError.
Proof.
  unfold group_step. intros H.
  destruct (bucket_step id_to_event _ a) as [b'|e1] eqn:E;
    cbn [mbind result_bind] in H; [done|].
  injection H as <-. by eapply bucket_step_raise.
Qed.

(** X15.  The one way in which [_group_anomalies] fails: it returns a
    list exactly when, for every finding, the object under [event_ids]
    can be iterated and each of its items can be hashed; otherwise it
    raises [TypeError] (from the [for] loop or from the membership test
    on [id_to_event]), and nothing else. *)
Theorem group_anomalies_raises_iff_unusable (rich_anoms : list finding) :
  ((exists out, _group_anomalies rich_anoms id_to_event = Ok out)
   <-> Forall ids_usable rich_anoms)
  /\ (forall e, _group_anomalies rich_anoms id_to_event = Raise e ->
                e = TypeError).
Proof.
  unfold _group_anomalies. split.
  - rewrite <- (for_each_ok_iff (group_step id_to_event) ids_usable
                  rich_anoms group_step_ok_iff []).
    destruct (for_each _ [] rich_anoms) as [g|e]; cbn [mbind result_bind].
    + split; intros _; by eexists.
    + split; by intros [? ?].
  - intros e H.
    destruct (for_each _ [] rich_anoms) as [g|e1] eqn:E;
      cbn [mbind result_bind] in H; [done|].
    injection H as <-.
    by apply (for_each_raise (group_step id_to_event) (fun e => e = TypeError)
                rich_anoms group_step_raise [] e1).
Qed.

End GroupingErrors.

(** ** What [_group_anomalies] returns *)

Lemma atom_eqb_refl (a : atom) : atom_eqb a a = true.
Proof.
  destruct a as [|b|z|s|d]; unfold atom_eqb; cbn [atom_num].
  - done.
  - apply Z.eqb_refl.
  - apply Z.eqb_refl.
  - apply String.eqb_refl.
  - unfold dt_eqb. rewrite bool_decide_eq_true_2 by done. apply Z.eqb_refl.
Qed.

Lemma kept_in_atom (ids : list pyval) (i : atom) :
  kept_in ids (VAtom i) -> val_in (VAtom i) ids = true.
Proof.
  intros [H|H]; [|done]. unfold val_in. apply existsb_exists.
  exists (VAtom i). split; [by apply list_elem_of_In|].
  cbn [py_eq]. apply atom_eqb_refl.
Qed.

Lemma cited_ids_filter (P : finding -> bool) l x :
  x ∈ cited_ids (List.filter P l) -> x ∈ cited_ids l.
Proof.
  unfold cited_ids. rewrite !list_elem_of_In, !in_concat.
  intros (ids & Hids & Hx). exists ids. split; [|done].
  rewrite <- list_elem_of_In in *.
  apply list_elem_of_fmap in Hids as (a & -> & Ha).
  apply list_elem_of_fmap. exists a. split; [done|].
  apply list_elem_of_In, filter_In in Ha as [Ha _]. by apply list_elem_of_In.
Qed.

Lemma omap_length_le {A B} (f : A -> option B) (l : list A) :
  (length (omap f l) <= length l)%nat.
Proof.
  induction l as [|a l IH]; [done|]. cbn [omap list_omap].
  destruct (f a); cbn [length]; lia.
Qed.

Section GroupingResults.
Variable id_to_event : gmap Z event_row.

Lemma group_of_bucket l g x :
  groups_inv id_to_event l g -> x ∈ finalize ∘ snd <$> g ->
  exists K b, (K, b) ∈ g /\ x = finalize b /\ filed_as K l <> []
              /\ b_kind b = Some K
              /\ bucket_inv K id_to_event (filed_as K l) b.
Proof.
  intros (G1 & G2 & G3 & G4) Hx.
  apply list_elem_of_fmap in Hx as ([K b] & -> & Hin).
  exists K, b.
  assert (filed_as K l <> []) as Hne.
  { apply G2. apply list_elem_of_fmap. by exists (K, b). }
  pose proof (G3 K b Hin) as Hb.
  split; [done|]. split; [done|]. split; [done|]. split; [|done].
  by apply Hb.
Qed.

Lemma group_of_kind l out x K :
  _group_anomalies l id_to_event = Ok out -> x ∈ out -> g_kind x = Some K ->
  exists b, x = finalize b /\ filed_as K l <> []
            /\ bucket_inv K id_to_event (filed_as K l) b.
Proof.
  intros (g & Hg & _ & Hperm)%group_anomalies_inv Hx HK.
  rewrite Hperm in Hx.
  destruct (group_of_bucket l g x Hg Hx) as (K' & b & _ & -> & Hne & Hk & Hb).
  cbn [finalize g_kind] in HK. rewrite Hk in HK. injection HK as ->.
  by exists b.
Qed.

(** X16.  The groups partition the findings by kind: no two groups have
    the same kind, every finding's kind (["other"] when it has none) has
    a group, and the count of a group is the number of findings of its
    kind, which is positive; so the counts add up to the number of
    findings.  The groups come in descending order of count. *)
Theorem groups_partition_findings (rich_anoms : list finding)
    (out : list group) :
  _group_anomalies rich_anoms id_to_event = Ok out ->
  NoDup (g_kind <$> out)
  /\ (forall a, a ∈ rich_anoms ->
        exists x, x ∈ out /\ g_kind x = Some (kind_or_other a))
  /\ (forall x, x ∈ out ->
        exists K, g_kind x = Some K
                  /\ g_count x = length (filed_as K rich_anoms)
                  /\ (0 < g_count x)%nat)
  /\ sum_list (g_count <$> out) = length rich_anoms
  /\ StronglySorted count_ge out.
Proof.
  intros H. destruct (group_anomalies_inv _ _ _ H) as (g & Hg & Hout & Hperm).
  pose proof Hg as (G1 & G2 & G3 & G4).
  assert (Forall (fun kb : string * bucket =>
                    g_kind (finalize kb.2) = Some kb.1
                    /\ g_count (finalize kb.2) = b_count kb.2) g) as Hk.
  { apply Forall_forall. intros [K b] Hin. cbn [fst snd finalize g_kind g_count].
    split; [|done]. apply (G3 K b Hin).
    apply G2. apply list_elem_of_fmap. by exists (K, b). }
  split; [|split; [|split; [|split]]].
  - rewrite Hperm, <- list_fmap_compose.
    assert ((g_kind ∘ (finalize ∘ snd)) <$> g = Some <$> g.*1) as ->.
    { rewrite <- list_fmap_compose. apply Forall_fmap_ext_1.
      eapply Forall_impl; [exact Hk|]. by intros kb [? _]. }
    apply NoDup_fmap_2; [apply _|done].
  - intros a Ha.
    assert (kind_or_other a ∈ g.*1) as Hin.
    { apply G2. intros Hnil.
      assert (a ∈ filed_as (kind_or_other a) rich_anoms) as Hin.
      { apply list_elem_of_In, filter_In. split; [by apply list_elem_of_In|].
        apply String.eqb_refl. }
      rewrite Hnil in Hin. by apply elem_of_nil in Hin. }
    apply list_elem_of_fmap in Hin as ([K b] & HK & Hin). cbn [fst] in HK.
    exists (finalize b). split.
    + rewrite Hperm. apply list_elem_of_fmap. by exists (K, b).
    + rewrite Forall_forall in Hk. destruct (Hk _ Hin) as [Hkk _].
      cbn [fst snd] in Hkk. by rewrite Hkk, HK.
  - intros x Hx. rewrite Hperm in Hx.
    destruct (group_of_bucket _ g x Hg Hx) as (K & b & _ & -> & Hne & Hkb & Hb).
    exists K. cbn [finalize g_kind g_count]. split; [done|].
    destruct Hb as (-> & _). split; [done|].
    destruct (filed_as K rich_anoms); [done|cbn [length]; lia].
  - rewrite Hperm, <- list_fmap_compose, <- G4. reflexivity.
  - rewrite Hout. apply groups_sorted.
Qed.

(** X17.  The names that a group shows: its reasons are the first five,
    in ascending order and without repetition, of the non-empty reasons
    of the findings of its kind; its users and its addresses are the
    first ten, likewise, of the non-empty users and addresses of the
    rows that [id_to_event] holds for the identifiers these findings
    list. *)
Theorem group_names_sorted_and_bounded (rich_anoms : list finding)
    (out : list group) (x : group) (K : string) :
  _group_anomalies rich_anoms id_to_event = Ok out ->
  x ∈ out -> g_kind x = Some K ->
  exists rs us ips,
    g_reasons x = take 5 rs /\ g_users x = take 10 us
    /\ g_src_ips x = take 10 ips
    /\ StronglySorted str_lt rs /\ StronglySorted str_lt us
    /\ StronglySorted str_lt ips
    /\ (forall r, r ∈ rs
          <-> r <> "" /\ r ∈ reason <$> filed_as K rich_anoms)
    /\ (forall u, u ∈ us
          <-> cited_field id_to_event row_user (filed_as K rich_anoms) u)
    /\ (forall u, u ∈ ips
          <-> cited_field id_to_event row_src_ip (filed_as K rich_anoms) u).
Proof.
  intros H Hx HK.
  destruct (group_of_kind _ _ _ _ H Hx HK)
    as (b & -> & _ & _ & _ & I3 & I4 & I5 & _).
  exists (sorted_strs (b_reasons b)), (sorted_strs (b_users b)),
         (sorted_strs (b_src_ips b)).
  split; [done|]. split; [done|]. split; [done|].
  split; [apply sorted_strs_sorted|]. split; [apply sorted_strs_sorted|].
  split; [apply sorted_strs_sorted|].
  split; [intros r; by rewrite elem_of_sorted_strs|].
  split; intros u; by rewrite elem_of_sorted_strs.
Qed.

(** X18.  The samples of a group, when the identifiers listed are plain
    objects: they are the rows that [id_to_event] holds for at most 25
    of the identifiers that the findings of the kind list, taken in the
    order of listing, none of them equal to an earlier one; when fewer
    than 25 are taken, every listed identifier equals one of them. *)
Theorem group_samples_are_rows_of_listed_ids (rich_anoms : list finding)
    (out : list group) (x : group) (K : string) :
  atom_ids rich_anoms ->
  _group_anomalies rich_anoms id_to_event = Ok out ->
  x ∈ out -> g_kind x = Some K ->
  exists ids,
    g_samples x = omap (id_row id_to_event) ids
    /\ sublist ids (cited_ids (filed_as K rich_anoms))
    /\ (length ids <= 25)%nat
    /\ no_two_equal ids
    /\ ((length ids < 25)%nat ->
        forall i, i ∈ cited_ids (filed_as K rich_anoms) ->
                  val_in i ids = true).
Proof.
  intros Hatom H Hx HK.
  destruct (group_of_kind _ _ _ _ H Hx HK)
    as (b & -> & _ & _ & _ & _ & _ & _ & I6 & I7 & I8 & I9 & I10).
  exists (b_event_ids b). cbn [finalize g_samples].
  split; [|split; [done|split; [done|split; [done|]]]].
  - unfold slice_to. rewrite I10. apply take_ge.
    etrans; [apply omap_length_le|done].
  - intros Hlt i Hi. unfold atom_ids in Hatom. rewrite Forall_forall in Hatom.
    destruct (Hatom i (cited_ids_filter _ _ _ Hi)) as [a ->].
    apply kept_in_atom. by apply I9.
Qed.

End GroupingResults.

(** ** Grouping the findings of an upload *)

Lemma group_anomalies_ok (id_to_event : gmap Z event_row) l :
  Forall ids_usable l -> exists out, _group_anomalies l id_to_event = Ok out.
Proof.
  intros H.
  apply (for_each_ok_iff (group_step id_to_event) ids_usable l
           (group_step_ok_iff id_to_event) []) in H as [g Hg].
  unfold _group_anomalies. rewrite Hg. cbn [mbind result_bind]. by eexists.
Qed.

Lemma take_not_nil {A} n (l : list A) : (0 < n)%nat -> l <> [] -> take n l <> [].
Proof. intros Hn Hl [?|?]%take_nil_inv; [lia|done]. Qed.

Lemma elem_of_take_1 {A} n (l : list A) x : x ∈ take n l -> x ∈ l.
Proof. intros H. eapply elem_of_sublist; [exact H|apply sublist_take]. Qed.

Section Upload.
Context {rt : PyRuntime}.

Lemma id_to_event_of_lookup evs k row :
  id_to_event_of evs !! k = Some row ->
  exists e, e ∈ evs /\ le_id e = k /\ row = event_row_of e.
Proof.
  unfold id_to_event_of. induction evs as [|e evs IH] using rev_ind.
  - cbn [foldl]. by rewrite lookup_empty.
  - rewrite foldl_app. cbn [foldl]. intros H.
    destruct (decide (le_id e = k)) as [Hk|Hk].
    + rewrite Hk, lookup_insert_eq in H. injection H as <-.
      exists e. split; [|done]. apply elem_of_app. right. left.
    + rewrite lookup_insert_ne in H by done.
      destruct (IH H) as (e' & He' & Hid & Hrow).
      exists e'. split; [|done]. apply elem_of_app. by left.
Qed.

Lemma id_to_event_of_is_Some evs e :
  e ∈ evs -> is_Some (id_to_event_of evs !! le_id e).
Proof.
  unfold id_to_event_of. induction evs as [|e' evs IH] using rev_ind.
  - by intros H%elem_of_nil.
  - rewrite foldl_app. cbn [foldl]. intros H.
    destruct (decide (le_id e' = le_id e)) as [Hk|Hk].
    + rewrite Hk, lookup_insert_eq. by eexists.
    + rewrite lookup_insert_ne by done. apply IH.
      apply elem_of_app in H as [H|H]; [done|].
      apply list_elem_of_singleton in H. by subst e'.
Qed.

(** The identifiers that a finding of an upload lists: at least one, each
    the primary key of a row. *)
Lemma found_row_ids evs found f :
  Forall (fun e => le_id e <> 0) evs ->
  detect_anomalies (ev_dict <$> evs) = Ok found -> f ∈ found ->
  exists ids,
    val_iter (ev_ids_of f) = Ok ids /\ ids <> []
    /\ Forall (fun x => exists e, e ∈ evs /\ x = VInt (le_id e)) ids.
Proof.
  intros Hid Hfound Hf.
  pose proof (detect_anomalies_cites _ _ Hfound) as H.
  rewrite Forall_forall in H. destruct (H f Hf) as (ids & H1 & H2 & H3).
  assert (ids <> []) as Hne.
  { apply H3. rewrite !Forall_fmap. eapply Forall_impl; [exact Hid|].
    intros e He. cbn. by apply negb_true_iff, Z.eqb_neq. }
  exists (VAtom <$> ids). split; [|split].
  - unfold ev_ids_of. rewrite H1. unfold ids_value.
    destruct ids as [|i ids]; [done|]. reflexivity.
  - by destruct ids.
  - apply Forall_fmap. eapply Forall_impl; [exact H2|].
    intros i [_ Hi]. cbn beta.
    apply list_elem_of_fmap in Hi as (ev & -> & Hev).
    apply list_elem_of_fmap in Hev as (re & -> & Hre).
    apply list_elem_of_fmap in Hre as (e & -> & He).
    by exists e.
Qed.

Lemma cited_ids_found evs found (l : list finding) :
  Forall (fun e => le_id e <> 0) evs ->
  detect_anomalies (ev_dict <$> evs) = Ok found ->
  l ⊆ found ->
  Forall (fun x => exists e, e ∈ evs /\ x = VInt (le_id e)) (cited_ids l)
  /\ (l <> [] -> cited_ids l <> []).
Proof.
  intros Hid Hfound. induction l as [|f l IH]; intros Hl.
  - split; [constructor|done].
  - destruct (found_row_ids _ _ f Hid Hfound) as (ids & H1 & H2 & H3).
    { apply Hl. left. }
    destruct IH as [IH _]. { intros a Ha. apply Hl. by right. }
    unfold cited_ids in *. cbn [fmap list_fmap concat]. rewrite H1.
    cbn [try_except]. split.
    + apply Forall_app. by split.
    + intros _ [? _]%app_eq_nil. done.
Qed.

(** X19.  Grouping the findings of an upload, as [_process_analysis]
    does: for rows with non-zero primary keys, [_group_anomalies] on what
    [detect_anomalies] returned for them does not raise; every group has
    a kind of the engine (none is ["other"]) and counts the findings of
    that kind; it shows at least one sample; and its samples, users and
    addresses are those of rows of the upload. *)
Theorem upload_groups_show_rows_of_the_upload (evs : list log_event)
    (found : list finding) :
  Forall (fun e => le_id e <> 0) evs ->
  detect_anomalies (ev_dict <$> evs) = Ok found ->
  exists out,
    _group_anomalies found (id_to_event_of evs) = Ok out
    /\ forall x, x ∈ out ->
         (exists K p, g_kind x = Some K /\ pass_of_kind K = Some p
                      /\ g_count x = length (List.filter (has_kind K) found))
         /\ g_samples x <> []
         /\ (forall s, s ∈ g_samples x ->
               exists e, e ∈ evs /\ s = event_row_of e)
         /\ (forall u, u ∈ g_users x ->
               exists e, e ∈ evs /\ le_user e = Some u)
         /\ (forall u, u ∈ g_src_ips x ->
               exists e, e ∈ evs /\ le_src_ip e = Some u).
Proof.
  intros Hid Hfound.
  assert (Forall ids_usable found) as Huse.
  { apply Forall_forall. intros f Hf.
    destruct (found_row_ids _ _ f Hid Hfound Hf) as (ids & H1 & _ & H3).
    exists ids. split; [done|]. eapply Forall_impl; [exact H3|].
    by intros x (e & _ & ->). }
  destruct (group_anomalies_ok (id_to_event_of evs) found Huse) as [out Hout].
  exists out. split; [done|]. intros x Hx.
  destruct (group_anomalies_inv _ _ _ Hout) as (g & Hg & _ & Hperm).
  rewrite Hperm in Hx.
  destruct (group_of_bucket _ _ g x Hg Hx)
    as (K & b & _ & -> & Hne & Hkb & Hb).
  destruct Hb as (I1 & _ & _ & I4 & I5 & _ & I7 & _ & I9 & I10).
  assert (forall a, a ∈ found ->
            exists p, pass_of_kind (kind a) = Some p
                      /\ kind_or_other a = kind a) as Hkind.
  { intros a Ha. pose proof (detect_anomalies_shape _ _ Hfound) as Hs.
    rewrite Forall_forall in Hs. destruct (Hs a Ha) as [p Hp].
    apply built_by_kind in Hp. exists p. split; [done|].
    unfold kind_or_other, str_or.
    destruct (String.eqb (kind a) "") eqn:E; [|done].
    apply String.eqb_eq in E. rewrite E in Hp. done. }
  assert (filed_as K found = List.filter (has_kind K) found) as Hfiled.
  { unfold filed_as. apply List.filter_ext_in. intros a Ha.
    apply list_elem_of_In in Ha. destruct (Hkind a Ha) as (_ & _ & ->).
    done. }
  assert (filed_as K found ⊆ found) as Hsub.
  { intros a Ha. apply list_elem_of_In, filter_In in Ha as [Ha _].
    by apply list_elem_of_In. }
  destruct (cited_ids_found evs found _ Hid Hfound Hsub) as [Hcited Hcne].
  specialize (Hcne Hne). rewrite Forall_forall in Hcited.
  assert (forall eid row,
            eid ∈ cited_ids (filed_as K found) ->
            id_row (id_to_event_of evs) eid = Some row ->
            exists e, e ∈ evs /\ row = event_row_of e) as Hrow.
  { intros eid row Heid Hr. destruct (Hcited eid Heid) as (e & He & ->).
    cbn in Hr. destruct (id_to_event_of_lookup _ _ _ Hr) as (e' & ? & _ & ?).
    by exists e'. }
  cbn [finalize g_kind g_count g_samples g_users g_src_ips].
  split; [|split; [|split; [|split]]].
  - destruct (filed_as K found) as [|a la] eqn:Ea; [done|].
    assert (a ∈ found /\ kind_or_other a = K) as [Ha HaK].
    { assert (a ∈ filed_as K found) as Hin by (rewrite Ea; left).
      apply list_elem_of_In, filter_In in Hin as [Hin HK].
      split; [by apply list_elem_of_In|by apply String.eqb_eq]. }
    destruct (Hkind a Ha) as (p & Hp & Hko).
    exists K, p. split; [done|]. split; [congruence|].
    by rewrite I1, <- Hfiled.
  - unfold slice_to. apply take_not_nil; [lia|]. rewrite I10.
    destruct (b_event_ids b) as [|i ids] eqn:Ei.
    + exfalso. destruct (cited_ids (filed_as K found)) as [|c cs] eqn:Ec;
        [done|].
      destruct (I9 ltac:(cbn; lia) c ltac:(left)) as [H|H];
        [by apply elem_of_nil in H|done].
    + assert (i ∈ cited_ids (filed_as K found)) as Hi.
      { eapply elem_of_sublist; [|exact I7]. left. }
      destruct (Hcited i Hi) as (e & He & ->).
      destruct (id_to_event_of_is_Some evs e He) as [row Hr].
      cbn [omap list_omap]. change (id_row (id_to_event_of evs) (VInt (le_id e)))
        with (id_to_event_of evs !! le_id e). by rewrite Hr.
  - intros s Hs. apply elem_of_take_1 in Hs. rewrite I10 in Hs.
    apply list_elem_of_omap in Hs as (eid & Heid & Hr).
    apply (Hrow eid s); [|done]. by eapply elem_of_sublist.
  - intros u Hu. apply elem_of_take_1, elem_of_sorted_strs, I4 in Hu.
    destruct Hu as (_ & eid & row & Heid & Hr & Hu).
    destruct (Hrow eid row Heid Hr) as (e & He & ->). by exists e.
  - intros u Hu. apply elem_of_take_1, elem_of_sorted_strs, I5 in Hu.
    destruct Hu as (_ & eid & row & Heid & Hr & Hu).
    destruct (Hrow eid row Heid Hr) as (e & He & ->). by exists e.
Qed.

End Upload.

(** ** Upload state *)

Lemma set_state_missing s id st p :
  s_uploads s !! id = None -> set_state s id st p = s.
Proof. intros H. unfold set_state. by rewrite H. Qed.

Lemma set_state_found s id st p up :
  s_uploads s !! id = Some up ->
  set_state s id st p
  = if decide (state_after st p up = up) then s
    else mk_db_session (<[id := state_after st p up]> (s_uploads s))
                       (S (s_commits s)).
Proof.
  intros H. unfold set_state, state_after. rewrite H.
  destruct up as [fn raw ust upr]; cbn [up_filename up_raw_content up_status
                                       up_progress].
  destruct st as [st|]; destruct p as [p|];
    repeat (case_bool_decide; cbn [up_filename up_raw_content up_status
                                   up_progress]);
    repeat case_decide;
    repeat match goal with
           | H : ~ (_ <> _) |- _ => apply dec_stable in H
           end;
    cbn [up_filename up_raw_content up_status up_progress] in *;
    simplify_eq; done.
Qed.

Lemma set_state_lookup s id st p k :
  s_uploads (set_state s id st p) !! k
  = if decide (k = id) then state_after st p <$> s_uploads s !! id
    else s_uploads s !! k.
Proof.
  destruct (s_uploads s !! id) as [up|] eqn:E.
  - rewrite (set_state_found _ _ _ _ _ E).
    destruct (decide (state_after st p up = up)) as [Hup|Hup];
      cbn [s_uploads]; destruct (decide (k = id)) as [->|Hk].
    + rewrite E. change (Some up = Some (state_after st p up)).
      by rewrite Hup.
    + done.
    + by rewrite lookup_insert_eq.
    + by rewrite lookup_insert_ne.
  - rewrite (set_state_missing _ _ _ _ E).
    destruct (decide (k = id)) as [->|Hk]; [by rewrite E|done].
Qed.

Lemma set_state_commits s id st p :
  (s_commits s <= s_commits (set_state s id st p) <= S (s_commits s))%nat.
Proof.
  destruct (s_uploads s !! id) as [up|] eqn:E.
  - rewrite (set_state_found _ _ _ _ _ E). case_decide; cbn [s_commits]; lia.
  - rewrite (set_state_missing _ _ _ _ E). lia.
Qed.

Lemma state_after_range st p up :
  progress_in_range up -> progress_in_range (state_after st p up).
Proof.
  unfold progress_in_range, state_after. cbn [up_progress].
  destruct p as [p|]; [lia|done].
Qed.

Lemma state_after_idem st p up :
  state_after st p (state_after st p up) = state_after st p up.
Proof. unfold state_after. by destruct st, p. Qed.

(** X20.  What any sequence of [set_state] calls keeps: it creates and
    deletes no row of [uploads]; it leaves alone the rows that no call
    names; it never touches the file name or the content of a row; a
    progress that was a percentage stays one; and each call commits at
    most once. *)
Theorem set_state_keeps_rows_and_range (dbsess : db_session)
    (calls : list state_call) :
  (forall k, is_Some (s_uploads (set_states dbsess calls) !! k)
             <-> is_Some (s_uploads dbsess !! k))
  /\ (forall k, k ∉ c_upload_id <$> calls ->
        s_uploads (set_states dbsess calls) !! k = s_uploads dbsess !! k)
  /\ (forall k up up',
        s_uploads dbsess !! k = Some up ->
        s_uploads (set_states dbsess calls) !! k = Some up' ->
        up_filename up' = up_filename up
        /\ up_raw_content up' = up_raw_content up
        /\ (progress_in_range up -> progress_in_range up'))
  /\ (s_commits dbsess <= s_commits (set_states dbsess calls)
      <= s_commits dbsess + length calls)%nat.
Proof.
  unfold set_states. revert dbsess.
  induction calls as [|[id st p] calls IH]; intros s; cbn [foldl].
  - split; [done|]. split; [done|]. split; [|lia].
    intros k up up' H1 H2. rewrite H1 in H2. by injection H2 as <-.
  - cbn [c_upload_id c_status c_progress].
    destruct (IH (set_state s id st p)) as (H1 & H2 & H3 & H4).
    pose proof (set_state_commits s id st p) as Hc.
    split; [|split; [|split]].
    + intros k. rewrite H1, set_state_lookup.
      destruct (decide (k = id)) as [->|Hk]; [|done].
      by rewrite fmap_is_Some.
    + intros k Hk. cbn [fmap list_fmap c_upload_id] in Hk.
      apply not_elem_of_cons in Hk as [Hk1 Hk2].
      rewrite (H2 k Hk2), set_state_lookup. by rewrite decide_False.
    + intros k up up' Hup Hup'.
      assert (exists up1, s_uploads (set_state s id st p) !! k = Some up1
                /\ up_filename up1 = up_filename up
                /\ up_raw_content up1 = up_raw_content up
                /\ (progress_in_range up -> progress_in_range up1))
        as (up1 & Hup1 & Hf & Hr & Hp).
      { rewrite set_state_lookup.
        destruct (decide (k = id)) as [->|Hk].
        - rewrite Hup. exists (state_after st p up).
          split; [done|]. split; [done|]. split; [done|].
          apply state_after_range.
        - by exists up. }
      destruct (H3 k up1 up' Hup1 Hup') as (Hf' & Hr' & Hp').
      split; [congruence|]. split; [congruence|]. tauto.
    + cbn [length]. lia.
Qed.

(** X21.  What a call of [set_state] sets reads back: the named row
    holds the given status and the given progress clamped to 0..100,
    and a field that the call does not give keeps its value.  Repeating
    the call changes nothing and commits nothing. *)
Theorem set_state_reads_back_and_is_idempotent (dbsess : db_session)
    (upload_id : Z) (status : option string) (progress : option Z) :
  s_uploads (set_state dbsess upload_id status progress) !! upload_id
  = state_after status progress <$> s_uploads dbsess !! upload_id
  /\ set_state (set_state dbsess upload_id status progress)
               upload_id status progress
     = set_state dbsess upload_id status progress.
Proof.
  split.
  - rewrite set_state_lookup. by rewrite decide_True.
  - destruct (s_uploads dbsess !! upload_id) as [up|] eqn:E.
    + assert (s_uploads (set_state dbsess upload_id status progress)
                !! upload_id = Some (state_after status progress up)) as E'.
      { rewrite set_state_lookup, decide_True by done. by rewrite E. }
      rewrite (set_state_found _ _ _ _ _ E').
      rewrite decide_True; [done|apply state_after_idem].
    + by rewrite !(set_state_missing _ _ _ _ E).
Qed.

(* ===================================================================== *)
(** * Passes over the untimed events, end to end *)
(* ===================================================================== *)

Section UntimedPasses.
Context {rt : PyRuntime}.

Lemma detect_anomalies_of_nonempty events e out :
  e ∈ events -> detect_anomalies events = Ok out ->
  exists ts,
    time_sorted_of (normalize <$> events) = Ok ts
    /\ out = dedupe (run_passes (normalize <$> events)
                       (ua_counts_of (normalize <$> events)) ts).
Proof.
  intros He H. unfold detect_anomalies in H.
  destruct events as [|e0 events]; [by apply elem_of_nil in He|].
  destruct (time_sorted_of _) as [ts|] eqn:E; [|done].
  cbn [mbind result_bind] in H. injection H as <-. by exists ts.
Qed.

Lemma finding_of_pass K p events out f :
  pass_of_kind K = Some p ->
  detect_anomalies events = Ok out -> f ∈ out -> kind f = K ->
  exists ts,
    f ∈ match p with
        | P_activity => _pwd_mfa_activity (normalize <$> events)
        | P_brute_force => _brute_force ts
        | P_blocked => _blocked_protection (normalize <$> events)
        | P_high_risk => _high_risk_source (normalize <$> events)
        | P_error_rate => _high_error_rate ts
        | P_rare_ua => _rare_ua (normalize <$> events)
                         (ua_counts_of (normalize <$> events))
        | P_off_hours => _off_hours_logins ts
        | P_token => _token_exchange_failures ts
        end.
Proof.
  intros HK Hout Hf Hk.
  destruct (detect_anomalies_finding events out f Hout Hf)
    as (ts & _ & _ & _ & Hrun).
  exists ts.
  assert (f ∈ List.filter (has_kind K)
                (run_passes (normalize <$> events)
                   (ua_counts_of (normalize <$> events)) ts)) as Hin.
  { apply elem_of_filter_bool. split; [by apply String.eqb_eq|done]. }
  rewrite (filter_kind_run_passes K p _ _ _ HK) in Hin.
  by apply elem_of_filter_bool in Hin as [_ Hin].
Qed.

(** X22.  Blocked logins, end to end: the [auth.blocked] findings that
    [detect_anomalies] returns are findings of events of the batch with
    status 403 whose text mentions [brute-force] or [blocked]; and every
    such event is reported, by a finding that names its user and its
    address. *)
Theorem blocked_logins_are_reported (events : list raw_event)
    (out : list finding) :
  detect_anomalies events = Ok out ->
  (forall f, f ∈ out -> kind f = "auth.blocked" ->
     exists e, e ∈ events /\ is_blocked (normalize e) = true
               /\ f = blocked_finding (normalize e))
  /\ (forall e, e ∈ events -> is_blocked (normalize e) = true ->
        exists f, f ∈ out /\ kind f = "auth.blocked"
                  /\ reason f = reason (blocked_finding (normalize e))).
Proof.
  intros Hout. split.
  - intros f Hf Hk.
    destruct (finding_of_pass "auth.blocked" P_blocked events out f
                eq_refl Hout Hf Hk) as [_ Hin].
    unfold _blocked_protection in Hin.
    apply list_elem_of_fmap in Hin as (ev & -> & Hev).
    apply elem_of_filter_bool in Hev as [Hb Hev].
    apply list_elem_of_fmap in Hev as (e & -> & He).
    by exists e.
  - intros e He Hb.
    destruct (detect_anomalies_of_nonempty events e out He Hout)
      as (ts & _ & ->).
    destruct (dedupe_represents_kind
                (run_passes (normalize <$> events)
                   (ua_counts_of (normalize <$> events)) ts)
                (blocked_finding (normalize e))) as (f & Hf & _ & Hkind & Hr).
    { unfold run_passes. rewrite !elem_of_app. right. right. left.
      unfold _blocked_protection. apply list_elem_of_fmap.
      exists (normalize e). split; [done|].
      apply elem_of_filter_bool. split; [exact Hb|].
      apply list_elem_of_fmap. by exists e. }
    by exists f.
Qed.

(** X23.  The lower score of the rare-user-agent pass is never used:
    every [web.rare_ua] finding that [detect_anomalies] returns is about
    a non-empty user agent that occurs exactly once in the batch, has the
    count 1 and the score 0.62. *)
Theorem rare_ua_findings_have_count_one (events : list raw_event)
    (out : list finding) (f : finding) :
  detect_anomalies events = Ok out -> f ∈ out -> kind f = "web.rare_ua" ->
  score f = f_0_62
  /\ dict_get "count" (meta f) = Some (VInt 1)
  /\ exists ua, ua <> "" /\ reason f = rare_ua_reason ua
                /\ ua_occurrences (normalize <$> events) ua = 1%nat.
Proof.
  intros Hout Hf Hk.
  destruct (finding_of_pass "web.rare_ua" P_rare_ua events out f
              eq_refl Hout Hf Hk) as [_ Hin].
  rewrite rare_ua_closed_form in Hin.
  apply list_elem_of_fmap in Hin as (ua & -> & Hua).
  apply elem_of_filter_bool in Hua as [Hs _].
  unfold single_ua in Hs. apply andb_true_iff in Hs as [Hne H1].
  apply negb_true_iff, String.eqb_neq in Hne. apply Nat.eqb_eq in H1.
  cbn [score meta rare_ua_finding dict_get].
  rewrite (ua_counts_occurrences _ ua Hne), H1.
  split; [done|]. split; [done|]. by exists ua.
Qed.

End UntimedPasses.

(** ** The timeline *)

Lemma point_ltb_distinct (x y : string * nat) :
  x.1 <> y.1 -> point_ltb x y = String.ltb x.1 y.1.
Proof.
  intros H. unfold point_ltb.
  rewrite (proj2 (String.eqb_neq _ _) H). cbn [andb]. apply orb_false_r.
Qed.

Lemma insert_by_point_sorted (x : string * nat) (l : list (string * nat)) :
  x.1 ∉ l.*1 ->
  StronglySorted (fun a b => str_lt a.1 b.1) l ->
  StronglySorted (fun a b => str_lt a.1 b.1) (insert_by point_ltb x l).
Proof.
  intros Hx Hs. induction Hs as [|y l Hs IH Hy]; cbn [insert_by].
  - repeat constructor.
  - cbn [fmap list_fmap] in Hx. rewrite not_elem_of_cons in Hx.
    destruct Hx as [Hxy Hx]. rewrite (point_ltb_distinct x y Hxy).
    destruct (String.ltb x.1 y.1) eqn:E.
    + constructor; [by constructor|].
      constructor; [done|].
      eapply Forall_impl; [exact Hy|]. intros z Hz.
      unfold str_lt in *. by eapply str_ltb_trans.
    + constructor; [by apply IH|].
      rewrite (insert_by_permutation point_ltb x l). constructor; [|done].
      by apply str_ltb_total.
Qed.

Lemma sort_by_point_sorted (l : list (string * nat)) :
  NoDup l.*1 ->
  StronglySorted (fun a b => str_lt a.1 b.1) (sort_by point_ltb l).
Proof.
  unfold sort_by.
  assert (forall acc, NoDup (l ++ acc).*1 ->
            StronglySorted (fun a b => str_lt a.1 b.1) acc ->
            StronglySorted (fun a b => str_lt a.1 b.1)
              (foldl (fun acc x => insert_by point_ltb x acc) acc l)) as H.
  { induction l as [|x l IH]; intros acc Hnd Hacc; cbn [foldl]; [done|].
    cbn [app fmap list_fmap] in Hnd. apply NoDup_cons in Hnd as [Hx Hnd].
    apply IH.
    - rewrite insert_by_permutation. rewrite <- Permutation_middle.
      cbn [fmap list_fmap]. by constructor.
    - apply insert_by_point_sorted; [|done].
      intros Hin. apply Hx. rewrite fmap_app. apply elem_of_app. by right. }
  intros Hnd. apply H; [by rewrite app_nil_r|constructor].
Qed.

Lemma counter_step_total (c : gmap string nat) (s : string) :
  sum_list (map_to_list (<[s := S (default 0%nat (c !! s))]> c)).*2
  = S (sum_list (map_to_list c).*2).
Proof.
  destruct (c !! s) as [n|] eqn:E; cbn [default from_option id].
  - rewrite <- (insert_delete_eq c s (S n)).
    rewrite <- (insert_delete_id c s n E) at 2.
    rewrite !map_to_list_insert by apply lookup_delete_eq.
    cbn [fmap list_fmap snd sum_list_with id]. cbn. lia.
  - rewrite map_to_list_insert by done. cbn. lia.
Qed.

Lemma counter_total (items : list string) :
  sum_list (map_to_list (Counter items)).*2 = length items.
Proof.
  unfold Counter.
  assert (forall c : gmap string nat,
            sum_list (map_to_list
                        (foldl (fun c s => <[s := S (default 0%nat (c !! s))]> c)
                               c items)).*2
            = (sum_list (map_to_list c).*2 + length items)%nat) as H.
  { induction items as [|s items IH]; intros c; cbn [foldl length]; [lia|].
    rewrite IH, counter_step_total. lia. }
  rewrite H, map_to_list_empty. done.
Qed.

Lemma counter_positive (items : list string) s n :
  Counter items !! s = Some n -> (0 < n)%nat.
Proof.
  unfold Counter.
  assert (forall c : gmap string nat,
            (forall s n, c !! s = Some n -> (0 < n)%nat) ->
            forall s n,
              foldl (fun c s => <[s := S (default 0%nat (c !! s))]> c) c items
                !! s = Some n -> (0 < n)%nat) as H.
  { induction items as [|x items IH]; intros c Hc; cbn [foldl]; [done|].
    apply IH. intros s' n'. destruct (decide (s' = x)) as [->|Hne].
    - rewrite lookup_insert_eq. intros [= <-]. lia.
    - rewrite lookup_insert_ne by done. apply Hc. }
  apply H. intros s' n'. by rewrite lookup_empty.
Qed.

Section TimelineResults.
Context {rt : PyRuntime}.

Lemma rows_in_minute_items m evs :
  length (List.filter (fun x => String.eqb x m) (omap minute_of evs))
  = rows_in_minute m evs.
Proof.
  unfold rows_in_minute. induction evs as [|e evs IH]; [done|].
  cbn [omap list_omap List.filter].
  destruct (minute_of e) as [x|] eqn:E.
  - cbn [List.filter]. destruct (String.eqb_spec x m) as [->|Hne].
    + rewrite bool_decide_eq_true_2 by done. cbn [length]. by rewrite IH.
    + rewrite bool_decide_eq_false_2 by congruence. done.
  - rewrite bool_decide_eq_false_2 by done. done.
Qed.

Lemma timed_rows evs : length (omap minute_of evs) = length (omap le_ts evs).
Proof.
  induction evs as [|e evs IH]; [done|]. cbn [omap list_omap].
  unfold minute_of at 1. destruct (le_ts e); cbn [fmap option_fmap option_map length];
    by rewrite ?IH.
Qed.

(** X24.  The timeline that [_process_analysis] builds: its points come
    in strictly ascending order of minute, so no minute occurs twice; a
    minute has a point exactly when some row is stamped within it, and
    the count of the point is the number of these rows; so the counts add
    up to the number of rows that have a timestamp. *)
Theorem timeline_counts_rows_by_minute (evs : list log_event) :
  StronglySorted (fun x y => str_lt x.1 y.1) (timeline_points evs)
  /\ (forall m n, (m, n) ∈ timeline_points evs
        <-> (0 < n)%nat /\ n = rows_in_minute m evs)
  /\ sum_list (timeline_points evs).*2 = length (omap le_ts evs).
Proof.
  unfold timeline_points. split; [|split].
  - apply sort_by_point_sorted, NoDup_fst_map_to_list.
  - intros m n. rewrite sort_by_permutation, elem_of_map_to_list.
    unfold timeline_of.
    pose proof (counter_get_Counter (omap minute_of evs) m) as Hc.
    rewrite rows_in_minute_items in Hc. unfold counter_get in Hc.
    split.
    + intros H. split; [by eapply counter_positive|].
      by rewrite H in Hc.
    + intros [Hn ->].
      destruct (Counter (omap minute_of evs) !! m) as [n'|];
        cbn [default from_option id] in Hc; [by rewrite Hc|lia].
  - unfold timeline_of. rewrite sort_by_permutation, counter_total.
    apply timed_rows.
Qed.

End TimelineResults.

(** ** Timestamps at ingestion *)

Section Ingestion.
Context {rt : PyRuntime}.

(** X25.  Ingestion and the engine read timestamps alike: on every
    non-empty string [_norm_ts] of [app.py] returns what [_as_dt] of
    [anomaly.py] returns, and both return [None] on [None]. *)
Theorem norm_ts_agrees_with_as_dt (s : string) :
  s <> "" ->
  _norm_ts (Some s) = _as_dt (AStr s) /\ _norm_ts None = _as_dt ANone.
Proof.
  intros Hs. split; [|done]. unfold _norm_ts, _as_dt.
  rewrite (proj2 (String.eqb_neq _ _) Hs). cbn [py_str].
  destruct (str_endswith_Zz (str_strip s)).
  - destruct (dt_fromisoformat _) as [d|e]; cbn; [done|].
    by destruct (dt_strptime _ _).
  - destruct (dt_fromisoformat _) as [d|e]; cbn; [done|].
    by destruct (dt_strptime _ _).
Qed.

End Ingestion.

(** ** Instances on the sample upload *)

Section UploadInstances.
#[local] Existing Instance Sample.runtime.

(** X16, an instance: the groups of the sample upload. *)
Lemma groups_partition_findings_witness :
  NoDup (g_kind <$> Uploads.grouped)
  /\ (forall a, a ∈ Uploads.found ->
        exists x, x ∈ Uploads.grouped /\ g_kind x = Some (kind_or_other a))
  /\ (forall x, x ∈ Uploads.grouped ->
        exists K, g_kind x = Some K
                  /\ g_count x = length (filed_as K Uploads.found)
                  /\ (0 < g_count x)%nat)
  /\ sum_list (g_count <$> Uploads.grouped) = length Uploads.found
  /\ StronglySorted count_ge Uploads.grouped.
Proof.
  apply (groups_partition_findings Uploads.id_to_event Uploads.found
           Uploads.grouped).
  vm_compute. reflexivity.
Defined.

(** X17, an instance: the names shown by the groups of the sample
    upload. *)
Lemma group_names_sorted_and_bounded_witness :
  Forall
    (fun x =>
       forall K, g_kind x = Some K ->
         exists rs us ips,
           g_reasons x = take 5 rs /\ g_users x = take 10 us
           /\ g_src_ips x = take 10 ips
           /\ StronglySorted str_lt rs /\ StronglySorted str_lt us
           /\ StronglySorted str_lt ips
           /\ (forall r, r ∈ rs
                 <-> r <> "" /\ r ∈ reason <$> filed_as K Uploads.found)
           /\ (forall u, u ∈ us
                 <-> cited_field Uploads.id_to_event row_user
                       (filed_as K Uploads.found) u)
           /\ (forall u, u ∈ ips
                 <-> cited_field Uploads.id_to_event row_src_ip
                       (filed_as K Uploads.found) u))
    Uploads.grouped.
Proof.
  apply Forall_forall. intros x Hx K HK.
  apply (group_names_sorted_and_bounded Uploads.id_to_event Uploads.found
           Uploads.grouped x K); [|exact Hx|exact HK].
  vm_compute. reflexivity.
Defined.

(** X18, an instance: the samples shown by the groups of the sample
    upload. *)
Lemma group_samples_are_rows_of_listed_ids_witness :
  Forall
    (fun x =>
       forall K, g_kind x = Some K ->
         exists ids,
           g_samples x = omap (id_row Uploads.id_to_event) ids
           /\ sublist ids (cited_ids (filed_as K Uploads.found))
           /\ (length ids <= 25)%nat
           /\ no_two_equal ids
           /\ ((length ids < 25)%nat ->
               forall i, i ∈ cited_ids (filed_as K Uploads.found) ->
                         val_in i ids = true))
    Uploads.grouped.
Proof.
  apply Forall_forall. intros x Hx K HK.
  apply (group_samples_are_rows_of_listed_ids Uploads.id_to_event
           Uploads.found Uploads.grouped x K); [| |exact Hx|exact HK].
  - unfold atom_ids. vm_compute. repeat (constructor; [by eexists|]).
    constructor.
  - vm_compute. reflexivity.
Defined.

(** X19, an instance: the sample upload, whose rows have the primary
    keys 1 to 13. *)
Lemma upload_groups_show_rows_of_the_upload_witness :
  exists out,
    _group_anomalies Uploads.found (id_to_event_of Uploads.rows) = Ok out
    /\ forall x, x ∈ out ->
         (exists K p, g_kind x = Some K /\ pass_of_kind K = Some p
                      /\ g_count x
                         = length (List.filter (has_kind K) Uploads.found))
         /\ g_samples x <> []
         /\ (forall s, s ∈ g_samples x ->
               exists e, e ∈ Uploads.rows /\ s = event_row_of e)
         /\ (forall u, u ∈ g_users x ->
               exists e, e ∈ Uploads.rows /\ le_user e = Some u)
         /\ (forall u, u ∈ g_src_ips x ->
               exists e, e ∈ Uploads.rows /\ le_src_ip e = Some u).
Proof.
  apply (upload_groups_show_rows_of_the_upload (rt := Sample.runtime)
           Uploads.rows Uploads.found).
  - by_decision.
  - vm_compute. reflexivity.
Defined.

(** X22, an instance: the blocked login of the sample upload. *)
Lemma blocked_logins_are_reported_witness :
  (forall f, f ∈ Uploads.found -> kind f = "auth.blocked" ->
     exists e, e ∈ ev_dict <$> Uploads.rows
               /\ is_blocked (normalize e) = true
               /\ f = blocked_finding (normalize e))
  /\ (forall e, e ∈ ev_dict <$> Uploads.rows ->
        is_blocked (normalize e) = true ->
        exists f, f ∈ Uploads.found /\ kind f = "auth.blocked"
                  /\ reason f = reason (blocked_finding (normalize e))).
Proof.
  apply (blocked_logins_are_reported (rt := Sample.runtime)
           (ev_dict <$> Uploads.rows) Uploads.found).
  vm_compute. reflexivity.
Defined.

(** X23, an instance: the client of the blocked login occurs once in the
    sample upload. *)
Lemma rare_ua_findings_have_count_one_witness :
  Forall
    (fun f =>
       kind f = "web.rare_ua" ->
       score f = f_0_62
       /\ dict_get "count" (meta f) = Some (VInt 1)
       /\ exists ua, ua <> "" /\ reason f = rare_ua_reason ua
                     /\ ua_occurrences (normalize <$> (ev_dict <$> Uploads.rows))
                          ua = 1%nat)
    Uploads.found.
Proof.
  apply Forall_forall. intros f Hf Hk.
  apply (rare_ua_findings_have_count_one (rt := Sample.runtime)
           (ev_dict <$> Uploads.rows) Uploads.found f);
    [|exact Hf|exact Hk].
  vm_compute. reflexivity.
Defined.

(** X25, an instance: a timestamp in the format of [strptime]. *)
Lemma norm_ts_agrees_with_as_dt_witness :
  _norm_ts (Some "2024-01-01 00:00:00") = _as_dt (AStr "2024-01-01 00:00:00")
  /\ _norm_ts None = _as_dt ANone.
Proof.
  apply (norm_ts_agrees_with_as_dt (rt := Sample.runtime)
           "2024-01-01 00:00:00").
  discriminate.
Defined.

End UploadInstances.

(* ===================================================================== *)
(** * Two calls on one batch *)
(* ===================================================================== *)

(** ** Equality of the values of a meta *)

Lemma SFeqb_refl (x : spec_float) : x <> S754_nan -> SFeqb x x = true.
Proof.
  unfold SFeqb. destruct x as [s| s| |s m e]; cbn [SFcompare]; try done.
  - by destruct s.
  - intros _. destruct s; rewrite Z.compare_refl.
    + by rewrite Pos.compare_cont_refl.
    + by rewrite Pos.compare_cont_refl.
Qed.

Lemma in_unit_interval_not_nan (x : spec_float) :
  in_unit_interval x -> x <> S754_nan.
Proof. intros [H _] ->. done. Qed.

Lemma py_eq_list_self (l : list pyval) :
  Forall (fun v => py_eq v v = true) l -> py_eq (VList l) (VList l) = true.
Proof.
  induction 1 as [|v l Hv _ IH]; [done|].
  cbn [py_eq] in *. by rewrite Hv, IH.
Qed.

Lemma py_eq_ids (ids : list atom) :
  py_eq (ids_value ids) (ids_value ids) = true.
Proof.
  unfold ids_value. apply py_eq_list_self, Forall_fmap, Forall_forall.
  intros i _. cbn [py_eq]. apply atom_eqb_refl.
Qed.

Lemma py_eq_dict_unfold (d d' : list (string * pyval)) :
  py_eq (VDict d) (VDict d')
  = (length d =? length d')%nat
    && forallb (fun kv => match dict_get kv.1 d' with
                          | Some v' => py_eq kv.2 v'
                          | None => false
                          end) d.
Proof.
  cbn [py_eq]. f_equal. induction d as [|[k v] d IH]; [done|].
  cbn [forallb fst snd]. destruct (dict_get k d'); [|done]. by rewrite IH.
Qed.

Lemma dict_get_elem (k : string) (v : pyval) (d : list (string * pyval)) :
  NoDup d.*1 -> (k, v) ∈ d -> dict_get k d = Some v.
Proof.
  induction d as [|[k0 v0] d IH]; [by intros _ ?%elem_of_nil|].
  cbn [fmap list_fmap fst dict_get]. intros [Hk0 Hnd]%NoDup_cons Hin.
  apply elem_of_cons in Hin as [[= -> ->]|Hin]; [by rewrite String.eqb_refl|].
  destruct (String.eqb_spec k k0) as [->|Hne]; [|by apply IH].
  exfalso. apply Hk0. apply list_elem_of_fmap. by exists (k0, v).
Qed.

Lemma py_eq_dict_self (d : list (string * pyval)) :
  NoDup d.*1 -> Forall (fun kv => py_eq kv.2 kv.2 = true) d ->
  py_eq (VDict d) (VDict d) = true.
Proof.
  intros Hnd Hd. rewrite py_eq_dict_unfold, Nat.eqb_refl. cbn [andb].
  apply forallb_forall. intros [k v] Hin%list_elem_of_In.
  cbn [fst snd]. rewrite (dict_get_elem k v d Hnd Hin).
  rewrite Forall_forall in Hd. exact (Hd (k, v) Hin).
Qed.

(** A meta whose values are strings, integers, other atoms and lists of
    identifiers equals itself. *)
Ltac meta_self :=
  apply py_eq_dict_self;
  [by_decision
  |repeat (constructor;
           [first [apply py_eq_ids
                  |unfold VInt, VStr; cbn [snd py_eq]; apply atom_eqb_refl]|]);
   constructor].

Section TwoCalls.
Context {rt : PyRuntime}.

Lemma finding_eqb_meta (f g : finding) :
  reason f = reason g -> kind f = kind g -> score f = score g ->
  in_unit_interval (score f) ->
  finding_eqb f g = py_eq (VDict (meta f)) (VDict (meta g)).
Proof.
  intros Hr Hk Hsc Hs. unfold finding_eqb.
  rewrite <- Hr, <- Hk, <- Hsc, !String.eqb_refl, SFeqb_refl; [done|].
  by apply in_unit_interval_not_nan.
Qed.

(** A finding equals itself unless it holds a NaN risk, and equals
    itself in every case once the risk is left out. *)
Lemma finding_eqb_self p f :
  built_by p f ->
  finding_eqb f f = negb (nan_risk f)
  /\ finding_eqb (without_risk f) (without_risk f) = true.
Proof.
  intros Hb. pose proof (built_by_ok p f Hb) as [Hs _].
  rewrite (finding_eqb_meta f f eq_refl eq_refl eq_refl Hs).
  rewrite (finding_eqb_meta (without_risk f) (without_risk f)
             eq_refl eq_refl eq_refl Hs).
  clear Hs.
  destruct Hb as [[[[m u] i] ids]|[[[m u] i] ids]|k q _|k q _|ev|ev|ev
                 |[[knd who] b] lst|norm c ua|ids|host q _];
    try (split; [|cbn [without_risk meta]]; meta_self).
  (* the high-risk finding *)
  unfold nan_risk. cbn [meta high_risk_finding dict_get String.eqb Ascii.eqb
                        Bool.eqb without_risk List.filter fst negb].
  split; [|meta_self].
  destruct (risk_value (ev_raw ev)) as [s| s| |s m e] eqn:E; cbn [negb];
    try (apply py_eq_dict_self;
         [by_decision
         |repeat (constructor; [first [apply py_eq_ids|cbn [snd py_eq];
                                       by apply SFeqb_refl]|]); constructor]).
  rewrite py_eq_dict_unfold. reflexivity.
Qed.

End TwoCalls.

Section TwoCallsOnTheHeap.
Context {rt : PyRuntime}.

(** What a call returns was built by the passes. *)
Lemma call_result_built events h out :
  (call_detect_anomalies events h).1 = Ok out -> Forall finding_shape out.
Proof.
  unfold call_detect_anomalies.
  destruct (bind_cases (list_items events)
    (fun items => match items with
       | [] => mret []
       | _ :: _ =>
         norm ← mapM normalize_at items;
         time_sorted ← lift (time_sorted_of norm);
         mret (dedupe (run_passes norm (ua_counts_of norm) time_sorted))
       end) h) as [(items & h1 & ->)|(e & h1 & ->)]; [|done].
  destruct items as [|l items]; [intros [= <-]; constructor|].
  destruct (bind_cases (mapM normalize_at (l :: items))
    (fun norm =>
       time_sorted ← lift (time_sorted_of norm);
       mret (dedupe (run_passes norm (ua_counts_of norm) time_sorted))) h1)
    as [(norm & h2 & ->)|(e & h2 & ->)]; [|done].
  unfold mbind, St_bind, lift.
  destruct (time_sorted_of norm) as [ts|e]; [|done].
  intros [= <-]. apply Forall_forall. intros f Hf.
  eapply elem_of_sublist in Hf; [|apply dedupe_from_sublist].
  pose proof (run_passes_shape norm (ua_counts_of norm) ts) as H.
  rewrite Forall_forall in H. by apply H.
Qed.

Lemma findings_eqb_self (out : list finding) :
  Forall (fun f => finding_eqb f f = negb (nan_risk f)) out ->
  findings_eqb out out = true <-> Forall (fun f => nan_risk f = false) out.
Proof.
  induction 1 as [|f out Hf _ IH]; cbn [findings_eqb]; [by split|].
  rewrite andb_true_iff, Forall_cons, IH, Hf, negb_true_iff. done.
Qed.

(** C3.  Two calls on the same batch, the second run in the heap that
    the first one left: both raise the same exception, or both return a
    list, and the two lists agree position by position in all but a
    not-a-number risk: the findings are equal ([==]) once the item
    [risk] of the meta is left out, and are equal as they are unless the
    risk is a NaN, which no [==] makes equal to itself.  So the two
    lists are equal exactly when no returned finding holds a NaN risk.
    De-duplicating a returned list again changes nothing. *)
Theorem two_calls_agree_but_for_nan (events : loc) (h : heap) :
  let run1 := call_detect_anomalies events h in
  let run2 := call_detect_anomalies events run1.2 in
  ((exists e, run1.1 = Raise e /\ run2.1 = Raise e)
   \/ exists out1 out2,
        run1.1 = Ok out1 /\ run2.1 = Ok out2
        /\ Forall2 (fun f g =>
                      finding_eqb (without_risk f) (without_risk g) = true
                      /\ nan_risk f = nan_risk g
                      /\ finding_eqb f g = negb (nan_risk f)) out1 out2
        /\ (findings_eqb out1 out2 = true
            <-> Forall (fun f => nan_risk f = false) out1))
  /\ dedupe <$> run1.1 = run1.1.
Proof.
  cbv zeta. rewrite (read_only_call events h).
  split; [|apply call_result_deduped].
  destruct (call_detect_anomalies events h).1 as [out|e] eqn:E;
    [right|left; by exists e].
  pose proof (call_result_built events h out E) as Hb.
  assert (Forall (fun f => finding_eqb f f = negb (nan_risk f)
                           /\ finding_eqb (without_risk f) (without_risk f)
                              = true) out) as Hself.
  { eapply Forall_impl; [exact Hb|]. intros f [p Hp].
    by apply (finding_eqb_self p). }
  exists out, out. split; [done|]. split; [done|]. split.
  - apply Forall2_same_length_lookup. split; [done|].
    intros i f g Hf Hg. rewrite Hf in Hg. injection Hg as <-.
    rewrite Forall_forall in Hself.
    destruct (Hself f) as [H1 H2]; [by eapply list_elem_of_lookup_2|].
    done.
  - apply findings_eqb_self. eapply Forall_impl; [exact Hself|].
    by intros f [? _].
Qed.

End TwoCallsOnTheHeap.

(** C3, counterexample.  A batch of one login whose text gives the risk
    as [nan]: each call returns a high-risk finding with a NaN risk and a
    rare-user-agent finding, and the two lists are not equal. *)
Lemma two_calls_differ_on_nan_risk :
  let run1 := call_detect_anomalies (rt := Sample.runtime) 0%nat
                Batches.nan_risk_heap in
  let run2 := call_detect_anomalies (rt := Sample.runtime) 0%nat run1.2 in
  exists out1 out2,
    run1.1 = Ok out1 /\ run2.1 = Ok out2
    /\ kind <$> out1 = ["auth.high_risk"; "web.rare_ua"]
    /\ nan_risk <$> out1 = [true; false]
    /\ findings_eqb out1 out2 = false.
Proof. vm_compute. by eexists _, _. Qed.

(* ===================================================================== *)
(** * The buckets of the error-rate pass *)
(* ===================================================================== *)

Lemma error_bucket_instant (t : datetime) :
  dt_instant (error_bucket_start t) = slot_start t.
Proof.
  unfold slot_start, dt_instant. rewrite error_bucket_start_floor.
  unfold ERROR_RATE_WINDOW_MIN.
  assert (dt_off (error_bucket_start t) = dt_off t) as -> by done.
  lia.
Qed.

Lemma slot_span (t : datetime) :
  slot_start t <= dt_instant t < slot_start t + 10 * us_per_minute
  /\ (dt_wall t - (dt_instant t - slot_start t)) mod (10 * us_per_minute) = 0.
Proof.
  unfold slot_start.
  assert (0 < 10 * us_per_minute) as HM by (by vm_compute).
  pose proof (Z.mod_pos_bound (dt_wall t) (10 * us_per_minute) HM) as Hb.
  split; [lia|].
  replace (dt_wall t - (dt_instant t
             - (dt_instant t - dt_wall t mod (10 * us_per_minute))))
    with (dt_wall t - dt_wall t mod (10 * us_per_minute)) by lia.
  rewrite Zminus_mod, Z.mod_mod, Z.sub_diag by lia. by rewrite Z.mod_0_l by lia.
Qed.

Lemma in_error_keys knd who b (tev : datetime * norm_event) :
  knd = "user" \/ knd = "host" ->
  bool_decide ((knd, who, b) ∈ error_keys tev)
  = String.eqb (who_of knd tev.2) who && (slot_start tev.1 =? b).
Proof.
  intros Hk. unfold error_keys, who_of. rewrite error_bucket_instant.
  destruct (String.eqb_spec (if String.eqb knd "user"
                             then ev_user tev.2 else ev_host tev.2) who)
    as [Hw|Hw];
    destruct (Z.eqb_spec (slot_start tev.1) b) as [Hb|Hb]; cbn [andb].
  - apply bool_decide_eq_true_2. destruct Hk as [-> | ->]; cbn in Hw;
      subst who b; [left|right; left].
  - apply bool_decide_eq_false_2. rewrite !elem_of_cons, elem_of_nil.
    intros [[= _ _ ?]|[[= _ _ ?]|[]]]; done.
  - apply bool_decide_eq_false_2. rewrite !elem_of_cons, elem_of_nil.
    intros [[= -> ? _]|[[= -> ? _]|[]]]; cbn in Hw; done.
  - apply bool_decide_eq_false_2. rewrite !elem_of_cons, elem_of_nil.
    intros [[= _ _ ?]|[[= _ _ ?]|[]]]; done.
Qed.

(** A bucket holds the events of its user (or host) of its ten-minute
    slot. *)
Lemma bucket_events_slot knd who b ts :
  knd = "user" \/ knd = "host" ->
  bucket_events (knd, who, b) ts = slot_events knd who b ts.
Proof.
  intros Hk. unfold bucket_events, slot_events. f_equal.
  apply List.filter_ext. intros tev. by apply in_error_keys.
Qed.

Lemma bucket_events_kind k ts :
  bucket_events k ts <> [] ->
  exists knd who b, k = (knd, who, b) /\ (knd = "user" \/ knd = "host").
Proof.
  unfold bucket_events. intros Hne.
  destruct (List.filter _ ts) as [|tev l] eqn:E; [done|].
  assert (tev ∈ List.filter (fun tev => bool_decide (k ∈ error_keys tev)) ts)
    as Hin by (rewrite E; left).
  apply elem_of_filter_bool in Hin as [Hk _].
  apply bool_decide_eq_true in Hk. unfold error_keys in Hk.
  rewrite !elem_of_cons, elem_of_nil in Hk.
  destruct Hk as [->|[->|[]]]; eexists _, _, _; (split; [done|]); auto.
Qed.

Lemma by_bucket_nonempty ts k lst :
  (k, lst) ∈ by_bucket_of ts -> lst <> [].
Proof.
  intros Hin. apply od_get_elem in Hin; [|apply by_bucket_NoDup].
  unfold by_bucket_of in Hin. rewrite od_get_by_bucket_from in Hin.
  destruct (bucket_events k ts); [done|]. by injection Hin as <-.
Qed.

Section ErrorRateSlots.
Context {rt : PyRuntime}.

(** C5.  The high-error-rate pass visits each bucket once.  A bucket is
    keyed by a user or a host and by a ten-minute slot of the wall clock
    (the minutes [m0] to [m9] of an hour), and holds exactly the events
    of that user or host stamped within the slot.  When the events of a
    user (or host) within a slot are exactly 20, of which 13 have a
    status in [400, 600), the bucket yields exactly one finding, with
    score 0.75, which is in the output of the pass; when they are at
    most 19 the bucket yields none, whatever their statuses; a finding
    has score 0.82 only if the error ratio of its bucket is at least
    0.8. *)
Theorem high_error_rate_threshold (ts : list (datetime * norm_event)) :
  _high_error_rate ts = concat (error_bucket_findings <$> by_bucket_of ts)
  /\ NoDup ((by_bucket_of ts).*1)
  /\ (forall tev, tev ∈ ts ->
        slot_start tev.1 <= dt_instant tev.1
                         < slot_start tev.1 + 10 * us_per_minute
        /\ (dt_wall tev.1 - (dt_instant tev.1 - slot_start tev.1))
             mod (10 * us_per_minute) = 0)
  /\ (forall (k : error_key) (lst : list norm_event),
        (k, lst) ∈ by_bucket_of ts ->
        exists knd who b,
          k = (knd, who, b) /\ (knd = "user" \/ knd = "host")
          /\ lst = slot_events knd who b ts /\ lst <> [])
  /\ (forall knd who b,
        knd = "user" \/ knd = "host" ->
        let k : error_key := (knd, who, b) in
        let lst := slot_events knd who b ts in
        (lst <> [] -> (k, lst) ∈ by_bucket_of ts)
        /\ (length lst = 20%nat -> bucket_errors lst = 13%nat ->
            error_bucket_findings (k, lst) = [error_finding k lst]
            /\ score (error_finding k lst) = f_0_75
            /\ error_finding k lst ∈ _high_error_rate ts)
        /\ ((length lst <= 19)%nat -> error_bucket_findings (k, lst) = [])
        /\ (forall f, f ∈ error_bucket_findings (k, lst) ->
              score f = f_0_82 ->
              SFleb f_0_8 (bucket_ratio lst) = true)).
Proof.
  destruct (error_bucket_thresholds ts) as (H1 & H2 & H3 & H4).
  split; [done|]. split; [done|]. split; [intros tev _; apply slot_span|].
  split.
  - intros k lst Hin. pose proof (by_bucket_nonempty ts k lst Hin) as Hne.
    destruct (H3 k lst Hin) as (Hl & _).
    destruct (bucket_events_kind k ts) as (knd & who & b & -> & Hk);
      [by rewrite <- Hl|].
    exists knd, who, b. split; [done|]. split; [done|]. split; [|done].
    by rewrite <- bucket_events_slot.
  - intros knd who b Hk k lst. subst k lst.
    rewrite <- (bucket_events_slot knd who b ts Hk).
    assert (forall lst' (k : error_key),
              (length lst' <= 19)%nat -> error_bucket_findings (k, lst') = [])
      as H19.
    { intros lst' k Hlen. unfold error_bucket_findings.
      by rewrite (proj2 (Nat.ltb_lt _ _))
        by (unfold ERROR_RATE_MIN_EVENTS; lia). }
    split; [apply bucket_events_in_by_bucket|]. split; [|split].
    + intros H20 H13.
      assert (((knd, who, b), bucket_events (knd, who, b) ts)
                ∈ by_bucket_of ts) as Hin.
      { apply bucket_events_in_by_bucket. intros E. by rewrite E in H20. }
      destruct (H3 _ _ Hin) as (_ & Hfire & _).
      destruct (Hfire H20 H13) as [Hf Hs].
      split; [done|]. split; [done|]. by apply H4.
    + apply H19.
    + intros f Hf Hs.
      destruct (decide (bucket_events (knd, who, b) ts = [])) as [E|E].
      * rewrite E in Hf. rewrite (H19 [] _) in Hf by (cbn; lia).
        by apply elem_of_nil in Hf.
      * pose proof (bucket_events_in_by_bucket ts _ E) as Hin.
        destruct (H3 _ _ Hin) as (_ & _ & _ & H82). exact (H82 f Hf Hs).
Qed.

End ErrorRateSlots.

(** C5, an instance: twenty requests of bob spread over nine minutes of
    one slot, thirteen of them errors, and one request in the next slot.
    The bucket of the first slot holds the twenty and yields one finding,
    with score 0.75. *)
Lemma high_error_rate_threshold_witness :
  let ts := Batches.spread_requests ++ [Batches.next_slot_request] in
  let k : error_key := ("user", "bob", Examples.t_2024) in
  let lst := slot_events "user" "bob" Examples.t_2024 ts in
  (length ts = 21%nat /\ length lst = 20%nat /\ bucket_errors lst = 13%nat)
  /\ error_bucket_findings (rt := Sample.runtime) (k, lst)
     = [error_finding (rt := Sample.runtime) k lst]
  /\ score (error_finding (rt := Sample.runtime) k lst) = f_0_75
  /\ error_finding (rt := Sample.runtime) k lst
       ∈ _high_error_rate (rt := Sample.runtime) ts.
Proof.
  intros ts k lst. split; [by vm_compute|].
  destruct (high_error_rate_threshold (rt := Sample.runtime) ts)
    as (_ & _ & _ & _ & H).
  destruct (H "user" "bob" Examples.t_2024 (or_introl eq_refl))
    as (_ & H20 & _).
  apply H20; reflexivity.
Defined.

(* ===================================================================== *)
(** * Rare user agents of a batch *)
(* ===================================================================== *)

Section RareAgents.
Context {rt : PyRuntime}.

Lemma ua_occurrences_normalize (events : list raw_event) (ua : string) :
  ua_occurrences (normalize <$> events) ua = agent_occurrences events ua.
Proof.
  unfold ua_occurrences, agent_occurrences.
  induction events as [|e events IH]; [done|].
  cbn [fmap list_fmap List.filter].
  change (ev_user_agent (normalize e)) with (agent_of e).
  destruct (String.eqb (agent_of e) ua); cbn [length]; by rewrite IH.
Qed.

Lemma rare_ua_none_about_blank (norm : list norm_event) :
  List.filter (fun f => String.eqb (reason f) (rare_ua_reason ""))
              (_rare_ua norm (ua_counts_of norm)) = [].
Proof.
  rewrite rare_ua_closed_form, filter_fmap.
  erewrite (List.filter_ext _ (fun x => String.eqb x "")); last first.
  { intros x. apply rare_ua_reason_eqb. }
  by rewrite filter_single_ua.
Qed.

(** C6.  The rare-user-agent pass counts the user agents of the batch
    after stripping them.  For a non-empty [ua]: when exactly one event
    of the batch has the user agent [ua] once stripped, the pass emits
    exactly one finding about [ua], of kind [web.rare_ua] and score 0.62;
    when two events or more have it, or none, the pass emits no finding
    about it; hence at most one in every case.  No finding is about the
    empty user agent, which is what an absent or a blank one is read
    as. *)
Theorem rare_ua_once_after_strip (events : list raw_event) (ua : string) :
  ua <> "" ->
  let norm := normalize <$> events in
  let about (ua : string) :=
    List.filter (fun f => String.eqb (reason f) (rare_ua_reason ua))
                (_rare_ua norm (ua_counts_of norm)) in
  about ua
  = (if (agent_occurrences events ua =? 1)%nat
     then [rare_ua_finding norm (ua_counts_of norm) ua] else [])
  /\ ((agent_occurrences events ua = 1)%nat ->
      score (rare_ua_finding norm (ua_counts_of norm) ua) = f_0_62
      /\ kind (rare_ua_finding norm (ua_counts_of norm) ua) = "web.rare_ua")
  /\ ((2 <= agent_occurrences events ua)%nat -> about ua = [])
  /\ (length (about ua) <= 1)%nat
  /\ about "" = [].
Proof.
  intros Hne norm about. subst about. cbv beta.
  rewrite <- (ua_occurrences_normalize events ua). fold norm.
  destruct (rare_ua_findings_about norm ua Hne) as (H1 & H2 & H3 & H4).
  split; [done|]. split; [done|]. split; [done|]. split; [done|].
  apply rare_ua_none_about_blank.
Qed.

End RareAgents.

(** C6, an instance: of the sample batch, two events have the user agent
    [curl/8.4] once stripped and one has [sqlmap/1.7]. *)
Lemma rare_ua_once_after_strip_witness :
  let norm := normalize (rt := Sample.runtime) <$> Examples.ua_batch in
  let about (ua : string) :=
    List.filter (fun f => String.eqb (reason f) (rare_ua_reason ua))
                (_rare_ua norm (ua_counts_of norm)) in
  (agent_occurrences (rt := Sample.runtime) Examples.ua_batch "sqlmap/1.7"
   = 1%nat
   /\ agent_occurrences (rt := Sample.runtime) Examples.ua_batch "curl/8.4"
      = 2%nat)
  /\ about "sqlmap/1.7"
     = [rare_ua_finding norm (ua_counts_of norm) "sqlmap/1.7"]
  /\ about "curl/8.4" = [].
Proof.
  intros norm about. split; [by vm_compute|]. split.
  - apply (rare_ua_once_after_strip (rt := Sample.runtime)
             Examples.ua_batch "sqlmap/1.7").
    discriminate.
  - apply (rare_ua_once_after_strip (rt := Sample.runtime)
             Examples.ua_batch "curl/8.4").
    discriminate.
Defined.

(** C6, counterexample.  The strings ["curl/8.4"] and [" curl/8.4 "]
    occur exactly once each in the sample batch and are not empty, yet
    the pass emits no finding about either: the only finding of the call
    is the one about [sqlmap/1.7]. *)
Lemma rare_ua_misses_single_string :
  let norm := normalize (rt := Sample.runtime) <$> Examples.ua_batch in
  string_occurrences Examples.ua_batch "curl/8.4" = 1%nat
  /\ string_occurrences Examples.ua_batch " curl/8.4 " = 1%nat
  /\ _rare_ua norm (ua_counts_of norm)
     = [rare_ua_finding norm (ua_counts_of norm) "sqlmap/1.7"]
  /\ detect_anomalies (rt := Sample.runtime) Examples.ua_batch
     = Ok [rare_ua_finding norm (ua_counts_of norm) "sqlmap/1.7"].
Proof. vm_compute. done. Qed.

(* ===================================================================== *)
(** * The engine on the rows of an upload *)
(* ===================================================================== *)

Section UploadDetection.
Context {rt : PyRuntime}.

Lemma as_dt_ev_dict (r : log_event) : _as_dt (e_ts (ev_dict r)) = le_ts r.
Proof. unfold ev_dict. cbn [e_ts]. by destruct (le_ts r). Qed.

Lemma one_awareness_rows w (rows : list log_event) :
  one_awareness w (ev_dict <$> rows) <-> rows_one_awareness w rows.
Proof.
  unfold one_awareness, rows_one_awareness. rewrite Forall_fmap.
  apply Forall_proper; [|done]. intros r. cbn [compose].
  by rewrite as_dt_ev_dict.
Qed.

Lemma mixed_awareness_rows (rows : list log_event) :
  mixed_awareness (ev_dict <$> rows) <-> rows_mixed_awareness rows.
Proof.
  unfold mixed_awareness, rows_mixed_awareness. split.
  - intros (e1 & e2 & t1 & t2 & H1 & H2 & Ht1 & Ht2 & Hne).
    apply list_elem_of_fmap in H1 as (r1 & -> & H1).
    apply list_elem_of_fmap in H2 as (r2 & -> & H2).
    rewrite as_dt_ev_dict in Ht1, Ht2. by exists r1, r2, t1, t2.
  - intros (r1 & r2 & t1 & t2 & H1 & H2 & Ht1 & Ht2 & Hne).
    exists (ev_dict r1), (ev_dict r2), t1, t2.
    rewrite !as_dt_ev_dict.
    split; [apply list_elem_of_fmap; by exists r1|].
    split; [apply list_elem_of_fmap; by exists r2|]. done.
Qed.

(** X1.  The one way in which [detect_anomalies] fails on the rows of an
    upload, passed as [app.py] passes them (a row has a datetime or no
    timestamp, and text columns that are strings or absent): the call
    returns a list exactly when the timestamps of the rows are all aware
    or all naive, and raises [TypeError] (from [sorted], which compares
    the timestamps) exactly when the rows hold a naive and an aware one;
    on such rows it raises nothing else. *)
Theorem upload_detection_raises_iff_mixed (rows : list log_event) :
  ((exists out, detect_anomalies (ev_dict <$> rows) = Ok out)
   <-> exists w, rows_one_awareness w rows)
  /\ (detect_anomalies (ev_dict <$> rows) = Raise TypeError
      <-> rows_mixed_awareness rows)
  /\ (forall e, detect_anomalies (ev_dict <$> rows) = Raise e ->
                e = TypeError).
Proof.
  destruct (detect_anomalies_outcome (ev_dict <$> rows)) as (H1 & H2 & H3).
  split; [|split; [|done]].
  - rewrite H1. split; intros [w Hw]; exists w; by apply one_awareness_rows.
  - by rewrite H2, mixed_awareness_rows.
Qed.

(** X12.  Rows without timestamp reach only the passes that read
    [norm]: for the rows of an upload none of which has a timestamp,
    passed as [app.py] passes them, the call does not raise and returns
    the de-duplicated findings of the activity pass, the blocked-login
    pass, the high-risk pass and the rare-user-agent pass, and no
    brute-force, error-rate, off-hours or token finding. *)
Theorem untimed_rows_skip_time_passes (rows : list log_event) :
  Forall (fun r => le_ts r = None) rows ->
  let norm := normalize <$> (ev_dict <$> rows) in
  exists out,
    detect_anomalies (ev_dict <$> rows) = Ok out
    /\ out = dedupe (_pwd_mfa_activity norm ++ _blocked_protection norm
                     ++ _high_risk_source norm
                     ++ _rare_ua norm (ua_counts_of norm))
    /\ Forall (fun f => pass_of_kind (kind f)
                        ∈ [Some P_activity; Some P_blocked;
                           Some P_high_risk; Some P_rare_ua]) out.
Proof.
  intros H. apply untimed_batch_passes. rewrite Forall_fmap.
  eapply Forall_impl; [exact H|]. intros r Hr. cbn [compose].
  by rewrite as_dt_ev_dict.
Qed.

End UploadDetection.

Section UploadDetectionInstances.
#[local] Existing Instance Sample.runtime.

(** X12, an instance: the rows of the sample upload without their
    timestamps. *)
Lemma untimed_rows_skip_time_passes_witness :
  let norm := normalize (rt := Sample.runtime)
                <$> (ev_dict <$> Uploads.untimed_rows) in
  exists out,
    detect_anomalies (rt := Sample.runtime) (ev_dict <$> Uploads.untimed_rows)
    = Ok out
    /\ out = dedupe (_pwd_mfa_activity norm ++ _blocked_protection norm
                     ++ _high_risk_source norm
                     ++ _rare_ua norm (ua_counts_of norm))
    /\ Forall (fun f => pass_of_kind (kind f)
                        ∈ [Some P_activity; Some P_blocked;
                           Some P_high_risk; Some P_rare_ua]) out.
Proof.
  apply (untimed_rows_skip_time_passes (rt := Sample.runtime)
           Uploads.untimed_rows).
  by_decision.
Defined.

End UploadDetectionInstances.
